(* ===== verification/_CoqProject ===== *)
-Q . S2P
Prelude.v
Rstr.v
Errors.v
Effects.v
Sys.v
Common.v
Locks.v
Zone.v
Provider.v
Txt.v
Polling.v
Jobs.v
Gandi.v
Desec.v
Scaleway.v
PowerDns.v
Records.v
DigitalOcean.v
Cloudflare.v
Bunny.v
Infomaniak.v
Porkbun.v
Ovh.v
Hetzner.v
GoogleCloudDns.v
Route53.v
Waits.v
Rfc2136.v
Testing.v
Propagation.v
Cleanup.v
Solver.v
Acme.v
Driver.v
Issue.v
Reach.v
Configs.v
Renewal.v
AccountStore.v
TlsAlpn.v
