(* ===== verification/Prelude.v ===== *)
(** * Cheti: ACME DNS-01 and TLS-ALPN-01 certificate issuance

    Cheti drives an ACME order to a certificate.  For DNS-01, a solver takes
    the pending challenges of the order, has a DNS provider publish a TXT
    record for each, waits until the records are visible, tells the ACME
    server to validate, finalizes the order, and removes the records on every
    path; for TLS-ALPN-01 it has a responder serve certificates instead.
    Around that stand the store of the ACME account and the decision when to
    renew.

    ** How the program is modelled

    The crate is asynchronous and effectful.  A function that talks to the
    outside is a program over a family of events ([Effects]): every [.await]
    on the outside world, and every call of a library that is not pure, is
    one event, answered by an environment (a [handler] with a state of its
    own).  Theorems quantify over the environment: over every answer, or over
    the answers that a named record of laws allows (the documented behaviour
    of an API, of a file system, of a clock).  Running a program for a number
    of events is what is left of a future dropped there, so that cancellation
    is part of the model.  Pure functions are plain functions; errors are the
    constructors of [DnsError], and a panic, where an answer can cause one, is an
    outcome of its own ([Polling.stop]); integers are [Z] with the widths and the
    wrap-around written out where they matter; texts are byte strings.

    Libraries the crate calls are parameters: [Common.Ext] and its laws
    [ExtSpec] (URL parsing, percent encoding, HTTP status texts, cloning of
    requests), [Ovh.OvhExt], [GoogleCloudDns.GcExt], [Route53.R53Ext],
    [Rfc2136.DnsExt], [Renewal.X509], [TlsAlpn.Rcgen], [AccountStore.Credentials],
    and the answers of [instant_acme] in [Acme].  Each law has a reference
    instance, used by the witnesses.  The laws of an API speak of the URLs, the
    bodies and the fields of the answers, and not of how the provider selects
    or interprets them: a listing may hold record sets of other names and types,
    and an answer that succeeds with an error in it is one.

    ** The files

    - [Prelude], [Rstr], [Effects]: results, tactics and hint databases,
      machine integers; the string functions of the standard library the
      crate uses; programs, their runs and traces, weakest preconditions,
      recorded runs, protocols, fuel.
    - [Errors] (src/error.rs), [Provider] (src/provider.rs: the trait as a
      record of operations, the class [ProviderLaws] of what it promises),
      [Testing] (src/testing.rs, an instance of these laws).
    - [Sys]: JSON with serde's derived decoders, HTTP requests and responses,
      the events of a provider.  [Common] (src/providers/common.rs):
      validation, relative names, path encoding, retries, error bodies.
      [Locks] (same file): the keyed mutex as a step relation.
    - [Zone], [Propagation] (src/dns/): zone discovery and the propagation
      wait.
    - [Cleanup] (src/cleanup.rs): the guard.  [Solver] (src/solver.rs,
      [Dns01Solver]) against any driver.  [Acme], [Driver]
      (src/solver.rs, [InstantAcmeDriver]): the driver over an order, and the
      solver run with it.  [Issue]: the solver with its driver, any provider
      that keeps its contract, and the propagation wait.  [TlsAlpn]
      (src/tls_alpn.rs).
    - [Txt], [Records], [Polling], [Jobs]: what the providers have in common: the views of TXT
      values, what a call may change ([touches], [concerns]), providers that
      rewrite a record set and providers that create and delete records; the
      loop that waits for an asynchronous change; a server that carries out
      changes later.
    - [Gandi], [Desec], [PowerDns], [DigitalOcean], [Cloudflare], [Bunny],
      [Scaleway], [Infomaniak], [Porkbun], [Ovh], [Hetzner],
      [GoogleCloudDns], [Route53], [Rfc2136] (src/providers/): one file each, with the configuration, the bodies
      and requests, [present] and [cleanup], a record [.._api] of what the
      API documents, and a reference server that satisfies it.  [Waits]: the
      calls that poll end.  [Reach]: where the requests go.  [Configs]: what the
      constructors and [with_..] methods make.
    - [AccountStore] (src/account_store.rs), [Renewal] (src/renewal.rs).

    ** What the theorems show

    - The solvers ([Solver], [Driver], [TlsAlpn], [Cleanup]): the order of
      the steps as a protocol respected in every environment and at every
      point of interruption; every record or certificate put in place is
      taken down, on return and on cancellation; the outcome is the order's
      or the first error's; the tokens of the driver.  With a provider that
      keeps its contract ([Issue]): a solve ends, the record of every challenge
      the driver has yielded is served when they are set ready, and nothing of
      it is served afterwards.
    - The providers: whatever requests fail, are retried or take effect
      without an answer, [present] and [cleanup] change no TXT value but
      the one given, of the name given and in its zone, and return [Ok] only
      when it is there, or gone; for
      providers that know the zone this is the contract [ProviderLaws],
      against which [Issue] is proved.  What is signed
      or written in another format reads back: the canonical query and the XML
      batch of Route 53; RFC 2136 believes no answer but a signed one.
      The changes sent to Google Cloud DNS are those of a set that was read
      before.  The requests handed to the HTTP client are for URLs under the
      API base, which the configuration has checked.
    - The shared parts: retries are bounded and never replay a [POST] after
      a 503; the lock table refines a lock with one owner per key and does
      not leak; validation, relative names and path segments are exact;
      zone discovery finds the closest zone; the propagation wait confirms
      every target, ends, and succeeds when the targets confirm in time.
    - The account file is replaced atomically under crashes, failures and
      concurrent saves, and read back; the renewal rules are their
      documented arithmetic.

    ** Fuel

    Loops without a bound in the source take fuel and answer [None] when it
    is used up.  [Solver] and [Driver]: one turn per challenge, or per
    authorization, and one; [Issue.issuance] shows that this is
    enough and that more changes nothing.  [Propagation]: one turn per
    interval of the timeout, and two ([poll_fuel]).  [Zone.find_zone_loop]
    takes the length of the name, one turn per label.  [Polling.wait_until]
    takes one turn per interval of its deadline, and one ([turns]), and answers
    [Err Exhausted] when they are used up, which
    [Waits.polling_terminates] excludes; it also says when the code of Google
    Cloud DNS panics.  Listings take
    the page bound of the source.

    ** Not modelled

    - [HttpSend] is one [send] of the HTTP client: the redirects a client
      follows, and the hosts it then reaches, are its own.  Adding a constant to
      the clock is taken not to overflow; adding the lifetime of a token, which
      the server chooses, may ([Sys.instant_add], with the bound of Unix).
    - HTTP clients, TLS, the tokio runtime and its scheduling are the
      environment's; timeouts of a request are answers of it.  The state of
      a lock is in [Locks]; in the providers, [with_lock] marks the critical
      section, and no one else writes to the TXT values of a zone while a
      call runs ([background]); the Hetzner server carries out the changes
      it was asked for at any time, as does the server of RFC 2136.
    - Secrets are plain strings; formatting with [Debug] is text given by the
      environment. *)

From stdpp Require Export base list strings gmap pretty.
From Stdlib Require Export ZArith Lia Ascii.

#[global] Open Scope Z_scope.

(** ** Results

    Rust's [Result<A, E>].  The error type comes second, as in the source. *)

Inductive result (A E : Type) : Type :=
| Ok (a : A)
| Err (e : E).
Arguments Ok {A E} a.
Arguments Err {A E} e.

#[global] Instance Ok_inj {A E} : Inj (=) (=) (@Ok A E).
Proof. by intros x y [= ->]. Qed.

Definition is_ok {A E} (r : result A E) : bool :=
  match r with Ok _ => true | Err _ => false end.

(** [r?] followed by the rest of the function. *)
Definition rbind {A B E} (r : result A E) (k : A -> result B E) : result B E :=
  match r with Ok a => k a | Err e => Err e end.

(** [Result::map_err] and [Option::ok_or_else]. *)
Definition map_err {A E F} (f : E -> F) (r : result A E) : result A F :=
  match r with Ok a => Ok a | Err e => Err (f e) end.

Definition ok_or {A E} (o : option A) (e : E) : result A E :=
  match o with Some a => Ok a | None => Err e end.

(** [Result::unwrap_or]. *)
Definition unwrap_or {A E} (r : result A E) (d : A) : A :=
  match r with Ok a => a | Err _ => d end.

Declare Scope cheti_scope.
Delimit Scope cheti_scope with cheti.

Notation "'let!' x ':=' r 'in' k" := (rbind r (fun x => k))
  (at level 10, x pattern, r at level 200, k at level 200,
   format "'[v' 'let!'  x  ':='  r  'in' '/' k ']'") : cheti_scope.

#[global] Open Scope cheti_scope.

#[global] Instance result_eq_dec {A E} `{EqDecision A, EqDecision E} :
  EqDecision (result A E).
Proof. solve_decision. Defined.

(** ** Tactics *)

(** Splits every conjunction and existential of the context. *)
Ltac crush_hyps :=
  repeat match goal with
  | H : _ /\ _ |- _ => destruct H
  | H : exists _, _ |- _ => destruct H
  | H : Ok _ = Ok _ |- _ => injection H as H
  | H : Err _ = Err _ |- _ => injection H as H
  | H : Some _ = Some _ |- _ => injection H as H
  | H : Ok _ = Err _ |- _ => discriminate H
  | H : Err _ = Ok _ |- _ => discriminate H
  | H : (_, _) = (_, _) |- _ => injection H as H
  end; subst.

(** Case analysis on the outermost [match] or [if] of a hypothesis. *)
Ltac break_hyp H :=
  match type of H with
  | context [match ?x with _ => _ end] =>
      lazymatch x with
      | context [match _ with _ => _ end] => fail
      | _ => let E := fresh "E" in destruct x eqn:E
      end
  end.

Ltac break_goal :=
  match goal with
  | |- context [match ?x with _ => _ end] =>
      lazymatch x with
      | context [match _ with _ => _ end] => fail
      | _ => let E := fresh "E" in destruct x eqn:E
      end
  end.

(** Turns the boolean tests of the code into propositions. *)
Ltac reflect_bools :=
  repeat match goal with
  | H : (_ && _) = true |- _ => apply andb_true_iff in H as [? ?]
  | H : (_ || _) = false |- _ => apply orb_false_iff in H as [? ?]
  | H : negb _ = true |- _ => apply negb_true_iff in H
  | H : negb _ = false |- _ => apply negb_false_iff in H
  | H : (_ =? _)%string = true |- _ => apply String.eqb_eq in H
  | H : (_ =? _)%string = false |- _ => apply String.eqb_neq in H
  | H : (_ =? _)%Z = true |- _ => apply Z.eqb_eq in H
  | H : (_ =? _)%Z = false |- _ => apply Z.eqb_neq in H
  | H : (_ <=? _)%Z = true |- _ => apply Z.leb_le in H
  | H : (_ <=? _)%Z = false |- _ => apply Z.leb_gt in H
  | H : (_ <? _)%Z = true |- _ => apply Z.ltb_lt in H
  | H : (_ <? _)%Z = false |- _ => apply Z.ltb_ge in H
  | H : bool_decide _ = true |- _ => apply bool_decide_eq_true in H
  | H : bool_decide _ = false |- _ => apply bool_decide_eq_false in H
  end.

(** ** Hints *)

Create HintDb cheti.
Create HintDb rstr.

Lemma rbind_ok_inv {A B E} (r : result A E) (k : A -> result B E) b :
  rbind r k = Ok b -> exists a, r = Ok a /\ k a = Ok b.
Proof. destruct r; simpl; [eauto | discriminate]. Qed.

Lemma map_err_ok {A E F} (f : E -> F) (r : result A E) a :
  map_err f r = Ok a <-> r = Ok a.
Proof. destruct r; simpl; split; congruence. Qed.

Lemma ok_or_ok {A E} (o : option A) (e : E) a :
  ok_or o e = Ok a <-> o = Some a.
Proof. destruct o; simpl; split; congruence. Qed.

Create Rewrite HintDb cheti_rw.
#[export] Hint Rewrite @map_err_ok @ok_or_ok : cheti_rw.

(** ** Machine integers

    The unsigned and signed widths the source uses, with wrap-around. *)

Definition wrap_u (w x : Z) : Z := x mod 2 ^ w.
Definition wrap_i (w x : Z) : Z := (x + 2 ^ (w - 1)) mod 2 ^ w - 2 ^ (w - 1).

Definition in_u32 (x : Z) : Prop := 0 <= x < 2 ^ 32.
Definition in_u64 (x : Z) : Prop := 0 <= x < 2 ^ 64.
Definition in_i64 (x : Z) : Prop := - 2 ^ 63 <= x < 2 ^ 63.

Lemma wrap_u_small w x : 0 <= x < 2 ^ w -> wrap_u w x = x.
Proof. intros. unfold wrap_u. apply Z.mod_small. lia. Qed.

Lemma wrap_i_small w x : 0 < w -> - 2 ^ (w - 1) <= x < 2 ^ (w - 1) -> wrap_i w x = x.
Proof.
  intros Hw Hx. unfold wrap_i. rewrite Z.mod_small; [lia|].
  replace (2 ^ w) with (2 * 2 ^ (w - 1)); [lia|].
  rewrite <- Z.pow_succ_r by lia. f_equal. lia.
Qed.

Lemma wrap_i64_small x : in_i64 x -> wrap_i 64 x = x.
Proof. intros H. apply wrap_i_small; [lia | exact H]. Qed.

(** ** Lists *)

Lemma existsb_elem {A} (f : A -> bool) l :
  existsb f l = true <-> exists x, x ∈ l /\ f x = true.
Proof.
  rewrite existsb_exists. split; intros (x & Hx & Hf); exists x.
  - by rewrite list_elem_of_In.
  - by rewrite <- list_elem_of_In.
Qed.

Lemma existsb_none {A} (f : A -> bool) l :
  existsb f l = false <-> forall x, x ∈ l -> f x = false.
Proof.
  rewrite <- not_true_iff_false, existsb_elem. split.
  - intros H x Hx. destruct (f x) eqn:E; [|done]. destruct H; eauto.
  - intros H (x & Hx & Hf). rewrite (H x Hx) in Hf. discriminate.
Qed.

Lemma filter_all_length {A} (f : A -> bool) (l : list A) :
  length (List.filter f l) = length l -> List.filter f l = l.
Proof.
  induction l as [|x l IH]; simpl; [done|].
  destruct (f x) eqn:E; simpl; intros H.
  - f_equal. apply IH. lia.
  - exfalso. pose proof (List.filter_length_le f l). lia.
Qed.

Lemma filter_elem {A} (f : A -> bool) (l : list A) x :
  x ∈ List.filter f l <-> x ∈ l /\ f x = true.
Proof. by rewrite !list_elem_of_In, filter_In. Qed.

Lemma size_list_to_set_le `{Countable A} (l : list A) :
  (size (list_to_set l : gset A) <= length l)%nat.
Proof.
  induction l as [|x l IH]; cbn; [by rewrite size_empty|].
  rewrite size_union_alt, size_singleton.
  assert (size (list_to_set l ∖ {[x]} : gset A) <= size (list_to_set l : gset A))%nat; [|lia].
  apply subseteq_size. set_solver.
Qed.
