(* ===== verification/Rstr.v ===== *)
(** * Rust strings

    A Rust [&str] is a sequence of bytes holding valid UTF-8; it is modelled
    by its bytes, a [string] of [ascii] octets, so that [str::len] is
    [String.length].  This file holds the [str] operations of the Rust
    standard library that the crate calls, and their theory: what each one
    keeps and what it removes. *)

From S2P Require Import Prelude.

#[global] Arguments String.append : simpl nomatch.

(** ** Bytes *)

Definition byte_of (c : ascii) : Z := Z.of_N (N_of_ascii c).

Definition in_range (lo hi : Z) (c : ascii) : bool :=
  (lo <=? byte_of c) && (byte_of c <=? hi).

(** [u8::is_ascii_alphanumeric]: 0-9, A-Z, a-z. *)
Definition is_ascii_alphanumeric (c : ascii) : bool :=
  in_range 48 57 c || in_range 65 90 c || in_range 97 122 c.

(** [u8::to_ascii_lowercase]: sets bit 5 of an upper-case letter. *)
Definition to_lower (c : ascii) : ascii :=
  if in_range 65 90 c then ascii_of_N (Z.to_N (byte_of c + 32)) else c.

(** ** [str] operations *)

Definition len (s : string) : Z := Z.of_nat (String.length s).

Definition is_empty (s : string) : bool :=
  match s with EmptyString => true | String _ _ => false end.

Fixpoint all_bytes (p : ascii -> bool) (s : string) : bool :=
  match s with
  | EmptyString => true
  | String c s' => p c && all_bytes p s'
  end.

(** [str::contains(char)]. *)
Fixpoint contains_char (c : ascii) (s : string) : bool :=
  match s with
  | EmptyString => false
  | String a s' => Ascii.eqb a c || contains_char c s'
  end.

(** [str::trim_end_matches(char)]. *)
Fixpoint trim_end_matches (c : ascii) (s : string) : string :=
  match s with
  | EmptyString => EmptyString
  | String a s' =>
      let t := trim_end_matches c s' in
      if is_empty t && Ascii.eqb a c then EmptyString else String a t
  end.

(** [str::trim_start_matches(char)]. *)
Fixpoint trim_start_matches (c : ascii) (s : string) : string :=
  match s with
  | EmptyString => EmptyString
  | String a s' => if Ascii.eqb a c then trim_start_matches c s' else s
  end.

(** [str::trim_matches(char)]. *)
Definition trim_matches (c : ascii) (s : string) : string :=
  trim_end_matches c (trim_start_matches c s).

(** [str::split(char)]: never empty; the separators are dropped. *)
Fixpoint split (c : ascii) (s : string) : list string :=
  match s with
  | EmptyString => [EmptyString]
  | String a s' =>
      if Ascii.eqb a c then EmptyString :: split c s'
      else match split c s' with
           | [] => [String a EmptyString]
           | h :: t => String a h :: t
           end
  end.

(** [str::split_once(char)]. *)
Fixpoint split_once (c : ascii) (s : string) : option (string * string) :=
  match s with
  | EmptyString => None
  | String a s' =>
      if Ascii.eqb a c then Some (EmptyString, s')
      else match split_once c s' with
           | Some (h, t) => Some (String a h, t)
           | None => None
           end
  end.

(** [str::rsplit_once]. *)
Fixpoint rsplit_once (c : ascii) (s : string) : option (string * string) :=
  match s with
  | EmptyString => None
  | String a s' =>
      match rsplit_once c s' with
      | Some (h, t) => Some (String a h, t)
      | None => if Ascii.eqb a c then Some (EmptyString, s') else None
      end
  end.

(** [<[&str]>::join]. *)
Fixpoint join (sep : string) (l : list string) : string :=
  match l with
  | [] => EmptyString
  | [x] => x
  | x :: l' => x +:+ sep +:+ join sep l'
  end.

(** [str::strip_prefix(&str)] and [str::strip_suffix(&str)]. *)
Fixpoint strip_prefix (pre s : string) : option string :=
  match pre, s with
  | EmptyString, _ => Some s
  | String a pre', String b s' => if Ascii.eqb a b then strip_prefix pre' s' else None
  | String _ _, EmptyString => None
  end.

Fixpoint strip_suffix (suf s : string) : option string :=
  if (s =? suf)%string then Some EmptyString
  else match s with
       | EmptyString => None
       | String a s' => option_map (String a) (strip_suffix suf s')
       end.

Definition starts_with (pre s : string) : bool :=
  match strip_prefix pre s with Some _ => true | None => false end.

(** [str::contains(&str)]. *)
Fixpoint contains (pat s : string) : bool :=
  starts_with pat s ||
  match s with EmptyString => false | String _ s' => contains pat s' end.

(** [str::to_ascii_lowercase] and [str::eq_ignore_ascii_case]. *)
Fixpoint to_ascii_lowercase (s : string) : string :=
  match s with
  | EmptyString => EmptyString
  | String a s' => String (to_lower a) (to_ascii_lowercase s')
  end.

Definition eq_ignore_ascii_case (s t : string) : bool :=
  (to_ascii_lowercase s =? to_ascii_lowercase t)%string.

(** [str::trim]: the characters with Unicode's [White_Space] property, by
    their UTF-8 encodings. *)
Definition byte (n : Z) : ascii := ascii_of_N (Z.to_N n).

Definition bytes (l : list Z) : string :=
  fold_right (fun b s => String (byte b) s) EmptyString l.

Definition white_space : list string :=
  map bytes
    ([[9]; [10]; [11]; [12]; [13]; [32]; [194; 133]; [194; 160]; [225; 154; 128];
      [226; 128; 168]; [226; 128; 169]; [226; 128; 175]; [226; 129; 159]; [227; 128; 128]]
     ++ map (fun k => [226; 128; 128 + k]) [0; 1; 2; 3; 4; 5; 6; 7; 8; 9; 10]).

(** One leading (trailing) white-space character removed, if there is one. *)
Definition strip_ws_start (s : string) : option string :=
  head (omap (fun w => strip_prefix w s) white_space).

Definition strip_ws_end (s : string) : option string :=
  head (omap (fun w => strip_suffix w s) white_space).

Fixpoint iter_strip (f : string -> option string) (fuel : nat) (s : string) : string :=
  match fuel with
  | O => s
  | S n => match f s with Some t => iter_strip f n t | None => s end
  end.

(** Every step removes at least one byte, so [length s] steps are enough. *)
Definition trim (s : string) : string :=
  let t := iter_strip strip_ws_start (String.length s) s in
  iter_strip strip_ws_end (String.length t) t.

(** [str::parse::<u64>]: an optional [+], then at least one digit, without
    overflow. *)
Definition digit (c : ascii) : option Z :=
  if in_range 48 57 c then Some (byte_of c - 48) else None.

Fixpoint parse_digits (acc : Z) (s : string) : option Z :=
  match s with
  | EmptyString => Some acc
  | String c s' =>
      match digit c with
      | None => None
      | Some d =>
          let acc' := acc * 10 + d in
          if acc' <? 2 ^ 64 then parse_digits acc' s' else None
      end
  end.

Definition parse_u64 (s : string) : option Z :=
  match s with
  | EmptyString => None
  | String c s' =>
      let digits := if Ascii.eqb c "+"%char then s' else s in
      if is_empty digits then None else parse_digits 0 digits
  end.

(** [str::is_char_boundary]: the start, the end, or a byte that does not
    continue a UTF-8 sequence. *)
Definition is_continuation (c : ascii) : bool := in_range 128 191 c.

Definition is_char_boundary (s : string) (i : nat) : bool :=
  if Nat.eqb i 0 then true
  else match String.get i s with
       | Some c => negb (is_continuation c)
       | None => Nat.eqb i (String.length s)
       end.

(** [&s[..i]] at a boundary. *)
Fixpoint take_bytes (i : nat) (s : string) : string :=
  match i, s with
  | S n, String c s' => String c (take_bytes n s')
  | _, _ => EmptyString
  end.

(** The quotation mark, as a character and as a string. *)
Definition quote : ascii := "034"%char.
Definition dquote : string := String quote EmptyString.
Definition dot : ascii := "."%char.

(** ** Append *)

Lemma append_assoc a b c : (a +:+ b) +:+ c = a +:+ (b +:+ c).
Proof. induction a as [|x a IH]; [done|]. cbn. f_equal. apply IH. Qed.

Lemma append_nil_r a : a +:+ EmptyString = a.
Proof. induction a as [|x a IH]; [done|]. cbn. f_equal. apply IH. Qed.

Lemma append_cons x a b : String x a +:+ b = String x (a +:+ b).
Proof. done. Qed.

Lemma append_nil_l b : EmptyString +:+ b = b.
Proof. done. Qed.

Create Rewrite HintDb str.
#[export] Hint Rewrite append_assoc append_nil_r append_cons append_nil_l : str.

Lemma length_append a b :
  String.length (a +:+ b) = (String.length a + String.length b)%nat.
Proof. induction a as [|x a IH]; [done|]. cbn. f_equal. apply IH. Qed.

Lemma append_inj_l a b c : a +:+ b = a +:+ c -> b = c.
Proof. induction a as [|x a IH]; [done|]. cbn. intros H. injection H. apply IH. Qed.

Lemma append_split a b c d :
  String.length a = String.length b -> a +:+ c = b +:+ d -> a = b /\ c = d.
Proof.
  revert b. induction a as [|x a IH]; intros [|y b]; cbn; try done.
  intros [= Hl] [= -> E]. by destruct (IH b Hl E) as [-> ->].
Qed.

Lemma append_inj_r a b c : b +:+ a = c +:+ a -> b = c.
Proof.
  revert c. induction b as [|x b IH]; intros [|y c]; cbn; intros H; [done| | |].
  - apply (f_equal String.length) in H. cbn in H. rewrite length_append in H. lia.
  - apply (f_equal String.length) in H. cbn in H. rewrite length_append in H. lia.
  - injection H as -> H. f_equal. by apply IH.
Qed.

Lemma is_empty_true s : is_empty s = true <-> s = EmptyString.
Proof. destruct s; split; cbn; congruence. Qed.

Lemma is_empty_append a b : is_empty (a +:+ b) = is_empty a && is_empty b.
Proof. by destruct a. Qed.

Lemma all_bytes_append p a b : all_bytes p (a +:+ b) = all_bytes p a && all_bytes p b.
Proof.
  induction a as [|x a IH]; [done|]. cbn.
  change (String.append a b) with (a +:+ b). rewrite IH. by rewrite andb_assoc.
Qed.

Lemma contains_char_append c a b :
  contains_char c (a +:+ b) = contains_char c a || contains_char c b.
Proof.
  induction a as [|x a IH]; [done|]. cbn.
  change (String.append a b) with (a +:+ b). rewrite IH. by rewrite orb_assoc.
Qed.

(** The last byte. *)
Fixpoint last_byte (s : string) : option ascii :=
  match s with
  | EmptyString => None
  | String a EmptyString => Some a
  | String _ s' => last_byte s'
  end.

Definition first_byte (s : string) : option ascii :=
  match s with EmptyString => None | String a _ => Some a end.

Lemma last_byte_split s c : last_byte s = Some c -> exists t, s = t +:+ String c EmptyString.
Proof.
  induction s as [|x s IH]; [done|]. destruct s as [|y s].
  - intros [= ->]. by exists EmptyString.
  - intros H. destruct (IH H) as [t ->]. by exists (String x t).
Qed.

Lemma last_byte_append a b : b <> EmptyString -> last_byte (a +:+ b) = last_byte b.
Proof.
  intros Hb. induction a as [|x a IH]; [done|].
  rewrite append_cons. destruct (a +:+ b) eqn:E; [|exact IH].
  destruct a; [|discriminate]. by subst.
Qed.

Lemma first_byte_append a b : a <> EmptyString -> first_byte (a +:+ b) = first_byte a.
Proof. by destruct a. Qed.

(** ** Prefixes and suffixes *)

Lemma strip_prefix_spec pre s p : strip_prefix pre s = Some p <-> s = pre +:+ p.
Proof.
  revert s. induction pre as [|x pre IH]; intros s; cbn.
  - split; [by intros [= ->] | by intros ->].
  - destruct s as [|y s]; [split; intros H; discriminate|].
    destruct (Ascii.eqb_spec x y) as [->|Hne].
    + rewrite IH. split; [by intros -> | by intros [= ->]].
    + split; [done | intros [= ? ?]; congruence].
Qed.

Lemma strip_suffix_spec suf s p : strip_suffix suf s = Some p <-> s = p +:+ suf.
Proof.
  revert p. induction s as [|x s IH]; intros p.
  - cbn [strip_suffix]. destruct (String.eqb_spec EmptyString suf) as [<-|Hne].
    + rewrite append_nil_r. split; congruence.
    + split; [done|]. destruct p; cbn; intros H; [by destruct Hne | discriminate].
  - cbn [strip_suffix]. destruct (String.eqb_spec (String x s) suf) as [<-|Hne].
    + split; [by intros [= <-]|]. intros H.
      destruct p as [|y p]; [done|]. apply (f_equal String.length) in H.
      rewrite length_append in H. cbn in H. lia.
    + split.
      * destruct (strip_suffix suf s) as [q|] eqn:E; cbn; [|done].
        intros [= <-]. cbn. f_equal. by apply IH.
      * destruct p as [|y p]; cbn; intros H; [by destruct Hne|].
        injection H as -> H. apply IH in H. by rewrite H.
Qed.

Lemma strip_suffix_append p suf : strip_suffix suf (p +:+ suf) = Some p.
Proof. by apply strip_suffix_spec. Qed.

Lemma strip_prefix_append pre p : strip_prefix pre (pre +:+ p) = Some p.
Proof. by apply strip_prefix_spec. Qed.

(** ** Trimming one character *)

Lemma trim_end_cons c a s :
  trim_end_matches c (String a s) =
    if is_empty (trim_end_matches c s) && Ascii.eqb a c then EmptyString
    else String a (trim_end_matches c s).
Proof. done. Qed.

Lemma trim_end_last c s : last_byte (trim_end_matches c s) <> Some c.
Proof.
  induction s as [|a s IH]; [done|]. rewrite trim_end_cons.
  destruct (trim_end_matches c s) as [|b t] eqn:E; cbn [is_empty andb].
  - destruct (Ascii.eqb_spec a c); cbn; congruence.
  - exact IH.
Qed.

Lemma trim_end_fix c s : last_byte s <> Some c -> trim_end_matches c s = s.
Proof.
  induction s as [|a s IH]; [done|]. intros H. rewrite trim_end_cons.
  destruct s as [|b s].
  - cbn in *. destruct (Ascii.eqb_spec a c); congruence.
  - rewrite IH by exact H. done.
Qed.

Lemma trim_end_idem c s : trim_end_matches c (trim_end_matches c s) = trim_end_matches c s.
Proof. apply trim_end_fix, trim_end_last. Qed.

Lemma trim_end_prefix c s :
  exists t, s = trim_end_matches c s +:+ t /\ all_bytes (fun a => Ascii.eqb a c) t = true.
Proof.
  induction s as [|a s (t & Ht & Hall)]; [by exists EmptyString|].
  rewrite trim_end_cons. destruct (is_empty _) eqn:E; cbn [andb].
  - apply is_empty_true in E. rewrite E in *.
    destruct (Ascii.eqb_spec a c) as [->|].
    + exists (String c s). split; [done|]. cbn. rewrite Ascii.eqb_refl.
      by rewrite Ht.
    + exists s. split; [done|]. by rewrite Ht.
  - exists t. split; [|done]. rewrite append_cons. by rewrite <- Ht.
Qed.

Lemma trim_end_all c t : all_bytes (fun a => Ascii.eqb a c) t = true -> trim_end_matches c t = EmptyString.
Proof.
  induction t as [|a t IH]; [done|]. cbn [all_bytes]. intros [Ha Ht]%andb_true_iff.
  rewrite trim_end_cons, IH by done. cbn. by rewrite Ha.
Qed.

Lemma trim_end_append_all c s t :
  all_bytes (fun a => Ascii.eqb a c) t = true ->
  trim_end_matches c (s +:+ t) = trim_end_matches c s.
Proof.
  intros Ht. induction s as [|a s IH]; [by apply trim_end_all|].
  rewrite append_cons, !trim_end_cons. by rewrite IH.
Qed.

Lemma trim_end_length c s : (String.length (trim_end_matches c s) <= String.length s)%nat.
Proof.
  destruct (trim_end_prefix c s) as (t & Ht & _).
  apply (f_equal String.length) in Ht. rewrite length_append in Ht. lia.
Qed.

Lemma trim_end_all_bytes p c s :
  all_bytes p s = true -> all_bytes p (trim_end_matches c s) = true.
Proof.
  destruct (trim_end_prefix c s) as (t & Ht & _). rewrite Ht at 1.
  rewrite all_bytes_append. by intros [? _]%andb_true_iff.
Qed.

(** ** Splitting and joining *)

Lemma split_not_nil c s : split c s <> [].
Proof. destruct s as [|a s]; cbn; [done|]. destruct (Ascii.eqb a c), (split c s); done. Qed.

Lemma split_cons_other c a s :
  a <> c -> exists h t, split c s = h :: t /\ split c (String a s) = String a h :: t.
Proof.
  intros Hne. cbn. destruct (Ascii.eqb_spec a c); [done|].
  pose proof (split_not_nil c s). destruct (split c s); [done|]. eauto.
Qed.

Lemma join_cons sep x l : l <> [] -> join sep (x :: l) = x +:+ sep +:+ join sep l.
Proof. by destruct l. Qed.

(** The round trip of [split] and [join]. *)
Lemma join_split c s : join (String c EmptyString) (split c s) = s.
Proof.
  induction s as [|a s IH]; [done|].
  destruct (Ascii.eqb_spec a c) as [->|Hne].
  - cbn [split]. rewrite Ascii.eqb_refl, join_cons by apply split_not_nil.
    rewrite IH. done.
  - destruct (split_cons_other c a s Hne) as (h & t & E & ->). rewrite E in IH.
    rewrite <- IH. by destruct t.
Qed.

Lemma all_bytes_impl (p q : ascii -> bool) s :
  (forall c, p c = true -> q c = true) -> all_bytes p s = true -> all_bytes q s = true.
Proof.
  intros Hpq. induction s as [|a s IH]; [done|]. cbn.
  intros [Ha Hs]%andb_true_iff. by rewrite Hpq, IH.
Qed.

Lemma all_bytes_join p sep l :
  all_bytes p sep = true -> Forall (fun s => all_bytes p s = true) l ->
  all_bytes p (join sep l) = true.
Proof.
  intros Hs. induction l as [|x l IH]; [done|]. intros [Hx Hl]%Forall_cons.
  destruct l as [|y l]; [done|]. rewrite join_cons by done.
  by rewrite !all_bytes_append, Hx, Hs, IH.
Qed.

Lemma split_parts c s : Forall (fun p => contains_char c p = false) (split c s).
Proof.
  induction s as [|a s IH]; [by repeat constructor|].
  destruct (Ascii.eqb_spec a c) as [->|Hne].
  - cbn [split]. rewrite Ascii.eqb_refl. by constructor.
  - destruct (split_cons_other c a s Hne) as (h & t & E & ->). rewrite E in IH.
    apply Forall_cons in IH as [Hh Ht]. constructor; [|done]. cbn.
    destruct (Ascii.eqb_spec a c); [done | exact Hh].
Qed.

Lemma split_append c s t :
  split c (s +:+ String c t) = split c s ++ split c t.
Proof.
  induction s as [|a s IH]; cbn [split].
  - rewrite append_nil_l. cbn [split]. by rewrite Ascii.eqb_refl.
  - rewrite append_cons. cbn [split]. rewrite IH.
    destruct (Ascii.eqb a c); [done|].
    pose proof (split_not_nil c s). by destruct (split c s).
Qed.

Lemma split_no_sep c s : contains_char c s = false -> split c s = [s].
Proof.
  induction s as [|a s IH]; [done|]. cbn. intros [Ha Hs]%orb_false_iff.
  rewrite Ha, IH by done. done.
Qed.

Lemma split_once_spec c s h t :
  split_once c s = Some (h, t) <-> s = h +:+ String c t /\ contains_char c h = false.
Proof.
  revert h. induction s as [|a s IH]; intros h; cbn [split_once].
  - split; [done|]. intros [H _]. by destruct h.
  - destruct (Ascii.eqb_spec a c) as [->|Hne].
    + split; [by intros [= <- <-]|]. intros [H Hc]. destruct h as [|b h].
      * cbn in H. by injection H as ->.
      * cbn in H, Hc. injection H as -> _. by rewrite Ascii.eqb_refl in Hc.
    + split.
      * destruct (split_once c s) as [[h' t']|] eqn:E; [|done].
        intros [= <- <-]. destruct (proj1 (IH h') eq_refl) as [-> Hc].
        split; [done|]. cbn. destruct (Ascii.eqb_spec a c); done.
      * intros [H Hc]. destruct h as [|b h]; cbn in H; injection H as -> H; [done|].
        cbn in Hc. apply orb_false_iff in Hc as [_ Hc].
        by rewrite (proj2 (IH h) (conj H Hc)).
Qed.

Lemma split_once_none c s : split_once c s = None <-> contains_char c s = false.
Proof.
  induction s as [|a s IH]; cbn; [done|].
  destruct (Ascii.eqb a c); cbn; [done|].
  destruct (split_once c s) as [[? ?]|]; split; intros; [done| |by apply IH|done].
  apply IH in H. done.
Qed.

(** ** ASCII case *)

(** A property of one byte is checked on the 256 of them. *)
Definition all_ascii : list ascii :=
  map (fun n => ascii_of_N (N.of_nat n)) (seq 0 256).

Lemma all_ascii_complete c : c ∈ all_ascii.
Proof.
  apply list_elem_of_In, in_map_iff. exists (N.to_nat (N_of_ascii c)).
  rewrite N2Nat.id, ascii_N_embedding. split; [done|].
  apply in_seq. pose proof (N_ascii_bounded c). lia.
Qed.

Lemma byte_case (p : ascii -> bool) : forallb p all_ascii = true -> forall c, p c = true.
Proof.
  intros H c. rewrite forallb_forall in H. apply H.
  apply list_elem_of_In, all_ascii_complete.
Qed.

Lemma to_lower_idem c : to_lower (to_lower c) = to_lower c.
Proof.
  apply Ascii.eqb_eq. revert c.
  apply (byte_case (fun c => Ascii.eqb (to_lower (to_lower c)) (to_lower c))).
  by vm_compute.
Qed.

Lemma to_lower_alnum c : is_ascii_alphanumeric (to_lower c) = is_ascii_alphanumeric c.
Proof.
  apply eqb_prop. revert c.
  apply (byte_case (fun c => Bool.eqb (is_ascii_alphanumeric (to_lower c)) (is_ascii_alphanumeric c))).
  by vm_compute.
Qed.

(** Characters that are not letters are neither changed nor produced. *)
Lemma to_lower_eqb (d c : ascii) :
  is_ascii_alphanumeric d = false -> Ascii.eqb (to_lower c) d = Ascii.eqb c d.
Proof.
  assert (forall c d, (is_ascii_alphanumeric d || Bool.eqb (Ascii.eqb (to_lower c) d) (Ascii.eqb c d)) = true) as H.
  { intros c'. apply (byte_case (fun d => is_ascii_alphanumeric d || Bool.eqb (Ascii.eqb (to_lower c') d) (Ascii.eqb c' d))).
    revert c'. apply (byte_case (fun c' => forallb (fun d => is_ascii_alphanumeric d || Bool.eqb (Ascii.eqb (to_lower c') d) (Ascii.eqb c' d)) all_ascii)).
    by vm_compute. }
  intros Hd. specialize (H c d). rewrite Hd in H. by apply eqb_prop.
Qed.

Lemma lower_append a b :
  to_ascii_lowercase (a +:+ b) = to_ascii_lowercase a +:+ to_ascii_lowercase b.
Proof. induction a as [|x a IH]; [done|]. cbn. by f_equal. Qed.

Lemma lower_idem s : to_ascii_lowercase (to_ascii_lowercase s) = to_ascii_lowercase s.
Proof. induction s as [|x s IH]; [done|]. cbn. rewrite to_lower_idem. by f_equal. Qed.

Lemma lower_length s : String.length (to_ascii_lowercase s) = String.length s.
Proof. induction s as [|x s IH]; [done|]. cbn. by f_equal. Qed.

Lemma lower_is_empty s : is_empty (to_ascii_lowercase s) = is_empty s.
Proof. by destruct s. Qed.

Lemma lower_contains d s :
  is_ascii_alphanumeric d = false ->
  contains_char d (to_ascii_lowercase s) = contains_char d s.
Proof.
  intros Hd. induction s as [|x s IH]; [done|]. cbn. by rewrite to_lower_eqb, IH.
Qed.

Lemma lower_trim_end d s :
  is_ascii_alphanumeric d = false ->
  trim_end_matches d (to_ascii_lowercase s) = to_ascii_lowercase (trim_end_matches d s).
Proof.
  intros Hd. induction s as [|x s IH]; [done|]. cbn [to_ascii_lowercase].
  rewrite !trim_end_cons, IH, lower_is_empty, to_lower_eqb by done.
  by destruct (_ && _).
Qed.

Lemma lower_split d s :
  is_ascii_alphanumeric d = false ->
  split d (to_ascii_lowercase s) = map to_ascii_lowercase (split d s).
Proof.
  intros Hd. induction s as [|x s IH]; [done|]. cbn. rewrite to_lower_eqb, IH by done.
  destruct (Ascii.eqb x d); [done|]. by destruct (split d s).
Qed.

Lemma lower_all_bytes p s :
  (forall c, p (to_lower c) = p c) -> all_bytes p (to_ascii_lowercase s) = all_bytes p s.
Proof. intros Hp. induction s as [|x s IH]; [done|]. cbn. by rewrite Hp, IH. Qed.

(** ** White space *)

Definition ws_heads : list (option ascii) := map first_byte white_space.
Definition ws_tails : list (option ascii) := map last_byte white_space.

Lemma white_space_not_empty w : w ∈ white_space -> w <> EmptyString.
Proof.
  intros Hw ->. assert (forallb (fun w => negb (is_empty w)) white_space = true) as H
    by by vm_compute.
  rewrite forallb_forall in H. by specialize (H _ (proj1 (list_elem_of_In _ _) Hw)).
Qed.

Lemma strip_ws_start_none s : first_byte s ∉ ws_heads -> strip_ws_start s = None.
Proof.
  intros H. unfold strip_ws_start. destruct (omap _ white_space) as [|t l] eqn:E; [done|].
  assert (t ∈ omap (fun w => strip_prefix w s) white_space) as Ht by (rewrite E; left).
  apply list_elem_of_omap in Ht as (w & Hw & Hs). apply strip_prefix_spec in Hs.
  destruct H. unfold ws_heads. apply list_elem_of_fmap. exists w. split; [|done].
  subst s. apply first_byte_append. by apply white_space_not_empty.
Qed.

Lemma strip_ws_end_none s : last_byte s ∉ ws_tails -> strip_ws_end s = None.
Proof.
  intros H. unfold strip_ws_end. destruct (omap _ white_space) as [|t l] eqn:E; [done|].
  assert (t ∈ omap (fun w => strip_suffix w s) white_space) as Ht by (rewrite E; left).
  apply list_elem_of_omap in Ht as (w & Hw & Hs). apply strip_suffix_spec in Hs.
  destruct H. unfold ws_tails. apply list_elem_of_fmap. exists w. split; [|done].
  subst s. apply last_byte_append. by apply white_space_not_empty.
Qed.

Lemma iter_strip_none f n s : f s = None -> iter_strip f n s = s.
Proof. intros H. destruct n; cbn; [done|]. by rewrite H. Qed.

(** [trim] keeps a string that neither starts nor ends with white space. *)
Lemma trim_id s : first_byte s ∉ ws_heads -> last_byte s ∉ ws_tails -> trim s = s.
Proof.
  intros Hh Ht. unfold trim.
  rewrite (iter_strip_none strip_ws_start) by by apply strip_ws_start_none.
  by rewrite iter_strip_none by by apply strip_ws_end_none.
Qed.

Lemma last_byte_all p s c : all_bytes p s = true -> last_byte s = Some c -> p c = true.
Proof.
  induction s as [|x s IH]; [done|]. cbn [all_bytes]. intros [Hx Hs]%andb_true_iff.
  destruct s as [|y s]; [by intros [= <-] | by apply IH].
Qed.

Lemma first_byte_all p s c : all_bytes p s = true -> first_byte s = Some c -> p c = true.
Proof. destruct s; cbn; [done|]. by intros [Hx Hs]%andb_true_iff [= <-]. Qed.

(** ** Prefixes of a given length *)

Lemma take_bytes_append a b : take_bytes (String.length a) (a +:+ b) = a.
Proof. induction a as [|x a IH]; [by destruct b|]. cbn. by f_equal. Qed.

Lemma take_bytes_length i s : (i <= String.length s)%nat -> String.length (take_bytes i s) = i.
Proof.
  revert s. induction i as [|i IH]; intros [|x s]; cbn; intros H; try lia.
  rewrite IH; lia.
Qed.

Lemma take_bytes_plus a b n :
  take_bytes (String.length a + n) (a +:+ b) = a +:+ take_bytes n b.
Proof. induction a as [|x a IH]; [done|]. cbn. by f_equal. Qed.

(** ** Separators and numbers *)

Lemma sep_inj c a b x y :
  contains_char c a = false -> contains_char c b = false ->
  a +:+ String c x = b +:+ String c y -> a = b /\ x = y.
Proof.
  revert b. induction a as [|d a IH]; intros [|d' b]; cbn; intros Ha Hb E.
  - by injection E.
  - injection E as <- E. by rewrite Ascii.eqb_refl in Hb.
  - injection E as -> E. by rewrite Ascii.eqb_refl in Ha.
  - injection E as <- E. apply orb_false_iff in Ha as [_ Ha], Hb as [_ Hb].
    destruct (IH b Ha Hb E) as [-> ->]. done.
Qed.

(** A printed number holds digits and a sign. *)
Definition numeral_char (c : ascii) : bool :=
  existsb (Ascii.eqb c) ["0"; "1"; "2"; "3"; "4"; "5"; "6"; "7"; "8"; "9"; "-"]%char.

Lemma pretty_N_go_no_char c x s :
  numeral_char c = false -> contains_char c s = false -> contains_char c (pretty_N_go x s) = false.
Proof.
  intros Hc. revert s. induction (N.lt_wf_0 x) as [x _ IH]; intros s Hs.
  destruct (decide (x = 0%N)) as [->|Hx]; [done|].
  assert (0 < x)%N as Hp by lia. rewrite pretty_N_go_step by done. apply IH; [by apply N.div_lt|].
  cbn [contains_char]. rewrite Hs, orb_false_r, Ascii.eqb_sym. revert Hc.
  unfold numeral_char, pretty_N_char. cbn [existsb]. rewrite !orb_false_iff.
  intros Hc. decompose [and] Hc. by repeat case_match.
Qed.

Lemma pretty_no_char c (z : Z) : numeral_char c = false -> contains_char c (pretty z) = false.
Proof.
  intros Hc. assert (forall x : N, contains_char c (pretty x) = false) as HN.
  { intros x. unfold pretty, pretty_N. case_decide; [|by apply pretty_N_go_no_char].
    revert Hc. unfold numeral_char. cbn. rewrite !orb_false_iff, Ascii.eqb_sym. intros Hc. by decompose [and] Hc. }
  destruct z; [apply (HN 0%N)|apply (HN (N.pos p))|].
  change (Ascii.eqb "-" c || contains_char c (pretty (N.pos p)) = false). rewrite HN, orb_false_r.
  revert Hc. unfold numeral_char. cbn. rewrite !orb_false_iff, Ascii.eqb_sym. intros Hc. by decompose [and] Hc.
Qed.
