(* ===== verification/Errors.v ===== *)
(** * The error type of the crate (src/error.rs) *)

From S2P Require Import Prelude Rstr.

(** [reqwest::Error] is opaque to the crate, which only wraps it: a request
    that could not be sent or answered, with the library's message, or a
    response body that could not be read as the expected JSON. *)
Inductive ReqwestError : Type :=
| Transport (msg : string)
| Decode.

Inductive DnsError : Type :=
| Auth (msg : string)
| ZoneNotFound (name : string)
| Api (msg : string)
| Http (e : ReqwestError)
| PropagationTimeout (fqdn : string) (timeout_secs : Z)
| MissingCredentials (name : string)
| Resolver (msg : string)
| Acme (msg : string)
| NoDns01Challenge (name : string)
| UnexpectedOrderStatus (status : string)
| ChallengeInvalid (name : string)
| Storage (msg : string)
| CertParse (msg : string)
| Other (msg : string).

#[global] Instance reqwest_error_eq_dec : EqDecision ReqwestError.
Proof. solve_decision. Defined.
#[global] Instance dns_error_eq_dec : EqDecision DnsError.
Proof. solve_decision. Defined.

Abbreviation dns_result A := (result A DnsError).

(** [Display], from the [#[error(...)]] attributes.  The text of a
    [reqwest::Error] is the library's. *)
Definition display (reqwest_text : ReqwestError -> string) (e : DnsError) : string :=
  match e with
  | Auth m => "authentication failed: " +:+ m
  | ZoneNotFound n => "zone not found for " +:+ n
  | Api m => "API error: " +:+ m
  | Http r => "HTTP error: " +:+ reqwest_text r
  | PropagationTimeout f t =>
      "propagation timeout after " +:+ pretty t +:+ "s for " +:+ f
  | MissingCredentials n => "missing credentials: " +:+ n
  | Resolver m => "resolver error: " +:+ m
  | Acme m => "ACME error: " +:+ m
  | NoDns01Challenge n => "no DNS-01 challenge offered for " +:+ n
  | UnexpectedOrderStatus s => "ACME order is " +:+ s +:+ ", expected Ready"
  | ChallengeInvalid n => "ACME challenge invalid for " +:+ n
  | Storage m => "account store error: " +:+ m
  | CertParse m => "certificate parse error: " +:+ m
  | Other m => "other: " +:+ m
  end.
