(* ===== verification/Effects.v ===== *)
(** * Effectful programs

    The asynchronous functions of the crate are programs that interact with
    their environment (HTTP servers, resolvers, clocks, locks, the ACME
    server) and otherwise compute.  A program over a family [E] of events is
    a tree: it returns, or issues an event and continues with its answer.
    Every [.await] on the outside world is one event, so that running a
    program for a number of events models a future that is dropped at one of
    its suspension points. *)

From S2P Require Import Prelude.

Inductive prog (E : Type -> Type) (A : Type) : Type :=
| Ret (a : A)
| Vis (X : Type) (e : E X) (k : X -> prog E A).
Arguments Ret {E A} a.
Arguments Vis {E A X} e k.

Fixpoint pbind {E A B} (p : prog E A) (k : A -> prog E B) : prog E B :=
  match p with
  | Ret a => k a
  | Vis e c => Vis e (fun x => pbind (c x) k)
  end.

(** One event, and its answer. *)
Definition call {E X} (e : E X) : prog E X := Vis e Ret.

(** [p.await?]: continue with the value, or return the error at once. *)
Definition ptry {E A B F} (p : prog E (result A F)) (k : A -> prog E (result B F))
  : prog E (result B F) :=
  pbind p (fun r => match r with Ok a => k a | Err e => Ret (Err e) end).

(** [r?] for a result already computed. *)
Definition ptry_pure {E A B F} (r : result A F) (k : A -> prog E (result B F))
  : prog E (result B F) :=
  match r with Ok a => k a | Err e => Ret (Err e) end.

Notation "'let*' x ':=' p 'in' k" := (pbind p (fun x => k))
  (at level 10, x pattern, p at level 200, k at level 200,
   format "'[v' 'let*'  x  ':='  p  'in' '/' k ']'") : cheti_scope.
Notation "'await?' x ':=' p 'in' k" := (ptry p (fun x => k))
  (at level 10, x pattern, p at level 200, k at level 200,
   format "'[v' 'await?'  x  ':='  p  'in' '/' k ']'") : cheti_scope.
Notation "'try?' x ':=' r 'in' k" := (ptry_pure r (fun x => k))
  (at level 10, x pattern, r at level 200, k at level 200,
   format "'[v' 'try?'  x  ':='  r  'in' '/' k ']'") : cheti_scope.

(** ** Running a program *)

(** An environment with state [W] answers every event. *)
Definition handler (E : Type -> Type) (W : Type) : Type :=
  forall X, E X -> W -> X * W.

Fixpoint run {E W A} (h : handler E W) (p : prog E A) (w : W) : A * W :=
  match p with
  | Ret a => (a, w)
  | Vis e k => let '(x, w') := h _ e w in run h (k x) w'
  end.

(** An event with the answer it got. *)
Inductive event (E : Type -> Type) : Type :=
| Ev (X : Type) (e : E X) (x : X).
Arguments Ev {E X} e x.

(** The events a complete run issues, in order. *)
Fixpoint trace {E W A} (h : handler E W) (p : prog E A) (w : W) : list (event E) :=
  match p with
  | Ret _ => []
  | Vis e k => let '(x, w') := h _ e w in Ev e x :: trace h (k x) w'
  end.

(** The state and the events after at most [n] events: what is left when the
    future is dropped there. *)
Fixpoint run_for {E W A} (n : nat) (h : handler E W) (p : prog E A) (w : W)
  : W * list (event E) :=
  match n, p with
  | S m, Vis e k =>
      let '(x, w') := h _ e w in
      let '(w'', t) := run_for m h (k x) w' in (w'', Ev e x :: t)
  | _, _ => (w, [])
  end.

Lemma run_bind {E W A B} (h : handler E W) (p : prog E A) (k : A -> prog E B) w :
  run h (pbind p k) w = let '(a, w') := run h p w in run h (k a) w'.
Proof.
  revert w. induction p as [a|X e c IH]; intros w; cbn; [done|].
  destruct (h X e w) as [x w']. apply IH.
Qed.

Lemma trace_bind {E W A B} (h : handler E W) (p : prog E A) (k : A -> prog E B) w :
  trace h (pbind p k) w =
    trace h p w ++ let '(a, w') := run h p w in trace h (k a) w'.
Proof.
  revert w. induction p as [a|X e c IH]; intros w; cbn; [done|].
  destruct (h X e w) as [x w']. cbn. f_equal. apply IH.
Qed.

(** The first event of a sequence. *)
Lemma run_call {E W A X} (h : handler E W) (e : E X) (k : X -> prog E A) w :
  run h (pbind (call e) k) w = let '(x, w') := h _ e w in run h (k x) w'.
Proof. done. Qed.

Lemma trace_call {E W A X} (h : handler E W) (e : E X) (k : X -> prog E A) w :
  trace h (pbind (call e) k) w = let '(x, w') := h _ e w in Ev e x :: trace h (k x) w'.
Proof. done. Qed.

(** A prefix of the run of a sequence stops in the first part or in the
    second. *)
Lemma run_for_bind {E W A B} (h : handler E W) (p : prog E A) (k : A -> prog E B) n w :
  run_for n h (pbind p k) w = run_for n h p w
  \/ exists m, run_for n h (pbind p k) w =
       let '(a, w') := run h p w in
       let '(w'', t) := run_for m h (k a) w' in (w'', trace h p w ++ t).
Proof.
  revert n w. induction p as [a|X e c IH]; intros n w.
  - right. exists n. cbn. by destruct (run_for n h (k a) w).
  - destruct n as [|n]; [by left|]. cbn. destruct (h X e w) as [x w'].
    destruct (IH x n w') as [->|(m & ->)].
    + by left.
    + right. exists m. destruct (run h (c x) w') as [a w2].
      by destruct (run_for m h (k a) w2).
Qed.

(** The events of a run up to one of them. *)
Lemma run_for_prefix {E W A} (h : handler E W) (p : prog E A) n w pre post :
  snd (run_for n h p w) = pre ++ post -> snd (run_for (length pre) h p w) = pre.
Proof.
  revert n p w. induction pre as [|ev pre IH]; intros n p w; [done|].
  destruct n as [|n], p as [a|X e k]; cbn; try done. destruct (h X e w) as [x w'].
  specialize (IH n (k x) w'). destruct (run_for n h (k x) w') as [w2 t].
  destruct (run_for (length pre) h (k x) w') as [w3 t3]. cbn in *. intros Heq.
  pose proof (f_equal (hd ev) Heq) as H1. pose proof (f_equal (@tl _) Heq) as H2. cbn in H1, H2.
  by rewrite H1, IH.
Qed.

(** ** Weakest preconditions *)

Definition wp {E W A} (h : handler E W) (p : prog E A) (Q : A -> W -> Prop) (w : W) : Prop :=
  let '(a, w') := run h p w in Q a w'.

Lemma wp_ret {E W A} (h : handler E W) (a : A) (Q : A -> W -> Prop) w :
  Q a w -> wp h (Ret a) Q w.
Proof. done. Qed.

Lemma wp_bind {E W A B} (h : handler E W) (p : prog E A) (k : A -> prog E B) Q w :
  wp h p (fun a w' => wp h (k a) Q w') w -> wp h (pbind p k) Q w.
Proof. unfold wp. rewrite run_bind. by destruct (run h p w). Qed.

Lemma wp_mono {E W A} (h : handler E W) (p : prog E A) (P Q : A -> W -> Prop) w :
  wp h p P w -> (forall a w', P a w' -> Q a w') -> wp h p Q w.
Proof. unfold wp. destruct (run h p w). auto. Qed.

Lemma wp_vis {E W A X} (h : handler E W) (e : E X) (k : X -> prog E A) Q w :
  wp h (k (fst (h X e w))) Q (snd (h X e w)) -> wp h (Vis e k) Q w.
Proof. unfold wp. cbn. by destruct (h X e w). Qed.

Lemma wp_try {E W A B F} (h : handler E W) (p : prog E (result A F))
    (k : A -> prog E (result B F)) (Q : result B F -> W -> Prop) w :
  wp h p (fun r w' => match r with
                      | Ok a => wp h (k a) Q w'
                      | Err e => Q (Err e) w'
                      end) w ->
  wp h (ptry p k) Q w.
Proof.
  intros H. apply wp_bind. eapply wp_mono; [exact H|]. by intros [a|e] w' H'.
Qed.

Lemma wp_try_pure {E W A B F} (h : handler E W) (r : result A F)
    (k : A -> prog E (result B F)) (Q : result B F -> W -> Prop) w :
  (forall a, r = Ok a -> wp h (k a) Q w) -> (forall e, r = Err e -> Q (Err e) w) ->
  wp h (ptry_pure r k) Q w.
Proof. destruct r; cbn; auto. Qed.

Lemma wp_run {E W A} (h : handler E W) (p : prog E A) (Q : A -> W -> Prop) w a w' :
  run h p w = (a, w') -> wp h p Q w -> Q a w'.
Proof. unfold wp. by intros ->. Qed.

(** Programs with the same runs. *)
Lemma wp_ext {E W A} (h : handler E W) (p q : prog E A) (Q : A -> W -> Prop) w :
  run h p w = run h q w -> wp h q Q w -> wp h p Q w.
Proof. unfold wp. by intros ->. Qed.

(** An invariant of every event is an invariant of every program. *)
Lemma wp_inv {E W A} (h : handler E W) (I : W -> Prop) (p : prog E A) w :
  (forall X (e : E X) v, I v -> I (snd (h X e v))) -> I w -> wp h p (fun _ => I) w.
Proof.
  intros Hh. revert w. induction p as [a|X e k IH]; intros w Hw; [by apply wp_ret|].
  apply wp_vis, IH, Hh, Hw.
Qed.

Lemma wp_conj {E W A} (h : handler E W) (p : prog E A) (P Q : A -> W -> Prop) w :
  wp h p P w -> wp h p Q w -> wp h p (fun a w' => P a w' /\ Q a w') w.
Proof. unfold wp. by destruct (run h p w). Qed.

(** ** The events of a program

    [emits P p Q]: whatever the answers, every event of [p] satisfies [P], and
    what it returns satisfies [Q]. *)

Fixpoint emits {E A} (P : forall X, E X -> Prop) (p : prog E A) (Q : A -> Prop) : Prop :=
  match p with
  | Ret a => Q a
  | Vis e k => P _ e /\ forall x, emits P (k x) Q
  end.

Lemma emits_bind {E A B} (P : forall X, E X -> Prop) (p : prog E A) (k : A -> prog E B) (Q : B -> Prop) :
  emits P p (fun a => emits P (k a) Q) -> emits P (pbind p k) Q.
Proof. induction p as [a|X e c IH]; cbn; [done|]. intros [He Hk]. split; [done|]. intros x. by apply IH. Qed.

Lemma emits_mono {E A} (P : forall X, E X -> Prop) (p : prog E A) (Q R : A -> Prop) :
  emits P p Q -> (forall a, Q a -> R a) -> emits P p R.
Proof. intros Hp HQ. induction p as [a|X e c IH]; cbn in *; [auto|]. destruct Hp as [He Hk]. split; [done|auto]. Qed.

Lemma emits_call {E X A} (P : forall X, E X -> Prop) (e : E X) (k : X -> prog E A) (Q : A -> Prop) :
  P X e -> (forall x, emits P (k x) Q) -> emits P (pbind (call e) k) Q.
Proof. by split. Qed.

Lemma emits_try {E A B F} (P : forall X, E X -> Prop) (p : prog E (result A F)) (k : A -> prog E (result B F))
    (Q : result B F -> Prop) (R : A -> Prop) :
  emits P p (fun r => forall a, r = Ok a -> R a) -> (forall a, R a -> emits P (k a) Q) -> (forall e, Q (Err e)) ->
  emits P (ptry p k) Q.
Proof.
  intros Hp Hk He. apply emits_bind. eapply emits_mono; [exact Hp|]. intros [a|e] Ha; [by apply Hk, Ha|apply He].
Qed.

Lemma emits_seq {E A B F} (P : forall X, E X -> Prop) (p : prog E (result A F)) (k : A -> prog E (result B F))
    (Q : result B F -> Prop) :
  emits P p (fun _ => True) -> (forall a, emits P (k a) Q) -> (forall e, Q (Err e)) -> emits P (ptry p k) Q.
Proof. intros Hp Hk He. apply (emits_try _ _ _ _ (fun _ => True)); [|auto..]. by eapply emits_mono. Qed.

Lemma emits_try_pure {E A B F} (P : forall X, E X -> Prop) (r : result A F) (k : A -> prog E (result B F))
    (Q : result B F -> Prop) :
  (forall a, r = Ok a -> emits P (k a) Q) -> (forall e, Q (Err e)) -> emits P (ptry_pure r k) Q.
Proof. intros Hk He. destruct r; [by apply Hk|apply He]. Qed.

Lemma emits_impl {E A} (P P' : forall X, E X -> Prop) (p : prog E A) (Q : A -> Prop) :
  (forall X (e : E X), P X e -> P' X e) -> emits P p Q -> emits P' p Q.
Proof. intros HP. induction p as [a|X e c IH]; cbn; [done|]. intros [He Hk]. split; [by apply HP|]. intros x. by apply IH. Qed.

(** Every event of a run, and what a run preserves. *)
Lemma emits_trace {E W A} (P : forall X, E X -> Prop) (h : handler E W) (p : prog E A) Q w X (e : E X) x :
  emits P p Q -> Ev e x ∈ trace h p w -> P X e.
Proof.
  revert w. induction p as [a|Y f c IH]; intros w; cbn; [by intros _ ?%elem_of_nil|].
  intros [Hf Hk]. destruct (h Y f w) as [y w']. intros [Heq|Hin]%elem_of_cons; [|by eapply IH].
  change (match Ev e x with @Ev _ Z g _ => P Z g end). by rewrite Heq.
Qed.

Lemma emits_run {E W A} (P : forall X, E X -> Prop) (h : handler E W) (p : prog E A) Q w :
  emits P p Q -> Q (fst (run h p w)) /\ Forall (fun ev => match ev with @Ev _ X e _ => P X e end) (trace h p w).
Proof.
  revert w. induction p as [a|X e c IH]; intros w; cbn; [done|]. intros [He Hk].
  destruct (h X e w) as [x w']. destruct (IH x w' (Hk x)) as [HQ Ht]. split; [done|by constructor].
Qed.

Lemma wp_emits {E W A} (P : forall X, E X -> Prop) (h : handler E W) (J : W -> Prop) (p : prog E A) Q w :
  emits P p Q -> (forall X (e : E X) v, P X e -> J v -> J (snd (h X e v))) -> J w ->
  wp h p (fun a w' => Q a /\ J w') w.
Proof.
  intros Hp HJ. revert w. induction p as [a|X e c IH]; intros w Hw; [by apply wp_ret|].
  destruct Hp as [He Hk]. apply wp_vis, IH; [apply Hk|by apply HJ].
Qed.

(** ** Recording

    An environment that also keeps the events of a run, so that what is
    proved of its states is proved of the trace. *)

Definition recorded {E W} (h : handler E W) : handler E (W * list (event E)) :=
  fun X e v => let '(x, w') := h X e (fst v) in (x, (w', snd v ++ [Ev e x])).

Lemma run_recorded {E W A} (h : handler E W) (p : prog E A) w t :
  run (recorded h) p (w, t) = let '(a, w') := run h p w in (a, (w', t ++ trace h p w)).
Proof.
  revert w t. induction p as [a|X e k IH]; intros w t; cbn; [by rewrite app_nil_r|].
  unfold recorded at 1. cbn [fst snd]. destruct (h X e w) as [x w']. rewrite IH.
  destruct (run h (k x) w') as [a w2]. by rewrite <- app_assoc.
Qed.

Lemma recorded_trace {E W A} (h : handler E W) (p : prog E A) (Q : A -> W * list (event E) -> Prop) w :
  wp (recorded h) p Q (w, []) -> Q (fst (run h p w)) (snd (run h p w), trace h p w).
Proof. unfold wp. rewrite run_recorded. by destruct (run h p w). Qed.

Lemma recorded_snd {E W X} (h : handler E W) (e : E X) v :
  snd (recorded h X e v) = (snd (h X e (fst v)), snd v ++ [Ev e (fst (h X e (fst v)))]).
Proof. unfold recorded. by destruct (h X e (fst v)). Qed.

(** ** Fuel

    A loop without a bound of its own is given fuel, and answers [None] when
    it is used up.  [grows h p q]: where [p] does not, [q] does the same. *)

Definition grows {E W A} (h : handler E W) (p q : prog E (option A)) : Prop :=
  forall w x w', run h p w = (Some x, w') -> run h q w = (Some x, w').

Lemma grows_le {E W A} (h : handler E W) (f : nat -> prog E (option A)) :
  (forall n, grows h (f n) (f (S n))) ->
  forall m n w x w', (m <= n)%nat -> run h (f m) w = (Some x, w') -> run h (f n) w = (Some x, w').
Proof. intros Hf m n w x w' Hle. induction Hle; [done|]. intros H. by apply Hf, IHHle. Qed.

(** Two environments that answer alike. *)
Lemma run_ext {E W A} (h h' : handler E W) (p : prog E A) w :
  (forall X (e : E X) v, h X e v = h' X e v) -> run h p w = run h' p w.
Proof.
  intros Hh. revert w. induction p as [a|X e k IH]; intros w; [done|]. cbn. rewrite Hh.
  destruct (h' X e w). apply IH.
Qed.

(** ** Protocols

    A protocol says which events are allowed when.  Its state [G] is computed
    from the events and answers so far; [ans] restricts the answers an event
    can get (a store answers with what it holds).  A program that follows a
    protocol respects it in every environment, up to every point where it may
    be stopped. *)

Section protocol.
Context {E : Type -> Type} {G : Type}.
Context (update : forall X, E X -> X -> G -> G).
Context (allowed : forall X, E X -> G -> Prop).
Context (ans : forall X, E X -> G -> X -> Prop).

Fixpoint follows {A} (p : prog E A) (Q : A -> G -> Prop) (g : G) : Prop :=
  match p with
  | Ret a => Q a g
  | Vis e k => allowed _ e g /\ forall x, ans _ e g x -> follows (k x) Q (update _ e x g)
  end.

Definition ghost_of (t : list (event E)) (g : G) : G :=
  fold_left (fun g ev => match ev with Ev e x => update _ e x g end) t g.

(** Every event of the trace was allowed when it was issued. *)
Definition respects (t : list (event E)) (g : G) : Prop :=
  forall pre X (e : E X) (x : X) post, t = pre ++ Ev e x :: post -> allowed X e (ghost_of pre g).

Lemma ghost_of_app t u g : ghost_of (t ++ u) g = ghost_of u (ghost_of t g).
Proof. apply fold_left_app. Qed.

Lemma respects_nil g : respects [] g.
Proof. intros [] ? ? ? ?; done. Qed.

Lemma respects_cons X (e : E X) x t g :
  allowed X e g -> respects t (update X e x g) -> respects (Ev e x :: t) g.
Proof.
  intros He Ht [|ev pre] Y f y post Heq; cbn in Heq.
  - apply (f_equal (hd (Ev e x))) in Heq. cbn in Heq.
    change (match Ev e x with @Ev _ Y f _ => allowed Y f g end) in He. by rewrite Heq in He.
  - assert (ev = Ev e x) as -> by (by apply (f_equal (hd ev)) in Heq).
    apply (f_equal (@tl _)) in Heq. cbn in Heq. by apply (Ht pre Y f y post).
Qed.

Lemma follows_bind {A B} (p : prog E A) (k : A -> prog E B) Q g :
  follows p (fun a g' => follows (k a) Q g') g -> follows (pbind p k) Q g.
Proof.
  revert g. induction p as [a|X e c IH]; intros g; [done|]. cbn. intros [He Hk].
  split; [done|]. intros x Hx. by apply IH, Hk.
Qed.

Lemma follows_mono {A} (p : prog E A) (P Q : A -> G -> Prop) g :
  (forall a g', P a g' -> Q a g') -> follows p P g -> follows p Q g.
Proof.
  intros HPQ. revert g. induction p as [a|X e c IH]; intros g; cbn; [by apply HPQ|].
  intros [He Hk]. split; [done|]. intros x Hx. by apply IH, Hk.
Qed.

Lemma follows_call {A X} (e : E X) (k : X -> prog E A) Q g :
  allowed X e g -> (forall x, ans X e g x -> follows (k x) Q (update X e x g)) ->
  follows (pbind (call e) k) Q g.
Proof. by split. Qed.

(** An environment whose answers, to events that are allowed, are those the
    protocol expects. *)
Definition answers {W} (h : handler E W) (R : W -> G -> Prop) : Prop :=
  forall X (e : E X) w g, allowed X e g -> R w g ->
    ans X e g (fst (h X e w)) /\ R (snd (h X e w)) (update X e (fst (h X e w)) g).

Lemma follows_run {W A} (h : handler E W) R (p : prog E A) Q w g :
  answers h R -> follows p Q g -> R w g ->
  respects (trace h p w) g /\
  Q (fst (run h p w)) (ghost_of (trace h p w) g) /\
  R (snd (run h p w)) (ghost_of (trace h p w) g).
Proof.
  intros HR. revert w g. induction p as [a|X e k IH]; intros w g; cbn.
  { intros HQ Hw. split; [apply respects_nil|done]. }
  intros [He Hk] Hw. destruct (HR X e w g He Hw) as [Ha Hw'].
  destruct (h X e w) as [x w']. cbn in *.
  destruct (IH x w' (update X e x g) (Hk x Ha) Hw') as (H1 & H2 & H3).
  split; [by apply respects_cons|done].
Qed.

Lemma follows_run_for {W A} (h : handler E W) R n (p : prog E A) Q w g :
  answers h R -> follows p Q g -> R w g ->
  respects (snd (run_for n h p w)) g /\
  R (fst (run_for n h p w)) (ghost_of (snd (run_for n h p w)) g).
Proof.
  intros HR. revert p w g. induction n as [|n IH]; intros p w g.
  { intros _ Hw. cbn. split; [apply respects_nil|done]. }
  destruct p as [a|X e k]; cbn.
  { intros _ Hw. split; [apply respects_nil|done]. }
  intros [He Hk] Hw. destruct (HR X e w g He Hw) as [Ha Hw'].
  destruct (h X e w) as [x w']. cbn in *.
  destruct (IH (k x) w' (update X e x g) (Hk x Ha) Hw') as (H1 & H2).
  destruct (run_for n h (k x) w') as [w'' t]. cbn in *.
  split; [by apply respects_cons|done].
Qed.

(** Invariants of a protocol hold after every trace that respects it. *)
Lemma respects_invariant (I : G -> Prop) t g :
  (forall X (e : E X) x g, I g -> allowed X e g -> I (update X e x g)) ->
  respects t g -> I g -> I (ghost_of t g).
Proof.
  intros HI. revert g. induction t as [|[X e x] t IH]; intros g Hr Hg; [done|].
  cbn. apply IH.
  - intros pre Y f y post ->. apply (Hr (Ev e x :: pre) Y f y post). done.
  - apply HI; [done|]. by apply (Hr [] X e x t).
Qed.
End protocol.
