(* ===== verification/Sys.v ===== *)
(** * The environment of the providers

    JSON documents and the [serde] decoders the providers derive, HTTP
    requests and responses, and the events a provider issues: HTTP requests,
    DNS lookups, pauses, the keyed lock, and its own caches. *)

From S2P Require Import Prelude Rstr Errors Effects.

(** ** JSON and serde *)

Inductive Json : Type :=
| JNull
| JBool (b : bool)
| JNum (n : Z)
| JFloat (text : string)
| JStr (s : string)
| JArr (l : list Json)
| JObj (fields : list (string * Json)).

Definition assoc {A} (k : string) (l : list (string * A)) : option A :=
  snd <$> head (List.filter (fun p => (fst p =? k)%string) l).

Definition count_key {A} (k : string) (l : list (string * A)) : nat :=
  length (List.filter (fun p => (fst p =? k)%string) l).

(** A derived [Deserialize] reads a struct from an object, by name (unknown
    fields are ignored, a repeated known field is an error), or from an
    array, by position.  The answer has one entry per field, [None] for a
    missing one. *)
Definition struct_fields (names : list string) (j : Json) : option (list (option Json)) :=
  match j with
  | JObj fs =>
      if existsb (fun n => (1 <? count_key n fs)%nat) names then None
      else Some (map (fun n => assoc n fs) names)
  | JArr l =>
      if (length names <? length l)%nat then None
      else Some (map (fun i => l !! i) (seq 0 (length names)))
  | _ => None
  end.

(** The field [k] of a document, the [i]th when the document is an array. *)
Definition member (i : nat) (k : string) (j : Json) : option Json :=
  match j with
  | JObj fs => assoc k fs
  | JArr l => l !! i
  | _ => None
  end.

Lemma struct_fields_member names j fs i k :
  struct_fields names j = Some fs -> names !! i = Some k -> fs !! i = Some (member i k j).
Proof.
  intros Hs Hi. destruct j as [| | | | |l|kvs]; try done; unfold struct_fields in Hs;
    case_match; try done; injection Hs as <-; apply list_lookup_fmap_Some.
  - exists i. split; [done|].
    apply lookup_seq. split; [done|]. by apply lookup_lt_Some in Hi.
  - by exists k.
Qed.

(** A mandatory field, and one with [#[serde(default)]]. *)
Definition required {A} (dec : Json -> option A) (o : option Json) : option A :=
  match o with Some j => dec j | None => None end.

Definition defaulted {A} (d : A) (dec : Json -> option A) (o : option Json) : option A :=
  match o with Some j => dec j | None => Some d end.

Definition de_string (j : Json) : option string :=
  match j with JStr s => Some s | _ => None end.
Definition de_bool (j : Json) : option bool :=
  match j with JBool b => Some b | _ => None end.
Definition de_int (lo hi : Z) (j : Json) : option Z :=
  match j with JNum n => if (lo <=? n) && (n <=? hi) then Some n else None | _ => None end.
Definition de_u8 := de_int 0 255.
Definition de_u32 := de_int 0 (2 ^ 32 - 1).
Definition de_u64 := de_int 0 (2 ^ 64 - 1).
Definition de_i64 := de_int (- 2 ^ 63) (2 ^ 63 - 1).

Definition de_option {A} (dec : Json -> option A) (j : Json) : option (option A) :=
  match j with JNull => Some None | _ => Some <$> dec j end.

Definition de_vec {A} (dec : Json -> option A) (j : Json) : option (list A) :=
  match j with JArr l => mapM dec l | _ => None end.

(** ** HTTP *)

Inductive Method : Type := GET | POST | PUT | PATCH | DELETE.

#[global] Instance method_eq_dec : EqDecision Method.
Proof. solve_decision. Defined.

(** A request as the providers build it: [query] holds the pairs given to
    [RequestBuilder::query], [body] what the body stands for: the value given
    to [json], the object of the pairs given to [form], or the string given to
    [body]. *)
Record Request : Type := mkRequest {
  method : Method;
  url : string;
  query : list (string * string);
  headers : list (string * string);
  body : option Json
}.

(** A response.  A header value is [None] when it is not visible ASCII (its
    [to_str] fails).  The body is [None] when reading it fails; otherwise it
    is its text and what [serde_json] parses it to. *)
Record Response : Type := mkResponse {
  status : Z;
  resp_headers : list (string * option string);
  resp_body : option (string * option Json)
}.

(** [response.headers().get(name).and_then(|v| v.to_str().ok())]. *)
Definition header_str (name : string) (r : Response) : option string :=
  mjoin (assoc name (resp_headers r)).

(** [response.text().await.unwrap_or_default()]. *)
Definition text_or_default (r : Response) : string :=
  match resp_body r with Some (raw, _) => raw | None => EmptyString end.

(** [response.json::<T>().await?]. *)
Definition response_json {A} (dec : Json -> option A) (r : Response) : dns_result A :=
  match resp_body r with
  | Some (_, Some j) => ok_or (dec j) (Http Decode)
  | _ => Err (Http Decode)
  end.

(** [serde_json::from_str::<T>(&response.text().await.unwrap_or_default())]. *)
Definition from_body {A} (dec : Json -> option A) (r : Response) : option A :=
  match resp_body r with
  | Some (_, Some j) => dec j
  | _ => None
  end.

(** ** Time *)

(** A [Duration] in nanoseconds. *)
Definition Duration : Type := Z.
Definition from_secs (s : Z) : Duration := s * 1000000000.
Definition as_secs (d : Duration) : Z := d / 1000000000.

Lemma as_secs_from_secs s : as_secs (from_secs s) = s.
Proof. unfold as_secs, from_secs. apply Z.div_mul. lia. Qed.

(** [Instant + Duration], which panics when the sum is no [Instant]: its
    seconds are an [i64]. *)
Definition INSTANT_LIMIT : Z := from_secs (2 ^ 63).
Definition instant_add (t : Z) (d : Duration) : option Z :=
  if t + d <? INSTANT_LIMIT then Some (t + d) else None.

(** ** DNS *)

Inductive RecordType : Type := SOA | NS | TXT.

(** A socket address in text form, [ip:port]. *)
Definition SocketAddr : Type := (string * Z)%type.

(** The data of an answer: a TXT record is a list of byte strings. *)
Inductive RData : Type :=
| RSoa
| RNs (name : string)
| RTxt (txt_data : list string)
| ROther.

(** The system resolver shared by the process, a fresh system resolver, or
    one that queries the given servers directly. *)
Inductive ResolverId : Type :=
| Shared
| System
| Direct (addrs : list SocketAddr).

(** How building a resolver from the system configuration fails: reading the
    configuration, or building the resolver. *)
Inductive BuildFailure : Type :=
| ReadConf (msg : string)
| BuildFail (msg : string).

(** ** TCP

    How an operation on a stream fails: with an I/O error, or because the time
    allotted to the exchange it is a part of has elapsed. *)
Inductive IoFailure : Type :=
| IoError (msg : string)
| Elapsed.

(** ** Events

    [Now] is a monotonic instant in nanoseconds; [SystemTimeNow] the seconds of
    the system clock since the epoch, [None] when it is before it; [OnceGet] and
    [OnceSet] are for a cell that is written once ([OnceLock]); the token cell
    is an [AsyncMutex<Option<CachedToken>>], a token with the instant from which
    it is renewed, read and written while its lock is held.  [UtcNow] is the
    date and time of day, as year, month, day, hour, minute and second. *)

Inductive sysE : Type -> Type :=
| HttpSend (r : Request) : sysE (result Response ReqwestError)
| Sleep (d : Duration) : sysE unit
| Now : sysE Z
| Acquire (key : string) : sysE unit
| Release (key : string) : sysE unit
| CacheGet (key : string) : sysE (option string)
| CachePut (key value : string) : sysE unit
| SystemTimeNow : sysE (option Z)
| OnceGet : sysE (option Z)
| OnceSet (v : Z) : sysE unit
| TokenLock : sysE unit
| TokenUnlock : sysE unit
| TokenGet : sysE (option (string * Z))
| TokenSet (t : option (string * Z)) : sysE unit
| UtcNow : sysE (Z * Z * Z * Z * Z * Z)
| RandomU16 : sysE Z
| TcpConnect (host : string) (port : Z) : sysE (result unit IoFailure)
| TcpWriteAll (bytes : string) : sysE (result unit IoFailure)
| TcpReadExact (n : Z) : sysE (result string IoFailure)
| SharedResolverGet : sysE bool
| SharedResolverInit : sysE unit
| SystemResolverBuild : sysE (result unit BuildFailure)
| DirectResolverBuild (addrs : list SocketAddr) : sysE (result unit string)
| Lookup (r : ResolverId) (name : string) (t : RecordType) : sysE (result (list RData) string)
| LookupIp (r : ResolverId) (name : string) : sysE (result (list string) string).

Abbreviation sys A := (prog sysE A).

(** [let _guard = locks.lock(key).await;] for the rest of the function: the
    guard is dropped, and the lock released, on every path out of it. *)
Definition with_lock {A} (key : string) (p : sys A) : sys A :=
  let* _ := call (Acquire key) in
  let* a := p in
  let* _ := call (Release key) in
  Ret a.

Lemma wp_with_lock {W A} (h : handler sysE W) key (p : sys A) (Q : A -> W -> Prop) w :
  wp h p (fun a w' => Q a (snd (h _ (Release key) w'))) (snd (h _ (Acquire key) w)) ->
  wp h (with_lock key p) Q w.
Proof.
  intros H. apply wp_bind, wp_vis, wp_ret, wp_bind. eapply wp_mono; [exact H|].
  intros a w' HQ. by apply wp_bind, wp_vis, wp_ret, wp_ret.
Qed.
