(* ===== verification/Common.v ===== *)
(** * Shared helpers of the providers (src/providers/common.rs)

    Validation of names, values and TTLs, names relative to a zone, path
    encoding, capping of error texts, and bounded retries.  The keyed lock of
    the same file is in [Locks]. *)

From S2P Require Import Prelude Rstr Errors Effects Sys.

(** ** Other crates

    The functions of [percent-encoding], [url], [http] and [reqwest] this
    file calls, as parameters. *)
Class Ext : Type := {
  (** [percent_encoding::utf8_percent_encode], for a set of ASCII bytes. *)
  utf8_percent_encode : (ascii -> bool) -> string -> string;
  (** [url::Url::parse], as the scheme and [host_str] of the URL. *)
  url_parse : string -> option (string * option string);
  (** [http::Method::is_idempotent]. *)
  is_idempotent : Method -> bool;
  (** [http::StatusCode::is_success], and its [Display]. *)
  is_success : Z -> bool;
  status_text : Z -> string;
  (** [reqwest::RequestBuilder::try_clone], and the method of the request
      the builder builds, if it builds. *)
  try_clone : Request -> option Request;
  built_method : Request -> option Method
}.

(** Upper-case hexadecimal digits. *)
Definition hex_digit (n : Z) : ascii :=
  byte (if n <? 10 then 48 + n else 55 + n).

Definition percent (c : ascii) : string :=
  String "%"%char (String (hex_digit (byte_of c / 16))
    (String (hex_digit (byte_of c mod 16)) EmptyString)).

Fixpoint percent_bytes (set : ascii -> bool) (s : string) : string :=
  match s with
  | EmptyString => EmptyString
  | String c s' =>
      (if (128 <=? byte_of c) || set c then percent c else String c EmptyString)
      +:+ percent_bytes set s'
  end.

(** What those crates document. *)
Class ExtSpec (X : Ext) : Prop := {
  (** Every byte that is not ASCII or is in the set becomes [%XX]. *)
  percent_encode_spec : forall set s, utf8_percent_encode set s = percent_bytes set s;
  (** RFC 9110, section 9.2.2. *)
  is_idempotent_spec : forall m,
    is_idempotent m = match m with GET | PUT | DELETE => true | POST | PATCH => false end;
  is_success_spec : forall s, is_success s = (200 <=? s) && (s <=? 299);
  (** A clone is the same request. *)
  try_clone_spec : forall r r', try_clone r = Some r' -> r' = r;
  built_method_spec : forall r m, built_method r = Some m -> m = method r
}.

Definition MAX_ERROR_BODY : nat := 512.
Definition MAX_ATTEMPTS : Z := 3.
Definition MAX_RETRY_WAIT : Duration := from_secs 10.
Definition RETRY_BACKOFF : Duration := from_secs 1.

(** [RETRY_BACKOFF * 2u32.pow(attempt - 1)], in [u32]. *)
Definition retry_backoff (attempt : Z) : Duration :=
  RETRY_BACKOFF * wrap_u 32 (2 ^ wrap_u 32 (attempt - 1)).

(** ** Path encoding *)

(** [CONTROLS] is C0 and DEL. *)
Definition CONTROLS (c : ascii) : bool := (byte_of c <=? 31) || (byte_of c =? 127).

Definition PATH_SEGMENT (c : ascii) : bool :=
  CONTROLS c ||
  existsb (Ascii.eqb c)
    [" "; "034"; "#"; "%"; "/"; "<"; ">"; "?"; "\"; "^"; "`"; "{"; "|"; "}"]%char.

Section common.
Context `{X : Ext}.

Definition encode_path (segment : string) : string :=
  utf8_percent_encode PATH_SEGMENT segment.

(** ** Retries *)

Definition retry_delay (m : Method) (response : Response) (attempt : Z) : option Duration :=
  let retryable :=
    if status response =? 429 then true
    else if status response =? 503 then is_idempotent m
    else false in
  if negb retryable then None
  else
    let retry_after :=
      from_secs <$> (header_str "retry-after" response ≫= (fun v => parse_u64 (trim v))) in
    match retry_after with
    | Some wait => if MAX_RETRY_WAIT <? wait then None else Some wait
    | None => Some (retry_backoff attempt)
    end.

(** The loop of [send_retrying], with [left = MAX_ATTEMPTS - attempt]. *)
Fixpoint send_loop (m : option Method) (left : nat) (request : Request)
  : sys (result Response ReqwestError) :=
  let next := try_clone request in
  await? response := call (HttpSend request) in
  match next, m with
  | Some next, Some m' =>
      match left with
      | O => Ret (Ok response)
      | S left' =>
          match retry_delay m' response (MAX_ATTEMPTS - Z.of_nat left) with
          | None => Ret (Ok response)
          | Some wait =>
              let* _ := call (Sleep wait) in send_loop m left' next
          end
      end
  | _, _ => Ret (Ok response)
  end.

Definition send_retrying (request : Request) : sys (result Response ReqwestError) :=
  let m := try_clone request ≫= built_method in
  send_loop m (Z.to_nat (MAX_ATTEMPTS - 1)) request.

(** [send_retrying().await?] in a function returning [DnsError]. *)
Definition send (request : Request) : sys (dns_result Response) :=
  let* r := send_retrying request in Ret (map_err Http r).

(** ** Validation *)

Definition validate_acme_value (value : string) : dns_result unit :=
  if is_empty value || (128 <? len value) then
    Err (Other ("invalid ACME value length: " +:+ pretty (len value)))
  else if negb (all_bytes (fun b => is_ascii_alphanumeric b || Ascii.eqb b "-" || Ascii.eqb b "_") value)
  then Err (Other "ACME value must be base64url (A-Z a-z 0-9 - _)")
  else Ok tt.

(** One iteration of the loop over the labels. *)
Definition validate_label (fqdn label : string) : dns_result unit :=
  if is_empty label || (63 <? len label) then
    Err (Other ("invalid label in " +:+ fqdn))
  else if contains_char "000" label then
    Err (Other "fqdn contains null byte")
  else if negb (all_bytes (fun b => is_ascii_alphanumeric b || Ascii.eqb b "-" || Ascii.eqb b "_") label)
  then Err (Other ("invalid character in " +:+ fqdn))
  else Ok tt.

Fixpoint validate_labels (fqdn : string) (labels : list string) : dns_result unit :=
  match labels with
  | [] => Ok tt
  | l :: ls => let! _ := validate_label fqdn l in validate_labels fqdn ls
  end.

Definition validate_fqdn (fqdn : string) : dns_result unit :=
  let trimmed := trim_end_matches dot fqdn in
  if is_empty trimmed || (253 <? len trimmed) then
    Err (Other ("invalid fqdn length: " +:+ fqdn))
  else validate_labels fqdn (split dot trimmed).

Definition validate_zone (zone : string) : dns_result unit :=
  let! _ := validate_fqdn zone in
  let trimmed := trim_end_matches dot zone in
  if negb (contains_char dot trimmed) then
    Err (Other ("zone must have at least two labels, got " +:+ zone))
  else Ok tt.

(** [i32::MAX as u32]. *)
Definition MAX_TTL : Z := 2 ^ 31 - 1.

Definition validate_ttl_range (ttl min max : Z) : dns_result Z :=
  if negb ((min <=? ttl) && (ttl <=? max)) then
    Err (Other ("TTL must be between " +:+ pretty min +:+ " and " +:+ pretty max
                +:+ ", got " +:+ pretty ttl))
  else Ok ttl.

Definition validate_ttl (ttl : Z) : dns_result Z := validate_ttl_range ttl 0 MAX_TTL.

Definition relative_name (fqdn zone : string) : dns_result string :=
  let fqdn := trim_end_matches dot fqdn in
  let zone := trim_end_matches dot zone in
  if (fqdn =? zone)%string then Ok "@"
  else
    let suffix := "." +:+ zone in
    ok_or (strip_suffix suffix fqdn)
      (Other ("fqdn " +:+ fqdn +:+ " is not within zone " +:+ zone)).

Definition validate_https_base (base provider : string) : dns_result unit :=
  let! parsed := ok_or (url_parse base)
    (Other (provider +:+ " api_base is not a valid URL: " +:+ base)) in
  let '(scheme, host_str) := parsed in
  let scheme_ok :=
    (scheme =? "https")%string
    || ((scheme =? "http")%string
        && match host_str with
           | Some h => (h =? "localhost")%string || (h =? "127.0.0.1")%string || (h =? "::1")%string
           | None => false
           end) in
  if negb scheme_ok then
    Err (Other (provider +:+ " api_base must use https:// (got " +:+ base +:+ ")"))
  else Ok tt.

(** ** Error texts *)

(** [while cut > 0 && !raw.is_char_boundary(cut) { cut -= 1; }]. *)
Fixpoint find_cut (raw : string) (cut : nat) : nat :=
  match cut with
  | O => O
  | S n => if is_char_boundary raw cut then cut else find_cut raw n
  end.

Definition truncated_mark : string := bytes [226; 128; 166] +:+ "(truncated)".

Definition truncate_error_body (raw : string) : string :=
  if (String.length raw <=? MAX_ERROR_BODY)%nat then raw
  else take_bytes (find_cut raw MAX_ERROR_BODY) raw +:+ truncated_mark.

Definition api_error (provider method path : string) (response : Response) : DnsError :=
  let text := truncate_error_body (text_or_default response) in
  Api (provider +:+ " " +:+ method +:+ " " +:+ path +:+ " returned "
       +:+ status_text (status response) +:+ ": " +:+ text).

End common.

(** ** Theory: names *)

Definition name_byte (b : ascii) : bool :=
  is_ascii_alphanumeric b || Ascii.eqb b "-" || Ascii.eqb b "_".

(** A DNS label: 1 to 63 letters, digits, hyphens and underscores. *)
Definition valid_label (l : string) : Prop :=
  l <> EmptyString /\ len l <= 63 /\ all_bytes name_byte l = true.

(** A domain name, without its trailing dots: at most 253 bytes of labels. *)
Definition valid_name (s : string) : Prop :=
  let t := trim_end_matches dot s in
  t <> EmptyString /\ len t <= 253 /\ Forall valid_label (split dot t).

Lemma name_byte_not (c : ascii) b :
  name_byte c = false -> name_byte b = true -> Ascii.eqb b c = false.
Proof. intros Hc Hb. destruct (Ascii.eqb_spec b c); congruence. Qed.

Lemma name_bytes_avoid c s :
  name_byte c = false -> all_bytes name_byte s = true -> contains_char c s = false.
Proof.
  intros Hc. induction s as [|b s IH]; [done|]. cbn. intros [Hb Hs]%andb_true_iff.
  by rewrite (name_byte_not c b), IH.
Qed.

Lemma validate_label_ok fqdn l : validate_label fqdn l = Ok tt <-> valid_label l.
Proof.
  unfold validate_label, valid_label. fold name_byte.
  destruct l as [|c l]; [by cbn; split; [|intros []]|]. cbn [is_empty orb].
  destruct (Z.ltb_spec 63 (len (String c l))); [split; [done|lia]|].
  change (all_bytes _ (String c l)) with (all_bytes name_byte (String c l)).
  destruct (all_bytes name_byte (String c l)) eqn:E.
  - rewrite (name_bytes_avoid "000") by done. split; [done|done].
  - destruct (contains_char _ _); split; naive_solver.
Qed.

Lemma validate_labels_ok fqdn ls : validate_labels fqdn ls = Ok tt <-> Forall valid_label ls.
Proof.
  induction ls as [|l ls IH]; cbn; [by split|].
  rewrite Forall_cons, <- IH, <- (validate_label_ok fqdn l).
  destruct (validate_label fqdn l) as [[]|]; cbn; naive_solver.
Qed.

Lemma len_not_empty s : is_empty s = false <-> s <> EmptyString.
Proof. by destruct s. Qed.

Lemma validate_fqdn_valid s : validate_fqdn s = Ok tt <-> valid_name s.
Proof.
  unfold validate_fqdn, valid_name.
  destruct (is_empty _) eqn:E; cbn [orb].
  - apply is_empty_true in E. rewrite E. naive_solver.
  - apply len_not_empty in E. destruct (Z.ltb_spec 253 (len (trim_end_matches dot s))).
    + split; [done|]. intros (_ & ? & _). lia.
    + rewrite validate_labels_ok. naive_solver.
Qed.

Lemma validate_fqdn_unit s u : validate_fqdn s = Ok u -> valid_name s.
Proof. destruct u. apply validate_fqdn_valid. Qed.

Lemma name_byte_lower c : name_byte (to_lower c) = name_byte c.
Proof.
  unfold name_byte. rewrite to_lower_alnum. by rewrite !to_lower_eqb.
Qed.

Lemma valid_label_lower l : valid_label (to_ascii_lowercase l) <-> valid_label l.
Proof.
  unfold valid_label, len. rewrite lower_length, (lower_all_bytes _ _ name_byte_lower).
  destruct l; split; naive_solver.
Qed.

(** Lower-casing a name does not change its validity. *)
Lemma valid_name_lower s : valid_name (to_ascii_lowercase s) <-> valid_name s.
Proof.
  unfold valid_name, len. rewrite lower_trim_end, lower_length, lower_split by done.
  rewrite Forall_fmap.
  assert (forall t, to_ascii_lowercase t <> EmptyString <-> t <> EmptyString) as ->
    by by intros [].
  split; intros (? & ? & H); (split; [done|split; [done|]]);
    (eapply Forall_impl; [exact H|]); intros l; apply valid_label_lower.
Qed.

Definition host_byte (b : ascii) : bool := name_byte b || Ascii.eqb b dot.

Lemma valid_labels_bytes s :
  Forall valid_label (split dot s) -> all_bytes host_byte s = true.
Proof.
  intros H. rewrite <- (join_split dot s). apply all_bytes_join; [done|].
  eapply Forall_impl; [exact H|]. intros l (_ & _ & Hl).
  eapply all_bytes_impl; [|exact Hl]. intros c Hc. unfold host_byte. by rewrite Hc.
Qed.

Lemma valid_name_bytes s :
  valid_name s -> all_bytes host_byte (trim_end_matches dot s) = true.
Proof. intros (_ & _ & H). by apply valid_labels_bytes. Qed.

(** [relative_name] is [@] at the apex, and otherwise what precedes the zone. *)
Lemma relative_name_ok f z r :
  relative_name f z = Ok r <->
    (trim_end_matches dot f = trim_end_matches dot z /\ r = "@") \/
    (trim_end_matches dot f <> trim_end_matches dot z /\
     trim_end_matches dot f = r +:+ "." +:+ trim_end_matches dot z).
Proof.
  unfold relative_name. destruct (String.eqb_spec (trim_end_matches dot f) (trim_end_matches dot z)) as [->|Hne].
  - naive_solver.
  - rewrite ok_or_ok, strip_suffix_spec. naive_solver.
Qed.

(** The name a record relative to a zone stands for. *)
Definition absolute_name (rname zone : string) : string :=
  if (rname =? "@")%string then trim_end_matches dot zone
  else rname +:+ "." +:+ trim_end_matches dot zone.

(** ** Theory: path encoding *)

(** Percent-decoding, the inverse the servers apply. *)
Definition hex_value (c : ascii) : option Z :=
  if in_range 48 57 c then Some (byte_of c - 48)
  else if in_range 65 70 c then Some (byte_of c - 55)
  else None.

Fixpoint percent_decode (s : string) : option string :=
  match s with
  | EmptyString => Some EmptyString
  | String c s1 =>
      if Ascii.eqb c "%" then
        match s1 with
        | String a (String b s2) =>
            match hex_value a, hex_value b, percent_decode s2 with
            | Some x, Some y, Some t => Some (String (byte (16 * x + y)) t)
            | _, _, _ => None
            end
        | _ => None
        end
      else String c <$> percent_decode s1
  end.

(** The bytes that keep their meaning inside one segment of a URL path. *)
Definition segment_byte (c : ascii) : bool :=
  (Ascii.eqb c "%" || negb (PATH_SEGMENT c)) && (byte_of c <? 128).

Lemma percent_decode_percent c s :
  percent_decode (percent c +:+ s) = String c <$> percent_decode s.
Proof.
  cbn. assert (forall c, match hex_value (hex_digit (byte_of c / 16)), hex_value (hex_digit (byte_of c mod 16)) with
    | Some x, Some y => Ascii.eqb (byte (16 * x + y)) c | _, _ => false end = true) as H
    by (apply byte_case; by vm_compute).
  specialize (H c). destruct (hex_value _) as [x|]; [|done].
  destruct (hex_value _) as [y|]; [|done]. apply Ascii.eqb_eq in H as ->.
  by destruct (percent_decode s).
Qed.

Lemma percent_bytes_decode set s :
  set "%"%char = true -> percent_decode (percent_bytes set s) = Some s.
Proof.
  intros Hset. induction s as [|c s IH]; [done|]. cbn [percent_bytes].
  destruct ((128 <=? byte_of c) || set c) eqn:E.
  - rewrite percent_decode_percent, IH. done.
  - apply orb_false_iff in E as [_ E]. cbn.
    destruct (Ascii.eqb_spec c "%") as [->|]; [congruence|].
    change (percent_decode (EmptyString +:+ percent_bytes set s)) with (percent_decode (percent_bytes set s)).
    by rewrite IH.
Qed.

Lemma percent_segment c : all_bytes segment_byte (percent c) = true.
Proof. revert c. apply byte_case. by vm_compute. Qed.

Lemma percent_bytes_segment s : all_bytes segment_byte (percent_bytes PATH_SEGMENT s) = true.
Proof.
  induction s as [|c s IH]; [done|]. cbn [percent_bytes]. rewrite all_bytes_append, IH.
  rewrite andb_true_r. destruct (_ || _) eqn:E; [apply percent_segment|].
  apply orb_false_iff in E as [E1 E2]. cbn. unfold segment_byte.
  rewrite E2. apply Z.leb_gt in E1. rewrite andb_true_r, orb_true_r.
  by apply Z.ltb_lt.
Qed.

(** Validated names need no escape. *)
Lemma percent_bytes_host s :
  all_bytes host_byte s = true -> percent_bytes PATH_SEGMENT s = s.
Proof.
  induction s as [|c s IH]; [done|]. cbn. intros [Hc Hs]%andb_true_iff.
  assert (forall c, negb (host_byte c) || negb ((128 <=? byte_of c) || PATH_SEGMENT c) = true) as H
    by (apply byte_case; by vm_compute).
  specialize (H c). rewrite Hc in H. apply negb_true_iff in H. rewrite H, IH by done. done.
Qed.

(** ** Theory: error texts *)

Lemma find_cut_le raw n : (find_cut raw n <= n)%nat.
Proof. induction n as [|n IH]; cbn [find_cut]; [lia|]. destruct (is_char_boundary _ _); lia. Qed.

Lemma find_cut_boundary raw n : is_char_boundary raw (find_cut raw n) = true.
Proof.
  induction n as [|n IH]; [done|]. cbn [find_cut].
  by destruct (is_char_boundary raw (S n)) eqn:E.
Qed.

(** UTF-8: the text is a sequence of characters, each a first byte followed
    by continuation bytes. *)
Definition utf8_char (s : string) : Prop :=
  exists c t, s = String c t /\ is_continuation c = false /\ all_bytes is_continuation t = true.

Lemma get_append a b n : String.get (String.length a + n) (a +:+ b) = String.get n b.
Proof. induction a as [|x a IH]; [done|]. cbn. exact IH. Qed.

Lemma get_append_l a b n :
  (n < String.length a)%nat -> String.get n (a +:+ b) = String.get n a.
Proof.
  revert n. induction a as [|x a IH]; cbn; intros n H; [lia|].
  destruct n as [|n]; [done|]. apply IH. lia.
Qed.

Lemma get_all p t n c : all_bytes p t = true -> String.get n t = Some c -> p c = true.
Proof.
  revert n. induction t as [|x t IH]; intros n; [done|]. cbn.
  intros [Hx Ht]%andb_true_iff. destruct n; [by intros [= <-] | by apply IH].
Qed.

Lemma get_some s n : (n < String.length s)%nat -> exists c, String.get n s = Some c.
Proof.
  revert n. induction s as [|x s IH]; cbn; intros n H; [lia|].
  destruct n as [|n]; [eauto|]. apply IH. lia.
Qed.

(** A boundary of a UTF-8 text falls between two characters. *)
Lemma boundary_between chars n :
  Forall utf8_char chars ->
  is_char_boundary (join EmptyString chars) n = true ->
  (n <= String.length (join EmptyString chars))%nat ->
  exists k, take_bytes n (join EmptyString chars) = join EmptyString (take k chars).
Proof.
  intros Hc. revert n. induction Hc as [|ch chars Hch Hc IH]; intros n Hb Hn.
  - exists 0%nat. by destruct n.
  - assert (join EmptyString (ch :: chars) = ch +:+ join EmptyString chars) as Hj
      by (destruct chars; cbn; by autorewrite with str).
    rewrite Hj in *. destruct (decide (n < String.length ch)%nat) as [Hlt|Hge].
    + destruct n as [|n]; [by exists 0%nat; destruct ch|].
      destruct Hch as (c & t & -> & _ & Ht). cbn in Hlt.
      unfold is_char_boundary in Hb. cbn [Nat.eqb] in Hb. rewrite get_append_l in Hb by (cbn; lia).
      cbn in Hb. destruct (get_some t n) as [d Hd]; [lia|]. rewrite Hd in Hb.
      by rewrite (get_all _ _ _ _ Ht Hd) in Hb.
    + assert (n = String.length ch + (n - String.length ch))%nat as En by lia.
      rewrite length_append in Hn.
      destruct (IH (n - String.length ch)%nat) as [k Hk].
      * unfold is_char_boundary in *. destruct (Nat.eqb_spec (n - String.length ch) 0); [done|].
        destruct (Nat.eqb_spec n 0); [lia|]. rewrite En, get_append in Hb.
        destruct (String.get _ _); [done|]. apply Nat.eqb_eq in Hb. apply Nat.eqb_eq.
        rewrite length_append in Hb. lia.
      * lia.
      * exists (S k). cbn [take]. rewrite En, take_bytes_plus, Hk.
        destruct (take k chars) eqn:E; cbn; by autorewrite with str.
Qed.

(** ** Theory: retries *)

(** The HTTP exchanges and the pauses of a trace. *)
Definition sends (t : list (event sysE)) : list (Request * result Response ReqwestError) :=
  omap (fun ev => match ev with
                  | @Ev _ Y e x =>
                      match e in sysE Z return Z -> option (Request * result Response ReqwestError) with
                      | HttpSend r => fun x => Some (r, x)
                      | _ => fun _ => None
                      end x
                  end) t.

Definition sleeps (t : list (event sysE)) : list Duration :=
  omap (fun ev => match ev with
                  | @Ev _ Y e x => match e with Sleep d => Some d | _ => None end
                  end) t.

Lemma sends_app t u : sends (t ++ u) = sends t ++ sends u.
Proof. apply omap_app. Qed.

Section retry.
Context `{X : Ext} `{S : !ExtSpec X}.

(** A response after which the request may be sent again. *)
Definition retryable (m : Method) (r : result Response ReqwestError) : Prop :=
  match r with
  | Ok resp => status resp = 429 \/ (status resp = 503 /\ is_idempotent m = true)
  | Err _ => False
  end.

Lemma retry_delay_retryable m resp a d :
  retry_delay m resp a = Some d -> retryable m (Ok resp).
Proof.
  unfold retry_delay. cbn. destruct (Z.eqb_spec (status resp) 429); [by left|].
  destruct (Z.eqb_spec (status resp) 503); [|done].
  destruct (is_idempotent m); [by right|done].
Qed.

Lemma parse_digits_range acc s n : 0 <= acc -> parse_digits acc s = Some n -> 0 <= n.
Proof.
  revert acc. induction s as [|c s IH]; intros acc Hacc; cbn; [by intros [= <-]|].
  unfold digit, in_range. destruct (_ && _) eqn:E; [|done].
  apply andb_true_iff in E as [E _]. apply Z.leb_le in E.
  destruct (_ <? _); [|done]. apply IH. lia.
Qed.

Lemma parse_u64_nonneg s n : parse_u64 s = Some n -> 0 <= n.
Proof.
  unfold parse_u64. destruct s as [|c s]; [done|].
  destruct (is_empty _); [done|]. by apply parse_digits_range.
Qed.

Lemma retry_backoff_value a : 1 <= a <= 32 -> retry_backoff a = from_secs (2 ^ (a - 1)).
Proof.
  intros Ha. unfold retry_backoff, RETRY_BACKOFF, from_secs.
  rewrite (wrap_u_small 32 (a - 1)) by lia. rewrite wrap_u_small; [lia|].
  split; [apply Z.pow_nonneg; lia|]. apply Z.pow_lt_mono_r; lia.
Qed.

Lemma retry_delay_bounds m resp a d :
  1 <= a <= 2 -> retry_delay m resp a = Some d -> 0 <= d <= MAX_RETRY_WAIT.
Proof.
  intros Ha. unfold retry_delay. destruct (negb _); [done|].
  destruct (header_str _ _) as [v|]; cbn.
  - destruct (parse_u64 (trim v)) as [n|] eqn:En; cbn.
    + apply parse_u64_nonneg in En. destruct (Z.ltb_spec MAX_RETRY_WAIT (from_secs n)); [done|].
      intros [= <-]. unfold from_secs in *. lia.
    + intros [= <-]. assert (a = 1 \/ a = 2) as [-> | ->] by lia; vm_compute; intuition congruence.
  - intros [= <-]. assert (a = 1 \/ a = 2) as [-> | ->] by lia; vm_compute; intuition congruence.
Qed.

(** No further attempt: the answer just got is the one returned. *)
Local Ltac stop_here :=
  eexists [], _; cbn; split_and!; [reflexivity|reflexivity|lia|constructor|done|constructor].

(** The run of the loop: some retryable answers, a bounded pause after each,
    and then the answer that is returned. *)
Lemma send_loop_trace {W} (h : handler sysE W) m left req w :
  (left <= 2)%nat -> (forall mm, m = Some mm -> mm = method req) ->
  exists again final,
    sends (trace h (send_loop m left req) w) = map (fun r => (req, r)) (again ++ [final]) /\
    fst (run h (send_loop m left req) w) = final /\
    (length again <= left)%nat /\
    Forall (retryable (method req)) again /\
    length (sleeps (trace h (send_loop m left req) w)) = length again /\
    Forall (fun d => 0 <= d <= MAX_RETRY_WAIT) (sleeps (trace h (send_loop m left req) w)).
Proof.
  intros Hl Hm. revert w Hl. induction left as [|left IH]; intros w Hl;
    cbn [send_loop]; unfold ptry, call; cbn [pbind trace run];
    destruct (h _ (HttpSend req) w) as [r w1] eqn:E1.
  - destruct r as [resp|e]; [destruct (try_clone req) as [nx|], m as [mm|]|]; cbn;
      stop_here.
  - destruct r as [resp|e];
      [|stop_here].
    destruct (try_clone req) as [nx|] eqn:Ec;
      [|stop_here].
    destruct m as [mm|];
      [|stop_here].
    destruct (retry_delay mm resp _) as [d|] eqn:Ed;
      [|stop_here].
    apply try_clone_spec in Ec as ->. rewrite (Hm mm eq_refl) in *.
    cbn [pbind trace run]. destruct (h _ (Sleep d) w1) as [[] w2] eqn:E2.
    destruct (IH w2 ltac:(lia)) as (again & final & Hs & Hr & Hlen & Hre & Hsl & Hd).
    exists (Ok resp :: again), final. cbn. rewrite Hr.
    split; [by f_equal|]. split; [done|]. split; [lia|].
    split; [constructor; [by eapply retry_delay_retryable|done]|].
    split; [by f_equal|]. constructor; [|done].
    eapply retry_delay_bounds; [|exact Ed]. unfold MAX_ATTEMPTS. lia.
Qed.

(** The rule for [send_retrying]: [I] holds before every attempt, and [Q] of
    every answer. *)
Lemma wp_send_retrying {W} (h : handler sysE W) (I : W -> Prop) req
    (Q : result Response ReqwestError -> W -> Prop) w :
  I w ->
  (forall v d, I v -> I (snd (h _ (Sleep d) v))) ->
  (forall v, I v -> let '(r, v') := h _ (HttpSend req) v in
                    Q r v' /\ (retryable (method req) r -> I v')) ->
  wp h (send_retrying req) Q w.
Proof.
  intros Hw Hsleep Hsend. unfold send_retrying.
  assert (forall m, (forall mm, m = Some mm -> mm = method req) ->
          forall left v, I v -> wp h (send_loop m left req) Q v) as Hloop.
  { intros m Hm left. induction left as [|left IH]; intros v Hv; cbn [send_loop];
      apply wp_try, wp_vis, wp_ret; specialize (Hsend v Hv);
      destruct (h _ (HttpSend req) v) as [[resp|e] v'] eqn:E; cbn [fst snd];
      destruct Hsend as [HQ HI]; try exact HQ;
      destruct (try_clone req) as [nx|] eqn:Ec, m as [mm|]; try exact HQ.
    destruct (retry_delay _ _ _) as [d|] eqn:Ed; [|exact HQ].
    apply try_clone_spec in Ec as ->. apply wp_bind, wp_vis, wp_ret, IH, Hsleep, HI.
    rewrite <- (Hm mm eq_refl). by eapply retry_delay_retryable. }
  apply Hloop; [|done]. intros mm Hmm. apply bind_Some in Hmm as (r & Hr & Hmm).
  apply try_clone_spec in Hr as ->. by apply built_method_spec.
Qed.

Lemma wp_send {W} (h : handler sysE W) (I : W -> Prop) req
    (Q : dns_result Response -> W -> Prop) w :
  I w ->
  (forall v d, I v -> I (snd (h _ (Sleep d) v))) ->
  (forall v, I v -> let '(r, v') := h _ (HttpSend req) v in
                    Q (map_err Http r) v' /\ (retryable (method req) r -> I v')) ->
  wp h (send req) Q w.
Proof.
  intros Hw Hs Hr. apply wp_bind. eapply wp_mono; [eapply wp_send_retrying; try done|].
  - intros v Hv. specialize (Hr v Hv). destruct (h _ (HttpSend req) v) as [r v'].
    exact Hr.
  - intros r w' HQ. by apply wp_ret.
Qed.

(** Only the request itself is sent, with pauses. *)
Lemma emits_send (P : forall Y, sysE Y -> Prop) req (Q : dns_result Response -> Prop) :
  P _ (HttpSend req) -> (forall d, P _ (Sleep d)) -> (forall r, Q r) -> emits P (send req) Q.
Proof.
  intros Hreq Hs HQ. apply emits_bind. unfold send_retrying. generalize (try_clone req ≫= built_method). intros m.
  generalize (Z.to_nat (MAX_ATTEMPTS - 1)). intros left.
  induction left as [|left IH]; cbn [send_loop]; (apply emits_call; [done|]; intros [resp|e]; [|apply HQ]);
    destruct (try_clone req) as [nx|] eqn:Ec, m as [mm|]; try apply HQ.
  destruct (retry_delay _ _ _); [|apply HQ]. apply emits_call; [apply Hs|]. intros _.
  apply try_clone_spec in Ec as ->. apply IH.
Qed.
End retry.

(** ** An instance

    Concrete functions with the documented behaviour of the other crates, to
    evaluate the definitions on. *)

Definition host_of (authority : string) : string :=
  hd EmptyString (split "/" authority).

Definition ref_ext : Ext := {|
  utf8_percent_encode := percent_bytes;
  url_parse := fun s =>
    match strip_prefix "https://" s, strip_prefix "http://" s with
    | Some rest, _ => Some ("https", Some (host_of rest))
    | None, Some rest => Some ("http", Some (host_of rest))
    | None, None => None
    end;
  is_idempotent := fun m => match m with GET | PUT | DELETE => true | POST | PATCH => false end;
  is_success := fun s => (200 <=? s) && (s <=? 299);
  status_text := fun s => pretty s;
  try_clone := Some;
  built_method := fun r => Some (method r)
|}.

#[export] Instance ref_ext_spec : ExtSpec ref_ext.
Proof. constructor; try done; cbn; congruence. Qed.

(** ** Properties *)

(** C36. [validate_fqdn] accepts exactly the domain names: up to trailing
    dots, at most 253 bytes of dot-separated labels of 1 to 63 letters,
    digits, hyphens and underscores; and it does so whatever their case. *)
Theorem validate_fqdn_spec s :
  (validate_fqdn s = Ok tt <-> valid_name s) /\
  (validate_fqdn (to_ascii_lowercase s) = Ok tt <-> validate_fqdn s = Ok tt).
Proof.
  rewrite !validate_fqdn_valid. split; [done|]. apply valid_name_lower.
Qed.

(** A name accepted by [validate_fqdn] and the relative name it has in a
    zone determine each other. *)
Lemma relative_name_absolute f z r :
  valid_name f -> relative_name f z = Ok r -> absolute_name r z = trim_end_matches dot f.
Proof.
  intros Hf Hr. unfold absolute_name. apply relative_name_ok in Hr as [[-> ->]|[Hne Hr]]; [done|].
  destruct (String.eqb_spec r "@") as [->|]; [|done]. exfalso.
  apply valid_name_bytes in Hf. rewrite Hr in Hf. done.
Qed.

(** In a zone, [relative_name] is a round trip on valid names: the
    relative name stands for the name it was computed from, so two valid
    names with the same relative name are the same name; a relative name is
    given exactly to the names at or below the zone. *)
Theorem relative_name_roundtrip f g z r (Hf : validate_fqdn f = Ok tt)
    (Hg : validate_fqdn g = Ok tt) (Hr : relative_name f z = Ok r) :
  absolute_name r z = trim_end_matches dot f /\
  (relative_name g z = Ok r <-> trim_end_matches dot g = trim_end_matches dot f).
Proof.
  rewrite !validate_fqdn_valid in *. pose proof (relative_name_absolute f z r Hf Hr) as Ef.
  split; [exact Ef|]. split.
  - intros Hr'. rewrite <- Ef. symmetry. by apply relative_name_absolute.
  - intros E. revert Hr. by rewrite !relative_name_ok, E.
Qed.

Lemma relative_name_roundtrip_witness :
  absolute_name "_acme-challenge.api" "kemeter.app." = "_acme-challenge.api.kemeter.app" /\
  (relative_name "_acme-challenge.api.kemeter.app" "kemeter.app." = Ok "_acme-challenge.api" <->
   "_acme-challenge.api.kemeter.app" = "_acme-challenge.api.kemeter.app").
Proof.
  apply (relative_name_roundtrip "_acme-challenge.api.kemeter.app." "_acme-challenge.api.kemeter.app"
           "kemeter.app." "_acme-challenge.api"); by vm_compute.
Defined.

(** A segment written by [encode_path] decodes to itself and holds only
    bytes that do not end or change the path (no slash, question mark, hash
    or space), and a validated name is written as it is. *)
Theorem encode_path_roundtrip `{X : Ext} (S : ExtSpec X) s :
  percent_decode (encode_path s) = Some s /\
  all_bytes segment_byte (encode_path s) = true /\
  (all_bytes host_byte s = true -> encode_path s = s).
Proof.
  unfold encode_path. rewrite percent_encode_spec. split_and!.
  - by apply percent_bytes_decode.
  - apply percent_bytes_segment.
  - apply percent_bytes_host.
Qed.

Lemma encode_path_roundtrip_witness :
  encode_path (X := ref_ext) "foo/../bar" = "foo%2F..%2Fbar" /\
  percent_decode (encode_path (X := ref_ext) "foo/../bar") = Some "foo/../bar".
Proof.
  split; [by vm_compute|]. apply (@encode_path_roundtrip ref_ext ref_ext_spec "foo/../bar").
Defined.

(** An error text is kept when it has at most 512 bytes; a longer one is
    cut to at most 512 bytes, between two of its characters, and marked. *)
Theorem truncate_error_body_spec chars :
  let raw := join EmptyString chars in
  Forall utf8_char chars ->
  ((String.length raw <= 512)%nat -> truncate_error_body raw = raw) /\
  ((512 < String.length raw)%nat ->
   exists k, truncate_error_body raw = join EmptyString (take k chars) +:+ truncated_mark /\
             (String.length (join EmptyString (take k chars)) <= 512)%nat).
Proof.
  intros raw Hc. unfold truncate_error_body, MAX_ERROR_BODY.
  destruct (Nat.leb_spec (String.length raw) 512); (split; [try done; lia|]); [lia|].
  intros _. pose proof (find_cut_le raw 512) as Hle.
  destruct (boundary_between chars (find_cut raw 512)) as [k Hk];
    [done|apply find_cut_boundary|fold raw; lia|].
  exists k. rewrite <- Hk. split; [done|]. rewrite take_bytes_length; fold raw; lia.
Qed.

Lemma truncate_error_body_spec_witness :
  exists k,
    truncate_error_body (join EmptyString (replicate 600 "x")) =
      join EmptyString (take k (replicate 600 "x")) +:+ truncated_mark /\
    (String.length (join EmptyString (take k (replicate 600 "x"))) <= 512)%nat.
Proof.
  apply (truncate_error_body_spec (replicate 600 "x")).
  - apply Forall_replicate. by exists "x"%char, EmptyString.
  - apply Nat.ltb_lt. by vm_compute.
Defined.

(** C14. [send_retrying] sends the same request one to three times and returns
    the last answer.  Every earlier answer was a 429, or a 503 to a method
    that is idempotent (so a POST or PATCH is never replayed after a 503),
    and it pauses once, for at most ten seconds, after each. *)
Theorem send_retrying_bounded `{X : Ext} (S : ExtSpec X) {W} (h : handler sysE W) req w :
  let t := trace h (send_retrying req) w in
  exists again,
    sends t = map (fun r => (req, r)) (again ++ [fst (run h (send_retrying req) w)]) /\
    (length again <= 2)%nat /\
    Forall (fun r => exists resp, r = Ok resp /\
      (status resp = 429 \/ (status resp = 503 /\ method req <> POST /\ method req <> PATCH))) again /\
    length (sleeps t) = length again /\
    Forall (fun d => 0 <= d <= from_secs 10) (sleeps t).
Proof.
  cbn zeta. unfold send_retrying.
  destruct (send_loop_trace h (try_clone req ≫= built_method) 2 req w)
    as (again & final & Hs & Hr & Hlen & Hre & Hsl & Hd).
  - lia.
  - intros mm Hmm. apply bind_Some in Hmm as (r & Hr & Hmm).
    apply try_clone_spec in Hr as ->. by apply built_method_spec.
  - exists again. change (Z.to_nat (MAX_ATTEMPTS - 1)) with 2%nat. rewrite Hr.
    split_and!; try done. eapply Forall_impl; [exact Hre|].
    intros [resp|e]; cbn; [|done]. rewrite is_idempotent_spec. intros Hst. exists resp.
    split; [done|]. destruct Hst as [|[? Hm]]; [by left|right].
    destruct (method req); split_and!; congruence.
Qed.

(** A server that answers 503 to everything. *)
Definition unavailable : handler sysE unit := fun X e _ =>
  match e in sysE X return X * unit with
  | HttpSend _ => (Ok (mkResponse 503 [("retry-after", Some "4")] None), tt)
  | Sleep _ | Acquire _ | Release _ | CachePut _ _ | SharedResolverInit => (tt, tt)
  | Now => (0, tt)
  | CacheGet _ => (None, tt)
  | SharedResolverGet => (false, tt)
  | SystemResolverBuild => (Err (ReadConf EmptyString), tt)
  | DirectResolverBuild _ => (Err EmptyString, tt)
  | Lookup _ _ _ => (Err EmptyString, tt)
  | SystemTimeNow => (Some 0, tt)
  | OnceGet => (None, tt)
  | OnceSet _ => (tt, tt)
  | TokenLock | TokenUnlock | TokenSet _ => (tt, tt)
  | TokenGet => (None, tt)
  | UtcNow => ((1970, 1, 1, 0, 0, 0), tt)
  | RandomU16 => (0, tt)
  | TcpConnect _ _ | TcpWriteAll _ => (Err Elapsed, tt)
  | TcpReadExact _ => (Err Elapsed, tt)
  | LookupIp _ _ => (Err EmptyString, tt)
  end.

Lemma send_retrying_bounded_witness :
  length (sends (trace unavailable (send_retrying (X := ref_ext) (mkRequest PUT "https://api/x" [] [] None)) tt)) = 3%nat /\
  length (sends (trace unavailable (send_retrying (X := ref_ext) (mkRequest POST "https://api/x" [] [] None)) tt)) = 1%nat /\
  exists again,
    sends (trace unavailable (send_retrying (X := ref_ext) (mkRequest PUT "https://api/x" [] [] None)) tt)
      = map (fun r => (mkRequest PUT "https://api/x" [] [] None, r))
          (again ++ [fst (run unavailable (send_retrying (X := ref_ext) (mkRequest PUT "https://api/x" [] [] None)) tt)]) /\
    (length again <= 2)%nat.
Proof.
  split; [by vm_compute|]. split; [by vm_compute|].
  destruct (@send_retrying_bounded ref_ext ref_ext_spec unit unavailable
              (mkRequest PUT "https://api/x" [] [] None) tt) as (again & H1 & H2 & _).
  exists again. split; assumption.
Defined.
