(* ===== verification/Locks.v ===== *)
(** * The keyed lock (src/providers/common.rs, [KeyedMutex])

    A process-wide table maps [namespace|key] to a shared async mutex.
    [lock] first drops the entries nobody refers to, then finds or creates
    the entry of its key, and waits on that mutex.  The state below is that
    table, the mutexes that are locked, and the tasks that wait on or hold
    one; a task refers to its mutex through an [Arc], so the strong count of
    a mutex is the number of its table entries and of its tasks. *)

From S2P Require Import Prelude Rstr.

Inductive task : Type :=
| Waiting (key : string) (mutex : nat)
| Holding (key : string) (mutex : nat).

Definition task_key (t : task) : string :=
  match t with Waiting k _ | Holding k _ => k end.
Definition task_mutex (t : task) : nat :=
  match t with Waiting _ m | Holding _ m => m end.

#[global] Instance task_eq_dec : EqDecision task.
Proof. solve_decision. Defined.

Record lock_state : Type := mkLocks {
  table : gmap string nat;
  locked : gset nat;
  tasks : gmap nat task;
  next_mutex : nat
}.

Definition init_locks : lock_state := mkLocks ∅ ∅ ∅ 0.

(** [Arc::strong_count]. *)
Definition strong_count (s : lock_state) (m : nat) : nat :=
  (size (filter (fun p => snd p = m) (table s)) +
   size (filter (fun p => task_mutex (snd p) = m) (tasks s)))%nat.

Definition full_key (namespace key : string) : string := namespace +:+ "|" +:+ key.

(** The synchronous part of [lock]: [retain], then [entry().or_insert_with()],
    under the table's own mutex. *)
Definition enter (tid : nat) (namespace key : string) (s : lock_state) : option lock_state :=
  match tasks s !! tid with
  | Some _ => None
  | None =>
      let kept := filter (fun p => (1 < strong_count s (snd p))%nat) (table s) in
      let k := full_key namespace key in
      match kept !! k with
      | Some m => Some (mkLocks kept (locked s) (<[tid := Waiting k m]> (tasks s)) (next_mutex s))
      | None =>
          let m := next_mutex s in
          Some (mkLocks (<[k := m]> kept) (locked s) (<[tid := Waiting k m]> (tasks s)) (S m))
      end
  end.

(** [entry.lock_owned().await] completes. *)
Definition acquire (tid : nat) (s : lock_state) : option lock_state :=
  match tasks s !! tid with
  | Some (Waiting k m) =>
      if decide (m ∈ locked s) then None
      else Some (mkLocks (table s) ({[m]} ∪ locked s) (<[tid := Holding k m]> (tasks s)) (next_mutex s))
  | _ => None
  end.

(** The guard is dropped. *)
Definition release (tid : nat) (s : lock_state) : option lock_state :=
  match tasks s !! tid with
  | Some (Holding k m) =>
      Some (mkLocks (table s) (locked s ∖ {[m]}) (delete tid (tasks s)) (next_mutex s))
  | _ => None
  end.

(** The future is dropped while it waits. *)
Definition cancel (tid : nat) (s : lock_state) : option lock_state :=
  match tasks s !! tid with
  | Some (Waiting k m) =>
      Some (mkLocks (table s) (locked s) (delete tid (tasks s)) (next_mutex s))
  | _ => None
  end.

(** What a step does to the lock of a key, seen from outside. *)
Inductive lock_label : Type :=
| LTau
| LAcquire (tid : nat) (key : string)
| LRelease (tid : nat) (key : string).

Inductive lock_step : lock_state -> lock_label -> lock_state -> Prop :=
| step_enter s s' tid ns key : enter tid ns key s = Some s' -> lock_step s LTau s'
| step_cancel s s' tid : cancel tid s = Some s' -> lock_step s LTau s'
| step_acquire s s' tid k m :
    tasks s !! tid = Some (Waiting k m) -> acquire tid s = Some s' ->
    lock_step s (LAcquire tid k) s'
| step_release s s' tid k m :
    tasks s !! tid = Some (Holding k m) -> release tid s = Some s' ->
    lock_step s (LRelease tid k) s'.

Inductive lock_reachable : lock_state -> Prop :=
| reach_init : lock_reachable init_locks
| reach_step s l s' : lock_reachable s -> lock_step s l s' -> lock_reachable s'.

(** ** Specification

    One owner per key, at most. *)
Inductive spec_step : gmap string nat -> lock_label -> gmap string nat -> Prop :=
| spec_tau o : spec_step o LTau o
| spec_acquire o tid k : o !! k = None -> spec_step o (LAcquire tid k) (<[k := tid]> o)
| spec_release o tid k : o !! k = Some tid -> spec_step o (LRelease tid k) (delete k o).

Definition owners (s : lock_state) (o : gmap string nat) : Prop :=
  forall k tid, o !! k = Some tid <-> exists m, tasks s !! tid = Some (Holding k m).

(** ** Invariant *)

Record lock_inv (s : lock_state) : Prop := {
  inv_tasks : forall tid t, tasks s !! tid = Some t -> table s !! task_key t = Some (task_mutex t);
  inv_inj : forall k k' m, table s !! k = Some m -> table s !! k' = Some m -> k = k';
  inv_fresh : forall k m, table s !! k = Some m -> (m < next_mutex s)%nat;
  inv_locked : forall m, m ∈ locked s <-> exists tid k, tasks s !! tid = Some (Holding k m);
  inv_unique : forall tid tid' k k' m,
    tasks s !! tid = Some (Holding k m) -> tasks s !! tid' = Some (Holding k' m) -> tid = tid'
}.

Lemma size_filter_pos `{Countable K} {A} (P : K * A -> Prop) `{!forall x, Decision (P x)}
    (m : gmap K A) k a :
  m !! k = Some a -> P (k, a) -> (0 < size (filter P m))%nat.
Proof.
  intros Hk HP. assert (filter P m !! k = Some a) as Hf by by apply map_lookup_filter_Some.
  assert (size (filter P m) <> 0%nat) as Hz; [|lia].
  intros E. apply map_size_empty_inv in E. rewrite E in Hf. done.
Qed.

(** A mutex some task refers to survives [retain]. *)
Lemma referenced_kept s tid t :
  lock_inv s -> tasks s !! tid = Some t -> (1 < strong_count s (task_mutex t))%nat.
Proof.
  intros Hi Ht. unfold strong_count.
  pose proof (size_filter_pos (fun p => snd p = task_mutex t) _ _ _ (inv_tasks s Hi _ _ Ht) eq_refl).
  pose proof (size_filter_pos (fun p => task_mutex (snd p) = task_mutex t) _ _ _ Ht eq_refl).
  lia.
Qed.

Definition kept_entries (s : lock_state) : gmap string nat :=
  filter (fun p => (1 < strong_count s (snd p))%nat) (table s).

Lemma kept_lookup s k m :
  kept_entries s !! k = Some m <-> table s !! k = Some m /\ (1 < strong_count s m)%nat.
Proof. apply map_lookup_filter_Some. Qed.

(** A new waiter, on an entry of a table that keeps every referenced entry. *)
Lemma add_waiter_inv s tid k m T n :
  lock_inv s -> tasks s !! tid = None -> T !! k = Some m ->
  (forall u t, tasks s !! u = Some t -> T !! task_key t = Some (task_mutex t)) ->
  (forall k1 k2 m', T !! k1 = Some m' -> T !! k2 = Some m' -> k1 = k2) ->
  (forall k1 m', T !! k1 = Some m' -> (m' < n)%nat) ->
  lock_inv (mkLocks T (locked s) (<[tid := Waiting k m]> (tasks s)) n).
Proof.
  intros Hi Et Hk Ht Hinj Hn. constructor; cbn; [|exact Hinj|exact Hn| |].
  - intros u t [[<- <-]|[? Hu]]%lookup_insert_Some; [exact Hk|by eapply Ht].
  - intros m'. rewrite inv_locked by done. split; intros (u & k' & Hu); exists u, k'.
    + by rewrite lookup_insert_ne by congruence.
    + by apply lookup_insert_Some in Hu as [[? ?]|[_ Hu]].
  - intros u u' k1 k2 m' [[? ?]|[_ H1]]%lookup_insert_Some [[? ?]|[_ H2]]%lookup_insert_Some;
      try done. by eapply inv_unique.
Qed.

Lemma referenced_in_kept s u t :
  lock_inv s -> tasks s !! u = Some t -> kept_entries s !! task_key t = Some (task_mutex t).
Proof.
  intros Hi Hu. apply kept_lookup. split; [by eapply inv_tasks|by eapply referenced_kept].
Qed.

Lemma enter_inv tid ns key s s' : lock_inv s -> enter tid ns key s = Some s' -> lock_inv s'.
Proof.
  intros Hi. unfold enter. destruct (tasks s !! tid) eqn:Et; [done|].
  fold (kept_entries s). set (k := full_key ns key).
  destruct (kept_entries s !! k) as [m|] eqn:Ek; intros [= <-]; apply add_waiter_inv; try done.
  - intros u t Hu. by eapply referenced_in_kept.
  - intros k1 k2 m' [? _]%kept_lookup [? _]%kept_lookup. by eapply inv_inj.
  - intros k1 m' [? _]%kept_lookup. by eapply inv_fresh.
  - apply lookup_insert_eq.
  - intros u t Hu. pose proof (referenced_in_kept s u t Hi Hu) as Hk.
    rewrite lookup_insert_ne; [done|congruence].
  - intros k1 k2 m' [[<- <-]|[Hn1 [H1 _]%kept_lookup]]%lookup_insert_Some
      [[<- E2]|[Hn2 [H2 _]%kept_lookup]]%lookup_insert_Some; [done| | |by eapply inv_inj].
    + apply inv_fresh in H2; [lia|done].
    + subst. apply inv_fresh in H1; [lia|done].
  - intros k1 m' [[<- <-]|[? [H1 _]%kept_lookup]]%lookup_insert_Some; [lia|].
    apply inv_fresh in H1; [lia|done].
Qed.

Lemma acquire_inv tid s s' : lock_inv s -> acquire tid s = Some s' -> lock_inv s'.
Proof.
  intros Hi. unfold acquire. destruct (tasks s !! tid) as [[k m|k m]|] eqn:Et; try done.
  destruct (decide (m ∈ locked s)) as [|Hm]; [done|]. intros [= <-].
  assert (forall u k', tasks s !! u <> Some (Holding k' m)) as Hfree.
  { intros u k' Hu. apply Hm, inv_locked; eauto. }
  constructor; cbn; [|by apply inv_inj|by apply inv_fresh| |].
  - intros u t [[<- <-]|[? Hu]]%lookup_insert_Some; [by eapply (inv_tasks s Hi) in Et|by eapply inv_tasks].
  - intros m'. rewrite elem_of_union, elem_of_singleton, inv_locked by done. split.
    + intros [->|(u & k' & Hu)]; [exists tid, k; apply lookup_insert_eq|].
      exists u, k'. rewrite lookup_insert_ne; [done|congruence].
    + intros (u & k' & [[<- [= <- <-]]|[_ Hu]]%lookup_insert_Some); [by left|right; eauto].
  - intros u u' k1 k2 m' [[<- E1]|[_ H1]]%lookup_insert_Some
      [[<- E2]|[_ H2]]%lookup_insert_Some; simplify_eq; try done.
    + by apply Hfree in H2.
    + by apply Hfree in H1.
    + by eapply inv_unique.
Qed.

Lemma release_inv tid s s' : lock_inv s -> release tid s = Some s' -> lock_inv s'.
Proof.
  intros Hi. unfold release. destruct (tasks s !! tid) as [[k m|k m]|] eqn:Et; try done.
  intros [= <-]. constructor; cbn; [|by apply inv_inj|by apply inv_fresh| |].
  - intros u t [? Hu]%lookup_delete_Some. by eapply inv_tasks.
  - intros m'. rewrite elem_of_difference, elem_of_singleton, inv_locked by done. split.
    + intros [(u & k' & Hu) Hne]. exists u, k'. rewrite lookup_delete_ne; [done|congruence].
    + intros (u & k' & [Hne Hu]%lookup_delete_Some). split; [eauto|]. intros ->.
      destruct Hne. by eapply inv_unique.
  - intros u u' k1 k2 m' [_ H1]%lookup_delete_Some [_ H2]%lookup_delete_Some.
    by eapply inv_unique.
Qed.

Lemma cancel_inv tid s s' : lock_inv s -> cancel tid s = Some s' -> lock_inv s'.
Proof.
  intros Hi. unfold cancel. destruct (tasks s !! tid) as [[k m|k m]|] eqn:Et; try done.
  intros [= <-]. constructor; cbn; [|by apply inv_inj|by apply inv_fresh| |].
  - intros u t [? Hu]%lookup_delete_Some. by eapply inv_tasks.
  - intros m'. rewrite inv_locked by done. split; intros (u & k' & Hu); exists u, k'.
    + rewrite lookup_delete_ne; [done|congruence].
    + by apply lookup_delete_Some in Hu as [_ Hu].
  - intros u u' k1 k2 m' [_ H1]%lookup_delete_Some [_ H2]%lookup_delete_Some.
    by eapply inv_unique.
Qed.

#[export] Hint Resolve enter_inv acquire_inv release_inv cancel_inv : cheti.

Lemma lock_step_inv s l s' : lock_inv s -> lock_step s l s' -> lock_inv s'.
Proof. intros Hi Hs. destruct Hs; eauto with cheti. Qed.

Lemma init_locks_inv : lock_inv init_locks.
Proof.
  constructor; cbn; try (intros *; by rewrite lookup_empty).
  intros m. split; [set_solver|]. intros (u & k & Hu). by rewrite lookup_empty in Hu.
Qed.

Lemma reachable_inv s : lock_reachable s -> lock_inv s.
Proof. induction 1; eauto using init_locks_inv, lock_step_inv. Qed.

(** Holding one key identifies the task. *)
Lemma holder_unique s tid tid' k m m' :
  lock_inv s -> tasks s !! tid = Some (Holding k m) -> tasks s !! tid' = Some (Holding k m') ->
  tid = tid'.
Proof.
  intros Hi H1 H2. pose proof (inv_tasks s Hi _ _ H1) as E1. pose proof (inv_tasks s Hi _ _ H2) as E2.
  cbn in E1, E2. assert (m = m') as <- by congruence. by eapply inv_unique.
Qed.

(** A waiter whose key nobody holds can proceed. *)
Lemma free_key_acquires s tid k m :
  lock_inv s -> tasks s !! tid = Some (Waiting k m) ->
  (forall u m', tasks s !! u <> Some (Holding k m')) -> is_Some (acquire tid s).
Proof.
  intros Hi Hw Hfree. unfold acquire. rewrite Hw.
  destruct (decide (m ∈ locked s)) as [Hm|]; [|eauto].
  apply inv_locked in Hm as (u & k' & Hu); [|done].
  pose proof (inv_tasks s Hi _ _ Hw) as E1. pose proof (inv_tasks s Hi _ _ Hu) as E2.
  cbn in E1, E2. assert (k' = k) as -> by (eapply inv_inj; eauto). by apply Hfree in Hu.
Qed.

(** Every entry of the table after [lock] entered is some task's. *)
Lemma enter_table_used tid ns key s s' k m :
  lock_inv s -> enter tid ns key s = Some s' -> table s' !! k = Some m ->
  exists u t, tasks s' !! u = Some t /\ task_key t = k.
Proof.
  intros Hi He Hk. pose proof (enter_inv _ _ _ _ _ Hi He) as Hi'. revert He Hk.
  unfold enter. destruct (tasks s !! tid) eqn:Et; [done|]. fold (kept_entries s).
  assert (forall k, kept_entries s !! k = Some m ->
    exists u t, tasks s !! u = Some t /\ task_key t = k) as Hkept.
  { intros k' [Hk Hc]%kept_lookup. unfold strong_count in Hc.
    assert (size (filter (fun p => snd p = m) (table s)) = 1%nat) as H1.
    { replace (filter _ _) with ({[k' := m]} : gmap string nat); [apply map_size_singleton|].
      apply map_eq. intros k2. apply option_eq. intros m2.
      rewrite map_lookup_filter_Some, lookup_singleton_Some. cbn. split; [by intros [-> ->]|].
      intros [Hk2 ->]. split; [exact (inv_inj s Hi _ _ _ Hk Hk2)|done]. }
    destruct (map_choose (filter (fun p => task_mutex (snd p) = m) (tasks s))) as (u & t & Ht).
    { intros E. rewrite E, map_size_empty in Hc. lia. }
    apply map_lookup_filter_Some in Ht as [Ht Hm]. exists u, t. split; [done|].
    eapply (inv_inj s Hi); [|exact Hk]. cbn in Hm. rewrite <- Hm. by eapply inv_tasks. }
  destruct (kept_entries s !! full_key ns key) as [m0|] eqn:Ek; intros [= <-]; cbn.
  - intros (u & t & Hu & <-)%Hkept. exists u, t. split; [|done].
    rewrite lookup_insert_ne; [done|congruence].
  - intros [[<- <-]|[_ (u & t & Hu & <-)%Hkept]]%lookup_insert_Some.
    + eexists tid, _. split; [apply lookup_insert_eq|done].
    + exists u, t. split; [|done]. rewrite lookup_insert_ne; [done|congruence].
Qed.

(** ** An execution

    Two tasks lock the same record of the same provider; the first gets it. *)
Definition after (o : option lock_state) : lock_state := default init_locks o.
Definition demo1 : lock_state := after (enter 1 "gandi" "example.com|_acme-challenge" init_locks).
Definition demo2 : lock_state := after (enter 2 "gandi" "example.com|_acme-challenge" demo1).
Definition demo3 : lock_state := after (acquire 1 demo2).
Definition demo_key : string := "gandi|example.com|_acme-challenge".

Lemma demo2_reachable : lock_reachable demo2.
Proof.
  apply (reach_step demo1 LTau).
  - apply (reach_step init_locks LTau); [constructor|].
    by apply (step_enter _ _ 1 "gandi" "example.com|_acme-challenge"); vm_compute.
  - by apply (step_enter _ _ 2 "gandi" "example.com|_acme-challenge"); vm_compute.
Qed.

Lemma demo_acquire : lock_step demo2 (LAcquire 1 demo_key) demo3.
Proof. by apply (step_acquire _ _ 1 demo_key 0); vm_compute. Qed.

Lemma demo3_reachable : lock_reachable demo3.
Proof. eapply reach_step; [apply demo2_reachable|apply demo_acquire]. Qed.

(** ** Properties *)

(** C15. The keyed lock refines a lock with at most one owner per key: in
    every reachable state the owners of the keys are a function of the key,
    and every step is a step of the specification (a task enters or gives up
    without changing the owners, acquires only a key without owner, releases
    only a key it owns). *)
Theorem keyed_mutex_refines s l s' o (Hr : lock_reachable s) (Ho : owners s o)
    (Hs : lock_step s l s') :
  exists o', spec_step o l o' /\ owners s' o'.
Proof.
  pose proof (reachable_inv s Hr) as Hi. destruct Hs as [s s' tid ns key He|s s' tid Hc|s s' tid k m Hw Ha|s s' tid k m Hh Hl].
  - exists o. split; [constructor|]. intros k u. rewrite (Ho k u). revert He. unfold enter.
    destruct (tasks s !! tid) eqn:Et; [done|].
    destruct (filter _ _ !! _); intros [= <-]; cbn; apply exist_proper; intros m;
      rewrite lookup_insert_Some; naive_solver.
  - exists o. split; [constructor|]. intros k u. rewrite (Ho k u). revert Hc. unfold cancel.
    destruct (tasks s !! tid) as [[]|] eqn:Et; try done. intros [= <-]; cbn.
    apply exist_proper; intros m. rewrite lookup_delete_Some. naive_solver.
  - revert Ha. unfold acquire. rewrite Hw. destruct (decide _) as [|Hm]; [done|]. intros [= <-].
    exists (<[k := tid]> o). split.
    + constructor. destruct (o !! k) as [u|] eqn:E; [|done]. apply Ho in E as [m' Hu].
      destruct Hm. apply inv_locked; [done|]. exists u, k.
      pose proof (inv_tasks s Hi _ _ Hw). pose proof (inv_tasks s Hi _ _ Hu). naive_solver.
    + intros k' u. cbn. rewrite lookup_insert_Some, (Ho k' u). setoid_rewrite lookup_insert_Some.
      split; [intros [[<- <-]|[Hne [m' Hu]]]|intros [m' [[<- E]|[Hne Hu]]]]; [eauto| |naive_solver|].
      * exists m'. right. split; [|done]. intros <-. congruence.
      * right. split; [|eauto]. intros <-. destruct Hm. apply inv_locked; [done|]. exists u, k.
        pose proof (inv_tasks s Hi _ _ Hw). pose proof (inv_tasks s Hi _ _ Hu). naive_solver.
  - revert Hl. unfold release. rewrite Hh. intros [= <-]. exists (delete k o). split.
    + constructor. apply Ho. eauto.
    + intros k' u. cbn. rewrite lookup_delete_Some, (Ho k' u). setoid_rewrite lookup_delete_Some.
      split; [intros (Hne & m' & Hu); exists m'; split; [|done]; intros <-; congruence|].
      intros (m' & Hne & Hu). split; [|eauto]. intros <-. destruct Hne.
      by eapply (holder_unique s).
Qed.

Lemma keyed_mutex_refines_witness :
  exists o', spec_step ∅ (LAcquire 1 demo_key) o' /\ owners demo3 o'.
Proof.
  apply (keyed_mutex_refines demo2 (LAcquire 1 demo_key) demo3 ∅).
  - exact demo2_reachable.
  - intros k tid. rewrite lookup_empty. split; [done|]. intros [m Hm].
    assert (forallb (fun p => match snd p with Holding _ _ => false | Waiting _ _ => true end)
              (map_to_list (tasks demo2)) = true) as H by by vm_compute.
    rewrite forallb_forall in H. apply elem_of_map_to_list, list_elem_of_In, H in Hm. done.
  - exact demo_acquire.
Defined.

(** Two tasks never hold the same key, whichever instances they locked
    it through, and a task waiting on a key nobody holds can always acquire
    it, whatever the other keys. *)
Theorem keyed_mutex_exclusive s (Hr : lock_reachable s) :
  (forall tid tid' k m m',
     tasks s !! tid = Some (Holding k m) -> tasks s !! tid' = Some (Holding k m') -> tid = tid') /\
  (forall tid k m, tasks s !! tid = Some (Waiting k m) ->
     (forall u m', tasks s !! u <> Some (Holding k m')) -> is_Some (acquire tid s)).
Proof.
  apply reachable_inv in Hr. split; eauto using holder_unique, free_key_acquires.
Qed.

Lemma keyed_mutex_exclusive_witness :
  tasks demo3 !! 1%nat = Some (Holding demo_key 0) /\
  (forall tid m, tasks demo3 !! tid = Some (Holding demo_key m) -> tid = 1%nat) /\
  acquire 2 demo3 = None /\ is_Some (acquire 1 demo2).
Proof.
  assert (tasks demo3 !! 1%nat = Some (Holding demo_key 0)) as H1 by by vm_compute.
  split; [exact H1|]. split.
  - intros tid m Hm. exact (proj1 (keyed_mutex_exclusive demo3 demo3_reachable) _ _ _ _ _ Hm H1).
  - split; [by vm_compute|]. eexists. by vm_compute.
Defined.

(** The table does not grow with the names ever locked: when a call has
    entered, it holds at most as many entries as there are live tasks. *)
Theorem lock_table_bounded s s' tid ns key (Hr : lock_reachable s)
    (He : enter tid ns key s = Some s') :
  (size (table s') <= size (tasks s'))%nat.
Proof.
  apply reachable_inv in Hr. rewrite <- (size_dom (table s')).
  trans (size (list_to_set (task_key ∘ snd <$> map_to_list (tasks s')) : gset string)).
  - apply subseteq_size. intros k [m Hk]%elem_of_dom.
    destruct (enter_table_used _ _ _ _ _ _ _ Hr He Hk) as (u & t & Hu & <-).
    apply elem_of_list_to_set, list_elem_of_fmap. exists (u, t). split; [done|].
    by apply elem_of_map_to_list.
  - rewrite size_list_to_set_le, length_fmap. by rewrite length_map_to_list.
Qed.

Lemma lock_table_bounded_witness : (size (table demo2) <= size (tasks demo2))%nat.
Proof.
  apply (lock_table_bounded demo1 demo2 2 "gandi" "example.com|_acme-challenge").
  - eapply reach_step; [constructor|].
    by apply (step_enter _ _ 1 "gandi" "example.com|_acme-challenge"); vm_compute.
  - by vm_compute.
Defined.
