(* ===== verification/Zone.v ===== *)
(** * Finding the zone of a name (src/dns/zone.rs)

    The shared system resolver, and the walk up the labels of a name until
    one has an SOA record. *)

From S2P Require Import Prelude Rstr Errors Effects Sys Common.

(** [shared_resolver]: only a resolver that was built is kept. *)
Definition shared_resolver : sys (dns_result unit) :=
  let* cached := call SharedResolverGet in
  if (cached : bool) then Ret (Ok tt)
  else
    let* built := call SystemResolverBuild in
    match built with
    | Err (ReadConf e) => Ret (Err (Resolver ("read system DNS configuration: " +:+ e)))
    | Err (BuildFail e) => Ret (Err (Resolver ("build system DNS resolver: " +:+ e)))
    | Ok _ => let* _ := call SharedResolverInit in Ret (Ok tt)
    end.

(** The loop of [find_zone]; every turn removes at least one byte of the
    candidate, so that many turns are enough. *)
Fixpoint find_zone_loop (fuel : nat) (fqdn candidate : string) : sys (dns_result string) :=
  match fuel with
  | O => Ret (Err (ZoneNotFound fqdn))
  | S fuel' =>
      if is_empty candidate || negb (contains_char dot candidate) then
        Ret (Err (ZoneNotFound fqdn))
      else
        let* answer := call (Lookup Shared candidate SOA) in
        let next :=
          match split_once dot candidate with
          | None => Ret (Err (ZoneNotFound fqdn))
          | Some (_, rest) =>
              if is_empty rest || starts_with "." rest then Ret (Err (ZoneNotFound fqdn))
              else find_zone_loop fuel' fqdn rest
          end in
        match answer with
        | Ok (_ :: _) => Ret (Ok candidate)
        | _ => next
        end
  end.

Definition find_zone (fqdn : string) : sys (dns_result string) :=
  await? _ := shared_resolver in
  let trimmed := trim_end_matches dot fqdn in
  find_zone_loop (S (String.length trimmed)) fqdn trimmed.

(** ** Theory *)

(** The names at or above a name with the given labels, closest first, that
    have at least two labels. *)
Fixpoint ancestors (labels : list string) : list string :=
  match labels with
  | x :: (_ :: _) as l => join "." (x :: l) :: ancestors l
  | _ => []
  end.

Definition candidates (fqdn : string) : list string :=
  ancestors (split dot (trim_end_matches dot fqdn)).

Lemma join_split_dot s : join "." (split dot s) = s.
Proof. exact (join_split dot s). Qed.

Lemma ancestors_cons x l :
  l <> [] -> ancestors (x :: l) = join "." (x :: l) :: ancestors l.
Proof. by destruct l. Qed.

(** Labels joined by dots, split again at the first. *)
Lemma label_first x l :
  valid_label x -> l <> [] ->
  split_once dot (join "." (x :: l)) = Some (x, join "." l).
Proof.
  intros (_ & _ & Hx) Hl. rewrite join_cons by done. apply split_once_spec. split; [done|].
  by apply name_bytes_avoid.
Qed.

Lemma label_start x l :
  valid_label x ->
  is_empty (join "." (x :: l)) || starts_with "." (join "." (x :: l)) = false.
Proof.
  intros (Hne & _ & Hx). destruct x as [|c x]; [done|].
  assert (exists r, join "." (String c x :: l) = String c r) as [r ->]
    by (destruct l; cbn; eauto).
  cbn [all_bytes] in Hx. apply andb_true_iff in Hx as [Hc _]. unfold starts_with. cbn [is_empty orb strip_prefix].
  by destruct (Ascii.eqb_spec "." c) as [<-|].
Qed.

Lemma join_no_dot x : valid_label x -> contains_char dot x = false.
Proof. intros (_ & _ & H). by apply name_bytes_avoid. Qed.

Lemma join_dot x l : l <> [] -> contains_char dot (join "." (x :: l)) = true.
Proof.
  intros Hl. rewrite join_cons by done. rewrite !contains_char_append. cbn.
  by rewrite orb_true_r.
Qed.

Lemma join_tail_length x l : l <> [] ->
  (String.length (join "." l) < String.length (join "." (x :: l)))%nat.
Proof. intros Hl. rewrite join_cons by done. rewrite !length_append. cbn. lia. Qed.

(** Answers to the SOA lookups given by a function of the name. *)
Definition has_soa (a : result (list RData) string) : bool :=
  match a with Ok (_ :: _) => true | _ => false end.

Definition first_zone (soa : string -> result (list RData) string) (fqdn : string)
    (l : list string) : dns_result string :=
  match List.find (fun z => has_soa (soa z)) l with
  | Some z => Ok z
  | None => Err (ZoneNotFound fqdn)
  end.

Lemma find_zone_loop_first {W} (h : handler sysE W) soa fqdn labels fuel w :
  (forall z v, fst (h _ (Lookup Shared z SOA) v) = soa z) ->
  Forall valid_label labels ->
  (String.length (join "." labels) < fuel)%nat ->
  fst (run h (find_zone_loop fuel fqdn (join "." labels)) w) = first_zone soa fqdn (ancestors labels).
Proof.
  intros Hsoa Hv. revert fuel w. induction Hv as [|x l Hx Hl IH]; intros fuel w Hf.
  - destruct fuel; done.
  - destruct fuel as [|fuel]; [lia|]. cbn [find_zone_loop].
    pose proof (label_start x l Hx) as Hstart. apply orb_false_iff in Hstart as [He _].
    rewrite He. cbn [orb]. destruct l as [|y l].
    + cbn [join]. by rewrite join_no_dot.
    + rewrite join_dot by done. cbn [negb]. unfold call. cbn [pbind run].
      destruct (h _ (Lookup Shared _ SOA) w) as [a w1] eqn:Ea.
      assert (a = soa (join "." (x :: y :: l))) as -> by by rewrite <- (Hsoa _ w), Ea.
      rewrite ancestors_cons by done. unfold first_zone. cbn [List.find].
      rewrite label_first by done. inversion Hl as [|? ? Hy Hl']; subst.
      rewrite label_start by done.
      assert (fst (run h (find_zone_loop fuel fqdn (join "." (y :: l))) w1) =
              first_zone soa fqdn (ancestors (y :: l))) as Hrec.
      { apply IH. pose proof (join_tail_length x (y :: l) ltac:(done)). lia. }
      destruct (soa (join "." (x :: y :: l))) as [[|d ds]|e]; cbn [has_soa]; done.
Qed.

(** Whatever the answers, the result is one of the candidates. *)
Lemma find_zone_loop_candidate {W} (h : handler sysE W) fqdn labels fuel w :
  Forall valid_label labels ->
  wp h (find_zone_loop fuel fqdn (join "." labels))
    (fun r _ => forall z, r = Ok z -> z ∈ ancestors labels) w.
Proof.
  intros Hv. revert fuel w. induction Hv as [|x l Hx Hl IH]; intros [|fuel] w;
    try (by apply wp_ret). cbn [find_zone_loop].
  destruct l as [|y l].
  - cbn [join]. rewrite join_no_dot, orb_true_r by done. by apply wp_ret.
  - destruct (is_empty _ || _); [by apply wp_ret|]. apply wp_bind, wp_vis, wp_ret.
    rewrite label_first by done. inversion Hl as [|? ? Hy Hl']; subst. rewrite label_start by done.
    rewrite ancestors_cons by done.
    assert (forall v, wp h (find_zone_loop fuel fqdn (join "." (y :: l)))
      (fun r _ => forall z, r = Ok z -> z ∈ join "." (x :: y :: l) :: ancestors (y :: l)) v) as Hrec.
    { intros v. eapply wp_mono; [apply IH|]. intros r v' H z Hz. right. by apply H. }
    destruct (fst _) as [[|d ds]|e]; try apply Hrec.
    apply wp_ret. intros z [= <-]. left.
Qed.

Lemma wp_shared_resolver {W} (h : handler sysE W) (Q : dns_result unit -> W -> Prop) w :
  (forall r v, Q r v) -> wp h shared_resolver Q w.
Proof. intros H. unfold wp. by destruct (run h shared_resolver w). Qed.

(** Zones found are at or above the name, on a label boundary. *)
Lemma wp_find_zone {W} (h : handler sysE W) fqdn w :
  valid_name fqdn ->
  wp h (find_zone fqdn) (fun r _ => forall z, r = Ok z -> z ∈ candidates fqdn) w.
Proof.
  intros (_ & _ & Hv). apply wp_try, wp_shared_resolver. intros [[]|e] v; [|done].
  pose proof (find_zone_loop_candidate h fqdn _ (S (String.length (trim_end_matches dot fqdn))) v Hv) as H.
  rewrite join_split_dot in H. exact H.
Qed.

Lemma ancestors_suffix labels z :
  z ∈ ancestors labels -> z = join "." labels \/ exists p, join "." labels = p +:+ "." +:+ z.
Proof.
  induction labels as [|x l IH]; [by intros ?%elem_of_nil|].
  destruct l as [|y l]; [by intros ?%elem_of_nil|].
  rewrite ancestors_cons by done. intros [->|Hz]%elem_of_cons; [by left|right].
  rewrite join_cons by done. destruct (IH Hz) as [->|[p ->]]; [by exists x|].
  exists (x +:+ "." +:+ p). by autorewrite with str.
Qed.

Lemma ancestors_valid labels z :
  Forall valid_label labels -> z ∈ ancestors labels ->
  exists l, z = join "." l /\ Forall valid_label l /\ (2 <= length l)%nat.
Proof.
  induction 1 as [|x l Hx Hl IH]; [by intros ?%elem_of_nil|].
  destruct l as [|y l]; [by intros ?%elem_of_nil|].
  rewrite ancestors_cons by done. intros [->|Hz]%elem_of_cons; [|by apply IH].
  exists (x :: y :: l). split; [done|]. split; [by constructor|]. cbn. lia.
Qed.

Lemma split_join labels :
  Forall valid_label labels -> labels <> [] -> split dot (join "." labels) = labels.
Proof.
  induction 1 as [|x l Hx Hl IH]; [done|]. intros _. destruct l as [|y l].
  - cbn [join]. by apply split_no_sep, join_no_dot.
  - rewrite join_cons by done. change ("." +:+ ?s) with (String dot s).
    rewrite split_append, IH by done. by rewrite split_no_sep by by apply join_no_dot.
Qed.

Lemma join_last_not_dot labels :
  Forall valid_label labels -> labels <> [] -> last_byte (join "." labels) <> Some dot.
Proof.
  induction 1 as [|x l Hx Hl IH]; [done|]. intros _. destruct l as [|y l].
  - cbn [join]. intros H. destruct Hx as (_ & _ & Hx). by pose proof (last_byte_all _ _ _ Hx H).
  - rewrite join_cons by done. rewrite last_byte_append by by destruct (join "." (y :: l)).
    change ("." +:+ ?s) with (String dot s). destruct (join "." (y :: l)) eqn:E.
    + inversion Hl as [|? ? Hy _]; subst. pose proof (label_start y l Hy) as H. rewrite E in H. done.
    + by apply IH.
Qed.

(** A candidate is its own trimmed form, has two labels, and every name has a
    relative name in each of its candidates. *)
Lemma candidate_relative fqdn z :
  valid_name fqdn -> z ∈ candidates fqdn ->
  trim_end_matches dot z = z /\ contains_char dot z = true /\
  exists r, relative_name fqdn z = Ok r.
Proof.
  intros (_ & _ & Hv) Hz. unfold candidates in Hz.
  destruct (ancestors_valid _ _ Hv Hz) as (l & -> & Hl & Hlen).
  assert (l <> []) as Hne by (destruct l; cbn in Hlen; [lia|done]).
  assert (trim_end_matches dot (join "." l) = join "." l) as Ht
    by by apply trim_end_fix, join_last_not_dot.
  split; [exact Ht|]. split.
  { destruct l as [|x [|y l]]; cbn in Hlen; try lia. by apply join_dot. }
  apply ancestors_suffix in Hz. rewrite !join_split_dot in Hz. destruct Hz as [Hz|[p Hz]].
  - exists "@". apply relative_name_ok. left. by rewrite Ht.
  - exists p. apply relative_name_ok. right. rewrite Ht, Hz. split; [|done]. intros E.
    apply (f_equal String.length) in E. rewrite !length_append in E. cbn in E. lia.
Qed.

(** ** Properties *)

(** C37. For a valid name, [find_zone] returns the closest name at or above
    it, of at least two labels, that has an SOA record, and [ZoneNotFound]
    when there is none: the loop ends by itself, within its fuel. *)
Theorem find_zone_closest {W} (h : handler sysE W) soa fqdn w
    (Hsoa : forall z v, fst (h _ (Lookup Shared z SOA) v) = soa z)
    (Hres : forall v, fst (run h shared_resolver v) = Ok tt)
    (Hv : validate_fqdn fqdn = Ok tt) :
  fst (run h (find_zone fqdn) w) = first_zone soa fqdn (candidates fqdn).
Proof.
  apply validate_fqdn_valid in Hv as (_ & _ & Hv). unfold find_zone, ptry.
  rewrite run_bind. specialize (Hres w). destruct (run h shared_resolver w) as [r v].
  cbn in Hres. subst r. cbn zeta.
  pose proof (find_zone_loop_first h soa fqdn _ (S (String.length (trim_end_matches dot fqdn))) v Hsoa Hv) as H.
  rewrite join_split_dot in H. apply H. lia.
Qed.

(** Only [example.com] and [com] have an SOA record. *)
Definition demo_soa (z : string) : result (list RData) string :=
  if (z =? "example.com")%string || (z =? "com")%string then Ok [RSoa] else Err "no record".

Definition demo_dns : handler sysE unit := fun X e _ =>
  match e in sysE X return X * unit with
  | HttpSend _ => (Err (Transport EmptyString), tt)
  | Sleep _ | Acquire _ | Release _ | CachePut _ _ | SharedResolverInit => (tt, tt)
  | Now => (0, tt)
  | CacheGet _ => (None, tt)
  | SharedResolverGet => (true, tt)
  | SystemResolverBuild => (Ok tt, tt)
  | DirectResolverBuild _ => (Ok tt, tt)
  | Lookup _ z _ => (demo_soa z, tt)
  | SystemTimeNow => (Some 0, tt)
  | OnceGet => (None, tt)
  | OnceSet _ => (tt, tt)
  | TokenLock | TokenUnlock | TokenSet _ => (tt, tt)
  | TokenGet => (None, tt)
  | UtcNow => ((1970, 1, 1, 0, 0, 0), tt)
  | RandomU16 => (0, tt)
  | TcpConnect _ _ | TcpWriteAll _ => (Err Elapsed, tt)
  | TcpReadExact _ => (Err Elapsed, tt)
  | LookupIp _ _ => (Err EmptyString, tt)
  end.

Lemma find_zone_closest_witness :
  fst (run demo_dns (find_zone "_acme-challenge.api.example.com.") tt) = Ok "example.com" /\
  fst (run demo_dns (find_zone "_acme-challenge.api.example.com.") tt) =
    first_zone demo_soa "_acme-challenge.api.example.com."
      (candidates "_acme-challenge.api.example.com.").
Proof.
  split; [by vm_compute|]. apply find_zone_closest; [done|done|by vm_compute].
Defined.
