(* ===== verification/Provider.v ===== *)
(** * The provider interface (src/provider.rs)

    [DnsProvider] as a record of operations, and the contract its
    documentation states as a class: what [present] and [cleanup] do to the
    TXT values served, on success and on failure.  The solver is verified
    against this contract. *)

From S2P Require Import Prelude Rstr Errors Sys.

Record PropagationTiming : Type := mkTiming {
  timeout : Duration;
  interval : Duration
}.

Definition default_timing : PropagationTiming :=
  mkTiming (from_secs 120) (from_secs 5).

(** The operations of a provider whose environment has state [W]. *)
Record DnsProvider (W : Type) : Type := mkProvider {
  present : string -> string -> W -> dns_result unit * W;
  cleanup : string -> string -> W -> dns_result unit * W;
  timing : PropagationTiming
}.
Arguments mkProvider {W} present cleanup timing.
Arguments present {W} d _ _ _.
Arguments cleanup {W} d _ _ _.
Arguments timing {W} d.

(** [impl DnsProvider for Box<dyn DnsProvider>]: every call is forwarded. *)
Definition boxed {W} (inner : DnsProvider W) : DnsProvider W :=
  mkProvider (fun fqdn value w => present inner fqdn value w)
             (fun fqdn value w => cleanup inner fqdn value w)
             (timing inner).

(** DNS names that are the same name: case and trailing dots do not matter. *)
Definition canon (fqdn : string) : string :=
  to_ascii_lowercase (trim_end_matches dot fqdn).

Lemma canon_lower fqdn : canon (to_ascii_lowercase fqdn) = canon fqdn.
Proof. unfold canon. by rewrite lower_trim_end, lower_idem. Qed.

(** ** The contract

    [serves w name value]: the TXT records of [name] hold [value].  [name_of]
    is the name a given FQDN stands for, and [inv] the states the provider
    works in.

    A call concerns one value of one name: whatever its outcome, every other
    value, of that name or of another, is kept; a call that succeeds has
    added, or removed, its value. *)
Class ProviderLaws {W} (p : DnsProvider W) (name_of : string -> string)
    (serves : W -> string -> string -> Prop) (inv : W -> Prop) : Prop := {
  present_inv : forall f v w, inv w -> inv (snd (present p f v w));
  cleanup_inv : forall f v w, inv w -> inv (snd (cleanup p f v w));
  present_adds : forall f v w w',
    inv w -> present p f v w = (Ok tt, w') -> serves w' (name_of f) v;
  present_frame : forall f v w n u,
    inv w -> (n, u) <> (name_of f, v) ->
    (serves (snd (present p f v w)) n u <-> serves w n u);
  cleanup_removes : forall f v w w',
    inv w -> cleanup p f v w = (Ok tt, w') -> ~ serves w' (name_of f) v;
  cleanup_frame : forall f v w n u,
    inv w -> (n, u) <> (name_of f, v) ->
    (serves (snd (cleanup p f v w)) n u <-> serves w n u)
}.

#[export] Instance boxed_laws {W} (p : DnsProvider W) name_of serves inv
    `{L : !ProviderLaws p name_of serves inv} :
  ProviderLaws (boxed p) name_of serves inv.
Proof. destruct L. by constructor. Qed.

(** A provider whose state is the first part of a larger one. *)
Definition beside {W V} (p : DnsProvider W) : DnsProvider (W * V) :=
  mkProvider (fun f u '(w, v) => let '(r, w') := present p f u w in (r, (w', v)))
             (fun f u '(w, v) => let '(r, w') := cleanup p f u w in (r, (w', v)))
             (timing p).

#[export] Instance beside_laws {W V} (p : DnsProvider W) name_of serves inv
    `{L : !ProviderLaws p name_of serves inv} :
  ProviderLaws (beside (V := V) p) name_of (fun w => serves (fst w)) (fun w => inv (fst w)).
Proof.
  destruct L as [L1 L2 L3 L4 L5 L6]. constructor; intros f v [w x]; cbn.
  - intros Hw. specialize (L1 f v w Hw). by destruct (present p f v w).
  - intros Hw. specialize (L2 f v w Hw). by destruct (cleanup p f v w).
  - intros w' Hw. specialize (L3 f v w). destruct (present p f v w) as [r w2].
    intros [= -> <-]. cbn. by apply L3.
  - intros n u Hw Hn. specialize (L4 f v w n u Hw Hn). by destruct (present p f v w).
  - intros w' Hw. specialize (L5 f v w). destruct (cleanup p f v w) as [r w2].
    intros [= -> <-]. cbn. by apply L5.
  - intros n u Hw Hn. specialize (L6 f v w n u Hw Hn). by destruct (cleanup p f v w).
Qed.
