(* ===== verification/Txt.v ===== *)
(** * TXT records behind an HTTP API

    What the providers' proofs share.  The records a server holds are seen as
    [vals w k], the TXT values of the record set [k] in state [w]; a call of a
    provider adds or removes one value of one set, and a request may be sent
    again by [send_retrying], so that its effect is stated for any number of
    tries.  [rr_present] and [rr_cleanup] are the read-modify-write
    algorithms of the providers whose API replaces whole record sets. *)

From S2P Require Import Prelude Rstr Errors Effects Sys Common Zone Provider.

(** ** Programs that send no request *)

Definition is_request {X} (e : sysE X) : bool :=
  match e with HttpSend _ | TcpConnect _ _ | TcpWriteAll _ | TcpReadExact _ => true | _ => false end.

Fixpoint quietly {A} (p : sys A) : Prop :=
  match p with
  | Ret _ => True
  | Vis e k => is_request e = false /\ forall x, quietly (k x)
  end.

Lemma quietly_bind {A B} (p : sys A) (k : A -> sys B) :
  quietly p -> (forall a, quietly (k a)) -> quietly (pbind p k).
Proof.
  intros Hp Hk. induction p as [a|X e c IH]; cbn in *; [apply Hk|].
  destruct Hp as [He Hc]. split; [done|]. intros x. apply IH, Hc.
Qed.

Lemma quietly_try {A B F} (p : sys (result A F)) (k : A -> sys (result B F)) :
  quietly p -> (forall a, quietly (k a)) -> quietly (ptry p k).
Proof. intros Hp Hk. apply quietly_bind; [done|]. by intros [a|e]. Qed.

Lemma shared_resolver_quietly : quietly shared_resolver.
Proof. cbn. split; [done|]. intros []; cbn; [done|]. split; [done|]. by intros [|[]]. Qed.

Lemma find_zone_loop_quietly fuel fqdn candidate : quietly (find_zone_loop fuel fqdn candidate).
Proof.
  revert candidate. induction fuel as [|fuel IH]; intros c; [done|].
  cbn [find_zone_loop]. destruct (_ || _); [done|]. cbn. split; [done|]. intros x.
  repeat (case_match; try done; try apply IH).
Qed.

Lemma find_zone_quietly fqdn : quietly (find_zone fqdn).
Proof.
  apply quietly_try; [apply shared_resolver_quietly|]. intros []. apply find_zone_loop_quietly.
Qed.

(** ** Record sets *)

Section txt.
Context {K W V : Type} (h : handler sysE W) (vals : W -> K -> V).

(** [V] is what a state holds for a record set.  Two states that hold the
    same. *)
Definition same (w w' : W) : Prop := forall k, vals w' k = vals w k.

#[global] Instance same_equivalence : Equivalence same.
Proof.
  split.
  - by intros w k.
  - intros w w' H k. by rewrite H.
  - intros w w' w'' H1 H2 k. by rewrite H2, H1.
Qed.

#[global] Instance vals_proper : Proper (same ==> eq ==> eq) vals.
Proof. intros w w' H k ? <-. by rewrite (H k). Qed.

(** [w'] is [w] with the values of [k] replaced by [l]. *)
Definition set_to (k : K) (l : V) (w w' : W) : Prop :=
  vals w' k = l /\ forall k', k' <> k -> vals w' k' = vals w k'.

#[global] Instance set_to_proper k l : Proper (same ==> same ==> iff) (set_to k l).
Proof. intros w1 w2 H w3 w4 H'. unfold set_to. setoid_rewrite H. by setoid_rewrite H'. Qed.

Lemma set_to_trans k l w1 w2 w3 : set_to k l w1 w2 -> set_to k l w2 w3 -> set_to k l w1 w3.
Proof. intros [_ H] [H1 H2]. split; [done|]. intros k' Hk. by rewrite H2, H. Qed.

(** The environment of a provider: the TXT values change by requests only,
    and not by reading. *)
Record background : Prop := {
  bg_quiet : forall X (e : sysE X) w, is_request e = false -> same w (snd (h X e w));
  bg_get : forall req w, method req = GET -> same w (snd (h _ (HttpSend req) w))
}.
Context (Hbg : background).

Lemma wp_quiet {A} (p : sys A) (Q : A -> W -> Prop) w :
  quietly p -> (forall a w', same w w' -> Q a w') -> wp h p Q w.
Proof.
  revert w. induction p as [a|X e k IH]; intros w Hp HQ.
  - by apply wp_ret, HQ.
  - destruct Hp as [He Hk]. apply wp_vis, IH; [done|]. intros a w' Hw. apply HQ.
    rewrite <- Hw. by apply bg_quiet.
Qed.

(** A locked section, for a postcondition on the TXT values. *)
Lemma wp_locked {A} key (p : sys A) (Q : A -> W -> Prop) w :
  (forall a, Proper (same ==> iff) (Q a)) ->
  (forall w0, same w w0 -> wp h p Q w0) -> wp h (with_lock key p) Q w.
Proof.
  intros HQ Hp. apply wp_with_lock. eapply wp_mono; [apply Hp; by apply bg_quiet|].
  intros a w' Ha. cbn. eapply (HQ a); [|exact Ha]. symmetry. by apply bg_quiet.
Qed.

Section requests.
Context `{X : Ext} `{S : !ExtSpec X}.

(** A read, whatever its method: the answer is the server's, with the values
    there were. *)
Lemma wp_reading req (Q : dns_result Response -> W -> Prop) w :
  (forall v, same v (snd (h _ (HttpSend req) v))) ->
  (forall w', same w w' ->
     (forall e, Q (Err e) w') /\
     forall resp w0, same w w0 -> fst (h _ (HttpSend req) w0) = Ok resp -> Q (Ok resp) w') ->
  wp h (send req) Q w.
Proof.
  intros Hm HQ. apply (wp_send h (same w)); [done| |].
  - intros v d Hv. rewrite Hv. by apply bg_quiet.
  - intros v Hv. pose proof (Hm v) as Hs.
    destruct (h _ (HttpSend req) v) as [r v'] eqn:E. cbn in Hs. rewrite <- Hv in Hs.
    destruct (HQ v' Hs) as [He Hr]. split; [|done].
    destruct r as [resp|e]; cbn; [|apply He]. apply (Hr resp v Hv). by rewrite E.
Qed.

Lemma wp_read req (Q : dns_result Response -> W -> Prop) w :
  method req = GET ->
  (forall w', same w w' ->
     (forall e, Q (Err e) w') /\
     forall resp w0, same w w0 -> fst (h _ (HttpSend req) w0) = Ok resp -> Q (Ok resp) w') ->
  wp h (send req) Q w.
Proof. intros Hm. apply wp_reading. intros v. by apply bg_get. Qed.

(** A write: its effect [E], which may be done several times over, happens
    or does not; it has happened when the answer says so, and then [P] holds
    of the answer and the state. *)
Lemma wp_write_answer req (E : W -> W -> Prop) (done_ : Response -> Prop) (P : Response -> W -> Prop)
    (Q : dns_result Response -> W -> Prop) w :
  Proper (same ==> same ==> iff) E -> Transitive E ->
  (forall v, let '(r, v') := h _ (HttpSend req) v in
     (same v v' \/ E v v') /\ forall resp, r = Ok resp -> done_ resp -> E v v' /\ P resp v') ->
  (forall r w', (same w w' \/ E w w') ->
     (forall resp, r = Ok resp -> done_ resp -> E w w' /\ P resp w') -> Q r w') ->
  wp h (send req) Q w.
Proof.
  intros HE HT Hreq HQ. apply (wp_send h (fun v => same w v \/ E w v)); [by left| |].
  - intros v d Hv. pose proof (bg_quiet Hbg _ (Sleep d) v eq_refl) as Hs.
    destruct Hv as [Hv|Hv]; [left; by rewrite Hv|right; by rewrite <- Hs].
  - intros v Hv. specialize (Hreq v). destruct (h _ (HttpSend req) v) as [r v'].
    destruct Hreq as [Hd Hok].
    assert (same w v' \/ E w v') as Hw'.
    { destruct Hv as [Hv|Hv]; [by rewrite !Hv|]. right.
      destruct Hd as [Hd|Hd]; [by rewrite <- Hd|by etrans]. }
    split; [|done]. apply HQ; [done|]. intros resp Hr Hdone.
    destruct r as [resp'|e]; [|done]. cbn in Hr. injection Hr as ->.
    destruct (Hok resp eq_refl Hdone) as [He HP]. split; [|done].
    destruct Hv as [Hv|Hv]; [by rewrite Hv|by etrans].
Qed.

Lemma wp_write req (E : W -> W -> Prop) (done_ : Response -> Prop) (Q : dns_result Response -> W -> Prop) w :
  Proper (same ==> same ==> iff) E -> Transitive E ->
  (forall v, let '(r, v') := h _ (HttpSend req) v in
     (same v v' \/ E v v') /\ forall resp, r = Ok resp -> done_ resp -> E v v') ->
  (forall r w', (same w w' \/ E w w') -> (forall resp, r = Ok resp -> done_ resp -> E w w') -> Q r w') ->
  wp h (send req) Q w.
Proof.
  intros HE HT Hreq HQ. apply (wp_write_answer req E done_ (fun _ _ => True)); [done|done| |].
  - intros v. specialize (Hreq v). destruct (h _ (HttpSend req) v) as [r v']. naive_solver.
  - intros r w' Hd Ho. apply HQ; [done|]. intros resp Hr Hdone. by apply (Ho resp).
Qed.
End requests.
End txt.

(** ** Calls that concern one value *)

Section calls.
Context {K W : Type} (vals : W -> K -> list string).
Local Abbreviation same := (same vals).

(** A call concerned the value [v] of [k] only, and on success has added it,
    or removed it. *)
Definition frame (k : K) (v : string) (w w' : W) : Prop :=
  forall k' u, (k', u) <> (k, v) -> (u ∈ vals w' k' <-> u ∈ vals w k').
Definition added {E} (k : K) (v : string) (w : W) (r : result unit E) (w' : W) : Prop :=
  frame k v w w' /\ (r = Ok tt -> v ∈ vals w' k).
Definition removed {E} (k : K) (v : string) (w : W) (r : result unit E) (w' : W) : Prop :=
  frame k v w w' /\ (r = Ok tt -> v ∉ vals w' k).

#[global] Instance frame_proper k v : Proper (same ==> same ==> iff) (frame k v).
Proof. intros w1 w2 H w3 w4 H'. unfold frame. setoid_rewrite H. by setoid_rewrite H'. Qed.

#[global] Instance added_proper {E} k v : Proper (same ==> eq ==> same ==> iff) (added (E := E) k v).
Proof. intros w1 w2 H r ? <- w3 w4 H'. unfold added. by rewrite H, H'. Qed.

#[global] Instance removed_proper {E} k v : Proper (same ==> eq ==> same ==> iff) (removed (E := E) k v).
Proof. intros w1 w2 H r ? <- w3 w4 H'. unfold removed. by rewrite H, H'. Qed.

Lemma frame_same k v w w' : same w w' -> frame k v w w'.
Proof. intros H k' u _. by rewrite H. Qed.

Lemma same_failed_added {E} k v w (e : E) w' : same w w' -> added k v w (Err e) w'.
Proof. intros H. split; [by apply frame_same|done]. Qed.

Lemma same_failed_removed {E} k v w (e : E) w' : same w w' -> removed k v w (Err e) w'.
Proof. intros H. split; [by apply frame_same|done]. Qed.

End calls.

(** ** Quoted values *)

(** [fn unquote], the same in gandi.rs, scaleway.rs, powerdns.rs and
    desec.rs. *)
Definition unquote (value : string) : string :=
  let trimmed := trim value in
  default trimmed (strip_prefix dquote trimmed ≫= strip_suffix dquote).

(** The string literal with a quote on both sides that [format!] writes. *)
Definition quoted (value : string) : string := dquote +:+ value +:+ dquote.

Lemma trim_quoted v : trim (quoted v) = quoted v.
Proof.
  apply trim_id.
  - vm_compute. set_solver.
  - unfold quoted. rewrite !last_byte_append by (try done; by destruct v). vm_compute. set_solver.
Qed.

Lemma unquote_quoted v : unquote (quoted v) = v.
Proof.
  unfold unquote. rewrite trim_quoted. unfold quoted at 2.
  rewrite strip_prefix_append. cbn [mbind option_bind]. by rewrite strip_suffix_append.
Qed.

Lemma unquote_plain v : trim v = v -> first_byte v <> Some quote -> unquote v = v.
Proof.
  intros Ht Hq. unfold unquote. rewrite Ht. destruct v as [|b v]; [done|].
  cbn in Hq. unfold dquote. cbn [strip_prefix]. destruct (Ascii.eqb_spec quote b) as [<-|]; [done|].
  reflexivity.
Qed.

Lemma map_unquote_quoted l : map unquote (map quoted l) = l.
Proof. induction l as [|v l IH]; [done|]. cbn [map]. by rewrite unquote_quoted, IH. Qed.

(** ** Read-modify-write of a record set *)

Section rrset.
Context {K : Type} `{EqDecision K} {W S R E : Type} (h : handler sysE W) (vals : W -> K -> list string).
Context (fetch : sys (result S E)) (items : S -> list R) (decode : R -> string).
Context (write : S -> list R -> sys (result unit E)).

Definition rr_present (v : string) (r : R) : sys (result unit E) :=
  await? s := fetch in
  if existsb (fun r => (decode r =? v)%string) (items s) then Ret (Ok tt)
  else write s (items s ++ [r]).

Definition rr_cleanup (v : string) : sys (result unit E) :=
  await? s := fetch in
  let remaining := List.filter (fun r => negb (decode r =? v)%string) (items s) in
  if (length remaining =? length (items s))%nat then Ret (Ok tt) else write s remaining.

(** The test of [rr_cleanup] in another form. *)
Lemma filter_length_existsb (p : R -> bool) l :
  (length (List.filter (fun r => negb (p r)) l) =? length l)%nat = negb (existsb p l).
Proof.
  apply eq_true_iff_eq. rewrite Nat.eqb_eq, negb_true_iff, existsb_none. split.
  - intros H x Hx. apply filter_all_length in H. rewrite <- H in Hx.
    apply filter_elem in Hx as [_ Hx]. by apply negb_true_iff in Hx.
  - intros H. induction l as [|x l IH]; [done|]. cbn. rewrite H by left. cbn. f_equal.
    apply IH. intros y Hy. apply H. by right.
Qed.

(** What [fetch] and [write] do for the set [k]; [P] is what is known of the
    states they run in, and [good] of what is fetched. *)
Section writes.
Context (k : K) (P : W -> Prop) (good : S -> Prop).
Context (Hfetch : forall w, P w -> wp h fetch (fun r w' =>
  same vals w w' /\ forall s, r = Ok s -> map decode (items s) = vals w k /\ good s) w).
Context (Hwrite : forall s l w, good s -> wp h (write s l) (fun r w' =>
  (same vals w w' \/ set_to vals k (map decode l) w w') /\
  (r = Ok tt -> set_to vals k (map decode l) w w')) w).

Lemma set_to_frame v l w w' :
  set_to vals k l w w' -> (forall u, u <> v -> (u ∈ l <-> u ∈ vals w k)) -> frame vals k v w w'.
Proof.
  intros [H1 H2] Hl k' u Hne. destruct (decide (k' = k)) as [->|Hk]; [|by rewrite H2].
  rewrite H1. apply Hl. by intros ->.
Qed.

Lemma decoded_elem v l : v ∈ map decode l <-> exists r, r ∈ l /\ decode r = v.
Proof. rewrite list_elem_of_fmap. naive_solver. Qed.

Lemma wp_rr_present_when v r w :
  P w -> decode r = v -> wp h (rr_present v r) (fun r w' => added vals k v w r w') w.
Proof.
  intros HP Hr. apply wp_try. eapply wp_mono; [by apply Hfetch|].
  intros [s|e] w1 [Hw1 Hs]; [|by apply same_failed_added].
  destruct (Hs s eq_refl) as [Hs' Hgood]. clear Hs. rename Hs' into Hs. destruct (existsb _ _) eqn:Ex.
  - apply wp_ret. split; [by apply frame_same|]. intros _. rewrite (Hw1 k), <- Hs.
    apply decoded_elem. apply existsb_elem in Ex as (x & Hx & Ex). apply String.eqb_eq in Ex. eauto.
  - eapply wp_mono; [by apply Hwrite|]. intros a w2 [Hd Ho]. rewrite Hw1. rewrite map_app in *. split.
    + destruct Hd as [Hd|Hd]; [by apply frame_same|]. eapply set_to_frame; [exact Hd|].
      intros u Hu. rewrite (Hw1 k), <- Hs. cbn. set_solver.
    + intros Ha. destruct (Ho Ha) as [-> _]. cbn. set_solver.
Qed.

Lemma wp_rr_cleanup_when v w :
  P w -> wp h (rr_cleanup v) (fun r w' => removed vals k v w r w') w.
Proof.
  intros HP. apply wp_try. eapply wp_mono; [by apply Hfetch|].
  intros [s|e] w1 [Hw1 Hs]; [|by apply same_failed_removed].
  destruct (Hs s eq_refl) as [Hs' Hgood]. clear Hs. rename Hs' into Hs. cbn zeta.
  assert (forall u, u ∈ map decode (List.filter (fun r => negb (decode r =? v)%string) (items s)) <->
                    u ∈ vals w k /\ u <> v) as Hf.
  { intros u. rewrite <- Hs, !decoded_elem. setoid_rewrite filter_elem.
    setoid_rewrite negb_true_iff. setoid_rewrite String.eqb_neq. naive_solver. }
  destruct (Nat.eqb_spec (length (List.filter (fun r => negb (decode r =? v)%string) (items s)))
              (length (items s))) as [El|].
  - apply wp_ret. split; [by apply frame_same|]. intros _. rewrite (Hw1 k).
    apply filter_all_length in El. rewrite El, Hs in Hf. naive_solver.
  - eapply wp_mono; [by apply Hwrite|]. intros a w2 [Hd Ho]. rewrite Hw1. split.
    + destruct Hd as [Hd|Hd]; [by apply frame_same|]. eapply set_to_frame; [exact Hd|].
      intros u Hu. rewrite Hf, (Hw1 k). naive_solver.
    + intros Ha. destruct (Ho Ha) as [-> _]. rewrite Hf. naive_solver.
Qed.
End writes.

(** The same when a write does not depend on what was fetched. *)
Section every.
Context (k : K) (P : W -> Prop).
Context (Hfetch : forall w, P w -> wp h fetch (fun r w' =>
  same vals w w' /\ forall s, r = Ok s -> map decode (items s) = vals w k) w).
Context (Hwrite : forall s l w, wp h (write s l) (fun r w' =>
  (same vals w w' \/ set_to vals k (map decode l) w w') /\
  (r = Ok tt -> set_to vals k (map decode l) w w')) w).

Lemma good_fetch w : P w -> wp h fetch (fun r w' =>
  same vals w w' /\ forall s, r = Ok s -> map decode (items s) = vals w k /\ True) w.
Proof. intros HP. eapply wp_mono; [by apply Hfetch|]. intros r w' [H Hs]. split; [done|]. intros s Hr. by split; [apply Hs|]. Qed.

Lemma wp_rr_present v r w :
  P w -> decode r = v -> wp h (rr_present v r) (fun r w' => added vals k v w r w') w.
Proof. apply (wp_rr_present_when k P (fun _ => True) good_fetch). intros s l w' _. apply Hwrite. Qed.

Lemma wp_rr_cleanup v w :
  P w -> wp h (rr_cleanup v) (fun r w' => removed vals k v w r w') w.
Proof. apply (wp_rr_cleanup_when k P (fun _ => True) good_fetch). intros s l w' _. apply Hwrite. Qed.
End every.

(** What a successful write has settled: a call that succeeds has written
    nothing, or has settled its write. *)
Section settled.
Context {K' V : Type} (raw : W -> K' -> V) (done_ : W -> Prop).
Context (good : S -> Prop).
Context (Hread : forall w, wp h fetch (fun r w' => same raw w w' /\ forall s, r = Ok s -> good s) w).
Context (Hsettle : forall s l w, good s -> wp h (write s l) (fun r w' => r = Ok tt -> done_ w') w).

Lemma wp_rr_settled (q : sys (result unit E)) (next : S -> sys (result unit E)) w :
  q = (await? s := fetch in next s) ->
  (forall s, next s = Ret (Ok tt) \/ exists l, next s = write s l) ->
  wp h q (fun r w' => r = Ok tt -> same raw w w' \/ done_ w') w.
Proof.
  intros -> Hn. apply wp_try. eapply wp_mono; [apply Hread|]. intros [s|e] w1 [H1 Hg]; [|done].
  destruct (Hn s) as [->|[l ->]].
  - apply wp_ret. by left.
  - eapply wp_mono; [by apply Hsettle, Hg|]. intros r w2 Hr E0. right. by apply Hr.
Qed.

Lemma wp_rr_present_settled v r w :
  wp h (rr_present v r) (fun r w' => r = Ok tt -> same raw w w' \/ done_ w') w.
Proof. eapply wp_rr_settled; [done|]. intros s. cbn. destruct (existsb _ _); eauto. Qed.

Lemma wp_rr_cleanup_settled v w :
  wp h (rr_cleanup v) (fun r w' => r = Ok tt -> same raw w w' \/ done_ w') w.
Proof. eapply wp_rr_settled; [done|]. intros s. cbn beta zeta. destruct (length _ =? length _)%nat; eauto. Qed.
End settled.
End rrset.

(** ** Providers of TXT values

    Record sets are keyed by their zone and their name relative to it. *)

Section outcomes.
Context {W K V : Type} (vals : W -> K -> V).

(** The outcome of a call for [f] and [v]: nothing has changed and the call
    failed; or the name has a place in a zone that is [right], and the call
    did [post] there. *)
Definition concerns (post : string * string -> string -> W -> dns_result unit -> W -> Prop)
    (right : string -> Prop) (f v : string) (w : W) (r : dns_result unit) (w' : W) : Prop :=
  (same vals w w' /\ is_ok r = false) \/
  exists z rn, right z /\ valid_name f /\ relative_name (to_ascii_lowercase f) z = Ok rn /\
    post (z, rn) v w r w'.

#[global] Instance concerns_proper post right f v :
  (forall k v, Proper (same vals ==> eq ==> same vals ==> iff) (post k v)) ->
  Proper (same vals ==> eq ==> same vals ==> iff) (concerns post right f v).
Proof.
  intros Hp w1 w2 H r ? <- w3 w4 H'. unfold concerns. rewrite H, H'. by setoid_rewrite H; setoid_rewrite H'.
Qed.

Lemma failed_concerns post right f v w e w' : same vals w w' -> concerns post right f v w (Err e) w'.
Proof. intros H. by left. Qed.

End outcomes.

(** A coarser view of the same outcome. *)
Lemma concerns_mono {W K V K' V'} (vals : W -> K -> V) (vals' : W -> K' -> V')
    (post post' : string * string -> string -> W -> dns_result unit -> W -> Prop) right f v w r w' :
  (same vals w w' -> same vals' w w') -> (forall k, post k v w r w' -> post' k v w r w') ->
  concerns vals post right f v w r w' -> concerns vals' post' right f v w r w'.
Proof. intros Hs Hp [[? ?]|(z & rn & ? & ? & ? & ?)]; [left; auto|right; exists z, rn; auto]. Qed.

Section providers.
Context {W : Type} (vals : W -> string * string -> list string).

(** A name has a relative name that is not empty. *)
Lemma relative_not_empty f z rn :
  valid_name f -> relative_name (to_ascii_lowercase f) z = Ok rn -> rn <> EmptyString.
Proof.
  intros Hf Hr ->. apply relative_name_ok in Hr as [[_ ?]|[_ Hr]]; [done|].
  apply valid_name_lower in Hf as (_ & _ & Hf). rewrite Hr in Hf.
  change (EmptyString +:+ "." +:+ ?s) with (EmptyString +:+ String dot s) in Hf.
  rewrite split_append in Hf by done. cbn in Hf. inversion Hf as [|? ? Hl _]; subst. by destruct Hl.
Qed.

(** A relative name is in lower case, and does not end in a dot. *)
Lemma relative_lower f z rn :
  relative_name (to_ascii_lowercase f) z = Ok rn -> to_ascii_lowercase rn = rn.
Proof.
  rewrite relative_name_ok. rewrite lower_trim_end by done. intros [[_ ->]|[_ E]]; [done|].
  pose proof (f_equal to_ascii_lowercase E) as E'. rewrite lower_idem, lower_append, E in E'.
  symmetry. by apply append_split in E' as [? _]; [|by rewrite lower_length].
Qed.

Lemma relative_no_dot f z rn :
  valid_name f -> relative_name (to_ascii_lowercase f) z = Ok rn -> trim_end_matches dot rn = rn.
Proof.
  rewrite relative_name_ok, <- valid_name_lower. intros (_ & _ & Hf) [[_ ->]|[_ E]]; [done|].
  apply trim_end_fix. intros (t & ->)%last_byte_split. rewrite E, append_assoc in Hf.
  change (Forall valid_label (split dot (t +:+ String dot (String dot (trim_end_matches dot z))))) in Hf.
  rewrite split_append in Hf. apply Forall_app in Hf as [_ Hf]. cbn in Hf.
  inversion Hf as [|? ? [? _] _]; by subst.
Qed.

(** The same for any keys: a failed call that changed nothing, or [post] at
    one of [keys]. *)
Definition touches {K V E} (kvals : W -> K -> V) (keys : K -> Prop)
    (post : K -> string -> W -> result unit E -> W -> Prop) (v : string)
    (w : W) (r : result unit E) (w' : W) : Prop :=
  (same kvals w w' /\ is_ok r = false) \/ exists k, keys k /\ post k v w r w'.

(** The values of the names of one zone. *)
Definition serves_in (z : string) (w : W) (n v : string) : Prop :=
  exists rn, n = absolute_name rn z /\ v ∈ vals w (z, rn).

Lemma absolute_name_inj z a b : absolute_name a z = absolute_name b z -> a = b.
Proof.
  unfold absolute_name. destruct (String.eqb_spec a "@"), (String.eqb_spec b "@"); subst; try done.
  - intros E. apply (f_equal String.length) in E. rewrite !length_append in E. cbn in E. lia.
  - intros E. apply (f_equal String.length) in E. rewrite !length_append in E. cbn in E. lia.
  - intros E. by apply append_inj_r in E.
Qed.

Lemma relative_canon f z rn :
  valid_name f -> relative_name (to_ascii_lowercase f) z = Ok rn -> absolute_name rn z = canon f.
Proof.
  intros Hf Hr. rewrite (relative_name_absolute (to_ascii_lowercase f)); [|by apply valid_name_lower|done].
  unfold canon. by rewrite lower_trim_end.
Qed.

(** A provider for one zone whose calls concern one value of one name keeps
    the contract of [DnsProvider]. *)
Lemma zone_laws (p : DnsProvider W) (z : string) :
  (forall f v w, let '(r, w') := present p f v w in
     concerns vals (added vals) (eq z) f v w r w') ->
  (forall f v w, let '(r, w') := cleanup p f v w in
     concerns vals (removed vals) (eq z) f v w r w') ->
  ProviderLaws p canon (serves_in z) (fun _ => True).
Proof.
  intros Hp Hc.
  assert (forall post f v w r w' n u,
    (forall k v w r w', post k v w r w' -> frame vals k v w w') ->
    concerns vals post (eq z) f v w r w' -> (n, u) <> (canon f, v) ->
    (serves_in z w' n u <-> serves_in z w n u)) as Hframe.
  { intros post f v w r w' n u Hpost [[Hs _]|(z' & rn & <- & Hf & Hr & H)] Hne.
    - unfold serves_in. by setoid_rewrite Hs.
    - apply Hpost in H. rewrite <- (relative_canon f z rn Hf Hr) in Hne.
      unfold serves_in. split; intros (rn' & -> & Hin); exists rn'; (split; [done|]);
        (apply H; [|done]); intros [= -> ->]; done. }
  constructor; try done; intros f v w.
  - intros w' _ E. specialize (Hp f v w). rewrite E in Hp.
    destruct Hp as [[_ ?]|(z' & rn & <- & Hf & Hr & _ & H)]; [done|]. exists rn.
    split; [by rewrite (relative_canon f z rn)|by apply H].
  - intros n u _ Hne. specialize (Hp f v w). destruct (present p f v w) as [r w'].
    eapply Hframe; [|exact Hp|done]. by intros k v0 w0 r0 w1 [? _].
  - intros w' _ E. specialize (Hc f v w). rewrite E in Hc.
    destruct Hc as [[_ ?]|(z' & rn & <- & Hf & Hr & _ & H)]; [done|].
    intros (rn' & Hn & Hin). rewrite <- (relative_canon f z rn Hf Hr) in Hn.
    apply absolute_name_inj in Hn as <-. by apply H.
  - intros n u _ Hne. specialize (Hc f v w). destruct (cleanup p f v w) as [r w'].
    eapply Hframe; [|exact Hc|done]. by intros k v0 w0 r0 w1 [? _].
Qed.
End providers.

(** ** Paths *)

Definition no_slash (s : string) : Prop := contains_char "/" s = false.

Lemma slash_inj a b x y :
  no_slash a -> no_slash b -> a +:+ String "/" x = b +:+ String "/" y -> a = b /\ x = y.
Proof. apply sep_inj. Qed.

Lemma pretty_no_slash (z : Z) : no_slash (pretty z).
Proof. by apply pretty_no_char. Qed.

Section paths.
Context `{X : Ext} `{S : !ExtSpec X}.

Lemma encode_path_no_slash s : no_slash (encode_path s).
Proof.
  unfold no_slash, encode_path. rewrite percent_encode_spec.
  pose proof (percent_bytes_segment s) as H. induction (percent_bytes PATH_SEGMENT s) as [|c t IH]; [done|].
  cbn in *. apply andb_true_iff in H as [Hc Ht]. rewrite IH by done.
  destruct (Ascii.eqb_spec c "/") as [->|]; done.
Qed.

Lemma encode_path_inj a b : encode_path a = encode_path b -> a = b.
Proof.
  unfold encode_path. rewrite !percent_encode_spec. intros E.
  apply (f_equal percent_decode) in E. rewrite !percent_bytes_decode in E by done. by injection E.
Qed.

Lemma encode_decode s : percent_decode (encode_path s) = Some s.
Proof. unfold encode_path. rewrite percent_encode_spec. by apply percent_bytes_decode. Qed.

(** What follows the segment of one zone in a path. *)
Lemma strip_segment pre zone z rest :
  strip_prefix (pre +:+ encode_path zone +:+ "/") (pre +:+ encode_path z +:+ "/" +:+ rest) =
  if decide (z = zone) then Some rest else None.
Proof.
  case_decide as Hz.
  - subst. apply strip_prefix_spec. by rewrite !append_assoc.
  - destruct (strip_prefix _ _) as [r|] eqn:E; [|done]. apply strip_prefix_spec in E.
    rewrite !append_assoc in E. apply append_inj_l in E.
    apply slash_inj in E as [E _]; [|apply encode_path_no_slash..]. by apply encode_path_inj in E.
Qed.
End paths.

(** ** Views

    The values of a record set are often decoded from what the server holds
    at a URL: [vals w k = f (raw w (g k))]. *)

Section view.
Context {K U W V V' : Type} (h : handler sysE W) (raw : W -> U -> V).
Context (f : V -> V') (g : K -> U) (g_inj : forall a b, g a = g b -> a = b).

Definition view (w : W) (k : K) : V' := f (raw w (g k)).

Lemma same_view w w' : same raw w w' -> same view w w'.
Proof. intros H k. unfold view. by rewrite H. Qed.

Lemma set_to_view k l w w' : set_to raw (g k) l w w' -> set_to view k (f l) w w'.
Proof.
  intros [H1 H2]. split; [unfold view; by rewrite H1|].
  intros k' Hk. unfold view. rewrite H2; [done|]. intros E. by apply Hk, g_inj.
Qed.

Lemma background_view : background h raw -> background h view.
Proof. intros [Hq Hg]. split; intros; apply same_view; eauto. Qed.

(** A request that replaces a record set, seen through the view. *)
Definition replaces (req : Request) (u : U) (l : V) (done_ : Response -> Prop) : Prop :=
  forall w, let '(r, w') := h _ (HttpSend req) w in
    (same raw w w' \/ set_to raw u l w w') /\
    forall resp, r = Ok resp -> done_ resp -> set_to raw u l w w'.

Lemma wp_replace `{X : Ext} `{S : !ExtSpec X} (Hbg : background h raw) req k l done_
    (Q : dns_result Response -> W -> Prop) w :
  replaces req (g k) l done_ ->
  (forall r w', (same view w w' \/ set_to view k (f l) w w') ->
     (forall resp, r = Ok resp -> done_ resp -> set_to view k (f l) w w') -> Q r w') ->
  wp h (send req) Q w.
Proof.
  intros Hreq HQ.
  apply (wp_write h view (background_view Hbg) req (set_to view k (f l)) done_);
    [apply _|intros ???; apply set_to_trans| |done].
  intros v. specialize (Hreq v). destruct (h _ (HttpSend req) v) as [r v']. destruct Hreq as [Hd Ho].
  split; [destruct Hd as [Hd|Hd]; [left; by apply same_view|right; by apply set_to_view]|].
  intros resp Hr Hs. by apply set_to_view, (Ho resp).
Qed.
End view.

(** ** The shape of a call *)

Section call.
Context {W K V : Type} (h : handler sysE W) (vals : W -> K -> V).
Context (Hbg : background h vals).
Context (post : string * string -> string -> W -> dns_result unit -> W -> Prop).
Context `{Hpost : forall k v, Proper (same vals ==> eq ==> same vals ==> iff) (post k v)}.

(** Resolve the zone, take the lock of the record set, and work on it. *)
Lemma wp_in_zone {T} (zname : T -> string) (resolve : sys (dns_result T)) right key
    (work : T -> string -> sys (dns_result unit)) f v w :
  valid_name f ->
  wp h resolve (fun r w' => same vals w w' /\ forall z, r = Ok z -> right (zname z)) w ->
  (forall z rn w0, right (zname z) -> relative_name (to_ascii_lowercase f) (zname z) = Ok rn ->
     same vals w w0 -> wp h (work z rn) (fun r w' => post (zname z, rn) v w0 r w') w0) ->
  wp h (await? zone := resolve in
        try? rname := relative_name (to_ascii_lowercase f) (zname zone) in
        with_lock (key zone rname) (work zone rname))
     (fun r w' => concerns vals post right f v w r w') w.
Proof.
  intros Hf Hr Hw. apply wp_try. eapply wp_mono; [exact Hr|].
  intros [z|e] w1 [H1 Hz]; [|by apply failed_concerns].
  apply wp_try_pure; [|intros; by apply failed_concerns]. intros rn Hrn.
  apply (wp_locked h vals Hbg).
  { intros a w2 w3 Hs. by rewrite Hs. }
  intros w2 H2. eapply wp_mono; [apply Hw; [by apply Hz|exact Hrn|by rewrite H1]|].
  intros a w3 Ha. right. exists (zname z), rn. split_and!; [by apply Hz|done|done|]. by rewrite H1, H2.
Qed.

End call.

(** The zone given in the configuration, or found in the DNS. *)
Definition zone_for (zone_override : option string) (fqdn z : string) : Prop :=
  match zone_override with
  | Some z' => z' = z
  | None => z ∈ candidates (to_ascii_lowercase fqdn)
  end.

Section found_zone.
Context {K V W : Type} (h : handler sysE W) (vals : W -> K -> V) (Hbg : background h vals).

Lemma wp_found_zone (check : string -> dns_result unit) f w :
  valid_name f ->
  wp h (await? zone := find_zone (to_ascii_lowercase f) in
        try? _ := check zone in
        Ret (Ok zone))
     (fun r w' => same vals w w' /\ forall z, r = Ok z -> zone_for None f z) w.
Proof.
  intros Hf. apply wp_try.
  pose proof (wp_find_zone h (to_ascii_lowercase f) w (proj2 (valid_name_lower f) Hf)) as Hz.
  pose proof (wp_quiet h vals Hbg (find_zone (to_ascii_lowercase f)) (fun _ w' => same vals w w') w
                (find_zone_quietly _) (fun _ _ H => H)) as Hs.
  unfold wp in *. destruct (run h (find_zone _) w) as [[z|e] w']; [|done].
  fold (wp h (try? _ := check z in Ret (Ok z)) (fun r w' => same vals w w' /\
    forall z, r = Ok z -> zone_for None f z) w').
  apply wp_try_pure; [|done]. intros _ _. apply wp_ret. split; [done|].
  intros z' [= <-]. by apply Hz.
Qed.
End found_zone.

(** ** Zones found by asking the API

    [resolve_zone] of powerdns.rs and of infomaniak.rs, which are the same:
    the configured zone, or a cached one, or the longest suffix of the name
    that the server knows; [fetch_zone] asks for one. *)

Section walk.
Context (fetch_zone : string -> sys (dns_result (option string))).

(** The loop over the suffixes of the name, given by their labels, that have
    at least two. *)
Fixpoint zone_walk (fqdn name : string) (labels : list string) : sys (dns_result string) :=
  match labels with
  | _ :: (_ :: _) as rest =>
      await? found := fetch_zone (join "." labels) in
      match found with
      | Some zone =>
          try? _ := validate_zone zone in
          try? _ := relative_name name zone in
          let* _ := call (CachePut name zone) in
          Ret (Ok zone)
      | None => zone_walk fqdn name rest
      end
  | _ => Ret (Err (ZoneNotFound fqdn))
  end.

Definition walked_zone (zone_override : option string) (fqdn : string) : sys (dns_result string) :=
  match zone_override with
  | Some zone => Ret (Ok zone)
  | None =>
      let name := to_ascii_lowercase (trim_end_matches dot fqdn) in
      let* cached := call (CacheGet name) in
      match cached with
      | Some zone => Ret (Ok zone)
      | None => zone_walk fqdn name (split dot name)
      end
  end.

Definition configured_zone (zone_override : option string) (z : string) : Prop :=
  match zone_override with Some z' => z' = z | None => True end.

Context {K W V : Type} (h : handler sysE W) (vals : W -> K -> V) (Hbg : background h vals).
Context (Hfetch : forall s w, wp h (fetch_zone s) (fun _ w' => same vals w w') w).

Lemma wp_zone_walk f n labels w : wp h (zone_walk f n labels) (fun _ w' => same vals w w') w.
Proof.
  revert w. induction labels as [|x [|y rest] IH]; intros w; [by apply wp_ret..|].
  cbn [zone_walk]. apply wp_try. eapply wp_mono; [apply Hfetch|].
  intros [[zn|]|e] w1 H1; [| |done].
  - do 2 (apply wp_try_pure; [intros ? _|done]). apply wp_bind, wp_vis, wp_ret, wp_ret.
    rewrite H1. by apply (bg_quiet _ _ Hbg).
  - eapply wp_mono; [apply IH|]. intros a w2 H2. by rewrite H1.
Qed.

Lemma wp_walked_zone override fqdn w :
  wp h (walked_zone override fqdn) (fun r w' =>
    same vals w w' /\ forall z, r = Ok z -> configured_zone override z) w.
Proof.
  unfold walked_zone. destruct override as [z0|].
  - apply wp_ret. split; [done|]. by intros z [= <-].
  - cbn zeta. apply wp_bind, wp_vis, wp_ret.
    pose proof (bg_quiet _ _ Hbg _ (CacheGet (to_ascii_lowercase (trim_end_matches dot fqdn)))
                  w eq_refl) as Hq.
    destruct (h _ (CacheGet _) w) as [[z|] w1]; cbn [fst snd] in *; [by apply wp_ret|].
    eapply wp_mono; [apply wp_zone_walk|]. intros r w2 H2. by rewrite Hq.
Qed.
End walk.

(** ** Reference environments

    The environment of one HTTP server, given by what it does with a request:
    no time passes, the locks are free, the caches are empty and the DNS has
    no record. *)
Definition served_by {W} (http : Request -> W -> result Response ReqwestError * W) : handler sysE W :=
  fun X e w =>
    match e in sysE X return X * W with
    | HttpSend r => http r w
    | Sleep _ | Acquire _ | Release _ | CachePut _ _ | SharedResolverInit => (tt, w)
    | Now => (0, w)
    | CacheGet _ => (None, w)
    | SharedResolverGet => (true, w)
    | SystemResolverBuild => (Ok tt, w)
    | DirectResolverBuild _ => (Ok tt, w)
    | Lookup _ _ _ => (Err EmptyString, w)
    | SystemTimeNow => (Some 0, w)
    | OnceGet => (None, w)
    | OnceSet _ => (tt, w)
    | TokenLock | TokenUnlock | TokenSet _ => (tt, w)
    | TokenGet => (None, w)
    | UtcNow => ((1970, 1, 1, 0, 0, 0), w)
    | RandomU16 => (0, w)
    | TcpConnect _ _ | TcpWriteAll _ => (Err Elapsed, w)
    | TcpReadExact _ => (Err Elapsed, w)
    | LookupIp _ _ => (Err EmptyString, w)
    end.

Definition reply (code : Z) (j : Json) : Response := mkResponse code [] (Some (EmptyString, Some j)).
Definition reply_empty (code : Z) : Response := mkResponse code [] (Some (EmptyString, None)).

(** Record sets by key. *)
Section store.
Context {K A : Type} `{EqDecision K}.

Definition stored (s : K -> list A) (k : K) : list A := s k.
Definition put (k : K) (l : list A) (s : K -> list A) : K -> list A :=
  fun k' => if decide (k' = k) then l else s k'.
Definition only (k : K) (l : list A) : K -> list A := put k l (fun _ => []).

Lemma set_to_put k l s : set_to stored k l s (put k l s).
Proof.
  unfold set_to, stored, put. split; [by rewrite decide_True|]. intros k' Hk. by rewrite decide_False.
Qed.
End store.

Abbreviation store := (string -> list string).

Lemma de_strings l : de_vec de_string (JArr (map JStr l)) = Some l.
Proof. cbn. induction l as [|s l IH]; cbn; [done|]. by rewrite IH. Qed.

Lemma de_u64_num i n : de_u64 (JNum n) = Some i -> i = n.
Proof. unfold de_u64, de_int. destruct (_ && _); [|done]. by intros [= ->]. Qed.

Lemma de_u64s l l' : de_vec de_u64 (JArr (map JNum l)) = Some l' -> l' = l.
Proof.
  cbn. revert l'. induction l as [|n l IH]; intros l'; cbn -[de_u64]; [by intros [= <-]|].
  destruct (de_u64 (JNum n)) as [i|] eqn:E; [|done]. cbn.
  destruct (mapM de_u64 (map JNum l)) as [r|]; [|done]. intros [= <-]. rewrite (IH r eq_refl).
  by apply de_u64_num in E as ->.
Qed.

(** ** ACME values *)

(** A validated value has no white space or quote at its ends. *)
Lemma acme_value_bytes v u :
  validate_acme_value v = Ok u -> all_bytes name_byte v = true.
Proof.
  unfold validate_acme_value, name_byte. destruct (_ || _); [done|].
  destruct (all_bytes _ v) eqn:E; [|done]. by intros _.
Qed.

Lemma not_white (l : list (option ascii)) v o :
  forallb (fun o => match o with Some b => negb (name_byte b) | None => false end) l = true ->
  all_bytes name_byte v = true -> (forall b, o = Some b -> name_byte b = true) -> o ∉ l.
Proof.
  intros Hl Hv Ho Hin. apply list_elem_of_In in Hin. rewrite forallb_forall in Hl.
  specialize (Hl o Hin). destruct o as [b|]; [|done]. by rewrite (Ho b eq_refl) in Hl.
Qed.

Lemma name_bytes_trim v : all_bytes name_byte v = true -> trim v = v /\ trim_matches quote v = v.
Proof.
  intros Hv. split.
  - apply trim_id; (eapply not_white; [by vm_compute|exact Hv|]); intros b E.
    + by apply (first_byte_all _ _ _ Hv E).
    + by apply (last_byte_all _ _ _ Hv E).
  - unfold trim_matches. destruct v as [|b v]; [done|].
    assert (trim_start_matches quote (String b v) = String b v) as ->.
    { cbn. cbn in Hv. apply andb_true_iff in Hv as [Hb _]. by destruct (Ascii.eqb_spec b quote) as [->|]. }
    apply trim_end_fix. intros E. by pose proof (last_byte_all _ _ _ Hv E).
Qed.

Lemma unquote_value v : all_bytes name_byte v = true -> unquote v = v.
Proof.
  intros Hv. apply unquote_plain; [by apply name_bytes_trim|]. intros E.
  by pose proof (first_byte_all _ _ _ Hv E).
Qed.
