(* ===== verification/Polling.v ===== *)
(** * Waiting for an asynchronous change

    The providers whose API carries out a change later ask for its state until
    it is settled or a deadline has passed.  [wait_until] is the loop they
    share. *)

From S2P Require Import Prelude Rstr Errors Effects Sys Common Txt.

(** How a call ends without a value: with an error of the crate, with a panic,
    which unwinds through the callers and releases the locks they hold, or
    because the fuel of a polling loop is used up. *)
Inductive stop : Type :=
| Raised (e : DnsError)
| Panicked
| Exhausted.

Abbreviation fueled A := (result A stop).
Definition lift {A} (r : dns_result A) : fueled A := map_err Raised r.
Definition lifted {A} (p : sys (dns_result A)) : sys (fueled A) := let* r := p in Ret (lift r).

(** A turn for every interval of the time allotted, and one more. *)
Definition turns (allotted interval : Duration) : nat := S (Z.to_nat (allotted / interval)).

(** The loop of [wait_for_action] and [wait_for_change]: return when [a] is
    settled; fail when there is no time for another turn; pause, and ask
    again. *)
Fixpoint wait_until {A} (settled : A -> option (dns_result unit)) (late : A -> DnsError)
    (fetch : A -> sys (fueled A)) (interval : Duration) (fuel : nat) (deadline : Z) (a : A)
  : sys (fueled unit) :=
  match fuel with
  | O => Ret (Err Exhausted)
  | S fuel' =>
      match settled a with
      | Some r => Ret (lift r)
      | None =>
          let* now := call Now in
          if deadline <? now + interval then Ret (Err (Raised (late a)))
          else
            let* _ := call (Sleep interval) in
            await? a' := fetch a in
            wait_until settled late fetch interval fuel' deadline a'
      end
  end.

Lemma lift_ok {A} (r : dns_result A) a : lift r = Ok a -> r = Ok a.
Proof. destruct r; cbn; [|done]. by intros [= ->]. Qed.

Lemma wp_lifted {W A} (h : handler sysE W) (p : sys (dns_result A)) (Q : fueled A -> W -> Prop) w :
  wp h p (fun r w' => Q (lift r) w') w -> wp h (lifted p) Q w.
Proof. intros H. apply wp_bind. eapply wp_mono; [exact H|]. intros r w' HQ. by apply wp_ret. Qed.

(** An invariant [I] of what is known of [a] is kept while waiting. *)
Lemma wp_wait_until {W A} (h : handler sysE W) (I : A -> W -> Prop) settled late fetch interval
    (Q : fueled unit -> W -> Prop) fuel deadline a w :
  (forall Y (e : sysE Y) v a, is_request e = false -> I a v -> I a (snd (h Y e v))) ->
  (forall a v r, I a v -> settled a = Some r -> Q (lift r) v) ->
  (forall a v o, I a v -> Q (Err o) v) ->
  (forall a v, I a v -> wp h (fetch a) (fun r v' =>
     match r with Ok a' => I a' v' | Err e => Q (Err e) v' end) v) ->
  I a w -> wp h (wait_until settled late fetch interval fuel deadline a) Q w.
Proof.
  intros Hq Hs He Hf. revert a w. induction fuel as [|fuel IH]; intros a w Hw; cbn [wait_until].
  { by apply wp_ret, (He a). }
  destruct (settled a) as [r|] eqn:Es; [by apply wp_ret, (Hs a)|].
  apply wp_bind, wp_vis, wp_ret. pose proof (Hq _ Now w a eq_refl Hw) as H1.
  destruct (h _ Now w) as [now w1]. cbn [fst snd] in *.
  destruct (_ <? _); [by apply wp_ret, (He a)|].
  apply wp_bind, wp_vis, wp_ret. pose proof (Hq _ (Sleep interval) w1 a eq_refl H1) as H2.
  apply wp_try. eapply wp_mono; [by apply Hf|].
  intros [a'|e] w2 H3; [by apply IH|done].
Qed.

Lemma emits_lifted {A} (P : forall Y, sysE Y -> Prop) (q : sys (dns_result A)) (R : A -> Prop) :
  emits P q (fun r => forall a, r = Ok a -> R a) -> emits P (lifted q) (fun r => forall a, r = Ok a -> R a).
Proof.
  intros Hq. apply emits_bind. eapply emits_mono; [exact Hq|]. intros r Hr a Ha%lift_ok. by apply Hr.
Qed.

Lemma wait_until_emits (P : forall Y, sysE Y -> Prop) {A} st lt (fetch : A -> sys (fueled A)) i fuel d a :
  P _ Now -> P _ (Sleep i) -> (forall a, emits P (fetch a) (fun _ => True)) ->
  emits P (wait_until st lt fetch i fuel d a) (fun _ => True).
Proof.
  intros Hn Hs Hf. revert a. induction fuel as [|fuel IH]; intros a; cbn [wait_until]; [done|].
  destruct (st a); [done|]. apply emits_call; [done|]. intros now. destruct (_ <? _); [done|].
  apply emits_call; [done|]. intros _. apply emits_seq; [apply Hf|apply IH|done].
Qed.

(** ** Termination *)

(** A clock that never goes back, and advances by the length of a pause. *)
Record steady_clock {W} (h : handler sysE W) (clock : W -> Z) : Prop := {
  sc_now : forall w, fst (h _ Now w) = clock w;
  sc_sleep : forall d w, clock w + d <= clock (snd (h _ (Sleep d) w));
  sc_mono : forall Y (e : sysE Y) w, clock w <= clock (snd (h Y e w))
}.

(** A call that ends, with a value or in one of the ways of [ok]; errors are
    always among them. *)
Definition ends (ok : stop -> Prop) {A} (r : fueled A) : Prop :=
  forall s, r = Err s -> (exists e, s = Raised e) \/ ok s.

(** A call that returns, and neither panics nor runs out of fuel. *)
Definition returns : forall {A}, fueled A -> Prop := @ends (fun _ => False).

Lemma returns_lift {A} (r : fueled A) : returns r -> exists r', r = lift r'.
Proof.
  intros Hr. destruct r as [a|s]; [by exists (Ok a)|]. destruct (Hr s eq_refl) as [[e ->]|[]]. by exists (Err e).
Qed.

Lemma lift_ends (ok : stop -> Prop) {A} (r : dns_result A) : ends ok (lift r).
Proof. intros s. destruct r as [a|e]; [done|]. intros [= <-]. eauto. Qed.

Lemma ok_ends (ok : stop -> Prop) {A} (a : A) : ends ok (Ok a).
Proof. done. Qed.

Lemma raised_ends (ok : stop -> Prop) {A} e : ends ok (Err (Raised e) : fueled A).
Proof. exact (lift_ends ok (Err e)). Qed.

Create HintDb ends.
#[export] Hint Resolve lift_ends ok_ends raised_ends : ends.

Section termination.
Context {W : Type} (h : handler sysE W) (clock : W -> Z) (Hc : steady_clock h clock).

Lemma run_clock {A} (p : sys A) w : wp h p (fun _ w' => clock w <= clock w') w.
Proof.
  apply (wp_inv h (fun v => clock w <= clock v)); [|lia].
  intros Y e v Hv. pose proof (sc_mono _ _ Hc Y e v). lia.
Qed.

Section ends.
Context (ok : stop -> Prop).

Lemma wp_ends_pure {A B} (r : dns_result A) (k : A -> sys (fueled B)) w :
  (forall a, wp h (k a) (fun r _ => ends ok r) w) -> wp h (try? a := lift r in k a) (fun r _ => ends ok r) w.
Proof.
  intros Hk. apply wp_try_pure; [intros a _; apply Hk|]. intros s Hs x [= <-]. by apply (lift_ends ok r).
Qed.

Lemma wp_ends_bind {A B} (p : sys (fueled A)) (k : A -> sys (fueled B)) w :
  wp h p (fun r _ => ends ok r) w -> (forall a w', clock w <= clock w' -> wp h (k a) (fun r _ => ends ok r) w') ->
  wp h (await? a := p in k a) (fun r _ => ends ok r) w.
Proof.
  intros Hp Hk. apply wp_try. eapply wp_mono; [apply (wp_conj _ _ _ _ _ Hp (run_clock p w))|].
  intros [a|s] w' [Hr Hw]; [by apply Hk|]. intros x [= <-]. by apply Hr.
Qed.

Lemma wp_ends_try {A B} (p : sys (dns_result A)) (k : A -> sys (fueled B)) w :
  (forall a w', clock w <= clock w' -> wp h (k a) (fun r _ => ends ok r) w') ->
  wp h (await? a := lifted p in k a) (fun r _ => ends ok r) w.
Proof.
  apply wp_ends_bind, wp_lifted. eapply wp_mono; [apply run_clock|]. intros r w' _. apply lift_ends.
Qed.

Lemma wait_until_ends {A} settled late (fetch : A -> sys (fueled A)) interval fuel deadline a w :
  (forall a w, wp h (fetch a) (fun r _ => ends ok r) w) ->
  0 < interval -> (0 < fuel)%nat -> deadline - clock w < Z.of_nat fuel * interval ->
  wp h (wait_until settled late fetch interval fuel deadline a) (fun r _ => ends ok r) w.
Proof.
  intros Hfetch Hi. revert a w. induction fuel as [|fuel IH]; intros a w Hf Hd; [lia|]. cbn [wait_until].
  destruct (settled a) as [r|]; [apply wp_ret, lift_ends|].
  apply wp_bind, wp_vis, wp_ret. pose proof (sc_now _ _ Hc w) as Hn. pose proof (sc_mono _ _ Hc _ Now w) as Hm.
  destruct (h _ Now w) as [now w1]. cbn [fst snd] in *. subst now.
  destruct (Z.ltb_spec deadline (clock w + interval)); [apply wp_ret, raised_ends|].
  apply wp_bind, wp_vis, wp_ret. pose proof (sc_sleep _ _ Hc interval w1) as Hs.
  apply wp_ends_bind; [apply Hfetch|]. intros a' w2 Hw2. apply IH; [|nia]. destruct fuel; [nia|lia].
Qed.

(** A wait that starts now. *)
Lemma waiting_ends {A} settled late (fetch : A -> sys (fueled A)) allotted interval a w :
  (forall a w, wp h (fetch a) (fun r _ => ends ok r) w) -> 0 <= allotted -> 0 < interval ->
  wp h (let* now := call Now in
        wait_until settled late fetch interval (turns allotted interval) (now + allotted) a)
     (fun r _ => ends ok r) w.
Proof.
  intros Hfetch Ha Hi. apply wp_bind, wp_vis, wp_ret.
  pose proof (sc_now _ _ Hc w) as Hn. pose proof (sc_mono _ _ Hc _ Now w) as Hm.
  destruct (h _ Now w) as [now w1]. cbn [fst snd] in *. subst now.
  pose proof (Z.div_mod allotted interval ltac:(lia)). pose proof (Z.mod_pos_bound allotted interval Hi).
  assert (0 <= allotted / interval) by (apply Z.div_pos; lia).
  apply wait_until_ends; [done|done|unfold turns; lia|]. unfold turns. rewrite Nat2Z.inj_succ, Z2Nat.id by done. nia.
Qed.

Lemma wp_lifted_ends {A} (p : sys (dns_result A)) w : wp h (lifted p) (fun r _ => ends ok r) w.
Proof. apply wp_lifted. eapply wp_mono; [apply run_clock|]. intros r w' _. apply lift_ends. Qed.
End ends.
End termination.

(** ** Changes

    A server that records a change at once, gives it an identifier, and
    applies it to its name servers later.  [change_of w i] is the change [i]: a
    record set, and what it was set to; [applied w i], that the name servers
    have it. *)

Section changes.
Context {W K I V : Type} (h : handler sysE W) (recs : W -> K -> V).
Context (change_of : W -> I -> option (K * V)) (applied : W -> I -> Prop).

(** A change is known, and applied, for good. *)
Record changes_kept : Prop := {
  kept_change : forall Y (e : sysE Y) w i x, change_of w i = Some x -> change_of (snd (h Y e w)) i = Some x;
  kept_applied : forall Y (e : sysE Y) w i, applied w i -> applied (snd (h Y e w)) i
}.
Context (Hkept : changes_kept).

(** What the record set [k] holds was set by a change that is applied. *)
Definition applied_set (k : K) (w : W) : Prop :=
  exists i, change_of w i = Some (k, recs w k) /\ applied w i.

Lemma applied_set_kept k Y (e : sysE Y) w :
  same recs w (snd (h Y e w)) -> applied_set k w -> applied_set k (snd (h Y e w)).
Proof.
  intros Hs (i & Hc & Ha). exists i. rewrite (Hs k). split; [by apply kept_change|by apply kept_applied].
Qed.

(** A call for one value that, when it succeeds, has changed nothing or has
    seen its change applied. *)
Definition change_call (post : K -> string -> W -> fueled unit -> W -> Prop) (k : K) (v : string)
    (w : W) (r : fueled unit) (w' : W) : Prop :=
  post k v w r w' /\ (r = Ok tt -> same recs w w' \/ applied_set k w').

Context (Hbg : background h recs).

(** Such a call in a locked section. *)
Lemma wp_change_locked {A} key (p : sys A) (Q : A -> W -> Prop) (k : K) (ok : A -> Prop) w :
  (forall a, Proper (same recs ==> iff) (Q a)) ->
  (forall w0, same recs w w0 -> wp h p (fun a w' => Q a w' /\ (ok a -> same recs w0 w' \/ applied_set k w')) w0) ->
  wp h (with_lock key p) (fun a w' => Q a w' /\ (ok a -> same recs w w' \/ applied_set k w')) w.
Proof.
  intros HQ Hp. apply wp_with_lock. pose proof (bg_quiet _ _ Hbg _ (Acquire key) w eq_refl) as H0.
  eapply wp_mono; [by apply Hp|]. cbn beta. intros a w' [Ha Hok].
  pose proof (bg_quiet _ _ Hbg _ (Release key) w' eq_refl) as H1. split.
  - by apply (HQ a _ _ H1).
  - intros Hr. destruct (Hok Hr) as [Hs|Hs].
    + left. etrans; [exact H0|]. by etrans.
    + right. by apply applied_set_kept.
Qed.

(** Resolve the zone, take the lock, and work on the record set. *)
Lemma wp_change_call {T} (post : K -> string -> W -> fueled unit -> W -> Prop) (keys : K -> Prop) (key_of : T -> K)
    (resolve : sys (fueled T)) (lock : T -> string) (work : T -> sys (fueled unit)) v w :
  (forall k r w1 w2 w3 w4, same recs w1 w2 -> same recs w3 w4 -> post k v w1 r w3 -> post k v w2 r w4) ->
  wp h resolve (fun r w' => same recs w w' /\ forall t, r = Ok t -> keys (key_of t)) w ->
  (forall t w0, keys (key_of t) -> wp h (work t) (fun r w' => change_call post (key_of t) v w0 r w') w0) ->
  wp h (await? t := resolve in with_lock (lock t) (work t))
    (fun r w' => touches recs keys (change_call post) v w r w') w.
Proof.
  intros Hpost Hres Hwork. apply wp_try. eapply wp_mono; [exact Hres|].
  intros [t|e] w1 [H1 Ht]; [|by left].
  eapply wp_mono; [apply (wp_change_locked _ _ (fun r w' => post (key_of t) v w1 r w') (key_of t) (fun r => r = Ok tt))|].
  - intros r w2 w3 Hs. split; apply Hpost; done.
  - intros w2 H2. eapply wp_mono; [by apply Hwork, Ht|]. intros r w3 [Hp Hok]. split; [|done].
    eapply Hpost; [|done|exact Hp]. by symmetry.
  - intros r w2 [Hp Hok]. right. exists (key_of t). split; [by apply Ht|]. split.
    + eapply Hpost; [|done|exact Hp]. by symmetry.
    + intros Hr. destruct (Hok Hr) as [Hs|Hs]; [left; by rewrite H1|by right].
Qed.
End changes.

(** *** Rewriting a record set by a change *)

Section rewriting.
Context {W K I S : Type} `{EqDecision K} (h : handler sysE W) (recs : W -> K -> list string).
Context (change_of : W -> I -> option (K * list string)) (applied : W -> I -> Prop).
Context (decode : string -> string) (Hdecode : forall v, decode (quoted v) = v).
Local Abbreviation vals := (view recs (map decode) (fun k => k)).
Context (k : K) (fetch : sys (fueled S)) (items : S -> list string) (good : S -> Prop).
Context (write : S -> list string -> sys (fueled unit)).
Local Abbreviation applied_k := (applied_set recs change_of applied k).
Context (Hfetch : forall w, wp h fetch (fun r w' => same recs w w' /\
  forall s, r = Ok s -> items s = recs w k /\ good s) w).
Context (Hwrite : forall s l w, good s -> wp h (write s l) (fun r w' =>
  (same recs w w' \/ set_to recs k l w w') /\ (r = Ok tt -> set_to recs k l w w' /\ applied_k w')) w).

Lemma change_fetch_values w : True -> wp h fetch (fun r w' => same vals w w' /\
  forall s, r = Ok s -> map decode (items s) = vals w k /\ good s) w.
Proof.
  intros _. eapply wp_mono; [apply Hfetch|]. intros r w' [H Ho]. split; [by apply same_view|].
  intros s Hr. destruct (Ho s Hr) as [Hv Hg]. unfold view. by rewrite Hv.
Qed.

Lemma change_write_values s l w : good s -> wp h (write s l) (fun r w' =>
  (same vals w w' \/ set_to vals k (map decode l) w w') /\
  (r = Ok tt -> set_to vals k (map decode l) w w')) w.
Proof.
  intros Hg. eapply wp_mono; [by apply Hwrite|]. intros r w' [Hd Ho]. split.
  - destruct Hd as [Hd|Hd]; [left; by apply same_view|right].
    by apply (set_to_view recs (map decode) (fun k => k) (fun a b H => H)).
  - intros Hr. by apply (set_to_view recs (map decode) (fun k => k) (fun a b H => H)), Ho.
Qed.

Lemma change_fetch_good w : wp h fetch (fun r w' => same recs w w' /\ forall s, r = Ok s -> good s) w.
Proof. eapply wp_mono; [apply Hfetch|]. intros r w' [H Ho]. split; [done|]. intros s Hr. by apply Ho. Qed.

Lemma change_write_applied s l w : good s -> wp h (write s l) (fun r w' => r = Ok tt -> applied_k w') w.
Proof. intros Hg. eapply wp_mono; [by apply Hwrite|]. intros r w' [_ Ho] Hr. by apply Ho. Qed.

Lemma wp_change_present v w :
  wp h (rr_present fetch items decode write v (quoted v)) (fun r w' =>
    added vals k v w r w' /\ (r = Ok tt -> same recs w w' \/ applied_k w')) w.
Proof.
  apply wp_conj.
  - by apply (wp_rr_present_when h vals fetch items decode write k (fun _ => True) good
      change_fetch_values change_write_values).
  - apply (wp_rr_present_settled h fetch items decode write recs _ good change_fetch_good change_write_applied).
Qed.

Lemma wp_change_cleanup v w :
  wp h (rr_cleanup fetch items decode write v) (fun r w' =>
    removed vals k v w r w' /\ (r = Ok tt -> same recs w w' \/ applied_k w')) w.
Proof.
  apply wp_conj.
  - by apply (wp_rr_cleanup_when h vals fetch items decode write k (fun _ => True) good
      change_fetch_values change_write_values).
  - apply (wp_rr_cleanup_settled h fetch items decode write recs _ good change_fetch_good change_write_applied).
Qed.
End rewriting.

(** ** A reference environment

    One HTTP server, with a clock that advances by the pauses. *)
Definition clocked_by {W} (http : Request -> W -> result Response ReqwestError * W) : handler sysE (W * Z) :=
  fun Y e w =>
    match e in sysE Y return Y * (W * Z) with
    | HttpSend r => let '(a, s) := http r (fst w) in (a, (s, snd w))
    | Sleep d => (tt, (fst w, snd w + Z.max 0 d))
    | Now => (snd w, w)
    | Acquire _ | Release _ | CachePut _ _ | SharedResolverInit => (tt, w)
    | CacheGet _ => (None, w)
    | SharedResolverGet => (true, w)
    | SystemResolverBuild => (Ok tt, w)
    | DirectResolverBuild _ => (Ok tt, w)
    | Lookup _ _ _ => (Err EmptyString, w)
    | LookupIp _ _ => (Err EmptyString, w)
    | SystemTimeNow => (Some 0, w)
    | OnceGet => (None, w)
    | OnceSet _ => (tt, w)
    | TokenLock | TokenUnlock | TokenSet _ => (tt, w)
    | TokenGet => (None, w)
    | UtcNow => ((1970, 1, 1, 0, 0, 0), w)
    | RandomU16 => (0, w)
    | TcpConnect _ _ | TcpWriteAll _ => (Err Elapsed, w)
    | TcpReadExact _ => (Err Elapsed, w)
    end.

Lemma clocked_steady {W} (http : Request -> W -> result Response ReqwestError * W) :
  steady_clock (clocked_by http) snd.
Proof.
  split.
  - done.
  - intros d [s t]. cbn. lia.
  - intros Y e [s t]. destruct e; cbn; try lia. destruct (http _ s). cbn. lia.
Qed.
