(* ===== verification/Jobs.v ===== *)
(** * Changes carried out later

    A server that is asked to add or to remove one value of a record set, and
    does so, or fails to, at a time of its own: the actions of Hetzner and
    the dynamic updates of RFC 2136.  A call made while nothing is under way
    asks for actions on one value only; [working] is what is known of the
    server then, however it goes on. *)

From S2P Require Import Prelude Rstr Errors Effects Sys Common Txt.

(** The server holds the values of every record set, and the actions it was
    asked for.  A running action settles on its own: it succeeds and has
    changed its record set, or fails and has not. *)

Inductive ActionKind : Type := AddRecords | RemoveRecords.

Inductive JobStatus : Type := Running | Succeeded | Failed.

Record Job : Type := mkJob {
  job_set : string;
  job_value : string;
  job_kind : ActionKind;
  job_status : JobStatus
}.

Record JobState : Type := mkJobs {
  js_vals : string -> list string;
  js_jobs : gmap Z Job
}.

Definition settle (st : JobStatus) (j : Job) : Job := mkJob (job_set j) (job_value j) (job_kind j) st.

Definition new_values (k : ActionKind) (v : string) (l : list string) : list string :=
  match k with
  | AddRecords => if decide (v ∈ l) then l else l ++ [v]
  | RemoveRecords => filter (fun x => x <> v) l
  end.

Definition carry_out (j : Job) (vals : string -> list string) : string -> list string :=
  put (job_set j) (new_values (job_kind j) (job_value j) (vals (job_set j))) vals.

Inductive settles : JobState -> JobState -> Prop :=
| settles_done s id j :
    js_jobs s !! id = Some j -> job_status j = Running ->
    settles s (mkJobs (carry_out j (js_vals s)) (<[id := settle Succeeded j]> (js_jobs s)))
| settles_failed s id j :
    js_jobs s !! id = Some j -> job_status j = Running ->
    settles s (mkJobs (js_vals s) (<[id := settle Failed j]> (js_jobs s))).

Definition drifts : JobState -> JobState -> Prop := rtc settles.

(** Nothing is under way. *)
Definition idle (s : JobState) : Prop :=
  forall id j, js_jobs s !! id = Some j -> job_status j <> Running.

Definition start (id : Z) (u v : string) (k : ActionKind) (s : JobState) : JobState :=
  mkJobs (js_vals s) (<[id := mkJob u v k Running]> (js_jobs s)).

(** *** Actions for one value *)

Lemma elem_of_new_values k v l x :
  x ∈ new_values k v l <-> match k with AddRecords => x ∈ l \/ x = v | RemoveRecords => x ∈ l /\ x <> v end.
Proof.
  destruct k; cbn.
  - case_decide; set_solver.
  - rewrite list_elem_of_filter. naive_solver.
Qed.

Lemma idle_drifts s s' : idle s -> drifts s s' -> s' = s.
Proof.
  intros Hi Hd. destruct Hd as [|s s1 s2 H _]; [done|].
  destruct H as [s id j Hj Hr|s id j Hj Hr]; by apply Hi in Hj.
Qed.

Definition effect (k : ActionKind) (v : string) (l : list string) : Prop :=
  match k with AddRecords => v ∈ l | RemoveRecords => v ∉ l end.

(** [s] comes from [s0] by actions of the kind [k] for the value [v] of the
    record set [u]. *)
Record working (k : ActionKind) (u v : string) (s0 s : JobState) : Prop := {
  wk_old : forall id j, js_jobs s0 !! id = Some j -> js_jobs s !! id = Some j;
  wk_new : forall id j, js_jobs s0 !! id = None -> js_jobs s !! id = Some j ->
    job_set j = u /\ job_value j = v /\ job_kind j = k;
  wk_frame : forall u' x, (u', x) <> (u, v) -> (x ∈ js_vals s u' <-> x ∈ js_vals s0 u');
  wk_done : forall id j, js_jobs s0 !! id = None -> js_jobs s !! id = Some j ->
    job_status j = Succeeded -> effect k v (js_vals s u)
}.

Lemma working_refl k u v s : working k u v s s.
Proof. split; intros; by simplify_eq. Qed.

Lemma working_start k u v s0 s id :
  working k u v s0 s -> js_jobs s !! id = None -> working k u v s0 (start id u v k s).
Proof.
  intros [Ho Hn Hf Hd] Hid. split; cbn [js_jobs js_vals start].
  - intros i j Hj. rewrite lookup_insert_ne; [by apply Ho|]. intros <-. apply Ho in Hj. congruence.
  - intros i j H0. rewrite lookup_insert_Some. intros [[<- <-]|[_ Hj]]; [done|by eapply Hn].
  - exact Hf.
  - intros i j H0. rewrite lookup_insert_Some. intros [[<- <-]|[_ Hj]]; [done|by eapply Hd].
Qed.

Lemma working_settles k u v s0 s s' :
  idle s0 -> working k u v s0 s -> settles s s' -> working k u v s0 s'.
Proof.
  intros Hi [Ho Hn Hf Hd] Hs.
  assert (forall id j, js_jobs s !! id = Some j -> job_status j = Running -> js_jobs s0 !! id = None) as Hnew.
  { intros id j Hj Hr. destruct (js_jobs s0 !! id) as [j0|] eqn:E; [|done].
    pose proof (Ho _ _ E) as Hj'. rewrite Hj in Hj'. injection Hj' as ->. by apply Hi in E. }
  destruct Hs as [s id j Hj Hr|s id j Hj Hr]; pose proof (Hnew _ _ Hj Hr) as H0;
    destruct (Hn _ _ H0 Hj) as (Eu & Ev & Ek); split; cbn [js_jobs js_vals].
  - intros i j' Hj'. rewrite lookup_insert_ne; [by apply Ho|]. intros <-. congruence.
  - intros i j' Hi0. rewrite lookup_insert_Some. intros [[<- <-]|[_ Hj']]; [done|by eapply Hn].
  - intros u' x Hne. rewrite <- Hf by done. unfold carry_out, put. case_decide; [|done].
    rewrite elem_of_new_values. subst. destruct (job_kind j); naive_solver.
  - intros _ _ _ _ _. unfold carry_out, put. rewrite Eu, decide_True by done. unfold effect.
    destruct k; rewrite elem_of_new_values, Ek, Ev; naive_solver.
  - intros i j' Hj'. rewrite lookup_insert_ne; [by apply Ho|]. intros <-. congruence.
  - intros i j' Hi0. rewrite lookup_insert_Some. intros [[<- <-]|[_ Hj']]; [done|by eapply Hn].
  - exact Hf.
  - intros i j' Hi0. rewrite lookup_insert_Some. intros [[<- <-]|[_ Hj']]; [done|by eapply Hd].
Qed.

Lemma working_drifts k u v s0 s s' :
  idle s0 -> working k u v s0 s -> drifts s s' -> working k u v s0 s'.
Proof. intros Hi Hw Hd. induction Hd as [|s s1 s2 Hs _ IH]; [done|]. by eapply IH, working_settles. Qed.

(** An action is known for good, and stays what it has settled to. *)
Lemma drifts_job s s' id j :
  drifts s s' -> js_jobs s !! id = Some j ->
  exists j', js_jobs s' !! id = Some j' /\ (job_status j = Succeeded -> job_status j' = Succeeded).
Proof.
  intros Hd. revert j. induction Hd as [s|s s1 s2 Hs _ IH]; intros j Hj; [eauto|].
  assert (exists j1, js_jobs s1 !! id = Some j1 /\ (job_status j = Succeeded -> job_status j1 = Succeeded))
    as (j1 & Hj1 & H1).
  { destruct Hs as [s i j' Hj' Hr|s i j' Hj' Hr]; cbn [js_jobs]; destruct (decide (i = id)) as [->|Hne].
    all: try (rewrite lookup_insert_ne by done; eauto; fail).
    all: rewrite lookup_insert_eq; eexists; split; [done|]; congruence. }
  destruct (IH j1 Hj1) as (j2 & Hj2 & H2). eauto.
Qed.

(** The outcome of a call that asks for such actions, which what the server
    does later does not change. *)
Section worked.
Context {E : Type} (k : ActionKind) (u v : string) (s0 : JobState).
Local Abbreviation work := (working k u v s0).

Definition worked (r : result unit E) (s : JobState) : Prop :=
  work s /\ (r = Ok tt ->
    (s = s0 /\ effect k v (js_vals s0 u)) \/
    exists id j, js_jobs s0 !! id = None /\ js_jobs s !! id = Some j /\ job_status j = Succeeded).

Lemma worked_drifts r s s' : idle s0 -> worked r s -> drifts s s' -> worked r s'.
Proof.
  intros Hidle [Hw Hr] Hd. split; [by eapply working_drifts|]. intros Hok.
  destruct (Hr Hok) as [[-> He]|(id & j & H0 & Hj & Hs)].
  - left. split; [by apply idle_drifts|done].
  - right. destruct (drifts_job _ _ _ _ Hd Hj) as (j' & Hj' & Hs'). exists id, j'. eauto.
Qed.

Lemma worked_effect r s : worked r s -> r = Ok tt -> effect k v (js_vals s u).
Proof.
  intros [Hw Hr] Hok. destruct (Hr Hok) as [[-> He]|(id & j & H0 & Hj & Hs)]; [done|].
  by eapply (wk_done _ _ _ _ _ Hw).
Qed.

Lemma worked_failed e s : work s -> worked (Err e) s.
Proof. by split. Qed.

Lemma worked_nothing : effect k v (js_vals s0 u) -> worked (Ok tt) s0.
Proof. intros He. split; [apply working_refl|]. intros _. by left. Qed.

(** What is still under way is the action asked for. *)
Lemma working_running s id j :
  idle s0 -> work s -> js_jobs s !! id = Some j -> job_status j = Running -> j = mkJob u v k Running.
Proof.
  intros Hi Hw Hj Hrun. destruct (js_jobs s0 !! id) as [j0|] eqn:E0.
  - pose proof (wk_old _ _ _ _ _ Hw _ _ E0) as Hj0. rewrite Hj in Hj0. injection Hj0 as ->. by apply Hi in E0.
  - destruct (wk_new _ _ _ _ _ Hw _ _ E0 Hj) as (? & ? & ?). destruct j. cbn in *. by subst.
Qed.
End worked.

Lemma existsb_value v l : existsb (fun x => (x =? v)%string) l = true <-> v ∈ l.
Proof.
  rewrite existsb_elem. split; [|intros Hv; exists v; split; [done|by apply String.eqb_refl]].
  intros (x & Hx & E). by apply String.eqb_eq in E as <-.
Qed.

(** One action, from a server that had nothing to do: it is under way, or has
    settled and nothing is. *)
Lemma one_job s0 id u v k s :
  idle s0 -> js_jobs s0 !! id = None -> drifts (start id u v k s0) s ->
  exists st, js_jobs s = <[id := mkJob u v k st]> (js_jobs s0) /\
    js_vals s = match st with Succeeded => carry_out (mkJob u v k Running) (js_vals s0) | _ => js_vals s0 end.
Proof.
  intros Hi Hid Hd. apply rtc_inv in Hd as [<-|(s1 & Hs & Hd)]; [by exists Running|].
  assert (forall id' j, js_jobs (start id u v k s0) !! id' = Some j -> job_status j = Running ->
    id' = id /\ j = mkJob u v k Running) as Honly.
  { intros id' j. cbn. rewrite lookup_insert_Some. intros [[<- <-]|[_ Hj]] Hr; [done|by apply Hi in Hj]. }
  assert (exists st, st <> Running /\ js_jobs s1 = <[id := mkJob u v k st]> (js_jobs s0) /\
    js_vals s1 = match st with Succeeded => carry_out (mkJob u v k Running) (js_vals s0) | _ => js_vals s0 end)
    as (st & Hst & Hj1 & Hv1).
  { inversion Hs as [? id' j Hj Hr|? id' j Hj Hr]; subst; destruct (Honly _ _ Hj Hr) as [-> ->];
      [exists Succeeded|exists Failed]; cbn; rewrite insert_insert_eq; by split_and!. }
  exists st. replace s with s1; [done|]. symmetry. apply idle_drifts; [|done]. intros id' j. rewrite Hj1.
  rewrite lookup_insert_Some. intros [[<- <-]|[_ Hj]]; [done|by apply Hi in Hj].
Qed.

(** A server that carries out an action. *)
Definition settle_job (id : Z) (j : Job) (s : JobState) : JobState :=
  match job_status j with
  | Running => mkJobs (carry_out j (js_vals s)) (<[id := settle Succeeded j]> (js_jobs s))
  | _ => s
  end.

Lemma settle_job_drifts id j s : js_jobs s !! id = Some j -> drifts s (settle_job id j s).
Proof.
  intros Hj. unfold settle_job. destruct (job_status j) eqn:E; [|done..]. by apply rtc_once, settles_done.
Qed.
