(* ===== verification/Gandi.v ===== *)
(** * The Gandi LiveDNS provider (src/providers/gandi.rs)

    A record set is read, changed and written back as a whole, under a lock
    of its own.  [gandi_api] states what the LiveDNS API documents of the
    requests this file sends; [present] and [cleanup] are verified against
    it, and [gandi_server] is a server that has these properties. *)

From S2P Require Import Prelude Rstr Errors Effects Sys Common Zone Provider Txt.

Definition GANDI_API_BASE : string := "https://api.gandi.net/v5".
Definition ENV_TOKEN : string := "GANDIV5_PERSONAL_ACCESS_TOKEN".
Definition DEFAULT_TTL : Z := 300.
Definition HTTP_TIMEOUT : Duration := from_secs 30.
Definition CONNECT_TIMEOUT : Duration := from_secs 5.
Definition PROVIDER : string := "gandi".

Record GandiConfig : Type := mkGandiConfig {
  personal_access_token : string;
  api_base : string;
  zone_override : option string;
  ttl : Z;
  http_timeout : Duration
}.

(** [TxtRecordBody]. *)
Record TxtRecordBody : Type := mkTxtRecordBody {
  rrset_ttl : Z;
  rrset_values : list string
}.

Definition de_TxtRecordBody (j : Json) : option TxtRecordBody :=
  match struct_fields ["rrset_ttl"; "rrset_values"] j with
  | Some [t; vs] =>
      t' ← required de_u32 t; vs' ← required (de_vec de_string) vs; Some (mkTxtRecordBody t' vs')
  | _ => None
  end.

Definition ser_TxtRecordBody (b : TxtRecordBody) : Json :=
  JObj [("rrset_ttl", JNum (rrset_ttl b)); ("rrset_values", JArr (map JStr (rrset_values b)))].

Section gandi.
Context `{X : Ext}.

(** ** Configuration *)

Definition config_new (token : string) : GandiConfig :=
  mkGandiConfig token GANDI_API_BASE None DEFAULT_TTL HTTP_TIMEOUT.

Definition with_api_base (c : GandiConfig) (base : string) : dns_result GandiConfig :=
  let! _ := validate_https_base base PROVIDER in
  Ok (mkGandiConfig (personal_access_token c) (trim_end_matches "/" base) (zone_override c) (ttl c) (http_timeout c)).

Definition with_zone (c : GandiConfig) (zone : string) : dns_result GandiConfig :=
  let! _ := validate_zone zone in
  Ok (mkGandiConfig (personal_access_token c) (api_base c)
        (Some (to_ascii_lowercase (trim_end_matches dot zone))) (ttl c) (http_timeout c)).

Definition with_ttl (c : GandiConfig) (t : Z) : dns_result GandiConfig :=
  let! t' := validate_ttl_range t 300 2592000 in
  Ok (mkGandiConfig (personal_access_token c) (api_base c) (zone_override c) t' (http_timeout c)).

Definition with_timeout (c : GandiConfig) (d : Duration) : GandiConfig :=
  mkGandiConfig (personal_access_token c) (api_base c) (zone_override c) (ttl c) d.

(** The provider is its configuration, with a client built by [reqwest]
    ([client], for the timeouts) and the lock table of the environment. *)
Definition new (client : Duration -> Duration -> result unit ReqwestError) (c : GandiConfig)
  : dns_result GandiConfig :=
  let! _ := map_err Http (client (http_timeout c) CONNECT_TIMEOUT) in Ok c.

Definition from_env (client : Duration -> Duration -> result unit ReqwestError)
    (var : string -> option string) : dns_result GandiConfig :=
  let! token := ok_or (var ENV_TOKEN) (MissingCredentials ENV_TOKEN) in
  new client (config_new token).

(** ** Requests *)

Definition record_path (zone rname : string) : string :=
  "/livedns/domains/" +:+ encode_path zone +:+ "/records/" +:+ encode_path rname +:+ "/TXT".

Definition record_url (c : GandiConfig) (zone rname : string) : string :=
  api_base c +:+ "/livedns/domains/" +:+ encode_path zone +:+ "/records/" +:+ encode_path rname +:+ "/TXT".

(** [bearer_auth]. *)
Definition auth (c : GandiConfig) : list (string * string) :=
  [("authorization", "Bearer " +:+ personal_access_token c)].

Definition fetch_existing (c : GandiConfig) (zone rname : string) : sys (dns_result (list string)) :=
  await? response := send (mkRequest GET (record_url c zone rname) [] (auth c) None) in
  if status response =? 404 then Ret (Ok [])
  else if negb (is_success (status response)) then
    Ret (Err (api_error PROVIDER "GET" (record_path zone rname) response))
  else
    try? body := response_json de_TxtRecordBody response in
    Ret (Ok (rrset_values body)).

Definition put_values (c : GandiConfig) (zone rname : string) (values : list string)
  : sys (dns_result unit) :=
  let body := mkTxtRecordBody (ttl c) values in
  await? response :=
    send (mkRequest PUT (record_url c zone rname) [] (auth c) (Some (ser_TxtRecordBody body))) in
  if negb (is_success (status response)) then
    Ret (Err (api_error PROVIDER "PUT" (record_path zone rname) response))
  else Ret (Ok tt).

Definition delete_record (c : GandiConfig) (zone rname : string) : sys (dns_result unit) :=
  await? response := send (mkRequest DELETE (record_url c zone rname) [] (auth c) None) in
  if negb (is_success (status response)) && negb (status response =? 404) then
    Ret (Err (api_error PROVIDER "DELETE" (record_path zone rname) response))
  else Ret (Ok tt).

Definition resolve_zone (c : GandiConfig) (fqdn : string) : sys (dns_result string) :=
  match zone_override c with
  | Some z => Ret (Ok z)
  | None =>
      await? zone := find_zone fqdn in
      try? _ := validate_fqdn zone in
      Ret (Ok zone)
  end.

(** ** Operations *)

(** The part of [present] under the lock. *)
Definition present_locked (c : GandiConfig) (zone rname value : string) : sys (dns_result unit) :=
  await? values := fetch_existing c zone rname in
  if existsb (fun v => (unquote v =? value)%string) values then Ret (Ok tt)
  else put_values c zone rname (values ++ [quoted value]).

Definition present (c : GandiConfig) (fqdn value : string) : sys (dns_result unit) :=
  try? _ := validate_fqdn fqdn in
  let fqdn := to_ascii_lowercase fqdn in
  try? _ := validate_acme_value value in
  await? zone := resolve_zone c fqdn in
  try? rname := relative_name fqdn zone in
  with_lock (zone +:+ "|" +:+ rname) (present_locked c zone rname value).

(** The part of [cleanup] under the lock. *)
Definition cleanup_locked (c : GandiConfig) (zone rname value : string) : sys (dns_result unit) :=
  await? values := fetch_existing c zone rname in
  let count := length values in
  let remaining := List.filter (fun v => negb (unquote v =? value)%string) values in
  if (length remaining =? count)%nat then Ret (Ok tt)
  else
    match remaining with
    | [] => delete_record c zone rname
    | _ :: _ => put_values c zone rname remaining
    end.

Definition cleanup (c : GandiConfig) (fqdn value : string) : sys (dns_result unit) :=
  try? _ := validate_fqdn fqdn in
  let fqdn := to_ascii_lowercase fqdn in
  await? zone := resolve_zone c fqdn in
  try? rname := relative_name fqdn zone in
  with_lock (zone +:+ "|" +:+ rname) (cleanup_locked c zone rname value).
End gandi.

(** ** The LiveDNS API

    [rrset w u] holds the TXT values, as they are written, of the record set
    whose URL is [u].  A request that does not succeed may have been carried
    out or not. *)
Record gandi_api `{X : Ext} {W} (h : handler sysE W) (rrset : W -> string -> list string) : Prop := {
  ga_background : background h rrset;
  ga_get : forall req w resp,
    fst (h _ (HttpSend req) w) = Ok resp -> method req = GET ->
    (status resp = 404 -> rrset w (url req) = []) /\
    (is_success (status resp) = true ->
     forall b, response_json de_TxtRecordBody resp = Ok b -> rrset_values b = rrset w (url req));
  ga_put : forall req b,
    method req = PUT -> body req = Some (ser_TxtRecordBody b) ->
    replaces h rrset req (url req) (rrset_values b) (fun resp => is_success (status resp) = true);
  ga_delete : forall req,
    method req = DELETE ->
    replaces h rrset req (url req) [] (fun resp => is_success (status resp) = true \/ status resp = 404)
}.

Section theory.
Context `{X : Ext} `{S : !ExtSpec X} {W : Type} (h : handler sysE W).
Context (rrset : W -> string -> list string) (Hapi : gandi_api h rrset) (c : GandiConfig).

(** The TXT values of a name of a zone. *)
Definition txt_values : W -> string * string -> list string :=
  view rrset (map unquote) (fun k => record_url c (fst k) (snd k)).

Lemma gandi_url_inj k k' :
  record_url c (fst k) (snd k) = record_url c (fst k') (snd k') -> k = k'.
Proof.
  destruct k as [z r], k' as [z' r']. unfold record_url. cbn [fst snd].
  intros E%append_inj_l. apply (append_inj_l "/livedns/domains/") in E.
  apply slash_inj in E as [Ez E]; [|apply encode_path_no_slash..].
  apply (append_inj_l "records/") in E. apply slash_inj in E as [Er _]; [|apply encode_path_no_slash..].
  apply encode_path_inj in Ez, Er. by subst.
Qed.

Lemma gandi_background : background h txt_values.
Proof. apply background_view, Hapi. Qed.

Lemma gandi_fetch z rn w :
  wp h (fetch_existing c z rn) (fun r w' =>
    same txt_values w w' /\ forall l, r = Ok l -> map unquote l = txt_values w (z, rn)) w.
Proof.
  apply wp_try, (wp_read h txt_values gandi_background); [done|].
  intros w' Hw'. split; [done|]. intros resp w0 Hw0 Hresp.
  destruct (ga_get _ _ Hapi _ _ _ Hresp eq_refl) as [H404 Hok]. rewrite <- (Hw0 (z, rn)).
  destruct (Z.eqb_spec (status resp) 404) as [E|_].
  { apply wp_ret. split; [done|]. intros l [= <-]. unfold txt_values, view. cbn in *. by rewrite H404. }
  destruct (is_success (status resp)) eqn:Es; [|by apply wp_ret].
  apply wp_try_pure; [|done]. intros b Hb. apply wp_ret. split; [done|]. intros l [= <-].
  unfold txt_values, view. cbn in *. by rewrite (Hok eq_refl b Hb).
Qed.

Lemma gandi_put z rn l w :
  wp h (put_values c z rn l) (fun r w' =>
    (same txt_values w w' \/ set_to txt_values (z, rn) (map unquote l) w w') /\
    (r = Ok tt -> set_to txt_values (z, rn) (map unquote l) w w')) w.
Proof.
  apply wp_try. eapply (wp_replace h rrset (map unquote) _ gandi_url_inj (ga_background _ _ Hapi) _ (z, rn));
    [by eapply (ga_put _ _ Hapi)|].
  intros [resp|e] w' Hd Ho; [|done]. destruct (is_success (status resp)) eqn:Es; by apply wp_ret; eauto.
Qed.

Lemma gandi_delete z rn w :
  wp h (delete_record c z rn) (fun r w' =>
    (same txt_values w w' \/ set_to txt_values (z, rn) [] w w') /\
    (r = Ok tt -> set_to txt_values (z, rn) [] w w')) w.
Proof.
  apply wp_try. eapply (wp_replace h rrset (map unquote) _ gandi_url_inj (ga_background _ _ Hapi) _ (z, rn) []);
    [by apply (ga_delete _ _ Hapi)|].
  intros [resp|e] w' Hd Ho; [|done].
  destruct (is_success (status resp)) eqn:Es; [by apply wp_ret; eauto|].
  destruct (Z.eqb_spec (status resp) 404); by apply wp_ret; eauto.
Qed.

(** [present] and [cleanup] under the lock are the shared algorithms. *)
Definition write_or_delete (z rn : string) (l : list string) : sys (dns_result unit) :=
  match l with [] => delete_record c z rn | _ :: _ => put_values c z rn l end.

Lemma gandi_write z rn l w :
  wp h (write_or_delete z rn l) (fun r w' =>
    (same txt_values w w' \/ set_to txt_values (z, rn) (map unquote l) w w') /\
    (r = Ok tt -> set_to txt_values (z, rn) (map unquote l) w w')) w.
Proof. destruct l; [apply gandi_delete|apply gandi_put]. Qed.

Lemma gandi_present_locked z rn v w :
  wp h (present_locked c z rn v) (fun r w' => added txt_values (z, rn) v w r w') w.
Proof.
  apply (wp_rr_present h txt_values (fetch_existing c z rn) id unquote (fun _ => put_values c z rn)
           (z, rn) (fun _ => True)) with (v := v) (r := quoted v); [| |done|apply unquote_quoted].
  - intros w' _. apply gandi_fetch.
  - intros _. apply gandi_put.
Qed.

Lemma gandi_cleanup_locked z rn v w :
  wp h (cleanup_locked c z rn v) (fun r w' => removed txt_values (z, rn) v w r w') w.
Proof.
  apply (wp_rr_cleanup h txt_values (fetch_existing c z rn) id unquote (fun _ => write_or_delete z rn)
           (z, rn) (fun _ => True)); [| |done].
  - intros w' _. apply gandi_fetch.
  - intros _. apply gandi_write.
Qed.

Lemma gandi_resolve f w :
  valid_name f ->
  wp h (resolve_zone c (to_ascii_lowercase f)) (fun r w' =>
    same txt_values w w' /\ forall z, r = Ok z -> zone_for (zone_override c) f z) w.
Proof.
  intros Hf. unfold resolve_zone. destruct (zone_override c) as [z|] eqn:E.
  - apply wp_ret. split; [done|]. by intros z' [= <-].
  - by apply (wp_found_zone h txt_values gandi_background).
Qed.

Lemma gandi_present f v w :
  wp h (present c f v) (fun r w' =>
    concerns txt_values (added txt_values) (zone_for (zone_override c) f) f v w r w') w.
Proof.
  apply wp_try_pure; [|by intros; apply failed_concerns]. intros u Hf%validate_fqdn_unit. cbn zeta.
  apply wp_try_pure; [|by intros; apply failed_concerns]. intros u' _.
  apply (wp_in_zone h txt_values gandi_background (added txt_values) id); [done|by apply gandi_resolve|].
  intros z rn w0 _ _ _. apply gandi_present_locked.
Qed.

Lemma gandi_cleanup f v w :
  wp h (cleanup c f v) (fun r w' =>
    concerns txt_values (removed txt_values) (zone_for (zone_override c) f) f v w r w') w.
Proof.
  apply wp_try_pure; [|by intros; apply failed_concerns]. intros u Hf%validate_fqdn_unit. cbn zeta.
  apply (wp_in_zone h txt_values gandi_background (removed txt_values) id); [done|by apply gandi_resolve|].
  intros z rn w0 _ _ _. apply gandi_cleanup_locked.
Qed.
End theory.

(** The provider in an environment; it keeps the default timing. *)
Definition gandi_provider `{X : Ext} {W} (h : handler sysE W) (c : GandiConfig) : DnsProvider W :=
  mkProvider (fun f v w => run h (present c f v) w) (fun f v w => run h (cleanup c f v) w) default_timing.

(** ** A server *)

Definition gandi_http (req : Request) (s : store) : result Response ReqwestError * store :=
  match method req with
  | GET =>
      match stored s (url req) with
      | [] => (Ok (reply_empty 404), s)
      | l => (Ok (reply 200 (ser_TxtRecordBody (mkTxtRecordBody 300 l))), s)
      end
  | PUT =>
      match body req ≫= de_TxtRecordBody with
      | Some b => (Ok (reply_empty 201), put (url req) (rrset_values b) s)
      | None => (Ok (reply_empty 400), s)
      end
  | DELETE => (Ok (reply_empty 204), put (url req) [] s)
  | _ => (Ok (reply_empty 405), s)
  end.

Definition gandi_server : handler sysE store := served_by gandi_http.

Lemma de_ser_TxtRecordBody t l :
  0 <= t <= 2 ^ 32 - 1 -> de_TxtRecordBody (ser_TxtRecordBody (mkTxtRecordBody t l)) = Some (mkTxtRecordBody t l).
Proof.
  intros Ht. unfold de_TxtRecordBody, ser_TxtRecordBody. cbn -[Z.leb de_vec Z.pow]. rewrite de_strings.
  unfold de_u32, de_int. destruct (Z.leb_spec 0 t), (Z.leb_spec t (2 ^ 32 - 1)); try lia. done.
Qed.

Lemma gandi_server_api : gandi_api (X := ref_ext) gandi_server stored.
Proof.
  split.
  - split; [by intros Y e w; destruct e|]. intros [m u q hd b] w; cbn. intros ->. unfold gandi_http; cbn.
    by destruct (stored w u).
  - intros [m u q hd b] w resp Hr; cbn. intros ->. revert Hr. unfold gandi_server, gandi_http; cbn.
    destruct (stored w u) as [|x l] eqn:E; intros [= <-]; cbn; (split; [done|]); try done.
    intros _ b'. change (mapM de_string (map JStr l)) with (de_vec de_string (JArr (map JStr l))).
    rewrite de_strings. by intros [= <-].
  - intros [m u q hd b] [t l] Hm Hb w; cbn [method body url] in *. subst.
    unfold gandi_server, served_by, gandi_http; cbn [method body url mbind option_bind].
    destruct (de_TxtRecordBody _) as [b'|] eqn:E; cbn; [|split; [by left|]; by intros resp [= <-]].
    assert (rrset_values b' = l) as ->.
    { revert E. unfold de_TxtRecordBody, ser_TxtRecordBody. cbn -[de_vec de_u32]. rewrite de_strings.
      destruct (de_u32 _); [|done]. by intros [= <-]. }
    split; [right|intros resp _ _]; apply set_to_put.
  - intros [m u q hd b] Hm w; cbn in *. subst. cbn.
    split; [right|intros resp _ _]; apply set_to_put.
Qed.

(** With a configured zone, the contract of [DnsProvider]. *)
Lemma gandi_laws `{X : Ext} `{!ExtSpec X} {W} (h : handler sysE W) rrset (c : GandiConfig) z :
  gandi_api h rrset -> zone_override c = Some z ->
  ProviderLaws (gandi_provider h c) canon (serves_in (txt_values rrset c) z) (fun _ => True).
Proof.
  intros Hapi Hz.
  assert (forall f v w, _) as Hp by exact (gandi_present h rrset Hapi c).
  assert (forall f v w, _) as Hc by exact (gandi_cleanup h rrset Hapi c).
  unfold wp in *. rewrite Hz in Hp, Hc. cbn [zone_for] in Hp, Hc. by apply zone_laws.
Qed.

(** ** Properties *)

(** C16. Against a server that behaves as the LiveDNS API documents, whatever
    requests fail, are retried or are carried out without an answer:
    [present] and [cleanup] change no TXT value but the one given, of the
    name given, in its zone; [present] returns [Ok] only when the value is
    there, and [cleanup] only when it is gone; and with a configured zone the
    provider keeps the contract of [DnsProvider] for the names of the zone. *)
Theorem gandi_contract `{X : Ext} `{!ExtSpec X} {W} (h : handler sysE W) rrset (c : GandiConfig) :
  gandi_api h rrset ->
  (forall f v w, let '(r, w') := run h (present c f v) w in
     concerns (txt_values rrset c) (added (txt_values rrset c)) (zone_for (zone_override c) f) f v w r w') /\
  (forall f v w, let '(r, w') := run h (cleanup c f v) w in
     concerns (txt_values rrset c) (removed (txt_values rrset c)) (zone_for (zone_override c) f) f v w r w') /\
  (forall z, zone_override c = Some z ->
     ProviderLaws (gandi_provider h c) canon (serves_in (txt_values rrset c) z) (fun _ => True)).
Proof.
  intros Hapi. split_and!.
  - exact (gandi_present h rrset Hapi c).
  - exact (gandi_cleanup h rrset Hapi c).
  - intros z. by apply gandi_laws.
Qed.

Definition gandi_demo : GandiConfig :=
  mkGandiConfig "secret" "https://gandi.test" (Some "example.com"%string) 300 HTTP_TIMEOUT.

Definition gandi_url : string := "https://gandi.test/livedns/domains/example.com/records/_acme-challenge/TXT".

(** The first value is kept as it is, without quotes, and the second one added. *)
Lemma gandi_contract_witness :
  (let '(r, s) := run gandi_server (present (X := ref_ext) gandi_demo "_acme-challenge.EXAMPLE.com." "tok")
                      (only gandi_url ["other"%string]) in
   r = Ok tt /\ s gandi_url = ["other"%string; quoted "tok"]) /\
  ProviderLaws (gandi_provider (X := ref_ext) gandi_server gandi_demo) canon
    (serves_in (txt_values (X := ref_ext) stored gandi_demo) "example.com") (fun _ => True).
Proof.
  split; [vm_compute; split; reflexivity|].
  apply (gandi_contract gandi_server stored gandi_demo gandi_server_api). reflexivity.
Defined.
