(* ===== verification/Desec.v ===== *)
(** * The deSEC provider (src/providers/desec.rs)

    A record set is read, and replaced by a bulk [PATCH] of the zone's record
    sets.  [desec_api] states what the deSEC API documents of the requests
    this file sends. *)

From S2P Require Import Prelude Rstr Errors Effects Sys Common Zone Provider Txt.

Definition DESEC_API_BASE : string := "https://desec.io/api/v1".
Definition ENV_TOKEN : string := "DESEC_TOKEN".
Definition DEFAULT_TTL : Z := 3600.
Definition HTTP_TIMEOUT : Duration := from_secs 30.
Definition CONNECT_TIMEOUT : Duration := from_secs 5.
Definition PROVIDER : string := "desec".

Record DesecConfig : Type := mkDesecConfig {
  token : string;
  api_base : string;
  zone_override : option string;
  ttl : Z;
  http_timeout : Duration
}.

Record ResolvedZone : Type := mkResolvedZone {
  rz_name : string;
  rz_ttl : Z
}.

Record DesecDomain : Type := mkDesecDomain {
  dd_name : string;
  minimum_ttl : option Z
}.

Definition de_DesecDomain (j : Json) : option DesecDomain :=
  match struct_fields ["name"; "minimum_ttl"] j with
  | Some [n; m] =>
      n' ← required de_string n; m' ← defaulted None (de_option de_u32) m; Some (mkDesecDomain n' m')
  | _ => None
  end.

(** [DesecDomain::into_resolved]. *)
Definition into_resolved (d : DesecDomain) (t : Z) : ResolvedZone :=
  mkResolvedZone (dd_name d) (Z.max t (default DEFAULT_TTL (minimum_ttl d))).

(** [DesecRrset]. *)
Definition de_DesecRrset (j : Json) : option (list string) :=
  match struct_fields ["records"] j with
  | Some [r] => required (de_vec de_string) r
  | _ => None
  end.

Record DesecRrsetWrite : Type := mkDesecRrsetWrite {
  subname : string;
  rrset_type : string;
  rw_ttl : Z;
  rw_records : list string
}.

Definition ser_DesecRrsetWrite (b : DesecRrsetWrite) : Json :=
  JObj [("subname", JStr (subname b)); ("type", JStr (rrset_type b)); ("ttl", JNum (rw_ttl b));
        ("records", JArr (map JStr (rw_records b)))].

(** [fn unquote]. *)
Definition unquote (record : string) : string :=
  let trimmed := trim record in
  default trimmed (strip_prefix dquote trimmed ≫= strip_suffix dquote).

Section desec.
Context `{X : Ext}.

(** ** Configuration *)

Definition config_new (t : string) : DesecConfig :=
  mkDesecConfig t DESEC_API_BASE None DEFAULT_TTL HTTP_TIMEOUT.

Definition with_api_base (c : DesecConfig) (base : string) : dns_result DesecConfig :=
  let! _ := validate_https_base base PROVIDER in
  Ok (mkDesecConfig (token c) (trim_end_matches "/" base) (zone_override c) (ttl c) (http_timeout c)).

Definition with_zone (c : DesecConfig) (zone : string) : dns_result DesecConfig :=
  let! _ := validate_zone zone in
  Ok (mkDesecConfig (token c) (api_base c)
        (Some (to_ascii_lowercase (trim_end_matches dot zone))) (ttl c) (http_timeout c)).

Definition with_ttl (c : DesecConfig) (t : Z) : dns_result DesecConfig :=
  let! t' := validate_ttl_range t 0 86400 in
  Ok (mkDesecConfig (token c) (api_base c) (zone_override c) t' (http_timeout c)).

Definition with_timeout (c : DesecConfig) (d : Duration) : DesecConfig :=
  mkDesecConfig (token c) (api_base c) (zone_override c) (ttl c) d.

Definition new (client : Duration -> Duration -> result unit ReqwestError) (c : DesecConfig)
  : dns_result DesecConfig :=
  let! _ := map_err Http (client (http_timeout c) CONNECT_TIMEOUT) in Ok c.

Definition from_env (client : Duration -> Duration -> result unit ReqwestError)
    (var : string -> option string) : dns_result DesecConfig :=
  let! t := ok_or (var ENV_TOKEN) (MissingCredentials ENV_TOKEN) in
  new client (config_new t).

(** ** Requests *)

Definition auth_header (c : DesecConfig) : list (string * string) :=
  [("authorization", "Token " +:+ token c)].

Definition rrsets_url (c : DesecConfig) (zone : string) : string :=
  api_base c +:+ "/domains/" +:+ encode_path zone +:+ "/rrsets/".

Definition rrset_url (c : DesecConfig) (zone rname : string) : string :=
  api_base c +:+ "/domains/" +:+ encode_path zone +:+ "/rrsets/" +:+ encode_path rname +:+ "/TXT/".

Definition rrset_path (zone rname : string) : string :=
  "/domains/" +:+ encode_path zone +:+ "/rrsets/" +:+ encode_path rname +:+ "/TXT/".

Definition check_error (meth path : string) (response : Response) : DnsError :=
  if status response =? 429 then
    let hint :=
      match header_str "retry-after" response with
      | Some secs => "retry after " +:+ secs +:+ "s"
      | None => "retry later"
      end in
    Api (PROVIDER +:+ " " +:+ meth +:+ " " +:+ path +:+ " was rate limited (429), " +:+ hint)
  else api_error PROVIDER meth path response.

Definition fetch_domain (c : DesecConfig) (zone : string) : sys (dns_result ResolvedZone) :=
  let path := "/domains/" +:+ encode_path zone +:+ "/" in
  await? response := send (mkRequest GET (api_base c +:+ path) [] (auth_header c) None) in
  if status response =? 404 then Ret (Err (ZoneNotFound zone))
  else if negb (is_success (status response)) then Ret (Err (check_error "GET" path response))
  else
    try? domain := response_json de_DesecDomain response in
    Ret (Ok (into_resolved domain (ttl c))).

Definition resolve_zone (c : DesecConfig) (fqdn : string) : sys (dns_result ResolvedZone) :=
  match zone_override c with
  | Some zone => fetch_domain c zone
  | None =>
      let qname := trim_end_matches dot fqdn in
      let url := api_base c +:+ "/domains/" in
      await? response := send (mkRequest GET url [("owns_qname", qname)] (auth_header c) None) in
      if negb (is_success (status response)) then Ret (Err (check_error "GET" "/domains/" response))
      else
        try? domains := response_json (de_vec de_DesecDomain) response in
        try? domain := ok_or (head domains) (ZoneNotFound fqdn) in
        try? _ := validate_zone (dd_name domain) in
        Ret (Ok (into_resolved domain (ttl c)))
  end.

Definition fetch_existing (c : DesecConfig) (zone rname : string) : sys (dns_result (list string)) :=
  await? response := send (mkRequest GET (rrset_url c zone rname) [] (auth_header c) None) in
  if status response =? 404 then Ret (Ok [])
  else if negb (is_success (status response)) then
    Ret (Err (check_error "GET" (rrset_path zone rname) response))
  else
    try? records := response_json de_DesecRrset response in
    Ret (Ok (map unquote records)).

Definition write_values (c : DesecConfig) (zone rname : string) (t : Z) (values : list string)
  : sys (dns_result unit) :=
  let subname := if (rname =? "@")%string then EmptyString else rname in
  let body := [mkDesecRrsetWrite subname "TXT" t (map quoted values)] in
  await? response :=
    send (mkRequest PATCH (rrsets_url c zone) [] (auth_header c)
            (Some (JArr (map ser_DesecRrsetWrite body)))) in
  if negb (is_success (status response)) then
    Ret (Err (check_error "PATCH" ("/domains/" +:+ encode_path zone +:+ "/rrsets/") response))
  else Ret (Ok tt).

(** ** Operations *)

Definition present_locked (c : DesecConfig) (zone : ResolvedZone) (rname value : string)
  : sys (dns_result unit) :=
  await? values := fetch_existing c (rz_name zone) rname in
  if existsb (fun v => (v =? value)%string) values then Ret (Ok tt)
  else write_values c (rz_name zone) rname (rz_ttl zone) (values ++ [value]).

Definition present (c : DesecConfig) (fqdn value : string) : sys (dns_result unit) :=
  try? _ := validate_fqdn fqdn in
  let fqdn := to_ascii_lowercase fqdn in
  try? _ := validate_acme_value value in
  await? zone := resolve_zone c fqdn in
  try? rname := relative_name fqdn (rz_name zone) in
  with_lock (rz_name zone +:+ "|" +:+ rname) (present_locked c zone rname value).

Definition cleanup_locked (c : DesecConfig) (zone : ResolvedZone) (rname value : string)
  : sys (dns_result unit) :=
  await? values := fetch_existing c (rz_name zone) rname in
  if negb (existsb (fun v => (v =? value)%string) values) then Ret (Ok tt)
  else
    let remaining := List.filter (fun v => negb (v =? value)%string) values in
    write_values c (rz_name zone) rname (rz_ttl zone) remaining.

Definition cleanup (c : DesecConfig) (fqdn value : string) : sys (dns_result unit) :=
  try? _ := validate_fqdn fqdn in
  let fqdn := to_ascii_lowercase fqdn in
  await? zone := resolve_zone c fqdn in
  try? rname := relative_name fqdn (rz_name zone) in
  with_lock (rz_name zone +:+ "|" +:+ rname) (cleanup_locked c zone rname value).
End desec.

(** ** The deSEC API

    [rrset w u] holds the TXT records, as they are written, of the record set
    whose URL is [u]; the apex is [@] in a URL and empty in a body. *)

Definition url_name (subname : string) : string := if is_empty subname then "@" else subname.

Record desec_api `{X : Ext} {W} (h : handler sysE W) (c : DesecConfig)
    (rrset : W -> string -> list string) : Prop := {
  da_background : background h rrset;
  da_domain : forall req w resp z d,
    fst (h _ (HttpSend req) w) = Ok resp ->
    method req = GET -> url req = api_base c +:+ "/domains/" +:+ encode_path z +:+ "/" ->
    is_success (status resp) = true -> response_json de_DesecDomain resp = Ok d -> dd_name d = z;
  da_get : forall req w resp z rn,
    fst (h _ (HttpSend req) w) = Ok resp ->
    method req = GET -> url req = rrset_url c z rn ->
    (status resp = 404 -> rrset w (url req) = []) /\
    (is_success (status resp) = true ->
     forall l, response_json de_DesecRrset resp = Ok l -> l = rrset w (url req));
  da_patch : forall req z b,
    method req = PATCH -> url req = rrsets_url c z -> rrset_type b = "TXT"%string ->
    body req = Some (JArr [ser_DesecRrsetWrite b]) ->
    replaces h rrset req (rrset_url c z (url_name (subname b))) (rw_records b)
      (fun resp => is_success (status resp) = true)
}.

Section theory.
Context `{X : Ext} `{S : !ExtSpec X} {W : Type} (h : handler sysE W) (c : DesecConfig).
Context (rrset : W -> string -> list string) (Hapi : desec_api h c rrset).

Definition txt_values : W -> string * string -> list string :=
  view rrset (map unquote) (fun k => rrset_url c (fst k) (snd k)).

Lemma desec_url_inj k k' :
  rrset_url c (fst k) (snd k) = rrset_url c (fst k') (snd k') -> k = k'.
Proof.
  destruct k as [z r], k' as [z' r']. unfold rrset_url. cbn [fst snd].
  intros E%append_inj_l. apply (append_inj_l "/domains/") in E.
  apply slash_inj in E as [Ez E]; [|apply encode_path_no_slash..].
  apply (append_inj_l "rrsets/") in E. apply slash_inj in E as [Er _]; [|apply encode_path_no_slash..].
  apply encode_path_inj in Ez, Er. by subst.
Qed.

Lemma desec_background : background h txt_values.
Proof. apply background_view, Hapi. Qed.

Lemma desec_fetch z rn w :
  wp h (fetch_existing c z rn) (fun r w' =>
    same txt_values w w' /\ forall l, r = Ok l -> l = txt_values w (z, rn)) w.
Proof.
  apply wp_try, (wp_read h txt_values desec_background); [done|].
  intros w' Hw'. split; [done|]. intros resp w0 Hw0 Hresp.
  destruct (da_get _ _ _ Hapi _ _ _ z rn Hresp eq_refl eq_refl) as [H404 Hok]. rewrite <- (Hw0 (z, rn)).
  destruct (Z.eqb_spec (status resp) 404) as [E|_].
  { apply wp_ret. split; [done|]. intros l [= <-]. unfold txt_values, view. cbn in *. by rewrite H404. }
  destruct (is_success (status resp)) eqn:Es; [|by apply wp_ret].
  apply wp_try_pure; [|done]. intros b Hb. apply wp_ret. split; [done|]. intros l [= <-].
  unfold txt_values, view. cbn in *. by rewrite (Hok eq_refl b Hb).
Qed.

Lemma desec_write z rn t l w :
  rn <> EmptyString ->
  wp h (write_values c z rn t l) (fun r w' =>
    (same txt_values w w' \/ set_to txt_values (z, rn) l w w') /\
    (r = Ok tt -> set_to txt_values (z, rn) l w w')) w.
Proof.
  intros Hrn. eapply (wp_mono _ _ (fun r w' =>
    (same txt_values w w' \/ set_to txt_values (z, rn) (map unquote (map quoted l)) w w') /\
    (r = Ok tt -> set_to txt_values (z, rn) (map unquote (map quoted l)) w w')));
    [apply wp_try|intros r w'; by rewrite map_unquote_quoted].
  eapply (wp_replace h rrset (map unquote) _ desec_url_inj (da_background _ _ _ Hapi) _ (z, rn)).
  - pose proof (da_patch _ _ _ Hapi (mkRequest PATCH (rrsets_url c z) [] (auth_header c)
      (Some (JArr (map ser_DesecRrsetWrite [mkDesecRrsetWrite
        (if (rn =? "@")%string then EmptyString else rn) "TXT" t (map quoted l)])))) z
      (mkDesecRrsetWrite (if (rn =? "@")%string then EmptyString else rn) "TXT" t (map quoted l))
      eq_refl eq_refl eq_refl eq_refl) as H. cbn [subname rw_records fst snd] in *.
    replace (url_name (if (rn =? "@")%string then EmptyString else rn)) with rn in H; [exact H|].
    unfold url_name. destruct (String.eqb_spec rn "@") as [->|]; [done|].
    destruct (is_empty rn) eqn:E; [by apply is_empty_true in E|done].
  - intros [resp|e] w' Hd Ho; [|done]. destruct (is_success (status resp)) eqn:Es; by apply wp_ret; eauto.
Qed.

Lemma desec_present_locked z rn v w :
  rn <> EmptyString ->
  wp h (present_locked c z rn v) (fun r w' => added txt_values (rz_name z, rn) v w r w') w.
Proof.
  intros Hrn.
  apply (wp_rr_present h txt_values (fetch_existing c (rz_name z) rn) id id
           (fun _ => write_values c (rz_name z) rn (rz_ttl z)) (rz_name z, rn) (fun _ => True)); [| |done|done].
  - intros w' _. eapply wp_mono; [apply desec_fetch|]. intros r w1 [? H]. split; [done|]. intros s Hs.
    rewrite map_id. by apply H.
  - intros _ l w'. rewrite map_id. by apply desec_write.
Qed.

Lemma desec_cleanup_locked z rn v w :
  rn <> EmptyString ->
  wp h (cleanup_locked c z rn v) (fun r w' => removed txt_values (rz_name z, rn) v w r w') w.
Proof.
  intros Hrn. eapply wp_ext; [|apply (wp_rr_cleanup h txt_values (fetch_existing c (rz_name z) rn) id id
           (fun _ => write_values c (rz_name z) rn (rz_ttl z)) (rz_name z, rn) (fun _ => True)); [| |done]].
  - unfold cleanup_locked, rr_cleanup, ptry. rewrite !run_bind.
    destruct (run h (fetch_existing c (rz_name z) rn) w) as [[l|e] w1]; [|done]. cbn zeta.
    rewrite (filter_length_existsb (fun r => (id r =? v)%string)). done.
  - intros w' _. eapply wp_mono; [apply desec_fetch|]. intros r w1 [? H]. split; [done|]. intros s Hs.
    rewrite map_id. by apply H.
  - intros _ l w'. rewrite map_id. by apply desec_write.
Qed.

(** The zone is the configured one, or one the server named. *)
Definition desec_zone (z : string) : Prop :=
  match zone_override c with Some z' => z' = z | None => True end.

Lemma desec_resolve fqdn w :
  wp h (resolve_zone c fqdn) (fun r w' =>
    same txt_values w w' /\ forall z, r = Ok z -> desec_zone (rz_name z)) w.
Proof.
  unfold resolve_zone, desec_zone. destruct (zone_override c) as [z0|].
  - apply wp_try, (wp_read h txt_values desec_background); [done|].
    intros w' Hw'. split; [done|]. intros resp w0 Hw0 Hresp.
    destruct (status resp =? 404); [by apply wp_ret|].
    destruct (is_success (status resp)) eqn:Es; [|by apply wp_ret].
    apply wp_try_pure; [|done]. intros d Hd. apply wp_ret. split; [done|]. intros z [= <-].
    symmetry. by eapply (da_domain _ _ _ Hapi _ _ _ z0 d Hresp).
  - apply wp_try, (wp_read h txt_values desec_background); [done|].
    intros w' Hw'. split; [done|]. intros resp w0 _ _.
    destruct (is_success (status resp)); [|by apply wp_ret].
    do 3 (apply wp_try_pure; [intros ? _|done]). by apply wp_ret.
Qed.

Lemma desec_present f v w :
  wp h (present c f v) (fun r w' =>
    concerns txt_values (added txt_values) desec_zone f v w r w') w.
Proof.
  apply wp_try_pure; [|by intros; apply failed_concerns]. intros u Hf%validate_fqdn_unit. cbn zeta.
  apply wp_try_pure; [|by intros; apply failed_concerns]. intros u' _.
  apply (wp_in_zone h txt_values desec_background (added txt_values) rz_name); [done|by apply desec_resolve|].
  intros z rn w0 _ Hr _. by eapply desec_present_locked, relative_not_empty.
Qed.

Lemma desec_cleanup f v w :
  wp h (cleanup c f v) (fun r w' =>
    concerns txt_values (removed txt_values) desec_zone f v w r w') w.
Proof.
  apply wp_try_pure; [|by intros; apply failed_concerns]. intros u Hf%validate_fqdn_unit. cbn zeta.
  apply (wp_in_zone h txt_values desec_background (removed txt_values) rz_name); [done|by apply desec_resolve|].
  intros z rn w0 _ Hr _. by eapply desec_cleanup_locked, relative_not_empty.
Qed.
End theory.

(** The provider in an environment; it keeps the default timing. *)
Definition desec_provider `{X : Ext} {W} (h : handler sysE W) (c : DesecConfig) : DnsProvider W :=
  mkProvider (fun f v w => run h (present c f v) w) (fun f v w => run h (cleanup c f v) w) default_timing.

(** ** A server, with the domain [example.com] *)

Definition desec_demo : DesecConfig :=
  mkDesecConfig "secret" "https://desec.test" (Some "example.com"%string) 60 HTTP_TIMEOUT.

Definition de_write (j : Json) : option (string * list string) :=
  match j with
  | JArr [JObj [(_, JStr n); (_, JStr _); (_, JNum _); (_, rs)]] => l ← de_vec de_string rs; Some (n, l)
  | _ => None
  end.

Definition desec_http (req : Request) (s : store) : result Response ReqwestError * store :=
  match method req with
  | GET =>
      if (url req =? "https://desec.test/domains/example.com/")%string then
        (Ok (reply 200 (JObj [("name"%string, JStr "example.com"); ("minimum_ttl"%string, JNum 3600)])), s)
      else
        match stored s (url req) with
        | [] => (Ok (reply_empty 404), s)
        | l => (Ok (reply 200 (JObj [("records"%string, JArr (map JStr l))])), s)
        end
  | PATCH =>
      match body req ≫= de_write with
      | Some (n, l) =>
          (Ok (reply_empty 200),
           put (url req +:+ encode_path (X := ref_ext) (url_name n) +:+ "/TXT/") l s)
      | None => (Ok (reply_empty 400), s)
      end
  | _ => (Ok (reply_empty 405), s)
  end.

Definition desec_server : handler sysE store := served_by desec_http.

Lemma desec_domain_url (z : string) (x : string) :
  api_base desec_demo +:+ "/domains/" +:+ encode_path (X := ref_ext) z +:+ "/" +:+ x =
  "https://desec.test/domains/example.com/" -> z = "example.com"%string /\ x = EmptyString.
Proof.
  intros E. apply (append_inj_l "https://desec.test/domains/" _ "example.com/") in E.
  change ("example.com/"%string) with (encode_path (X := ref_ext) "example.com" +:+ String "/" EmptyString) in E.
  apply slash_inj in E as [Ez ->]; [|apply encode_path_no_slash..]. by apply encode_path_inj in Ez.
Qed.

Lemma desec_server_api : desec_api (X := ref_ext) desec_server desec_demo stored.
Proof.
  split.
  - split; [by intros Y e w; destruct e|]. intros [m u q hd b] w; cbn. intros ->. unfold desec_http; cbn.
    destruct (_ =? _)%string; [done|]. by destruct (stored w u).
  - intros [m u q hd b] w resp z d Hr; cbn [method url]. intros -> ->. revert Hr.
    unfold desec_server, served_by, desec_http. cbn [method url].
    destruct (String.eqb_spec (api_base desec_demo +:+ "/domains/" +:+ encode_path (X := ref_ext) z +:+ "/")
      "https://desec.test/domains/example.com/") as [E|_].
    + apply (desec_domain_url z EmptyString) in E as [-> _]. intros [= <-] _. by intros [= <-].
    + destruct (stored w _) as [|x l]; by intros [= <-].
  - intros [m u q hd b] w resp z rn Hr; cbn [method url]. intros -> ->. revert Hr.
    unfold desec_server, served_by, desec_http. cbn [method url].
    destruct (String.eqb_spec (rrset_url (X := ref_ext) desec_demo z rn) "https://desec.test/domains/example.com/") as [E|_].
    + by apply desec_domain_url in E as [_ E].
    + destruct (stored w (rrset_url (X := ref_ext) desec_demo z rn)) as [|x l]; intros [= <-]; cbn; (split; [done|]); try done.
      intros _ b'. change (mapM de_string (map JStr l)) with (de_vec de_string (JArr (map JStr l))).
      rewrite de_strings. by intros [= <-].
  - intros [m u q hd b] z [n ty t l] Hm Hu Hty Hb w; cbn [method url rrset_type body] in *. subst.
    unfold desec_server, served_by, desec_http; cbn [method body url mbind option_bind].
    cbn [de_write ser_DesecRrsetWrite subname rw_records rw_ttl rrset_type]. rewrite de_strings.
    cbn [mbind option_bind fst snd].
    replace (rrsets_url (X := ref_ext) desec_demo z +:+ encode_path (X := ref_ext) (url_name n) +:+ "/TXT/")
      with (rrset_url (X := ref_ext) desec_demo z (url_name n))
      by (unfold rrset_url, rrsets_url; by rewrite !append_assoc).
    split; [right|intros resp _ _]; apply set_to_put.
Qed.

(** With a configured zone, the contract of [DnsProvider]. *)
Lemma desec_laws `{X : Ext} `{!ExtSpec X} {W} (h : handler sysE W) (c : DesecConfig) rrset z :
  desec_api h c rrset -> zone_override c = Some z ->
  ProviderLaws (desec_provider h c) canon (serves_in (txt_values c rrset) z) (fun _ => True).
Proof.
  intros Hapi Hz.
  assert (forall f v w, _) as Hp by exact (desec_present h c rrset Hapi).
  assert (forall f v w, _) as Hc by exact (desec_cleanup h c rrset Hapi).
  unfold wp, desec_zone in *. rewrite Hz in Hp, Hc. by apply zone_laws.
Qed.

(** ** Properties *)

(** C17. Against a server that behaves as the deSEC API documents, whatever
    requests fail, are retried or are carried out without an answer:
    [present] and [cleanup] change no TXT value but the one given, of the
    name given, in its zone (at the apex too); [present] returns [Ok] only
    when the value is there, and [cleanup] only when it is gone; and with a
    configured zone the provider keeps the contract of [DnsProvider]. *)
Theorem desec_contract `{X : Ext} `{!ExtSpec X} {W} (h : handler sysE W) (c : DesecConfig) rrset :
  desec_api h c rrset ->
  (forall f v w, let '(r, w') := run h (present c f v) w in
     concerns (txt_values c rrset) (added (txt_values c rrset)) (desec_zone c) f v w r w') /\
  (forall f v w, let '(r, w') := run h (cleanup c f v) w in
     concerns (txt_values c rrset) (removed (txt_values c rrset)) (desec_zone c) f v w r w') /\
  (forall z, zone_override c = Some z ->
     ProviderLaws (desec_provider h c) canon (serves_in (txt_values c rrset) z) (fun _ => True)).
Proof.
  intros Hapi. split_and!.
  - exact (desec_present h c rrset Hapi).
  - exact (desec_cleanup h c rrset Hapi).
  - intros z. by apply desec_laws.
Qed.

Definition desec_demo_url : string := "https://desec.test/domains/example.com/rrsets/@/TXT/".

(** A second value at the apex of the zone. *)
Lemma desec_contract_witness :
  (let '(r, s) := run desec_server (present (X := ref_ext) desec_demo "example.com" "tok")
                      (only desec_demo_url ["other"%string]) in
   r = Ok tt /\ s desec_demo_url = [quoted "other"; quoted "tok"]) /\
  ProviderLaws (desec_provider (X := ref_ext) desec_server desec_demo) canon
    (serves_in (txt_values (X := ref_ext) desec_demo stored) "example.com") (fun _ => True).
Proof.
  split; [vm_compute; split; reflexivity|].
  apply (desec_contract desec_server desec_demo stored desec_server_api). reflexivity.
Defined.
