(* ===== verification/Scaleway.v ===== *)
(** * The Scaleway provider (src/providers/scaleway.rs)

    The records of a name are listed, one page of up to 100, and its record
    set is replaced or deleted by a [PATCH] of the zone's records.
    [scw_api] states what the Scaleway API documents of the requests this file
    sends. *)

From S2P Require Import Prelude Rstr Errors Effects Sys Common Zone Provider Txt.

Definition SCW_API_BASE : string := "https://api.scaleway.com".
Definition ENV_SECRET_KEY : string := "SCW_SECRET_KEY".
Definition DEFAULT_TTL : Z := 300.
Definition HTTP_TIMEOUT : Duration := from_secs 30.
Definition CONNECT_TIMEOUT : Duration := from_secs 5.
Definition PROVIDER : string := "scaleway".

Record ScalewayConfig : Type := mkScalewayConfig {
  secret_key : string;
  api_base : string;
  zone_override : option string;
  ttl : Z;
  http_timeout : Duration
}.

(** ** Bodies *)

Record ScwRecord : Type := mkScwRecord {
  scw_type : string;
  scw_data : string
}.

(** [Record] and [RecordsResponse]. *)
Definition de_Record (j : Json) : option ScwRecord :=
  match struct_fields ["type"; "data"] j with
  | Some [t; d] => t' ← required de_string t; d' ← required de_string d; Some (mkScwRecord t' d')
  | _ => None
  end.

Definition de_RecordsResponse (j : Json) : option (list ScwRecord) :=
  match struct_fields ["records"] j with
  | Some [rs] => required (de_vec de_Record) rs
  | _ => None
  end.

Record IdFields : Type := mkIdFields {
  id_name : string;
  id_type : string
}.

Definition ser_IdFields (i : IdFields) : list (string * Json) :=
  [("name", JStr (id_name i)); ("type", JStr (id_type i))]%string.

Record RecordSpec : Type := mkRecordSpec {
  spec_name : string;
  spec_type : string;
  spec_data : string;
  spec_ttl : Z
}.

Definition ser_RecordSpec (r : RecordSpec) : Json :=
  JObj [("name", JStr (spec_name r)); ("type", JStr (spec_type r)); ("data", JStr (spec_data r));
        ("ttl", JNum (spec_ttl r))].

Record SetChange : Type := mkSetChange {
  id_fields : IdFields;
  set_records : list RecordSpec
}.

(** The identifying fields are flattened. *)
Definition ser_SetChange (s : SetChange) : Json :=
  JObj (ser_IdFields (id_fields s) ++ [("records"%string, JArr (map ser_RecordSpec (set_records s)))]).

Inductive Change : Type :=
| CSet (set : SetChange)
| CDelete (delete : IdFields).

Definition ser_Change (ch : Change) : Json :=
  match ch with
  | CSet s => JObj [("set"%string, ser_SetChange s)]
  | CDelete i => JObj [("delete"%string, JObj (ser_IdFields i))]
  end.

Definition ser_ChangeRequest (changes : list Change) (return_all_records : bool) : Json :=
  JObj [("changes", JArr (map ser_Change changes)); ("return_all_records", JBool return_all_records)].

Section scaleway.
Context `{X : Ext}.

(** ** Configuration *)

Definition config_new (secret_key : string) : ScalewayConfig :=
  mkScalewayConfig secret_key SCW_API_BASE None DEFAULT_TTL HTTP_TIMEOUT.

Definition with_api_base (c : ScalewayConfig) (base : string) : dns_result ScalewayConfig :=
  let! _ := validate_https_base base PROVIDER in
  Ok (mkScalewayConfig (secret_key c) (trim_end_matches "/" base) (zone_override c) (ttl c) (http_timeout c)).

Definition with_zone (c : ScalewayConfig) (zone : string) : dns_result ScalewayConfig :=
  let! _ := validate_zone zone in
  Ok (mkScalewayConfig (secret_key c) (api_base c)
        (Some (to_ascii_lowercase (trim_end_matches dot zone))) (ttl c) (http_timeout c)).

Definition with_ttl (c : ScalewayConfig) (t : Z) : dns_result ScalewayConfig :=
  let! t' := validate_ttl t in
  Ok (mkScalewayConfig (secret_key c) (api_base c) (zone_override c) t' (http_timeout c)).

Definition with_timeout (c : ScalewayConfig) (d : Duration) : ScalewayConfig :=
  mkScalewayConfig (secret_key c) (api_base c) (zone_override c) (ttl c) d.

Definition new (client : Duration -> Duration -> result unit ReqwestError) (c : ScalewayConfig)
  : dns_result ScalewayConfig :=
  let! _ := map_err Http (client (http_timeout c) CONNECT_TIMEOUT) in Ok c.

Definition from_env (client : Duration -> Duration -> result unit ReqwestError)
    (var : string -> option string) : dns_result ScalewayConfig :=
  let! key := ok_or (var ENV_SECRET_KEY) (MissingCredentials ENV_SECRET_KEY) in
  new client (config_new key).

(** ** Requests *)

Definition records_url (c : ScalewayConfig) (zone : string) : string :=
  api_base c +:+ "/domain/v2beta1/dns-zones/" +:+ encode_path zone +:+ "/records".

Definition records_path (zone : string) : string :=
  "/domain/v2beta1/dns-zones/" +:+ encode_path zone +:+ "/records".

Definition auth (c : ScalewayConfig) : list (string * string) := [("X-Auth-Token", secret_key c)].

Definition list_query (rname : string) : list (string * string) :=
  [("name", rname); ("type", "TXT"); ("page_size", "100")]%string.

Definition fetch_existing (c : ScalewayConfig) (zone rname : string) : sys (dns_result (list string)) :=
  await? response := send (mkRequest GET (records_url c zone) (list_query rname) (auth c) None) in
  if status response =? 404 then Ret (Ok [])
  else if negb (is_success (status response)) then
    Ret (Err (api_error PROVIDER "GET" (records_path zone) response))
  else
    try? body := response_json de_RecordsResponse response in
    Ret (Ok (map scw_data (List.filter (fun r => (scw_type r =? "TXT")%string) body))).

Definition apply_set (c : ScalewayConfig) (zone rname : string) (values : list string)
  : sys (dns_result unit) :=
  let id_fields := mkIdFields rname "TXT" in
  let records := map (fun v => mkRecordSpec (id_name id_fields) (id_type id_fields) v (ttl c)) values in
  let body := ser_ChangeRequest [CSet (mkSetChange id_fields records)] false in
  await? response := send (mkRequest PATCH (records_url c zone) [] (auth c) (Some body)) in
  if negb (is_success (status response)) then
    Ret (Err (api_error PROVIDER "PATCH" (records_path zone) response))
  else Ret (Ok tt).

Definition apply_delete (c : ScalewayConfig) (zone rname : string) : sys (dns_result unit) :=
  let body := ser_ChangeRequest [CDelete (mkIdFields rname "TXT")] false in
  await? response := send (mkRequest PATCH (records_url c zone) [] (auth c) (Some body)) in
  if negb (is_success (status response)) && negb (status response =? 404) then
    Ret (Err (api_error PROVIDER "PATCH" (records_path zone) response))
  else Ret (Ok tt).

Definition resolve_zone (c : ScalewayConfig) (fqdn : string) : sys (dns_result string) :=
  match zone_override c with
  | Some z => Ret (Ok z)
  | None =>
      await? zone := find_zone fqdn in
      try? _ := validate_fqdn zone in
      Ret (Ok zone)
  end.

(** ** Operations *)

Definition present_locked (c : ScalewayConfig) (zone rname value : string) : sys (dns_result unit) :=
  await? values := fetch_existing c zone rname in
  if existsb (fun v => (unquote v =? value)%string) values then Ret (Ok tt)
  else apply_set c zone rname (values ++ [quoted value]).

Definition present (c : ScalewayConfig) (fqdn value : string) : sys (dns_result unit) :=
  try? _ := validate_fqdn fqdn in
  let fqdn := to_ascii_lowercase fqdn in
  try? _ := validate_acme_value value in
  await? zone := resolve_zone c fqdn in
  try? rname := relative_name fqdn zone in
  with_lock (zone +:+ "|" +:+ rname) (present_locked c zone rname value).

Definition cleanup_locked (c : ScalewayConfig) (zone rname value : string) : sys (dns_result unit) :=
  await? values := fetch_existing c zone rname in
  let count := length values in
  let remaining := List.filter (fun v => negb (unquote v =? value)%string) values in
  if (length remaining =? count)%nat then Ret (Ok tt)
  else
    match remaining with
    | [] => apply_delete c zone rname
    | _ :: _ => apply_set c zone rname remaining
    end.

Definition cleanup (c : ScalewayConfig) (fqdn value : string) : sys (dns_result unit) :=
  try? _ := validate_fqdn fqdn in
  let fqdn := to_ascii_lowercase fqdn in
  await? zone := resolve_zone c fqdn in
  try? rname := relative_name fqdn zone in
  with_lock (zone +:+ "|" +:+ rname) (cleanup_locked c zone rname value).
End scaleway.

(** ** The Scaleway API

    [rrset w (u, n)] holds the TXT records, as they are written, of the name
    [n] in the zone whose records have the URL [u]. *)

Definition set_body (n : string) (values : list string) (t : Z) : Json :=
  ser_ChangeRequest
    [CSet (mkSetChange (mkIdFields n "TXT") (map (fun v => mkRecordSpec n "TXT" v t) values))] false.

Record scw_api `{X : Ext} {W} (h : handler sysE W) (rrset : W -> string * string -> list string) : Prop := {
  sa_background : background h rrset;
  sa_get : forall req w resp n,
    fst (h _ (HttpSend req) w) = Ok resp -> method req = GET -> query req = list_query n ->
    (status resp = 404 -> rrset w (url req, n) = []) /\
    (is_success (status resp) = true ->
     forall b, response_json de_RecordsResponse resp = Ok b ->
       map scw_data (List.filter (fun r => (scw_type r =? "TXT")%string) b) = take 100 (rrset w (url req, n)));
  sa_set : forall req n l t,
    method req = PATCH -> body req = Some (set_body n l t) ->
    replaces h rrset req (url req, n) l (fun resp => is_success (status resp) = true);
  sa_delete : forall req n,
    method req = PATCH -> body req = Some (ser_ChangeRequest [CDelete (mkIdFields n "TXT")] false) ->
    replaces h rrset req (url req, n) [] (fun resp => is_success (status resp) = true \/ status resp = 404)
}.

Section theory.
Context `{X : Ext} `{S : !ExtSpec X} {W : Type} (h : handler sysE W).
Context (rrset : W -> string * string -> list string) (Hapi : scw_api h rrset) (c : ScalewayConfig).

Definition scw_key (k : string * string) : string * string := (records_url c (fst k), snd k).

(** The TXT values of a name of a zone. *)
Definition txt_values : W -> string * string -> list string := view rrset (map unquote) scw_key.

(** No name has more values than a page holds. *)
Definition few (w : W) : Prop := forall k, (length (txt_values w k) <= 100)%nat.

Lemma scw_few_same w w' : same txt_values w w' -> few w -> few w'.
Proof. intros Hs Hf k. by rewrite Hs. Qed.

Lemma scw_key_inj k k' : scw_key k = scw_key k' -> k = k'.
Proof.
  destruct k as [z r], k' as [z' r']. unfold scw_key, records_url. cbn [fst snd].
  intros E. injection E as Ez ->. apply append_inj_l, (append_inj_l "/domain/v2beta1/dns-zones/") in Ez.
  apply slash_inj in Ez as [Ez _]; [|apply encode_path_no_slash..]. by apply encode_path_inj in Ez as ->.
Qed.

Lemma scw_background : background h txt_values.
Proof. apply background_view, Hapi. Qed.

Lemma scw_fetch z rn w :
  few w ->
  wp h (fetch_existing c z rn) (fun r w' =>
    same txt_values w w' /\ forall l, r = Ok l -> map unquote l = txt_values w (z, rn)) w.
Proof.
  intros Hfew. apply wp_try, (wp_read h txt_values scw_background); [done|].
  intros w' Hw'. split; [done|]. intros resp w0 Hw0 Hresp.
  destruct (sa_get _ _ Hapi _ _ _ rn Hresp eq_refl eq_refl) as [H404 Hok].
  rewrite <- (Hw0 (z, rn)). pose proof (scw_few_same _ _ Hw0 Hfew (z, rn)) as Hlen.
  unfold txt_values, view, scw_key in *. cbn [fst snd url] in *.
  destruct (Z.eqb_spec (status resp) 404) as [E|_].
  { apply wp_ret. split; [done|]. intros l [= <-]. by rewrite H404. }
  destruct (is_success (status resp)) eqn:Es; [|by apply wp_ret].
  apply wp_try_pure; [|done]. intros b Hb. apply wp_ret. split; [done|]. intros l [= <-].
  rewrite (Hok eq_refl b Hb). rewrite length_map in Hlen. by rewrite take_ge.
Qed.

Lemma scw_set z rn l w :
  wp h (apply_set c z rn l) (fun r w' =>
    (same txt_values w w' \/ set_to txt_values (z, rn) (map unquote l) w w') /\
    (r = Ok tt -> set_to txt_values (z, rn) (map unquote l) w w')) w.
Proof.
  apply wp_try. eapply (wp_replace h rrset (map unquote) _ scw_key_inj (sa_background _ _ Hapi) _ (z, rn) l);
    [by eapply (sa_set _ _ Hapi)|].
  intros [resp|e] w' Hd Ho; [|done]. destruct (is_success (status resp)) eqn:Es; by apply wp_ret; eauto.
Qed.

Lemma scw_delete z rn w :
  wp h (apply_delete c z rn) (fun r w' =>
    (same txt_values w w' \/ set_to txt_values (z, rn) [] w w') /\
    (r = Ok tt -> set_to txt_values (z, rn) [] w w')) w.
Proof.
  apply wp_try. eapply (wp_replace h rrset (map unquote) _ scw_key_inj (sa_background _ _ Hapi) _ (z, rn) []);
    [by eapply (sa_delete _ _ Hapi)|].
  intros [resp|e] w' Hd Ho; [|done].
  destruct (is_success (status resp)) eqn:Es; [by apply wp_ret; eauto|].
  destruct (Z.eqb_spec (status resp) 404); by apply wp_ret; eauto.
Qed.

Lemma scw_present_locked z rn v w :
  few w -> wp h (present_locked c z rn v) (fun r w' => added txt_values (z, rn) v w r w') w.
Proof.
  intros Hfew.
  apply (wp_rr_present h txt_values (fetch_existing c z rn) id unquote (fun _ => apply_set c z rn)
           (z, rn) few) with (v := v) (r := quoted v); [| |done|apply unquote_quoted].
  - apply scw_fetch.
  - intros _. apply scw_set.
Qed.

Definition set_or_delete (z rn : string) (l : list string) : sys (dns_result unit) :=
  match l with [] => apply_delete c z rn | _ :: _ => apply_set c z rn l end.

Lemma scw_cleanup_locked z rn v w :
  few w -> wp h (cleanup_locked c z rn v) (fun r w' => removed txt_values (z, rn) v w r w') w.
Proof.
  intros Hfew.
  apply (wp_rr_cleanup h txt_values (fetch_existing c z rn) id unquote (fun _ => set_or_delete z rn)
           (z, rn) few); [| |done].
  - apply scw_fetch.
  - intros _ [|x l] w0; [apply scw_delete|apply scw_set].
Qed.

Lemma scw_resolve f w :
  valid_name f ->
  wp h (resolve_zone c (to_ascii_lowercase f)) (fun r w' =>
    same txt_values w w' /\ forall z, r = Ok z -> zone_for (zone_override c) f z) w.
Proof.
  intros Hf. unfold resolve_zone. destruct (zone_override c) as [z|] eqn:E.
  - apply wp_ret. split; [done|]. by intros z' [= <-].
  - by apply (wp_found_zone h txt_values scw_background).
Qed.

Lemma scw_present f v w :
  few w ->
  wp h (present c f v) (fun r w' =>
    concerns txt_values (added txt_values) (zone_for (zone_override c) f) f v w r w') w.
Proof.
  intros Hfew. apply wp_try_pure; [|by intros; apply failed_concerns]. intros u Hf%validate_fqdn_unit. cbn zeta.
  apply wp_try_pure; [|by intros; apply failed_concerns]. intros u' _.
  apply (wp_in_zone h txt_values scw_background (added txt_values) id); [done|by apply scw_resolve|].
  intros z rn w0 _ _ Hw0. by eapply scw_present_locked, scw_few_same.
Qed.

Lemma scw_cleanup f v w :
  few w ->
  wp h (cleanup c f v) (fun r w' =>
    concerns txt_values (removed txt_values) (zone_for (zone_override c) f) f v w r w') w.
Proof.
  intros Hfew. apply wp_try_pure; [|by intros; apply failed_concerns]. intros u Hf%validate_fqdn_unit. cbn zeta.
  apply (wp_in_zone h txt_values scw_background (removed txt_values) id); [done|by apply scw_resolve|].
  intros z rn w0 _ _ Hw0. by eapply scw_cleanup_locked, scw_few_same.
Qed.
End theory.

(** ** A server *)

Abbreviation scw_store := (string * string -> list string).

Definition ser_scw_record (v : string) : Json := JObj [("type", JStr "TXT"); ("data", JStr v)].

(** The change of a request: a name and its new values. *)
Definition change_parts (j : Json) : option (string * list string) :=
  match j with
  | JObj [(_, JArr [JObj [(k, JObj fs)]]); (_, _)] =>
      n ← assoc "name" fs ≫= de_string;
      if (k =? "delete")%string then Some (n, [])
      else
        rs ← assoc "records" fs ≫= de_vec de_Record;
        Some (n, map scw_data rs)
  | _ => None
  end.

Definition scw_http (req : Request) (s : scw_store) : result Response ReqwestError * scw_store :=
  match method req with
  | GET =>
      match query req with
      | [(_, n); (_, _); (_, _)] =>
          (Ok (reply 200 (JObj [("records"%string,
                 JArr (map ser_scw_record (take 100 (stored s (url req, n)))))])), s)
      | _ => (Ok (reply_empty 400), s)
      end
  | PATCH =>
      match body req ≫= change_parts with
      | Some (n, l) => (Ok (reply_empty 200), put (url req, n) l s)
      | None => (Ok (reply_empty 400), s)
      end
  | _ => (Ok (reply_empty 405), s)
  end.

Definition scw_server : handler sysE scw_store := served_by scw_http.

Lemma scw_de_records l :
  mapM de_Record (map ser_scw_record l) = Some (map (fun v => mkScwRecord "TXT" v) l).
Proof. induction l as [|v l IH]; [done|]. cbn. by rewrite IH. Qed.

Lemma scw_de_specs n l t :
  de_vec de_Record (JArr (map ser_RecordSpec (map (fun v => mkRecordSpec n "TXT" v t) l))) =
  Some (map (fun v => mkScwRecord "TXT" v) l).
Proof. cbn. induction l as [|v l IH]; [done|]. cbn. by rewrite IH. Qed.

Lemma scw_datas l :
  map scw_data (List.filter (fun r => (scw_type r =? "TXT")%string) (map (fun v => mkScwRecord "TXT" v) l)) = l.
Proof. induction l as [|v l IH]; [done|]. cbn. by rewrite IH. Qed.

Lemma scw_set_parts n l t : change_parts (set_body n l t) = Some (n, l).
Proof.
  change (change_parts (set_body n l t)) with
    (de_vec de_Record (JArr (map ser_RecordSpec (map (fun v => mkRecordSpec n "TXT" v t) l)))
      ≫= (fun rs => Some (n, map scw_data rs))).
  rewrite scw_de_specs. cbn [mbind option_bind]. rewrite map_map. cbn. by rewrite map_id.
Qed.

Lemma scw_server_api : scw_api (X := ref_ext) scw_server stored.
Proof.
  split.
  - split; [by intros Y e w; destruct e|]. intros [m u q hd b] w; cbn. intros ->. unfold scw_http; cbn.
    repeat case_match; done.
  - intros [m u q hd b] w resp n Hr; cbn [method url query]. intros -> ->. revert Hr.
    unfold scw_server, served_by, scw_http, list_query. cbn [method query url]. intros [= <-].
    split; [done|]. intros _ b'. unfold response_json. cbn [resp_body reply].
    change (de_RecordsResponse _) with (mapM de_Record (map ser_scw_record (take 100 (stored w (u, n))))).
    rewrite scw_de_records. intros [= <-]. apply scw_datas.
  - intros [m u q hd b] n l t Hm Hb w; cbn [method url body] in *. subst.
    unfold scw_server, served_by, scw_http; cbn [method body url mbind option_bind]. rewrite scw_set_parts.
    split; [right|intros resp _ _]; apply set_to_put.
  - intros [m u q hd b] n Hm Hb w; cbn [method url body] in *. subst. cbn.
    split; [right|intros resp _ _]; apply set_to_put.
Qed.

(** ** Properties *)

(** C24. Against a server that behaves as the Scaleway API documents, when no
    name has more values than the page the provider asks for, and whatever
    requests fail, are retried or are carried out without an answer:
    [present] and [cleanup] change no TXT value but the one given, of the
    name given, in its zone; [present] returns [Ok] only when the value is
    there, and [cleanup] only when it is gone. *)
Theorem scaleway_contract `{X : Ext} `{!ExtSpec X} {W} (h : handler sysE W) rrset (c : ScalewayConfig) f v w :
  scw_api h rrset -> few rrset c w ->
  (let '(r, w') := run h (present c f v) w in
   concerns (txt_values rrset c) (added (txt_values rrset c)) (zone_for (zone_override c) f) f v w r w') /\
  (let '(r, w') := run h (cleanup c f v) w in
   concerns (txt_values rrset c) (removed (txt_values rrset c)) (zone_for (zone_override c) f) f v w r w').
Proof.
  intros Hapi Hfew. split.
  - exact (scw_present h rrset Hapi c f v w Hfew).
  - exact (scw_cleanup h rrset Hapi c f v w Hfew).
Qed.

Definition scw_demo : ScalewayConfig :=
  mkScalewayConfig "secret" "https://scw.test" (Some "example.com"%string) 300 HTTP_TIMEOUT.

Definition scw_demo_key : string * string :=
  ("https://scw.test/domain/v2beta1/dns-zones/example.com/records"%string, "_acme-challenge"%string).

Definition scw_demo_state : scw_store := only scw_demo_key [quoted "tok"; "other"%string].

Lemma scw_demo_few : few (X := ref_ext) stored scw_demo scw_demo_state.
Proof.
  intros k. unfold txt_values, view, stored, scw_demo_state, only, put. case_decide; cbn; lia.
Qed.

(** One of two values is taken down, the other is kept as it was written. *)
Lemma scaleway_contract_witness :
  (let '(r, s) := run scw_server (cleanup (X := ref_ext) scw_demo "_acme-challenge.Example.com." "tok")
                      scw_demo_state in
   r = Ok tt /\ s scw_demo_key = ["other"%string]) /\
  (let '(r, w') := run scw_server (cleanup (X := ref_ext) scw_demo "_acme-challenge.Example.com." "tok")
                       scw_demo_state in
   concerns (txt_values (X := ref_ext) stored scw_demo) (removed (txt_values (X := ref_ext) stored scw_demo))
     (eq "example.com"%string) "_acme-challenge.Example.com." "tok" scw_demo_state r w').
Proof.
  split; [vm_compute; split; reflexivity|].
  exact (proj2 (scaleway_contract scw_server stored scw_demo "_acme-challenge.Example.com." "tok" scw_demo_state
    scw_server_api scw_demo_few)).
Defined.
