(* ===== verification/PowerDns.v ===== *)
(** * The PowerDNS provider (src/providers/powerdns.rs)

    A record set is read, and replaced or deleted by a [PATCH] of the zone.
    The zone of a name is the longest suffix of it that the server knows, and
    is kept in a cache.  [pdns_api] states what the PowerDNS API documents of
    the requests this file sends. *)

From S2P Require Import Prelude Rstr Errors Effects Sys Common Zone Provider Txt.

Definition ENV_API_URL : string := "POWERDNS_API_URL".
Definition ENV_API_KEY : string := "POWERDNS_API_KEY".
Definition ENV_SERVER_ID : string := "POWERDNS_SERVER_ID".
Definition API_PATH : string := "/api/v1".
Definition DEFAULT_SERVER_ID : string := "localhost".
Definition API_KEY_HEADER : string := "X-API-Key".
Definition DEFAULT_TTL : Z := 60.
Definition HTTP_TIMEOUT : Duration := from_secs 30.
Definition CONNECT_TIMEOUT : Duration := from_secs 5.
Definition PROVIDER : string := "powerdns".
Definition MAX_ERROR_BODY : nat := 512.

Record PowerDnsConfig : Type := mkPowerDnsConfig {
  api_key : string;
  api_base : string;
  server_id : string;
  zone_override : option string;
  ttl : Z;
  http_timeout : Duration
}.

(** ** Bodies *)

(** [PdnsError] and [PdnsZone]. *)
Definition de_PdnsError (j : Json) : option string :=
  match struct_fields ["error"] j with Some [e] => required de_string e | _ => None end.
Definition de_PdnsZone (j : Json) : option string :=
  match struct_fields ["name"] j with Some [n] => required de_string n | _ => None end.

Record PdnsRecord : Type := mkPdnsRecord {
  content : string;
  disabled : bool
}.

Definition de_PdnsRecord (j : Json) : option PdnsRecord :=
  match struct_fields ["content"; "disabled"] j with
  | Some [c; d] => c' ← required de_string c; d' ← defaulted false de_bool d; Some (mkPdnsRecord c' d')
  | _ => None
  end.

Definition ser_PdnsRecord (r : PdnsRecord) : Json :=
  JObj [("content", JStr (content r)); ("disabled", JBool (disabled r))].

Record PdnsRrset : Type := mkPdnsRrset {
  rr_name : string;
  record_type : string;
  rr_ttl : Z;
  rr_records : list PdnsRecord
}.

Definition de_PdnsRrset (j : Json) : option PdnsRrset :=
  match struct_fields ["name"; "type"; "ttl"; "records"] j with
  | Some [n; t; l; rs] =>
      n' ← required de_string n; t' ← required de_string t; l' ← required de_u32 l;
      rs' ← required (de_vec de_PdnsRecord) rs; Some (mkPdnsRrset n' t' l' rs')
  | _ => None
  end.

(** [PdnsZoneRrsets]. *)
Definition de_PdnsZoneRrsets (j : Json) : option (list PdnsRrset) :=
  match struct_fields ["rrsets"] j with
  | Some [rs] => defaulted [] (de_vec de_PdnsRrset) rs
  | _ => None
  end.

Record PdnsRrsetWrite : Type := mkPdnsRrsetWrite {
  w_name : string;
  w_type : string;
  w_ttl : option Z;
  changetype : string;
  w_records : option (list PdnsRecord)
}.

(** [skip_serializing_if = "Option::is_none"]. *)
Definition skip_none {A} (k : string) (f : A -> Json) (o : option A) : list (string * Json) :=
  match o with Some a => [(k, f a)] | None => [] end.

Definition ser_PdnsRrsetWrite (r : PdnsRrsetWrite) : Json :=
  JObj ([("name"%string, JStr (w_name r)); ("type"%string, JStr (w_type r))]
        ++ skip_none "ttl" JNum (w_ttl r)
        ++ [("changetype"%string, JStr (changetype r))]
        ++ skip_none "records" (fun l => JArr (map ser_PdnsRecord l)) (w_records r)).

Definition ser_PdnsPatch (l : list PdnsRrsetWrite) : Json :=
  JObj [("rrsets", JArr (map ser_PdnsRrsetWrite l))].

(** [fn unquote] and [fn truncate]. *)
Definition unquote (content : string) : string :=
  let trimmed := trim content in
  default trimmed (strip_prefix dquote trimmed ≫= strip_suffix dquote).

Definition truncate (raw : string) : string :=
  if (String.length raw <=? MAX_ERROR_BODY)%nat then raw
  else take_bytes (find_cut raw MAX_ERROR_BODY) raw +:+ truncated_mark.

Section powerdns.
Context `{X : Ext}.

(** ** Configuration *)

Definition config_new (api_url api_key : string) : dns_result PowerDnsConfig :=
  let! _ := validate_https_base api_url PROVIDER in
  let base := trim_end_matches "/" api_url in
  let base := default base (strip_suffix API_PATH base) in
  Ok (mkPowerDnsConfig api_key (base +:+ API_PATH) DEFAULT_SERVER_ID None DEFAULT_TTL HTTP_TIMEOUT).

Definition with_server_id (c : PowerDnsConfig) (id : string) : dns_result PowerDnsConfig :=
  if is_empty id then Err (Other (PROVIDER +:+ " server id is empty"))
  else Ok (mkPowerDnsConfig (api_key c) (api_base c) id (zone_override c) (ttl c) (http_timeout c)).

Definition with_zone (c : PowerDnsConfig) (zone : string) : dns_result PowerDnsConfig :=
  let! _ := validate_zone zone in
  Ok (mkPowerDnsConfig (api_key c) (api_base c) (server_id c)
        (Some (to_ascii_lowercase (trim_end_matches dot zone))) (ttl c) (http_timeout c)).

Definition with_ttl (c : PowerDnsConfig) (t : Z) : dns_result PowerDnsConfig :=
  let! t' := validate_ttl t in
  Ok (mkPowerDnsConfig (api_key c) (api_base c) (server_id c) (zone_override c) t' (http_timeout c)).

Definition with_timeout (c : PowerDnsConfig) (d : Duration) : PowerDnsConfig :=
  mkPowerDnsConfig (api_key c) (api_base c) (server_id c) (zone_override c) (ttl c) d.

Definition new (client : Duration -> Duration -> result unit ReqwestError) (c : PowerDnsConfig)
  : dns_result PowerDnsConfig :=
  let! _ := map_err Http (client (http_timeout c) CONNECT_TIMEOUT) in Ok c.

Definition from_env (client : Duration -> Duration -> result unit ReqwestError)
    (var : string -> option string) : dns_result PowerDnsConfig :=
  let! api_url := ok_or (var ENV_API_URL) (MissingCredentials ENV_API_URL) in
  let! api_key := ok_or (var ENV_API_KEY) (MissingCredentials ENV_API_KEY) in
  let! config := config_new api_url api_key in
  let! config :=
    match var ENV_SERVER_ID with
    | Some server_id => with_server_id config server_id
    | None => Ok config
    end in
  new client config.

(** ** Requests *)

Definition zone_path (c : PowerDnsConfig) (zone : string) : string :=
  "/servers/" +:+ encode_path (server_id c) +:+ "/zones/" +:+ encode_path zone +:+ ".".

Definition url_of (c : PowerDnsConfig) (path : string) : string := api_base c +:+ path.

Definition auth (c : PowerDnsConfig) : list (string * string) := [(API_KEY_HEADER, api_key c)].

Definition check_error (meth path : string) (response : Response) : DnsError :=
  let raw := text_or_default response in
  let detail :=
    match from_body de_PdnsError response with
    | Some err => truncate err
    | None => truncate raw
    end in
  let message := PROVIDER +:+ " " +:+ meth +:+ " " +:+ path +:+ " returned "
                 +:+ status_text (status response) +:+ ": " +:+ detail in
  if (status response =? 401) || (status response =? 403) then Auth message else Api message.

Definition fetch_zone (c : PowerDnsConfig) (candidate : string) : sys (dns_result (option string)) :=
  let path := zone_path c candidate in
  await? response := send (mkRequest GET (url_of c path) [("rrsets", "false")] (auth c) None) in
  if status response =? 404 then Ret (Ok None)
  else if negb (is_success (status response)) then Ret (Err (check_error "GET" path response))
  else
    try? name := response_json de_PdnsZone response in
    Ret (Ok (Some (to_ascii_lowercase (trim_end_matches dot name)))).

Definition resolve_zone (c : PowerDnsConfig) (fqdn : string) : sys (dns_result string) :=
  walked_zone (fetch_zone c) (zone_override c) fqdn.

Definition is_txt_of (name : string) (r : PdnsRrset) : bool :=
  eq_ignore_ascii_case (record_type r) "TXT" && eq_ignore_ascii_case (rr_name r) name.

Definition fetch_rrset (c : PowerDnsConfig) (zone name : string) : sys (dns_result (option PdnsRrset)) :=
  let path := zone_path c zone in
  await? response :=
    send (mkRequest GET (url_of c path) [("rrset_name", name); ("rrset_type", "TXT")] (auth c) None) in
  if negb (is_success (status response)) then Ret (Err (check_error "GET" path response))
  else
    try? body := response_json de_PdnsZoneRrsets response in
    Ret (Ok (List.find (is_txt_of name) body)).

Definition patch_rrset (c : PowerDnsConfig) (zone : string) (rrset : PdnsRrsetWrite)
  : sys (dns_result unit) :=
  let path := zone_path c zone in
  await? response :=
    send (mkRequest PATCH (url_of c path) [] (auth c) (Some (ser_PdnsPatch [rrset]))) in
  if negb (is_success (status response)) then Ret (Err (check_error "PATCH" path response))
  else Ret (Ok tt).

Definition owner_name (fqdn : string) : string :=
  to_ascii_lowercase (trim_end_matches dot fqdn) +:+ ".".

(** ** Operations *)

Definition present_locked (c : PowerDnsConfig) (zone name value : string) : sys (dns_result unit) :=
  await? existing := fetch_rrset c zone name in
  match
    match existing with
    | Some rrset =>
        if existsb (fun r => (unquote (content r) =? value)%string) (rr_records rrset) then None
        else Some (rr_ttl rrset, rr_records rrset)
    | None => Some (ttl c, [])
    end
  with
  | None => Ret (Ok tt)
  | Some (t, records) =>
      let records := records ++ [mkPdnsRecord (quoted value) false] in
      patch_rrset c zone (mkPdnsRrsetWrite name "TXT" (Some t) "REPLACE" (Some records))
  end.

Definition present (c : PowerDnsConfig) (fqdn value : string) : sys (dns_result unit) :=
  try? _ := validate_fqdn fqdn in
  try? _ := validate_acme_value value in
  await? zone := resolve_zone c fqdn in
  try? rname := relative_name (to_ascii_lowercase fqdn) zone in
  let name := owner_name fqdn in
  with_lock (zone +:+ "|" +:+ rname) (present_locked c zone name value).

Definition cleanup_locked (c : PowerDnsConfig) (zone name value : string) : sys (dns_result unit) :=
  await? existing := fetch_rrset c zone name in
  match existing with
  | None => Ret (Ok tt)
  | Some rrset =>
      let before := length (rr_records rrset) in
      let remaining := List.filter (fun r => negb (unquote (content r) =? value)%string) (rr_records rrset) in
      if (length remaining =? before)%nat then Ret (Ok tt)
      else
        let write :=
          match remaining with
          | [] => mkPdnsRrsetWrite name "TXT" None "DELETE" None
          | _ :: _ => mkPdnsRrsetWrite name "TXT" (Some (rr_ttl rrset)) "REPLACE" (Some remaining)
          end in
        patch_rrset c zone write
  end.

Definition cleanup (c : PowerDnsConfig) (fqdn value : string) : sys (dns_result unit) :=
  try? _ := validate_fqdn fqdn in
  await? zone := resolve_zone c fqdn in
  try? rname := relative_name (to_ascii_lowercase fqdn) zone in
  let name := owner_name fqdn in
  with_lock (zone +:+ "|" +:+ rname) (cleanup_locked c zone name value).
End powerdns.

(** ** The PowerDNS API

    [rrset w (u, (t, n))] holds the records of type [t] of the name [n] in the
    zone whose URL is [u]; types and names are in lower case.  A server may
    filter what it is asked for, or answer with other record sets of the zone
    too. *)

Definition txt_query (n : string) : list (string * string) :=
  [("rrset_name"%string, n); ("rrset_type"%string, "TXT"%string)].

Record pdns_api `{X : Ext} {W} (h : handler sysE W)
    (rrset : W -> string * (string * string) -> list PdnsRecord) : Prop := {
  pa_background : background h rrset;
  pa_get : forall req w resp n b,
    fst (h _ (HttpSend req) w) = Ok resp ->
    method req = GET -> query req = txt_query n -> to_ascii_lowercase n = n ->
    is_success (status resp) = true -> response_json de_PdnsZoneRrsets resp = Ok b ->
    (forall r, r ∈ b ->
       rr_records r = rrset w (url req, (to_ascii_lowercase (record_type r), to_ascii_lowercase (rr_name r)))) /\
    (rrset w (url req, ("txt"%string, n)) <> [] ->
     exists r, r ∈ b /\ to_ascii_lowercase (record_type r) = "txt"%string /\ to_ascii_lowercase (rr_name r) = n);
  pa_replace : forall req n t rs,
    method req = PATCH -> rs <> [] -> to_ascii_lowercase n = n ->
    body req = Some (ser_PdnsPatch [mkPdnsRrsetWrite n "TXT" (Some t) "REPLACE" (Some rs)]) ->
    replaces h rrset req (url req, ("txt"%string, n)) rs (fun resp => is_success (status resp) = true);
  pa_delete : forall req n,
    method req = PATCH -> to_ascii_lowercase n = n ->
    body req = Some (ser_PdnsPatch [mkPdnsRrsetWrite n "TXT" None "DELETE" None]) ->
    replaces h rrset req (url req, ("txt"%string, n)) [] (fun resp => is_success (status resp) = true)
}.

Lemma is_txt_of_spec n r :
  to_ascii_lowercase n = n ->
  is_txt_of n r = true <->
  to_ascii_lowercase (record_type r) = "txt"%string /\ to_ascii_lowercase (rr_name r) = n.
Proof.
  intros Hn. unfold is_txt_of, eq_ignore_ascii_case. rewrite andb_true_iff, !String.eqb_eq, Hn. done.
Qed.

Section theory.
Context `{X : Ext} `{S : !ExtSpec X} {W : Type} (h : handler sysE W) (c : PowerDnsConfig).
Context (rrset : W -> string * (string * string) -> list PdnsRecord) (Hapi : pdns_api h rrset).

Definition value_of (r : PdnsRecord) : string := unquote (content r).

Definition pdns_key (k : string * string) : string * (string * string) :=
  (url_of c (zone_path c (fst k)), ("txt"%string, absolute_name (snd k) (fst k) +:+ ".")).

(** The TXT records of a name, and their values, of disabled records too. *)
Definition txt_records : W -> string * string -> list PdnsRecord := view rrset id pdns_key.
Definition txt_values : W -> string * string -> list string := view rrset (map value_of) pdns_key.

Lemma pdns_key_inj k k' : pdns_key k = pdns_key k' -> k = k'.
Proof.
  destruct k as [z r], k' as [z' r']. unfold pdns_key, url_of, zone_path. cbn [fst snd].
  intros E. injection E as Ez En. apply append_inj_r in En. apply append_inj_l in Ez.
  apply (append_inj_l "/servers/") in Ez. apply append_inj_l in Ez. apply (append_inj_l "/zones/") in Ez.
  apply append_inj_r, encode_path_inj in Ez as ->. by apply absolute_name_inj in En as ->.
Qed.

Lemma pdns_background : background h txt_values.
Proof. apply background_view, Hapi. Qed.

Lemma pdns_records_background : background h txt_records.
Proof. apply background_view, Hapi. Qed.

Lemma same_records_values w w' : same txt_records w w' -> same txt_values w w'.
Proof. intros H k. specialize (H k). unfold txt_values, txt_records, view in *. cbn in H. by rewrite H. Qed.

(** A call concerned the records with the value [v] of [k] only, the others are
    as they were; on success there is such a record, which is enabled unless it
    was there before, or there is none. *)
Definition pdns_frame (k : string * string) (v : string) (w w' : W) : Prop :=
  forall k' x, (k', value_of x) <> (k, v) -> (x ∈ txt_records w' k' <-> x ∈ txt_records w k').
Definition pdns_added (k : string * string) (v : string) (w : W) (r : dns_result unit) (w' : W) : Prop :=
  pdns_frame k v w w' /\
  (r = Ok tt -> exists x, x ∈ txt_records w' k /\ value_of x = v /\ (disabled x = true -> x ∈ txt_records w k)).
Definition pdns_removed (k : string * string) (v : string) (w : W) (r : dns_result unit) (w' : W) : Prop :=
  pdns_frame k v w w' /\ (r = Ok tt -> forall x, x ∈ txt_records w' k -> value_of x <> v).

#[global] Instance pdns_frame_proper k v : Proper (same txt_records ==> same txt_records ==> iff) (pdns_frame k v).
Proof. intros w1 w2 H w3 w4 H'. unfold pdns_frame. setoid_rewrite H. by setoid_rewrite H'. Qed.

#[global] Instance pdns_added_proper k v :
  Proper (same txt_records ==> eq ==> same txt_records ==> iff) (pdns_added k v).
Proof.
  intros w1 w2 H r ? <- w3 w4 H'. unfold pdns_added. rewrite H, H'. setoid_rewrite H. by setoid_rewrite H'.
Qed.

#[global] Instance pdns_removed_proper k v :
  Proper (same txt_records ==> eq ==> same txt_records ==> iff) (pdns_removed k v).
Proof. intros w1 w2 H r ? <- w3 w4 H'. unfold pdns_removed. rewrite H, H'. by setoid_rewrite H'. Qed.

Lemma elem_values w k v : v ∈ txt_values w k <-> exists x, x ∈ txt_records w k /\ value_of x = v.
Proof. unfold txt_values, txt_records, view. rewrite list_elem_of_fmap. naive_solver. Qed.

Lemma pdns_frame_values k v w w' : pdns_frame k v w w' -> frame txt_values k v w w'.
Proof.
  intros H k' u Hu. rewrite !elem_values. split; intros (x & Hx & Ex); exists x; (split; [|done]);
    (apply (H k' x); [by rewrite Ex|done]).
Qed.

Lemma pdns_added_values k v w r w' : pdns_added k v w r w' -> added txt_values k v w r w'.
Proof.
  intros [H Ho]. split; [by apply pdns_frame_values|]. intros Hr. apply elem_values.
  destruct (Ho Hr) as (x & ? & ? & _). eauto.
Qed.

Lemma pdns_removed_values k v w r w' : pdns_removed k v w r w' -> removed txt_values k v w r w'.
Proof.
  intros [H Ho]. split; [by apply pdns_frame_values|]. intros Hr (x & Hx & Ex)%elem_values. by eapply (Ho Hr).
Qed.

Definition found_records (o : option PdnsRrset) : list PdnsRecord :=
  match o with Some r => rr_records r | None => [] end.

(** Names as [owner_name] writes them. *)
Local Abbreviation owner k := (absolute_name (snd k) (fst k) +:+ ".").

Lemma pdns_fetch k w :
  to_ascii_lowercase (owner k) = owner k ->
  wp h (fetch_rrset c (fst k) (owner k)) (fun r w' =>
    same txt_records w w' /\ forall o, r = Ok o -> found_records o = txt_records w k) w.
Proof.
  intros Hn. apply wp_try, (wp_read h txt_records pdns_records_background); [done|].
  intros w' Hw'. split; [done|]. intros resp w0 Hw0 Hresp.
  destruct (is_success (status resp)) eqn:Es; [|by apply wp_ret].
  apply wp_try_pure; [|done]. intros b Hb. apply wp_ret. split; [done|]. intros o [= <-].
  destruct (pa_get _ _ Hapi _ _ _ _ b Hresp eq_refl eq_refl Hn Es Hb) as [Hall Hex].
  rewrite <- (Hw0 k). unfold txt_records, view, pdns_key. cbn [fst snd url id] in *.
  destruct (List.find _ b) as [r|] eqn:Ef; cbn [found_records].
  - apply List.find_some in Ef as [Hin Hr]. apply is_txt_of_spec in Hr as [Ht Hnm]; [|done].
    rewrite (Hall r) by by apply list_elem_of_In. by rewrite Ht, Hnm.
  - destruct (rrset w0 _) as [|x l]; [done|]. destruct Hex as (r & Hin & Hr); [done|].
    apply list_elem_of_In in Hin. apply is_txt_of_spec in Hr; [|done]. by rewrite (List.find_none _ _ Ef r Hin) in Hr.
Qed.

(** The write of a new content of the set, or of its removal. *)
Definition pdns_write (t : Z) (z n : string) (l : list PdnsRecord) : sys (dns_result unit) :=
  patch_rrset c z
    match l with
    | [] => mkPdnsRrsetWrite n "TXT" None "DELETE" None
    | _ :: _ => mkPdnsRrsetWrite n "TXT" (Some t) "REPLACE" (Some l)
    end.

Lemma pdns_write_sets t k l w :
  to_ascii_lowercase (owner k) = owner k ->
  wp h (pdns_write t (fst k) (owner k) l) (fun r w' =>
    (same txt_records w w' \/ set_to txt_records k l w w') /\ (r = Ok tt -> set_to txt_records k l w w')) w.
Proof.
  intros Hn. apply wp_try.
  eapply (wp_replace h rrset id _ pdns_key_inj (pa_background _ _ Hapi) _ k l).
  - destruct l as [|x l]; [by apply (pa_delete _ _ Hapi)|by eapply (pa_replace _ _ Hapi)].
  - intros [resp|e] w' Hd Ho; [|done]. destruct (is_success (status resp)) eqn:Es; by apply wp_ret; eauto.
Qed.

Lemma set_records_frame k v l w w' :
  set_to txt_records k l w w' -> (forall x, value_of x <> v -> (x ∈ l <-> x ∈ txt_records w k)) -> pdns_frame k v w w'.
Proof.
  intros [H1 H2] Hl k' x Hne. destruct (decide (k' = k)) as [->|Hk]; [|by rewrite H2].
  rewrite H1. apply Hl. intros E. apply Hne. by rewrite E.
Qed.

Lemma pdns_unquote s : unquote s = Txt.unquote s.
Proof. reflexivity. Qed.

Lemma value_of_quoted v b : value_of (mkPdnsRecord (quoted v) b) = v.
Proof. unfold value_of. cbn [content]. rewrite pdns_unquote. apply unquote_quoted. Qed.

Lemma pdns_frame_same k v w w' : same txt_records w w' -> pdns_frame k v w w'.
Proof. intros H k' x _. by rewrite H. Qed.

Lemma pdns_present_locked k v w :
  to_ascii_lowercase (owner k) = owner k ->
  wp h (present_locked c (fst k) (owner k) v) (fun r w' => pdns_added k v w r w') w.
Proof.
  intros Hn. apply wp_try. eapply wp_mono; [by apply pdns_fetch|]. intros [o|e] w1 [H1 Ho];
    [|by split; [apply pdns_frame_same|]].
  specialize (Ho o eq_refl).
  assert (forall t, wp h (pdns_write t (fst k) (owner k) (found_records o ++ [mkPdnsRecord (quoted v) false]))
    (fun r w' => pdns_added k v w r w') w1) as Hw.
  { intros t. eapply wp_mono; [by apply pdns_write_sets|]. intros r w2 [Hd Hs]. rewrite H1. split.
    - destruct Hd as [Hd|Hd]; [by apply pdns_frame_same|]. eapply set_records_frame; [exact Hd|].
      intros x Hx. rewrite Ho, (H1 k), elem_of_app, list_elem_of_singleton.
      split; [intros [?| ->]; [done|by rewrite value_of_quoted in Hx]|by left].
    - intros Hr. destruct (Hs Hr) as [-> _]. exists (mkPdnsRecord (quoted v) false).
      rewrite value_of_quoted. split_and!; [set_solver|done|done]. }
  destruct o as [r|]; cbn [found_records] in *; [|apply (Hw (ttl c))].
  destruct (existsb _ (rr_records r)) eqn:Ex.
  - apply wp_ret. split; [by apply pdns_frame_same|]. intros _.
    apply existsb_elem in Ex as (x & Hx & Ex). apply String.eqb_eq in Ex. exists x. rewrite (H1 k), <- Ho. done.
  - specialize (Hw (rr_ttl r)). by destruct (rr_records r).
Qed.

Lemma pdns_cleanup_locked k v w :
  to_ascii_lowercase (owner k) = owner k ->
  wp h (cleanup_locked c (fst k) (owner k) v) (fun r w' => pdns_removed k v w r w') w.
Proof.
  intros Hn. apply wp_try. eapply wp_mono; [by apply pdns_fetch|]. intros [[r|]|e] w1 [H1 Ho];
    [| |by split; [apply pdns_frame_same|]]; specialize (Ho _ eq_refl); cbn [found_records] in Ho.
  2:{ apply wp_ret. split; [by apply pdns_frame_same|]. intros _ x. rewrite (H1 k), <- Ho. by intros ?%elem_of_nil. }
  cbn zeta. set (left := List.filter _ _).
  assert (forall x, x ∈ left <-> x ∈ txt_records w k /\ value_of x <> v) as Hf.
  { intros x. unfold left. rewrite filter_elem, negb_true_iff, String.eqb_neq, Ho. done. }
  destruct (Nat.eqb_spec (length left) (length (rr_records r))) as [El|_].
  - apply wp_ret. split; [by apply pdns_frame_same|]. intros _ x. rewrite (H1 k).
    unfold left in El. apply filter_all_length in El. fold left in El. rewrite <- Ho, <- El. by intros [_ ?]%Hf.
  - fold (pdns_write (rr_ttl r) (fst k) (owner k) left).
    eapply wp_mono; [by apply pdns_write_sets|]. intros x w2 [Hd Hs]. rewrite H1. split.
    + destruct Hd as [Hd|Hd]; [by apply pdns_frame_same|]. eapply set_records_frame; [exact Hd|].
      intros y Hy. rewrite Hf, (H1 k). naive_solver.
    + intros Hr y. destruct (Hs Hr) as [-> _]. by intros [_ ?]%Hf.
Qed.

Lemma pdns_fetch_zone s w : wp h (fetch_zone c s) (fun _ w' => same txt_records w w') w.
Proof.
  apply wp_try, (wp_read h txt_records pdns_records_background); [done|]. intros w1 H1. split; [done|].
  intros resp w0 _ _. destruct (status resp =? 404); [by apply wp_ret|].
  destruct (is_success (status resp)); [|by apply wp_ret]. by apply wp_try_pure.
Qed.

Lemma pdns_resolve fqdn w :
  wp h (resolve_zone c fqdn) (fun r w' =>
    same txt_records w w' /\ forall z, r = Ok z -> configured_zone (zone_override c) z) w.
Proof. exact (wp_walked_zone _ h _ pdns_records_background pdns_fetch_zone _ _ _). Qed.

Lemma pdns_owner f z rn :
  valid_name f -> relative_name (to_ascii_lowercase f) z = Ok rn ->
  owner_name f = absolute_name rn z +:+ "." /\
  to_ascii_lowercase (absolute_name rn z +:+ ".") = absolute_name rn z +:+ ".".
Proof.
  intros Hf Hr. rewrite (relative_canon f z rn) by done. split; [done|].
  rewrite lower_append. unfold canon. by rewrite lower_idem.
Qed.

Lemma pdns_present f v w :
  wp h (present c f v) (fun r w' =>
    concerns txt_records pdns_added (configured_zone (zone_override c)) f v w r w') w.
Proof.
  do 2 (apply wp_try_pure; [|by intros; apply failed_concerns]; intros ? ?).
  apply (wp_in_zone h txt_records pdns_records_background pdns_added id);
    [by eapply validate_fqdn_unit|by apply pdns_resolve|].
  intros z rn w0 _ Hr _. destruct (pdns_owner f z rn) as [-> Hl]; [by eapply validate_fqdn_unit|done|].
  by apply (pdns_present_locked (z, rn)).
Qed.

Lemma pdns_cleanup f v w :
  wp h (cleanup c f v) (fun r w' =>
    concerns txt_records pdns_removed (configured_zone (zone_override c)) f v w r w') w.
Proof.
  apply wp_try_pure; [|by intros; apply failed_concerns]. intros ? Hf%validate_fqdn_unit.
  apply (wp_in_zone h txt_records pdns_records_background pdns_removed id);
    [done|by apply pdns_resolve|].
  intros z rn w0 _ Hr _. destruct (pdns_owner f z rn) as [-> Hl]; [done..|].
  by apply (pdns_cleanup_locked (z, rn)).
Qed.
End theory.

(** The provider in an environment; it keeps the default timing. *)
Definition pdns_provider `{X : Ext} {W} (h : handler sysE W) (c : PowerDnsConfig) : DnsProvider W :=
  mkProvider (fun f v w => run h (present c f v) w) (fun f v w => run h (cleanup c f v) w) default_timing.

(** ** A server *)

Abbreviation pdns_store := (string * (string * string) -> list PdnsRecord).

Definition ser_PdnsRrset (r : PdnsRrset) : Json :=
  JObj [("name", JStr (rr_name r)); ("type", JStr (record_type r)); ("ttl", JNum (rr_ttl r));
        ("records", JArr (map ser_PdnsRecord (rr_records r)))].

Definition patch_parts (j : Json) : option (string * string * option Json) :=
  match j with
  | JObj [(_, JArr [JObj fs])] =>
      n ← assoc "name" fs ≫= de_string; ct ← assoc "changetype" fs ≫= de_string;
      Some (n, ct, assoc "records" fs)
  | _ => None
  end.

Definition pdns_http (req : Request) (s : pdns_store) : result Response ReqwestError * pdns_store :=
  match method req with
  | GET =>
      match query req with
      | [(_, n); (_, _)] =>
          let found := mkPdnsRrset n "A" 300 (stored s (url req, ("a"%string, to_ascii_lowercase n)))
                       :: match stored s (url req, ("txt"%string, to_ascii_lowercase n)) with
                          | [] => []
                          | l => [mkPdnsRrset n "TXT" 300 l]
                          end in
          (Ok (reply 200 (JObj [("rrsets"%string, JArr (map ser_PdnsRrset found))])), s)
      | _ => (Ok (reply_empty 404), s)
      end
  | PATCH =>
      match body req ≫= patch_parts with
      | Some (n, ct, rs) =>
          if (ct =? "DELETE")%string then (Ok (reply_empty 204), put (url req, ("txt"%string, n)) [] s)
          else
            match rs ≫= de_vec de_PdnsRecord with
            | Some l => (Ok (reply_empty 204), put (url req, ("txt"%string, n)) l s)
            | None => (Ok (reply_empty 422), s)
            end
      | None => (Ok (reply_empty 400), s)
      end
  | _ => (Ok (reply_empty 405), s)
  end.

Definition pdns_server : handler sysE pdns_store := served_by pdns_http.

Lemma de_ser_records l : de_vec de_PdnsRecord (JArr (map ser_PdnsRecord l)) = Some l.
Proof. cbn. induction l as [|[cn d] l IH]; cbn; [done|]. by rewrite IH. Qed.

Lemma de_ser_rrset n ty l : de_PdnsRrset (ser_PdnsRrset (mkPdnsRrset n ty 300 l)) = Some (mkPdnsRrset n ty 300 l).
Proof.
  unfold de_PdnsRrset, ser_PdnsRrset. cbn [rr_name record_type rr_ttl rr_records].
  pose proof (de_ser_records l) as H. revert H. generalize (JArr (map ser_PdnsRecord l)). intros j H.
  cbn -[de_vec]. by rewrite H.
Qed.

Lemma replace_parts n t rs :
  patch_parts (ser_PdnsPatch [mkPdnsRrsetWrite n "TXT" (Some t) "REPLACE" (Some rs)]) =
  Some (n, "REPLACE"%string, Some (JArr (map ser_PdnsRecord rs))).
Proof. reflexivity. Qed.

Lemma de_ser_records' l : Some (JArr (map ser_PdnsRecord l)) ≫= de_vec de_PdnsRecord = Some l.
Proof. apply de_ser_records. Qed.

Lemma pdns_server_api : pdns_api (X := ref_ext) pdns_server stored.
Proof.
  split.
  - split; [by intros Y e w; destruct e|]. intros [m u q hd b] w; cbn. intros ->. unfold pdns_http; cbn.
    by destruct q as [|[? ?] [|[? ?] [|? ?]]].
  - intros [m u q hd b] w resp n b' Hr; cbn [method url query]. intros -> ->. revert Hr.
    unfold pdns_server, served_by, pdns_http, txt_query. cbn [method query url].
    intros Hr Hn _. rewrite Hn in Hr. apply (inj Ok) in Hr. subst resp. unfold response_json. cbn [resp_body reply].
    unfold de_PdnsZoneRrsets. destruct (stored w (u, ("txt"%string, n))) as [|x l] eqn:E;
      cbn -[de_PdnsRrset ser_PdnsRrset]; rewrite ?de_ser_rrset; cbn; intros [= <-].
    + split; [|done]. intros r ->%list_elem_of_singleton. cbn. by rewrite Hn.
    + split.
      * intros r [-> | ->%list_elem_of_singleton]%elem_of_cons; cbn; by rewrite Hn, ?E.
      * intros _. eexists. split; [right; left|]. by cbn; rewrite Hn.
  - intros [m u q hd b] n t rs Hm _ _ Hb w; cbn [method url body] in *. subst.
    unfold pdns_server, served_by, pdns_http; cbn [method body url mbind option_bind].
    rewrite replace_parts. cbv beta iota. rewrite de_ser_records'. cbn.
    split; [right|intros resp _ _]; apply set_to_put.
  - intros [m u q hd b] n Hm _ Hb w; cbn [method url body] in *. subst. cbn.
    split; [right|intros resp _ _]; apply set_to_put.
Qed.

(** With a configured zone, the contract of [DnsProvider]. *)
Lemma pdns_laws `{X : Ext} `{!ExtSpec X} {W} (h : handler sysE W) (c : PowerDnsConfig) rrset z :
  pdns_api h rrset -> zone_override c = Some z ->
  ProviderLaws (pdns_provider h c) canon (serves_in (txt_values c rrset) z) (fun _ => True).
Proof.
  intros Hapi Hz.
  assert (forall f v w, _) as Hp by exact (pdns_present h c rrset Hapi).
  assert (forall f v w, _) as Hc by exact (pdns_cleanup h c rrset Hapi).
  unfold wp in *. rewrite Hz in Hp, Hc.
  apply zone_laws; intros f v w; [specialize (Hp f v w)|specialize (Hc f v w)];
    [cbn; destruct (run h (present c f v) w)|cbn; destruct (run h (cleanup c f v) w)];
    (eapply concerns_mono; [apply same_records_values| |eassumption]); intros k;
    [apply pdns_added_values|apply pdns_removed_values].
Qed.

(** ** Properties *)

(** C18. Against a server that behaves as the PowerDNS API documents,
    whether or not it filters what it is asked for, whatever requests fail, are
    retried or are carried out without an answer: [present] and [cleanup] leave
    every record as it was, its disabled flag included, but those of the value
    given, of the name given, in its zone; [present] returns [Ok] only when a
    record has the value, which is enabled unless it was there before, and
    [cleanup] only when none has; and with a configured zone the provider keeps
    the contract of [DnsProvider] for the stored values. *)
Theorem powerdns_contract `{X : Ext} `{!ExtSpec X} {W} (h : handler sysE W) (c : PowerDnsConfig) rrset :
  pdns_api h rrset ->
  (forall f v w, let '(r, w') := run h (present c f v) w in
     concerns (txt_records c rrset) (pdns_added c rrset) (configured_zone (zone_override c)) f v w r w') /\
  (forall f v w, let '(r, w') := run h (cleanup c f v) w in
     concerns (txt_records c rrset) (pdns_removed c rrset) (configured_zone (zone_override c)) f v w r w') /\
  (forall z, zone_override c = Some z ->
     ProviderLaws (pdns_provider h c) canon (serves_in (txt_values c rrset) z) (fun _ => True)).
Proof.
  intros Hapi. split_and!.
  - exact (pdns_present h c rrset Hapi).
  - exact (pdns_cleanup h c rrset Hapi).
  - intros z. by apply pdns_laws.
Qed.

Definition pdns_demo : PowerDnsConfig :=
  mkPowerDnsConfig "secret" "https://pdns.test/api/v1" "localhost" (Some "example.com"%string) 60 HTTP_TIMEOUT.

Definition pdns_demo_key : string * (string * string) :=
  ("https://pdns.test/api/v1/servers/localhost/zones/example.com.", ("txt", "_acme-challenge.example.com."))%string.

Lemma powerdns_contract_witness :
  (let '(r, s) := run pdns_server (present (X := ref_ext) pdns_demo "_acme-challenge.Example.com" "tok")
                      (only pdns_demo_key [mkPdnsRecord (quoted "other") false]) in
   r = Ok tt /\ s pdns_demo_key = [mkPdnsRecord (quoted "other") false; mkPdnsRecord (quoted "tok") false]) /\
  ProviderLaws (pdns_provider (X := ref_ext) pdns_server pdns_demo) canon
    (serves_in (txt_values (X := ref_ext) pdns_demo stored) "example.com") (fun _ => True).
Proof.
  split; [vm_compute; split; reflexivity|].
  apply (powerdns_contract pdns_server pdns_demo stored pdns_server_api). reflexivity.
Defined.

(** A record that is disabled, and so not served, counts as present:
    when the record set read holds the value in a disabled record, [present]
    returns [Ok] and writes nothing. *)
Theorem powerdns_disabled_counts `{X : Ext} {W} (h : handler sysE W) c z n v r w w' :
  run h (fetch_rrset c z n) w = (Ok (Some r), w') ->
  mkPdnsRecord (quoted v) true ∈ rr_records r ->
  run h (present_locked c z n v) w = (Ok tt, w').
Proof.
  intros Hf Hin. unfold present_locked, ptry. rewrite run_bind, Hf.
  assert (existsb (fun r => (unquote (content r) =? v)%string) (rr_records r) = true) as ->; [|done].
  apply existsb_elem. eexists. split; [exact Hin|]. cbn [content].
  rewrite pdns_unquote, unquote_quoted. apply String.eqb_refl.
Qed.

Lemma powerdns_disabled_counts_witness :
  let w : pdns_store := only pdns_demo_key [mkPdnsRecord (quoted "tok") true] in
  run pdns_server (present_locked (X := ref_ext) pdns_demo "example.com" "_acme-challenge.example.com." "tok") w
    = (Ok tt, w).
Proof.
  eapply (powerdns_disabled_counts (X := ref_ext) pdns_server pdns_demo "example.com"
            "_acme-challenge.example.com." "tok"
            (mkPdnsRrset "_acme-challenge.example.com." "TXT" 300 [mkPdnsRecord (quoted "tok") true])).
  - vm_compute. reflexivity.
  - left.
Defined.
