(* ===== verification/Records.v ===== *)
(** * Providers that create and delete single records

    The server keeps, for a zone [u], a map from identifiers to TXT records,
    each a name and a content; [decode] gives the value a content stands for.
    [rec_present] and [rec_cleanup] are the algorithms of the providers whose
    API creates one record, and deletes one by its identifier. *)

From S2P Require Import Prelude Rstr Errors Effects Sys Common Zone Provider Txt.

Section records.
Context {U I W : Type} `{EqDecision U} `{Countable I}.
Context (recs : W -> U -> gmap I (string * string)) (decode : string -> string).

(** The values of a name. *)
Definition record_values (w : W) (k : U * string) : list string :=
  omap (fun r => if decide (fst (snd r) = snd k) then Some (decode (snd (snd r))) else None)
       (map_to_list (recs w (fst k))).

Lemma elem_of_record_values w u n v :
  v ∈ record_values w (u, n) <-> exists id c, recs w u !! id = Some (n, c) /\ decode c = v.
Proof.
  unfold record_values. rewrite list_elem_of_omap. cbn [fst snd]. split.
  - intros ((id & m & c) & Hin & Hv). apply elem_of_map_to_list in Hin. cbn in Hv.
    case_decide; [|done]. injection Hv as <-. subst m. eauto.
  - intros (id & c & Hid & <-). exists (id, (n, c)). split; [by apply elem_of_map_to_list|].
    cbn. by rewrite decide_True.
Qed.

Lemma same_record_values w w' : same recs w w' -> same record_values w w'.
Proof. intros H' k. unfold record_values. by rewrite H'. Qed.

(** One more record, or several when the request was sent again. *)
Definition creates (u : U) (n v : string) (w w' : W) : Prop :=
  (forall id x, recs w u !! id = Some x -> recs w' u !! id = Some x) /\
  (forall id x, recs w' u !! id = Some x ->
     recs w u !! id = Some x \/ exists c, x = (n, c) /\ decode c = v) /\
  (exists id c, recs w' u !! id = Some (n, c) /\ decode c = v) /\
  (forall u', u' <> u -> recs w' u' = recs w u').

Definition deletes (u : U) (id : I) (w w' : W) : Prop :=
  recs w' u = delete id (recs w u) /\ forall u', u' <> u -> recs w' u' = recs w u'.

#[global] Instance creates_proper u n v : Proper (same recs ==> same recs ==> iff) (creates u n v).
Proof. intros w1 w2 H1 w3 w4 H2. unfold creates. setoid_rewrite H1. by setoid_rewrite H2. Qed.

#[global] Instance deletes_proper u id : Proper (same recs ==> same recs ==> iff) (deletes u id).
Proof. intros w1 w2 H1 w3 w4 H2. unfold deletes. setoid_rewrite H1. by setoid_rewrite H2. Qed.

#[global] Instance creates_transitive u n v : Transitive (creates u n v).
Proof.
  intros w1 w2 w3 (A1 & A2 & _ & A4) (B1 & B2 & B3 & B4). split_and!; [eauto| |done|].
  - intros id x Hx. destruct (B2 id x Hx); eauto.
  - intros u' Hu. by rewrite B4, A4.
Qed.

#[global] Instance deletes_transitive u id : Transitive (deletes u id).
Proof.
  intros w1 w2 w3 [A1 A2] [B1 B2]. split; [by rewrite B1, A1, delete_delete_eq|].
  intros u' Hu. by rewrite B2, A2.
Qed.

Lemma creates_frame u n v w w' : creates u n v w w' -> frame record_values (u, n) v w w'.
Proof.
  intros (A1 & A2 & _ & A4) [u' m] x Hne. rewrite !elem_of_record_values.
  destruct (decide (u' = u)) as [->|Hu]; [|by rewrite A4]. split; intros (id & c & Hid & Hc).
  - destruct (A2 _ _ Hid) as [Hid'|(c' & [= -> ->] & Hv)]; [eauto|]. exfalso. apply Hne. congruence.
  - eauto.
Qed.

Lemma deletes_frame u id n v w w' :
  deletes u id w w' ->
  (forall x, recs w u !! id = Some x -> exists c, x = (n, c) /\ decode c = v) ->
  frame record_values (u, n) v w w'.
Proof.
  intros [A1 A2] Hid [u' m] x Hne. rewrite !elem_of_record_values.
  destruct (decide (u' = u)) as [->|Hu]; [|by rewrite A2]. rewrite A1.
  split; intros (id' & c & Hid' & Hc).
  - apply lookup_delete_Some in Hid' as [_ ?]. eauto.
  - exists id', c. split; [|done]. apply lookup_delete_Some. split; [|done]. intros <-.
    apply Hid in Hid' as (c' & [= -> ->] & Hv). apply Hne. congruence.
Qed.

Lemma frame_trans (k : U * string) v w1 w2 w3 :
  frame record_values k v w1 w2 -> frame record_values k v w2 w3 -> frame record_values k v w1 w3.
Proof. intros A B k' x Hne. by rewrite (B _ _ Hne), (A _ _ Hne). Qed.

(** A request that creates a record with the content [c]. *)
Definition creates_record (u : U) (n c : string) (w w' : W) : Prop :=
  (forall id x, recs w u !! id = Some x -> recs w' u !! id = Some x) /\
  (forall id x, recs w' u !! id = Some x -> recs w u !! id = Some x \/ x = (n, c)) /\
  (exists id, recs w' u !! id = Some (n, c)) /\
  (forall u', u' <> u -> recs w' u' = recs w u').

Lemma creates_record_value u n c w w' : creates_record u n c w w' -> creates u n (decode c) w w'.
Proof.
  intros (A1 & A2 & (id & A3) & A4). split_and!; [done| |by exists id, c|done].
  intros i x Hx. destruct (A2 i x Hx) as [?| ->]; eauto.
Qed.

(** ** Requests *)

Section requests.
Context `{X : Ext} `{S : !ExtSpec X} (h : handler sysE W) (Hbg : background h recs).

Definition posts (req : Request) (u : U) (n c : string) (done_ : Response -> Prop) : Prop :=
  forall w, let '(r, w') := h _ (HttpSend req) w in
    (same recs w w' \/ creates_record u n c w w') /\
    forall resp, r = Ok resp -> done_ resp -> creates_record u n c w w'.

Definition drops_when (req : Request) (u : U) (id : I) (done_ : Response -> Prop) : Prop :=
  forall w, let '(r, w') := h _ (HttpSend req) w in
    (same recs w w' \/ deletes u id w w') /\
    forall resp, r = Ok resp -> done_ resp -> deletes u id w w'.

Definition drops (req : Request) (u : U) (id : I) : Prop :=
  drops_when req u id (fun resp => is_success (status resp) = true \/ status resp = 404).

Lemma wp_post req u n c done_ (Q : dns_result Response -> W -> Prop) w :
  posts req u n c done_ ->
  (forall r w', (same recs w w' \/ creates u n (decode c) w w') ->
     (forall resp, r = Ok resp -> done_ resp -> creates u n (decode c) w w') -> Q r w') ->
  wp h (send req) Q w.
Proof.
  intros Hreq HQ. apply (wp_write h recs Hbg req (creates u n (decode c)) done_); [apply _..| |done].
  intros v. specialize (Hreq v). destruct (h _ (HttpSend req) v) as [r v']. destruct Hreq as [Hd Ho].
  split; [destruct Hd as [Hd|Hd]; [by left|right; by apply creates_record_value]|].
  intros resp Hr Hs. by apply creates_record_value, (Ho resp).
Qed.

Lemma wp_drop_when req u id done_ (Q : dns_result Response -> W -> Prop) w :
  drops_when req u id done_ ->
  (forall r w', (same recs w w' \/ deletes u id w w') ->
     (forall resp, r = Ok resp -> done_ resp -> deletes u id w w') -> Q r w') ->
  wp h (send req) Q w.
Proof. intros Hreq HQ. by apply (wp_write h recs Hbg req (deletes u id) done_); [apply _..| |]. Qed.

Lemma wp_drop req u id (Q : dns_result Response -> W -> Prop) w :
  drops req u id ->
  (forall r w', (same recs w w' \/ deletes u id w w') ->
     (forall resp, r = Ok resp -> is_success (status resp) = true \/ status resp = 404 ->
        deletes u id w w') -> Q r w') ->
  wp h (send req) Q w.
Proof. apply wp_drop_when. Qed.
End requests.

(** ** The algorithms *)

Context (h : handler sysE W) {R : Type} (rid : R -> I) (rval : R -> string).
Context (list_records : sys (dns_result (list R))) (create : string -> sys (dns_result unit)).
Context (del : R -> sys (dns_result unit)).

Definition rec_present (v : string) : sys (dns_result unit) :=
  await? existing := list_records in
  if existsb (fun r => (rval r =? v)%string) existing then Ret (Ok tt) else create v.

Fixpoint rec_deletes (v : string) (l : list R) : sys (dns_result unit) :=
  match l with
  | [] => Ret (Ok tt)
  | r :: l' =>
      if (rval r =? v)%string then await? _ := del r in rec_deletes v l' else rec_deletes v l'
  end.

Definition rec_cleanup (v : string) : sys (dns_result unit) :=
  await? existing := list_records in rec_deletes v existing.

Context (u : U) (n : string) (P : W -> Prop).
Context (Hlist : forall w, P w -> wp h list_records (fun r w' => same recs w w' /\
  forall l, r = Ok l -> forall id v,
    (exists r, r ∈ l /\ rid r = id /\ rval r = v) <->
    (exists c, recs w u !! id = Some (n, c) /\ decode c = v)) w).
Context (Hdel : forall r w, wp h (del r) (fun a w' =>
  (same recs w w' \/ deletes u (rid r) w w') /\ (a = Ok tt -> deletes u (rid r) w w')) w).

(** [create] may undo what it did. *)
Lemma wp_rec_present_added v w :
  (forall w, wp h (create v) (fun r w' => added record_values (u, n) v w r w') w) ->
  P w -> wp h (rec_present v) (fun r w' => added record_values (u, n) v w r w') w.
Proof.
  intros Hcreate HP. apply wp_try. eapply wp_mono; [by apply Hlist|].
  intros [l|e] w1 [Hw1%same_record_values Hl]; [|by apply same_failed_added].
  specialize (Hl l eq_refl). destruct (existsb _ _) eqn:Ex.
  - apply wp_ret. split; [by apply frame_same|]. intros _. rewrite (Hw1 (u, n)).
    apply elem_of_record_values. apply existsb_elem in Ex as (r & Hr & Ex). apply String.eqb_eq in Ex.
    destruct (proj1 (Hl (rid r) v)) as (c & ? & ?); eauto.
  - eapply wp_mono; [apply Hcreate|]. intros a w2 Ha. by rewrite Hw1.
Qed.

Lemma creates_added v w (r : dns_result unit) w' :
  (same recs w w' \/ creates u n v w w') -> (r = Ok tt -> creates u n v w w') ->
  added record_values (u, n) v w r w'.
Proof.
  intros Hd Ho. split.
  - destruct Hd as [Hd|Hd]; [by apply frame_same, same_record_values|by apply creates_frame].
  - intros Ha. destruct (Ho Ha) as (_ & _ & (id & c & Hid & Hc) & _). apply elem_of_record_values. eauto.
Qed.

Lemma wp_rec_present v w :
  (forall w, wp h (create v) (fun r w' =>
     (same recs w w' \/ creates u n v w w') /\ (r = Ok tt -> creates u n v w w')) w) ->
  P w -> wp h (rec_present v) (fun r w' => added record_values (u, n) v w r w') w.
Proof.
  intros Hcreate. apply wp_rec_present_added. intros w1. eapply wp_mono; [apply Hcreate|].
  intros r w2 [Hd Ho]. by apply creates_added.
Qed.

Lemma wp_rec_deletes v l w :
  (forall r, r ∈ l -> rval r = v ->
     forall x, recs w u !! rid r = Some x -> exists c, x = (n, c) /\ decode c = v) ->
  wp h (rec_deletes v l) (fun a w' =>
    frame record_values (u, n) v w w' /\ recs w' u ⊆ recs w u /\
    (a = Ok tt -> forall r, r ∈ l -> rval r = v -> recs w' u !! rid r = None)) w.
Proof.
  revert w. induction l as [|r l IH]; intros w Hl; cbn [rec_deletes].
  { apply wp_ret. split_and!; [by apply frame_same|done|]. intros _ r Hr. by apply elem_of_nil in Hr. }
  destruct (String.eqb_spec (rval r) v) as [Hr|Hr].
  - apply wp_try. eapply wp_mono; [apply Hdel|]. intros [[]|e] w1 [Hd Ho].
    + specialize (Ho eq_refl). pose proof (deletes_frame u (rid r) n v w w1 Ho (Hl r ltac:(left) Hr)) as F1.
      destruct Ho as [E1 E2]. eapply wp_mono; [apply IH|].
      * intros r' Hr' Hv x. rewrite E1, lookup_delete_Some. intros [_ Hx]. apply (Hl r'); [by right|done|done].
      * intros a w2 (F2 & Hsub & Hg). rewrite E1 in Hsub. split_and!; [by eapply frame_trans| |].
        -- etrans; [exact Hsub|apply delete_subseteq].
        -- intros Ha r' [->|Hr']%elem_of_cons Hv; [|by apply Hg].
           eapply lookup_weaken_None; [|exact Hsub]. apply lookup_delete_eq.
    + split_and!; [| |done].
      * destruct Hd as [Hd|Hd]; [by apply frame_same, same_record_values|].
        eapply deletes_frame; [exact Hd|]. apply (Hl r); [left|done].
      * destruct Hd as [Hd|[-> _]]; [by rewrite Hd|apply delete_subseteq].
  - eapply wp_mono; [apply IH|].
    + intros r' Hr'. apply Hl. by right.
    + intros a w1 (F & Hsub & Hg). split_and!; [done|done|].
      intros Ha r' [->|Hr']%elem_of_cons Hv; [done|by apply Hg].
Qed.

Lemma wp_rec_cleanup v w :
  P w -> wp h (rec_cleanup v) (fun r w' => removed record_values (u, n) v w r w') w.
Proof.
  intros HP. apply wp_try. eapply wp_mono; [by apply Hlist|].
  intros [l|e] w1 [Hw1 Hl]; [|by apply same_failed_removed, same_record_values].
  specialize (Hl l eq_refl). eapply wp_mono; [apply wp_rec_deletes|].
  - intros r Hr Hv x. rewrite (Hw1 u). intros Hx. destruct (proj1 (Hl (rid r) v)) as (c & Hc & Hd); [eauto|].
    rewrite Hc in Hx. injection Hx as <-. eauto.
  - intros a w2 (F & Hsub & Hg). rewrite <- (same_record_values _ _ Hw1) in F. split; [done|].
    intros Ha. rewrite elem_of_record_values. intros (id & c & Hid & Hc).
    pose proof (lookup_weaken _ _ _ _ Hid Hsub) as Hid1. rewrite (Hw1 u) in Hid1.
    destruct (proj2 (Hl id v)) as (r & Hr & <- & Hv); [eauto|].
    by rewrite (Hg Ha r Hr Hv) in Hid.
Qed.
End records.

(** ** A server with one zone *)

Section one_zone.
Context {U I : Type} `{EqDecision U} `{Countable I} (zone : U).

Definition one_zone (m : gmap I (string * string)) (u : U) : gmap I (string * string) :=
  if decide (u = zone) then m else ∅.

Lemma one_zone_creates n c id m :
  m !! id = None -> creates_record one_zone zone n c m (<[id := (n, c)]> m).
Proof.
  intros Hid. unfold creates_record, one_zone. rewrite !decide_True by done. split_and!.
  - intros i x Hx. rewrite lookup_insert_ne; [done|]. intros <-. congruence.
  - intros i x. rewrite lookup_insert_Some. naive_solver.
  - exists id. by rewrite lookup_insert_eq.
  - intros u Hu. by rewrite !decide_False.
Qed.

Lemma one_zone_deletes id m : deletes one_zone zone id m (delete id m).
Proof.
  unfold deletes, one_zone. rewrite !decide_True by done. split; [done|].
  intros u Hu. by rewrite !decide_False.
Qed.

Lemma one_zone_deletes_other u id m : u <> zone -> deletes one_zone u id m m.
Proof. intros Hu. unfold deletes, one_zone. rewrite decide_False by done. by rewrite delete_empty. Qed.

(** A server that deletes what is at a URL. *)
Lemma one_zone_drops (item : I -> string) (target : string) u id m :
  (forall i, item i = target <-> u = zone /\ i = id) ->
  deletes one_zone u id m (filter (fun r => item (fst r) <> target) m).
Proof.
  intros Hitem. destruct (decide (u = zone)) as [->|Hu].
  - replace (filter _ m) with (delete id m); [apply one_zone_deletes|].
    apply map_eq. intros i. apply option_eq. intros x.
    rewrite lookup_delete_Some, map_lookup_filter_Some. cbn [fst]. rewrite Hitem. naive_solver.
  - replace (filter _ m) with m; [by apply one_zone_deletes_other|].
    symmetry. apply map_filter_id. intros i x _. cbn [fst]. rewrite Hitem. naive_solver.
Qed.

(** The records of a name, in the order of the map. *)
Definition records_of (m : gmap I (string * string)) (n : string) : list (I * string) :=
  omap (fun r => if decide (fst (snd r) = n) then Some (fst r, snd (snd r)) else None) (map_to_list m).

Lemma elem_of_records_of m n id d : (id, d) ∈ records_of m n <-> m !! id = Some (n, d).
Proof.
  unfold records_of. rewrite list_elem_of_omap. split.
  - intros ((i & n' & d') & Hin & Hr). apply elem_of_map_to_list in Hin. cbn in Hr.
    case_decide; [|done]. naive_solver.
  - intros Hm. exists (id, (n, d)). split; [by apply elem_of_map_to_list|]. cbn. by rewrite decide_True.
Qed.
End one_zone.
