(* ===== verification/DigitalOcean.v ===== *)
(** * The DigitalOcean provider (src/providers/digitalocean.rs)

    The records of a name are listed page by page; one is created, or deleted
    by its identifier.  [do_api] states what the DigitalOcean API documents of
    the requests this file sends. *)

From S2P Require Import Prelude Rstr Errors Effects Sys Common Zone Provider Txt Records.

Definition DO_API_BASE : string := "https://api.digitalocean.com/v2".
Definition ENV_TOKEN : string := "DIGITALOCEAN_TOKEN".
Definition DEFAULT_TTL : Z := 30.
Definition PER_PAGE : Z := 200.
Definition MAX_PAGES : Z := 50.
Definition HTTP_TIMEOUT : Duration := from_secs 30.
Definition CONNECT_TIMEOUT : Duration := from_secs 5.
Definition PROVIDER : string := "digitalocean".

Record DigitalOceanConfig : Type := mkDigitalOceanConfig {
  token : string;
  api_base : string;
  zone_override : option string;
  ttl : Z;
  http_timeout : Duration
}.

(** ** Bodies *)

Record DoRecord : Type := mkDoRecord {
  rec_id : Z;
  data : string
}.

Definition de_DoRecord (j : Json) : option DoRecord :=
  match struct_fields ["id"; "data"] j with
  | Some [i; d] => i' ← required de_u64 i; d' ← defaulted EmptyString de_string d; Some (mkDoRecord i' d')
  | _ => None
  end.

(** [DoPages] and [DoLinks], each with one optional field. *)
Definition de_DoPages (j : Json) : option (option string) :=
  match struct_fields ["next"] j with
  | Some [n] => defaulted None (de_option de_string) n
  | _ => None
  end.

Definition de_DoLinks (j : Json) : option (option (option string)) :=
  match struct_fields ["pages"] j with
  | Some [p] => defaulted None (de_option de_DoPages) p
  | _ => None
  end.

Record DoRecordList : Type := mkDoRecordList {
  domain_records : list DoRecord;
  links : option (option (option string))
}.

Definition de_DoRecordList (j : Json) : option DoRecordList :=
  match struct_fields ["domain_records"; "links"] j with
  | Some [rs; l] =>
      rs' ← defaulted [] (de_vec de_DoRecord) rs; l' ← defaulted None (de_option de_DoLinks) l;
      Some (mkDoRecordList rs' l')
  | _ => None
  end.

(** [body.links.and_then(|l| l.pages).and_then(|p| p.next).is_some()]. *)
Definition has_next (b : DoRecordList) : bool :=
  match links b with Some (Some (Some _)) => true | _ => false end.

Definition ser_CreateRecordBody (ty name data : string) (t : Z) : Json :=
  JObj [("type", JStr ty); ("name", JStr name); ("data", JStr data); ("ttl", JNum t)].

(** The data, without white space and then without quotes at its ends. *)
Definition record_value (r : DoRecord) : string := trim_matches quote (trim (data r)).

Section digitalocean.
Context `{X : Ext}.

(** ** Configuration *)

Definition config_new (t : string) : DigitalOceanConfig :=
  mkDigitalOceanConfig t DO_API_BASE None DEFAULT_TTL HTTP_TIMEOUT.

Definition with_api_base (c : DigitalOceanConfig) (base : string) : dns_result DigitalOceanConfig :=
  let! _ := validate_https_base base PROVIDER in
  Ok (mkDigitalOceanConfig (token c) (trim_end_matches "/" base) (zone_override c) (ttl c) (http_timeout c)).

Definition with_zone (c : DigitalOceanConfig) (zone : string) : dns_result DigitalOceanConfig :=
  let! _ := validate_zone zone in
  Ok (mkDigitalOceanConfig (token c) (api_base c)
        (Some (to_ascii_lowercase (trim_end_matches dot zone))) (ttl c) (http_timeout c)).

Definition with_ttl (c : DigitalOceanConfig) (t : Z) : dns_result DigitalOceanConfig :=
  let! t' := validate_ttl_range t 30 (2 ^ 31 - 1) in
  Ok (mkDigitalOceanConfig (token c) (api_base c) (zone_override c) t' (http_timeout c)).

Definition with_timeout (c : DigitalOceanConfig) (d : Duration) : DigitalOceanConfig :=
  mkDigitalOceanConfig (token c) (api_base c) (zone_override c) (ttl c) d.

Definition new (client : Duration -> Duration -> result unit ReqwestError) (c : DigitalOceanConfig)
  : dns_result DigitalOceanConfig :=
  let! _ := map_err Http (client (http_timeout c) CONNECT_TIMEOUT) in Ok c.

Definition from_env (client : Duration -> Duration -> result unit ReqwestError)
    (var : string -> option string) : dns_result DigitalOceanConfig :=
  let! t := ok_or (var ENV_TOKEN) (MissingCredentials ENV_TOKEN) in
  new client (config_new t).

(** ** Requests *)

Definition resolve_zone (c : DigitalOceanConfig) (fqdn : string) : sys (dns_result string) :=
  match zone_override c with
  | Some zone => Ret (Ok zone)
  | None =>
      await? zone := find_zone fqdn in
      try? _ := validate_zone zone in
      Ret (Ok zone)
  end.

Definition auth (c : DigitalOceanConfig) : list (string * string) :=
  [("authorization", "Bearer " +:+ token c)].

Definition records_url (c : DigitalOceanConfig) (zone : string) : string :=
  api_base c +:+ "/domains/" +:+ encode_path zone +:+ "/records".

Definition record_item_url (c : DigitalOceanConfig) (zone : string) (record_id : Z) : string :=
  records_url c zone +:+ "/" +:+ pretty record_id.

Definition records_path (zone : string) : string := "/domains/" +:+ encode_path zone +:+ "/records".

Definition page_query (name : string) (page : Z) : list (string * string) :=
  [("type", "TXT"); ("name", name); ("per_page", pretty PER_PAGE); ("page", pretty page)].

(** The loop of [list_matching_records], with [left = MAX_PAGES - page]. *)
Fixpoint list_loop (c : DigitalOceanConfig) (zone name : string) (left : nat) (records : list DoRecord)
  : sys (dns_result (list DoRecord)) :=
  let page := MAX_PAGES - Z.of_nat left in
  await? response := send (mkRequest GET (records_url c zone) (page_query name page) (auth c) None) in
  if status response =? 404 then Ret (Err (ZoneNotFound zone))
  else if negb (is_success (status response)) then
    Ret (Err (api_error PROVIDER "GET" (records_path zone) response))
  else
    try? body := response_json de_DoRecordList response in
    let records := records ++ domain_records body in
    if negb (has_next body) then Ret (Ok records)
    else
      match left with
      | O => Ret (Err (Api (PROVIDER +:+ " GET " +:+ records_path zone +:+ ": more than "
                            +:+ pretty MAX_PAGES +:+ " pages of records")))
      | S left' => list_loop c zone name left' records
      end.

Definition list_matching_records (c : DigitalOceanConfig) (zone fqdn : string)
  : sys (dns_result (list DoRecord)) :=
  let name := trim_end_matches dot fqdn in
  list_loop c zone name (Z.to_nat (MAX_PAGES - 1)) [].

Definition create_record (c : DigitalOceanConfig) (zone rname value : string) : sys (dns_result unit) :=
  await? response :=
    send (mkRequest POST (records_url c zone) [] (auth c)
            (Some (ser_CreateRecordBody "TXT" rname value (ttl c)))) in
  if status response =? 404 then Ret (Err (ZoneNotFound zone))
  else if negb (is_success (status response)) then
    Ret (Err (api_error PROVIDER "POST" (records_path zone) response))
  else Ret (Ok tt).

Definition delete_record (c : DigitalOceanConfig) (zone : string) (record_id : Z) : sys (dns_result unit) :=
  await? response := send (mkRequest DELETE (record_item_url c zone record_id) [] (auth c) None) in
  if negb (is_success (status response)) && negb (status response =? 404) then
    Ret (Err (api_error PROVIDER "DELETE" (records_path zone +:+ "/" +:+ pretty record_id) response))
  else Ret (Ok tt).

(** ** Operations *)

Definition present_locked (c : DigitalOceanConfig) (zone rname fqdn value : string) : sys (dns_result unit) :=
  await? existing := list_matching_records c zone fqdn in
  if existsb (fun rec => (record_value rec =? value)%string) existing then Ret (Ok tt)
  else create_record c zone rname value.

Definition present (c : DigitalOceanConfig) (fqdn value : string) : sys (dns_result unit) :=
  try? _ := validate_fqdn fqdn in
  let fqdn := to_ascii_lowercase fqdn in
  try? _ := validate_acme_value value in
  await? zone := resolve_zone c fqdn in
  try? rname := relative_name fqdn zone in
  with_lock (zone +:+ "|" +:+ rname) (present_locked c zone rname fqdn value).

(** [for rec in existing { if record_value(&rec) == value { ... } }]. *)
Fixpoint delete_matching (c : DigitalOceanConfig) (zone value : string) (existing : list DoRecord)
  : sys (dns_result unit) :=
  match existing with
  | [] => Ret (Ok tt)
  | rec :: rest =>
      if (record_value rec =? value)%string then
        await? _ := delete_record c zone (rec_id rec) in
        delete_matching c zone value rest
      else delete_matching c zone value rest
  end.

Definition cleanup (c : DigitalOceanConfig) (fqdn value : string) : sys (dns_result unit) :=
  try? _ := validate_fqdn fqdn in
  let fqdn := to_ascii_lowercase fqdn in
  await? zone := resolve_zone c fqdn in
  try? rname := relative_name fqdn zone in
  with_lock (zone +:+ "|" +:+ rname)
    (await? existing := list_matching_records c zone fqdn in
     delete_matching c zone value existing).
End digitalocean.

(** ** The DigitalOcean API

    [recs w z] maps identifiers to the TXT records of the domain [z], each
    with its relative name and its data; a listing of a name is in some order
    that depends only on the records. *)

Definition pair_of (r : DoRecord) : Z * string := (rec_id r, data r).

Record do_api `{X : Ext} {W} (h : handler sysE W) (c : DigitalOceanConfig)
    (recs : W -> string -> gmap Z (string * string))
    (order : gmap Z (string * string) -> string -> list (Z * string)) : Prop := {
  do_background : background h recs;
  do_order : forall m n id d, (id, d) ∈ order m n <-> m !! id = Some (n, d);
  (** The [name] filter takes the absolute name; pages have 200 records, and all
      but the last link the next one. *)
  do_list : forall req w resp z rn p b,
    fst (h _ (HttpSend req) w) = Ok resp ->
    method req = GET -> url req = records_url c z -> query req = page_query (absolute_name rn z) p -> 1 <= p ->
    is_success (status resp) = true -> response_json de_DoRecordList resp = Ok b ->
    map pair_of (domain_records b) = take 200 (drop (200 * Z.to_nat (p - 1)) (order (recs w z) rn)) /\
    ((forall next, links b <> Some (Some (Some next))) -> (length (order (recs w z) rn) <= 200 * Z.to_nat p)%nat);
  do_create : forall req z rn d t,
    method req = POST -> url req = records_url c z ->
    body req = Some (ser_CreateRecordBody "TXT" rn d t) ->
    posts recs h req z rn d (fun resp => is_success (status resp) = true);
  do_delete : forall req z id,
    method req = DELETE -> url req = record_item_url c z id -> drops recs h req z id
}.

Section theory.
Context `{X : Ext} `{S : !ExtSpec X} {W : Type} (h : handler sysE W) (c : DigitalOceanConfig).
Context (recs : W -> string -> gmap Z (string * string)) (order : gmap Z (string * string) -> string -> list (Z * string)).
Context (Hapi : do_api h c recs order).

Definition do_decode (d : string) : string := trim_matches quote (trim d).

Definition txt_values : W -> string * string -> list string := record_values recs do_decode.

Lemma do_background_values : background h txt_values.
Proof.
  destruct (do_background _ _ _ _ Hapi) as [Hq Hg].
  split; intros; apply same_record_values; eauto.
Qed.

Lemma has_next_false b next : has_next b = false -> links b <> Some (Some (Some next)).
Proof. unfold has_next. intros Hn E. by rewrite E in Hn. Qed.

Lemma do_list_loop z rn left records w :
  (left < 50)%nat ->
  map pair_of records = take (200 * (49 - left)) (order (recs w z) rn) ->
  wp h (list_loop c z (absolute_name rn z) left records) (fun r w' =>
    same recs w w' /\ forall l, r = Ok l -> map pair_of l = order (recs w z) rn) w.
Proof.
  revert records w. induction left as [|left IH]; intros records w Hleft Hrec; cbn [list_loop];
    apply wp_try, (wp_read h recs (do_background _ _ _ _ Hapi)); try done;
    intros w' Hw'; (split; [done|]); intros resp w0 Hw0 Hresp;
    (destruct (status resp =? 404); [by apply wp_ret|]);
    (destruct (is_success (status resp)) eqn:Es; [|by apply wp_ret]);
    (apply wp_try_pure; [|done]); intros b Hb; cbn zeta.
  - destruct (do_list _ _ _ _ Hapi _ _ _ z rn (MAX_PAGES - Z.of_nat 0) b Hresp eq_refl eq_refl eq_refl
      ltac:(unfold MAX_PAGES; lia) Es Hb) as [Hl Hn].
    rewrite (Hw0 z) in Hl, Hn. destruct (has_next b) eqn:En; [by apply wp_ret|]. apply wp_ret. split; [done|].
    intros l [= <-]. rewrite map_app, Hrec, Hl.
    replace (Z.to_nat (MAX_PAGES - Z.of_nat 0 - 1)) with (49 - 0)%nat by (unfold MAX_PAGES; lia).
    rewrite (take_ge (drop _ _)); [apply take_drop|]. rewrite length_drop. specialize (Hn (fun next => has_next_false b next En)).
    unfold MAX_PAGES in Hn. lia.
  - destruct (do_list _ _ _ _ Hapi _ _ _ z rn (MAX_PAGES - Z.of_nat (Datatypes.S left)) b Hresp
      eq_refl eq_refl eq_refl ltac:(unfold MAX_PAGES; lia) Es Hb)
      as [Hl Hn]. rewrite (Hw0 z) in Hl, Hn.
    replace (200 * Z.to_nat (MAX_PAGES - Z.of_nat (Datatypes.S left) - 1))%nat
      with (200 * (49 - Datatypes.S left))%nat in Hl by (unfold MAX_PAGES; lia).
    destruct (has_next b) eqn:En.
    + eapply wp_mono; [apply IH; [lia|]|].
      * rewrite map_app, Hrec, Hl, (Hw' z). rewrite take_take_drop. f_equal. lia.
      * cbn. intros r w2 [H2 Hr]. rewrite (Hw' z) in Hr. split; [by rewrite Hw'|done].
    + apply wp_ret. split; [done|]. intros l [= <-]. rewrite map_app, Hrec, Hl.
      rewrite (take_ge (drop _ _)); [apply take_drop|]. rewrite length_drop. specialize (Hn (fun next => has_next_false b next En)).
      unfold MAX_PAGES in Hn. lia.
Qed.

Lemma do_lists z rn fqdn w :
  trim_end_matches dot fqdn = absolute_name rn z ->
  wp h (list_matching_records c z fqdn) (fun r w' => same recs w w' /\
    forall l, r = Ok l -> forall id v,
      (exists r, r ∈ l /\ rec_id r = id /\ record_value r = v) <->
      (exists d, recs w z !! id = Some (rn, d) /\ do_decode d = v)) w.
Proof.
  intros Hf. unfold list_matching_records. cbn zeta. rewrite Hf.
  eapply wp_mono; [apply (do_list_loop z rn); [vm_compute; lia|done]|].
  intros r w' [Hw Hr]. split; [done|]. intros l Hl id v. specialize (Hr l Hl). split.
  - intros (x & Hx & <- & <-). exists (data x). split; [|done].
    apply (do_order _ _ _ _ Hapi). rewrite <- Hr. apply list_elem_of_fmap. by exists x.
  - intros (d & Hd & <-). apply (do_order _ _ _ _ Hapi) in Hd. rewrite <- Hr in Hd.
    apply list_elem_of_fmap in Hd as (x & Hd & Hx). exists x. split; [done|].
    unfold pair_of in Hd. injection Hd as -> ->. done.
Qed.

Lemma do_creates z rn v w :
  all_bytes name_byte v = true ->
  wp h (create_record c z rn v) (fun r w' =>
    (same recs w w' \/ creates recs do_decode z rn v w w') /\
    (r = Ok tt -> creates recs do_decode z rn v w w')) w.
Proof.
  intros Hv. assert (do_decode v = v) as Hd.
  { unfold do_decode. destruct (name_bytes_trim v Hv) as [-> ?]. done. }
  apply wp_try. eapply (wp_post recs do_decode h (do_background _ _ _ _ Hapi) _ z rn v);
    [by eapply (do_create _ _ _ _ Hapi)|]. rewrite Hd.
  intros [resp|e] w' Hw Ho; [|done]. destruct (status resp =? 404); [by apply wp_ret|].
  destruct (is_success (status resp)) eqn:Es; by apply wp_ret; eauto.
Qed.

Lemma do_deletes z id w :
  wp h (delete_record c z id) (fun r w' =>
    (same recs w w' \/ deletes recs z id w w') /\ (r = Ok tt -> deletes recs z id w w')) w.
Proof.
  apply wp_try. eapply (wp_drop recs h (do_background _ _ _ _ Hapi) _ z id); [by apply (do_delete _ _ _ _ Hapi)|].
  intros [resp|e] w' Hw Ho; [|done].
  destruct (is_success (status resp)) eqn:Es; [by apply wp_ret; eauto|].
  destruct (Z.eqb_spec (status resp) 404); by apply wp_ret; eauto.
Qed.

Lemma do_delete_matching z v l :
  delete_matching c z v l = rec_deletes record_value (fun r => delete_record c z (rec_id r)) v l.
Proof. induction l as [|r l IH]; cbn; [done|]. by rewrite IH. Qed.

Lemma do_resolve f w :
  valid_name f ->
  wp h (resolve_zone c (to_ascii_lowercase f)) (fun r w' =>
    same txt_values w w' /\ forall z, r = Ok z -> zone_for (zone_override c) f z) w.
Proof.
  intros Hf. unfold resolve_zone. destruct (zone_override c) as [z|] eqn:E.
  - apply wp_ret. split; [done|]. by intros z' [= <-].
  - by apply (wp_found_zone h txt_values do_background_values).
Qed.

Lemma do_absolute f z rn :
  valid_name f -> relative_name (to_ascii_lowercase f) z = Ok rn ->
  trim_end_matches dot (to_ascii_lowercase f) = absolute_name rn z.
Proof. intros Hf Hr. rewrite (relative_canon f z rn Hf Hr). unfold canon. by rewrite lower_trim_end. Qed.

Lemma do_present f v w :
  wp h (present c f v) (fun r w' =>
    concerns txt_values (added txt_values) (zone_for (zone_override c) f) f v w r w') w.
Proof.
  apply wp_try_pure; [|by intros; apply failed_concerns]. intros u Hf%validate_fqdn_unit. cbn zeta.
  apply wp_try_pure; [|by intros; apply failed_concerns]. intros u' Hv%acme_value_bytes.
  apply (wp_in_zone h txt_values do_background_values (added txt_values) id); [done|by apply do_resolve|].
  intros z rn w0 _ Hr _.
  apply (wp_rec_present recs do_decode h rec_id record_value
    (list_matching_records c z (to_ascii_lowercase f)) (create_record c z rn) z rn (fun _ => True)); [| |done].
  - intros w1 _. by apply do_lists, do_absolute.
  - intros w1. by apply do_creates.
Qed.

Lemma do_cleanup f v w :
  wp h (cleanup c f v) (fun r w' =>
    concerns txt_values (removed txt_values) (zone_for (zone_override c) f) f v w r w') w.
Proof.
  apply wp_try_pure; [|by intros; apply failed_concerns]. intros u Hf%validate_fqdn_unit. cbn zeta.
  apply (wp_in_zone h txt_values do_background_values (removed txt_values) id); [done|by apply do_resolve|].
  intros z rn w0 _ Hr _. eapply wp_ext.
  - unfold ptry. rewrite run_bind. instantiate (1 := rec_cleanup record_value
      (list_matching_records c z (to_ascii_lowercase f)) (fun r => delete_record c z (rec_id r)) v).
    unfold rec_cleanup, ptry. rewrite run_bind.
    destruct (run h (list_matching_records _ _ _) w0) as [[l|e] w1]; [|done]. by rewrite do_delete_matching.
  - apply (wp_rec_cleanup recs do_decode h rec_id record_value _ _ z rn (fun _ => True)); [| |done].
    + intros w1 _. by apply do_lists, do_absolute.
    + intros r w1. apply do_deletes.
Qed.
End theory.

(** The provider in an environment; it keeps the default timing. *)
Definition do_provider `{X : Ext} {W} (h : handler sysE W) (c : DigitalOceanConfig) : DnsProvider W :=
  mkProvider (fun f v w => run h (present c f v) w) (fun f v w => run h (cleanup c f v) w) default_timing.

(** ** A server, with the domain [example.com]; it lists up to 200 records *)

Definition do_demo : DigitalOceanConfig :=
  mkDigitalOceanConfig "secret" "https://do.test" (Some "example.com"%string) 30 HTTP_TIMEOUT.

Definition do_demo_url : string := "https://do.test/domains/example.com/records".

Abbreviation do_store := (gmap Z (string * string)).

(** The records with an absolute name. *)
Definition do_find (m : do_store) (q : string) : list (Z * string) :=
  omap (fun r => if decide (absolute_name (fst (snd r)) "example.com" = q)
                 then Some (fst r, snd (snd r)) else None) (map_to_list m).

Definition ser_pair (p : Z * string) : Json :=
  JObj [("id", JNum (fst p)); ("data", JStr (snd p))].

Definition do_http (req : Request) (m : do_store) : result Response ReqwestError * do_store :=
  match method req with
  | GET =>
      match query req with
      | [(_, _); (_, q); (_, _); (_, page)] =>
          if (url req =? do_demo_url)%string && (page =? "1")%string
             && (length (do_find m q) <=? 200)%nat then
            (Ok (reply 200 (JObj [("domain_records"%string, JArr (map ser_pair (do_find m q)))])), m)
          else (Ok (reply_empty 500), m)
      | _ => (Ok (reply_empty 400), m)
      end
  | POST =>
      match url req =? do_demo_url, body req with
      | true, Some (JObj [(_, _); (_, JStr n); (_, JStr d); (_, _)]) =>
          (Ok (reply_empty 201), <[fresh (dom m : gset Z) := (n, d)]> m)
      | _, _ => (Ok (reply_empty 404), m)
      end%string
  | DELETE =>
      (Ok (reply_empty 204), filter (fun r => do_demo_url +:+ "/" +:+ pretty (fst r) <> url req) m)
  | _ => (Ok (reply_empty 405), m)
  end.

Definition do_server : handler sysE do_store := served_by do_http.

Lemma do_find_records m rn : do_find m (absolute_name rn "example.com") = records_of m rn.
Proof.
  unfold do_find, records_of. induction (map_to_list m) as [|[i [n d]] l IH]; cbn; [done|].
  rewrite IH. clear IH. case_decide as E; case_decide as E'; try done.
  - by apply absolute_name_inj in E.
  - by subst.
Qed.

Lemma do_de_ser_pairs l rs : de_vec de_DoRecord (JArr (map ser_pair l)) = Some rs -> map pair_of rs = l.
Proof.
  cbn. revert rs. induction l as [|[i d] l IH]; intros rs; cbn -[de_u64].
  { by intros [= <-]. }
  destruct (de_u64 (JNum i)) as [i'|] eqn:E; [|done]. cbn.
  destruct (mapM de_DoRecord (map ser_pair l)) as [rs'|]; [|done]. intros [= <-]. cbn.
  unfold pair_of at 1. cbn. rewrite (IH rs' eq_refl). do 2 f_equal.
  unfold de_u64, de_int in E. destruct (_ && _); [|done]. by injection E.
Qed.

(** URLs of the domain [example.com] and of another one. *)
Lemma do_records_url z : records_url (X := ref_ext) do_demo z = do_demo_url <-> z = "example.com"%string.
Proof.
  split; [|by intros ->]. unfold records_url. intros E.
  apply (append_inj_l "https://do.test/domains/" _ "example.com/records") in E.
  apply (slash_inj _ (encode_path (X := ref_ext) "example.com")) in E as [Ez _];
    [|apply encode_path_no_slash..]. by apply encode_path_inj in Ez.
Qed.

Lemma do_item_url z i id :
  do_demo_url +:+ "/" +:+ pretty i = record_item_url (X := ref_ext) do_demo z id ->
  z = "example.com"%string /\ i = id.
Proof.
  unfold record_item_url, records_url. rewrite !append_assoc. intros E.
  apply (append_inj_l "https://do.test/domains/" ("example.com/records" +:+ "/" +:+ pretty i)) in E.
  apply (slash_inj (encode_path (X := ref_ext) "example.com")) in E as [Ez E];
    [|apply encode_path_no_slash..]. apply encode_path_inj in Ez as <-.
  split; [done|]. apply (append_inj_l "records/") in E. by apply pretty_Z_inj.
Qed.

Lemma do_server_api : do_api (X := ref_ext) do_server do_demo (one_zone "example.com"%string) records_of.
Proof.
  split.
  - split; [by intros Y e w; destruct e|]. intros [m u q hd b] w; cbn. intros ->. unfold do_http; cbn.
    repeat case_match; done.
  - intros. apply elem_of_records_of.
  - intros [m u q hd b] w resp z rn p b' Hr; cbn [method url query]. intros -> -> -> Hp. revert Hr.
    unfold do_server, served_by, do_http, page_query. cbn [method query url].
    destruct (String.eqb_spec (records_url (X := ref_ext) do_demo z) do_demo_url) as [->%do_records_url|];
      [|by intros [= <-]].
    destruct (String.eqb_spec (pretty p) "1") as [E|]; [|by intros [= <-]].
    change ("1"%string) with (pretty 1) in E. apply pretty_Z_inj in E as ->. rewrite do_find_records. cbn [andb].
    destruct (Nat.leb_spec (length (records_of w rn)) 200) as [Hlen|]; [|by intros [= <-]].
    intros [= <-] _. unfold response_json, reply, one_zone. cbn [resp_body]. rewrite decide_True by done.
    destruct (de_DoRecordList _) as [bb|] eqn:E; [|done]. intros [= <-].
    revert E. unfold de_DoRecordList. cbn -[de_vec].
    destruct (de_vec de_DoRecord _) as [rs|] eqn:E; [|done]. intros [= <-]. cbn [domain_records].
    apply do_de_ser_pairs in E. rewrite E. rewrite take_ge by done. split; [done|]. intros _. cbn. lia.
  - intros [m u q hd b] z rn d t Hm Hu Hb w; cbn [method url body] in *. subst.
    unfold do_server, served_by, do_http. cbn [method url body].
    destruct (String.eqb_spec (records_url (X := ref_ext) do_demo z) do_demo_url) as [->%do_records_url|].
    + cbn. assert (w !! fresh (dom w) = None) as Hf by (apply not_elem_of_dom, is_fresh).
      split; [right|intros resp _ _]; by apply one_zone_creates.
    + split; [by left|]. by intros resp [= <-].
  - intros [m u q hd b] z id Hm Hu w; cbn [method url] in *. subst.
    unfold do_server, served_by, do_http. cbn [method url].
    assert (deletes (one_zone "example.com"%string) z id w
      (filter (fun r => do_demo_url +:+ "/" +:+ pretty (fst r) <> record_item_url (X := ref_ext) do_demo z id) w)) as Hd.
    2: { split; [by right|done]. }
    apply (one_zone_drops "example.com"%string (fun i => do_demo_url +:+ "/" +:+ pretty i)).
    intros i. split; [apply do_item_url|]. by intros [-> ->].
Qed.

(** With a configured zone, the contract of [DnsProvider]. *)
Lemma do_laws `{X : Ext} `{!ExtSpec X} {W} (h : handler sysE W) (c : DigitalOceanConfig) recs order z :
  do_api h c recs order -> zone_override c = Some z ->
  ProviderLaws (do_provider h c) canon (serves_in (txt_values recs) z) (fun _ => True).
Proof.
  intros Hapi Hz.
  assert (forall f v w, _) as Hp by exact (do_present h c recs order Hapi).
  assert (forall f v w, _) as Hc by exact (do_cleanup h c recs order Hapi).
  unfold wp in *. rewrite Hz in Hp, Hc. cbn [zone_for] in Hp, Hc. by apply zone_laws.
Qed.

(** ** Properties *)

(** C19. Against a server that behaves as the DigitalOcean API documents,
    however many pages the records of the name fill and whatever requests
    fail, are retried or are carried out without an answer: [present] and
    [cleanup] change no TXT value but the one given, of the name given, in
    its zone; [present] returns [Ok] only when the value is there, and
    [cleanup] only when no record with it is left; and with a configured zone
    the provider keeps the contract of [DnsProvider]. *)
Theorem digitalocean_contract `{X : Ext} `{!ExtSpec X} {W} (h : handler sysE W) (c : DigitalOceanConfig) recs order :
  do_api h c recs order ->
  (forall f v w, let '(r, w') := run h (present c f v) w in
     concerns (txt_values recs) (added (txt_values recs)) (zone_for (zone_override c) f) f v w r w') /\
  (forall f v w, let '(r, w') := run h (cleanup c f v) w in
     concerns (txt_values recs) (removed (txt_values recs)) (zone_for (zone_override c) f) f v w r w') /\
  (forall z, zone_override c = Some z ->
     ProviderLaws (do_provider h c) canon (serves_in (txt_values recs) z) (fun _ => True)).
Proof.
  intros Hapi. split_and!.
  - exact (do_present h c recs order Hapi).
  - exact (do_cleanup h c recs order Hapi).
  - intros z. by apply (do_laws h c recs order).
Qed.

(** The second of two values is taken down, with the record created twice. *)
Lemma digitalocean_contract_witness :
  run do_server (cleanup (X := ref_ext) do_demo "_acme-challenge.example.com" "tok")
      {[7 := ("_acme-challenge", "other")%string; 8 := ("_acme-challenge", "tok")%string;
        9 := ("_acme-challenge", "tok")%string]}
    = (Ok tt, {[7 := ("_acme-challenge", "other")%string]}) /\
  ProviderLaws (do_provider (X := ref_ext) do_server do_demo) canon
    (serves_in (txt_values (one_zone "example.com"%string)) "example.com") (fun _ => True).
Proof.
  split; [vm_compute; reflexivity|].
  apply (digitalocean_contract do_server do_demo (one_zone "example.com"%string) records_of do_server_api).
  reflexivity.
Defined.
