(* ===== verification/Cloudflare.v ===== *)
(** * The Cloudflare provider (src/providers/cloudflare.rs)

    The records of a name are listed on one page; one is created, or deleted
    by its identifier.  Zone identifiers are looked up and kept in a cache.
    [cf_api] states what the Cloudflare API documents of the requests this
    file sends. *)

From S2P Require Import Prelude Rstr Errors Effects Sys Common Zone Provider Txt Records.

Definition CF_API_BASE : string := "https://api.cloudflare.com/client/v4".
Definition ENV_TOKEN : string := "CLOUDFLARE_API_TOKEN".
Definition DEFAULT_TTL : Z := 60.
Definition HTTP_TIMEOUT : Duration := from_secs 30.
Definition CONNECT_TIMEOUT : Duration := from_secs 5.
Definition PROVIDER : string := "cloudflare".

Record ZoneOverride : Type := mkZoneOverride {
  zo_name : string;
  zo_id : option string
}.

Record CloudflareConfig : Type := mkCloudflareConfig {
  api_token : string;
  api_base : string;
  zone_override : option ZoneOverride;
  ttl : Z;
  http_timeout : Duration
}.

(** ** Bodies *)

Record CfError : Type := mkCfError {
  code : Z;
  message : string
}.

Definition de_CfError (j : Json) : option CfError :=
  match struct_fields ["code"; "message"] j with
  | Some [c; m] => c' ← required de_i64 c; m' ← required de_string m; Some (mkCfError c' m')
  | _ => None
  end.

Record CfEnvelope (T : Type) : Type := mkCfEnvelope {
  success : bool;
  errors : list CfError;
  cf_result : option T
}.
Arguments mkCfEnvelope {T} success errors cf_result.
Arguments success {T} c.
Arguments errors {T} c.
Arguments cf_result {T} c.

Definition de_CfEnvelope {T} (dec : Json -> option T) (j : Json) : option (CfEnvelope T) :=
  match struct_fields ["success"; "errors"; "result"] j with
  | Some [s; e; r] =>
      s' ← required de_bool s; e' ← defaulted [] (de_vec de_CfError) e;
      r' ← defaulted None (de_option dec) r; Some (mkCfEnvelope s' e' r')
  | _ => None
  end.

Record CfZone : Type := mkCfZone {
  z_id : string;
  z_name : string
}.

Definition de_CfZone (j : Json) : option CfZone :=
  match struct_fields ["id"; "name"] j with
  | Some [i; n] => i' ← required de_string i; n' ← required de_string n; Some (mkCfZone i' n')
  | _ => None
  end.

Record CfDnsRecord : Type := mkCfDnsRecord {
  r_id : string;
  r_content : string
}.

Definition de_CfDnsRecord (j : Json) : option CfDnsRecord :=
  match struct_fields ["id"; "content"] j with
  | Some [i; c] => i' ← required de_string i; c' ← required de_string c; Some (mkCfDnsRecord i' c')
  | _ => None
  end.

Definition ser_CreateRecordBody (ty name content : string) (t : Z) : Json :=
  JObj [("type", JStr ty); ("name", JStr name); ("content", JStr content); ("ttl", JNum t)].

(** The value of a record: its content without quotes at its ends. *)
Definition record_value (r : CfDnsRecord) : string := trim_matches quote (r_content r).

Section cloudflare.
Context `{X : Ext}.
(** The [Debug] text of the errors of an envelope. *)
Context (debug_errors : list CfError -> string).

Definition into_result {T} (env : CfEnvelope T) (op_label : string) : dns_result T :=
  if negb (success env) then
    Err (Api ("cloudflare " +:+ op_label +:+ ": " +:+ debug_errors (errors env)))
  else ok_or (cf_result env) (Api ("cloudflare " +:+ op_label +:+ ": missing result")).

(** ** Configuration *)

Definition config_new (t : string) : CloudflareConfig :=
  mkCloudflareConfig t CF_API_BASE None DEFAULT_TTL HTTP_TIMEOUT.

Definition with_api_base (c : CloudflareConfig) (base : string) : dns_result CloudflareConfig :=
  let! _ := validate_https_base base PROVIDER in
  Ok (mkCloudflareConfig (api_token c) (trim_end_matches "/" base) (zone_override c) (ttl c) (http_timeout c)).

Definition with_zone (c : CloudflareConfig) (zone : string) : dns_result CloudflareConfig :=
  let! _ := validate_zone zone in
  Ok (mkCloudflareConfig (api_token c) (api_base c)
        (Some (mkZoneOverride (to_ascii_lowercase (trim_end_matches dot zone)) None)) (ttl c) (http_timeout c)).

Definition with_zone_id (c : CloudflareConfig) (zone zone_id : string) : dns_result CloudflareConfig :=
  let! _ := validate_zone zone in
  Ok (mkCloudflareConfig (api_token c) (api_base c)
        (Some (mkZoneOverride (to_ascii_lowercase (trim_end_matches dot zone)) (Some zone_id)))
        (ttl c) (http_timeout c)).

Definition with_ttl (c : CloudflareConfig) (t : Z) : dns_result CloudflareConfig :=
  let! t' := if t =? 1 then Ok t else validate_ttl_range t 30 86400 in
  Ok (mkCloudflareConfig (api_token c) (api_base c) (zone_override c) t' (http_timeout c)).

Definition with_timeout (c : CloudflareConfig) (d : Duration) : CloudflareConfig :=
  mkCloudflareConfig (api_token c) (api_base c) (zone_override c) (ttl c) d.

Definition new (client : Duration -> Duration -> result unit ReqwestError) (c : CloudflareConfig)
  : dns_result CloudflareConfig :=
  let! _ := map_err Http (client (http_timeout c) CONNECT_TIMEOUT) in Ok c.

Definition from_env (client : Duration -> Duration -> result unit ReqwestError)
    (var : string -> option string) : dns_result CloudflareConfig :=
  let! t := ok_or (var ENV_TOKEN) (MissingCredentials ENV_TOKEN) in
  new client (config_new t).

(** ** Requests *)

Definition auth (c : CloudflareConfig) : list (string * string) :=
  [("authorization", "Bearer " +:+ api_token c)].

Definition resolve_zone_name (c : CloudflareConfig) (fqdn : string) : sys (dns_result string) :=
  match zone_override c with
  | Some o => try? _ := relative_name fqdn (zo_name o) in Ret (Ok (zo_name o))
  | None =>
      await? zone := find_zone fqdn in
      try? _ := validate_fqdn zone in
      Ret (Ok zone)
  end.

(** The identifier given in the configuration. *)
Definition configured_id (c : CloudflareConfig) : option string := zone_override c ≫= zo_id.

Definition resolve_zone_id (c : CloudflareConfig) (zone_name : string) : sys (dns_result string) :=
  match configured_id c with
  | Some id => Ret (Ok id)
  | None =>
      let* cached := call (CacheGet zone_name) in
      match cached with
      | Some id => Ret (Ok id)
      | None =>
          let url := api_base c +:+ "/zones?name=" +:+ encode_path zone_name in
          await? response := send (mkRequest GET url [] (auth c) None) in
          if negb (is_success (status response)) then Ret (Err (api_error PROVIDER "GET" "/zones" response))
          else
            try? body := response_json (de_CfEnvelope (de_vec de_CfZone)) response in
            try? zones := into_result body ("GET /zones?name=" +:+ zone_name) in
            try? zone := ok_or (List.find (fun z => (z_name z =? zone_name)%string) zones)
                               (ZoneNotFound zone_name) in
            let* _ := call (CachePut zone_name (z_id zone)) in
            Ret (Ok (z_id zone))
      end
  end.

Definition records_url (c : CloudflareConfig) (zone_id : string) : string :=
  api_base c +:+ "/zones/" +:+ encode_path zone_id +:+ "/dns_records".

Definition record_item_url (c : CloudflareConfig) (zone_id record_id : string) : string :=
  api_base c +:+ "/zones/" +:+ encode_path zone_id +:+ "/dns_records/" +:+ encode_path record_id.

Definition records_path (zone_id : string) : string := "/zones/" +:+ zone_id +:+ "/dns_records".

Definition list_url (c : CloudflareConfig) (zone_id name : string) : string :=
  records_url c zone_id +:+ "?type=TXT&per_page=100&name=" +:+ encode_path name.

Definition list_matching_records (c : CloudflareConfig) (zone_id fqdn : string)
  : sys (dns_result (list CfDnsRecord)) :=
  let url := list_url c zone_id (trim_end_matches dot fqdn) in
  await? response := send (mkRequest GET url [] (auth c) None) in
  if negb (is_success (status response)) then
    Ret (Err (api_error PROVIDER "GET" (records_path zone_id) response))
  else
    try? body := response_json (de_CfEnvelope (de_vec de_CfDnsRecord)) response in
    Ret (into_result body ("GET " +:+ records_path zone_id)).

Definition create_record (c : CloudflareConfig) (zone_id fqdn value : string) : sys (dns_result unit) :=
  let url := records_url c zone_id in
  let body := ser_CreateRecordBody "TXT" (trim_end_matches dot fqdn) (quoted value) (ttl c) in
  await? response := send (mkRequest POST url [] (auth c) (Some body)) in
  if negb (is_success (status response)) then
    Ret (Err (api_error PROVIDER "POST" (records_path zone_id) response))
  else
    try? env := response_json (de_CfEnvelope de_CfDnsRecord) response in
    try? _ := into_result env ("POST " +:+ records_path zone_id) in
    Ret (Ok tt).

Definition delete_record (c : CloudflareConfig) (zone_id record_id : string) : sys (dns_result unit) :=
  await? response := send (mkRequest DELETE (record_item_url c zone_id record_id) [] (auth c) None) in
  if negb (is_success (status response)) && negb (status response =? 404) then
    Ret (Err (api_error PROVIDER "DELETE" (records_path zone_id) response))
  else Ret (Ok tt).

(** ** Operations *)

Definition present (c : CloudflareConfig) (fqdn value : string) : sys (dns_result unit) :=
  try? _ := validate_fqdn fqdn in
  let fqdn := to_ascii_lowercase fqdn in
  try? _ := validate_acme_value value in
  await? zone_name := resolve_zone_name c fqdn in
  await? zone_id := resolve_zone_id c zone_name in
  with_lock (zone_id +:+ "|" +:+ fqdn)
    (await? existing := list_matching_records c zone_id fqdn in
     if existsb (fun rec => (record_value rec =? value)%string) existing then Ret (Ok tt)
     else create_record c zone_id fqdn value).

Fixpoint delete_matching (c : CloudflareConfig) (zone_id value : string) (existing : list CfDnsRecord)
  : sys (dns_result unit) :=
  match existing with
  | [] => Ret (Ok tt)
  | rec :: rest =>
      if (record_value rec =? value)%string then
        await? _ := delete_record c zone_id (r_id rec) in
        delete_matching c zone_id value rest
      else delete_matching c zone_id value rest
  end.

Definition cleanup (c : CloudflareConfig) (fqdn value : string) : sys (dns_result unit) :=
  try? _ := validate_fqdn fqdn in
  let fqdn := to_ascii_lowercase fqdn in
  await? zone_name := resolve_zone_name c fqdn in
  await? zone_id := resolve_zone_id c zone_name in
  with_lock (zone_id +:+ "|" +:+ fqdn)
    (await? existing := list_matching_records c zone_id fqdn in
     delete_matching c zone_id value existing).
End cloudflare.

(** ** The Cloudflare API

    [recs w zid] maps identifiers to the TXT records of the zone [zid], each
    with its absolute name and its content; a listing of a name is in some
    order that depends only on the records.  [zones zid] is the domain of the
    zone [zid]. *)

Definition pair_of (r : CfDnsRecord) : string * string := (r_id r, r_content r).

(** A creation that is reported as done. *)
Definition created `{X : Ext} (resp : Response) : Prop :=
  is_success (status resp) = true /\
  exists env, response_json (de_CfEnvelope de_CfDnsRecord) resp = Ok env /\ success env = true.

Record cf_api `{X : Ext} {W} (h : handler sysE W) (c : CloudflareConfig) (zones : string -> option string)
    (recs : W -> string -> gmap string (string * string))
    (order : gmap string (string * string) -> string -> list (string * string)) : Prop := {
  cf_background : background h recs;
  cf_order : forall m n id d, (id, d) ∈ order m n <-> m !! id = Some (n, d);
  (** A zone is listed with its identifier and its domain; the cache has no
      others. *)
  cf_zones : forall req w resp n b l z,
    fst (h _ (HttpSend req) w) = Ok resp ->
    method req = GET -> url req = api_base c +:+ "/zones?name=" +:+ encode_path n ->
    is_success (status resp) = true -> response_json (de_CfEnvelope (de_vec de_CfZone)) resp = Ok b ->
    success b = true -> cf_result b = Some l -> z ∈ l -> zones (z_id z) = Some (z_name z);
  cf_cache : forall n w id, fst (h _ (CacheGet n) w) = Some id -> zones id = Some n;
  (** A page has up to 100 records. *)
  cf_list : forall req w resp zid n b l,
    fst (h _ (HttpSend req) w) = Ok resp ->
    method req = GET -> url req = list_url c zid n ->
    is_success (status resp) = true -> response_json (de_CfEnvelope (de_vec de_CfDnsRecord)) resp = Ok b ->
    success b = true -> cf_result b = Some l ->
    map pair_of l = take 100 (order (recs w zid) n);
  cf_create : forall req zid n d t,
    method req = POST -> url req = records_url c zid ->
    body req = Some (ser_CreateRecordBody "TXT" n d t) -> posts recs h req zid n d created;
  cf_delete : forall req zid id,
    method req = DELETE -> url req = record_item_url c zid id -> drops recs h req zid id
}.

Section theory.
Context `{X : Ext} `{S : !ExtSpec X} (dbg : list CfError -> string) {W : Type} (h : handler sysE W).
Context (c : CloudflareConfig) (zones : string -> option string).
Context (recs : W -> string -> gmap string (string * string)).
Context (order : gmap string (string * string) -> string -> list (string * string)).
Context (Hapi : cf_api h c zones recs order).

Definition txt_values : W -> string * string -> list string := record_values recs (trim_matches quote).

(** No name has more records than a page. *)
Definition few (w : W) : Prop := forall zid n, (length (order (recs w zid) n) <= 100)%nat.

Lemma few_same w w' : same recs w w' -> few w -> few w'.
Proof. intros Hs Hf zid n. rewrite (Hs zid). apply Hf. Qed.

Lemma cf_lists zid fqdn w :
  few w ->
  wp h (list_matching_records dbg c zid fqdn) (fun r w' => same recs w w' /\
    forall l, r = Ok l -> forall id v,
      (exists r, r ∈ l /\ r_id r = id /\ record_value r = v) <->
      (exists d, recs w zid !! id = Some (trim_end_matches dot fqdn, d) /\ trim_matches quote d = v)) w.
Proof.
  intros Hfew. apply wp_try, (wp_read h recs (cf_background _ _ _ _ _ Hapi)); [done|].
  intros w' Hw'. split; [done|]. intros resp w0 Hw0 Hresp.
  destruct (is_success (status resp)) eqn:Es; [|by apply wp_ret].
  apply wp_try_pure; [|done]. intros b Hb. apply wp_ret. split; [done|]. intros l Hl.
  assert (map pair_of l = order (recs w zid) (trim_end_matches dot fqdn)) as Hr.
  { unfold into_result in Hl. destruct (success b) eqn:Eb; [|done]. apply ok_or_ok in Hl.
    rewrite (cf_list _ _ _ _ _ Hapi _ _ _ zid _ b l Hresp eq_refl eq_refl Es Hb Eb Hl).
    rewrite (Hw0 zid). apply take_ge, Hfew. }
  intros id v. split.
  - intros (x & Hx & <- & <-). exists (r_content x). split; [|done].
    apply (cf_order _ _ _ _ _ Hapi). rewrite <- Hr. apply list_elem_of_fmap. by exists x.
  - intros (d & Hd & <-). apply (cf_order _ _ _ _ _ Hapi) in Hd. rewrite <- Hr in Hd.
    apply list_elem_of_fmap in Hd as (x & Hd & Hx). exists x. split; [done|].
    unfold pair_of in Hd. injection Hd as -> ->. done.
Qed.

Lemma trim_quoted_value v : all_bytes name_byte v = true -> trim_matches quote (quoted v) = v.
Proof.
  intros Hv. destruct (name_bytes_trim v Hv) as [_ Ht]. unfold trim_matches, quoted in *.
  change (dquote +:+ v +:+ dquote) with (String quote (v +:+ dquote)). cbn [trim_start_matches].
  rewrite Ascii.eqb_refl. destruct v as [|b v]; [done|].
  assert (trim_start_matches quote (String b v +:+ dquote) = String b v +:+ dquote) as ->.
  { cbn. cbn in Hv. apply andb_true_iff in Hv as [Hb _]. by destruct (Ascii.eqb_spec b quote) as [->|]. }
  rewrite trim_end_append_all by done. apply trim_end_fix. intros E.
  by pose proof (last_byte_all _ _ _ Hv E).
Qed.

Lemma cf_creates zid fqdn v w :
  all_bytes name_byte v = true ->
  wp h (create_record dbg c zid fqdn v) (fun r w' =>
    (same recs w w' \/ creates recs (trim_matches quote) zid (trim_end_matches dot fqdn) v w w') /\
    (r = Ok tt -> creates recs (trim_matches quote) zid (trim_end_matches dot fqdn) v w w')) w.
Proof.
  intros Hv. apply wp_try.
  eapply (wp_post recs (trim_matches quote) h (cf_background _ _ _ _ _ Hapi) _ zid (trim_end_matches dot fqdn)
    (quoted v) created); [by eapply (cf_create _ _ _ _ _ Hapi)|]. rewrite trim_quoted_value by done.
  intros [resp|e] w' Hw Ho; [|done].
  destruct (is_success (status resp)) eqn:Es; [|by apply wp_ret; eauto].
  apply wp_try_pure; [|done]. intros env He. apply wp_try_pure; [|done]. intros r Hr. apply wp_ret.
  split; [done|]. intros _. apply (Ho resp eq_refl). split; [done|]. exists env. split; [done|].
  unfold into_result in Hr. by destruct (success env).
Qed.

Lemma cf_deletes zid id w :
  wp h (delete_record c zid id) (fun r w' =>
    (same recs w w' \/ deletes recs zid id w w') /\ (r = Ok tt -> deletes recs zid id w w')) w.
Proof.
  apply wp_try. eapply (wp_drop recs h (cf_background _ _ _ _ _ Hapi) _ zid id); [by apply (cf_delete _ _ _ _ _ Hapi)|].
  intros [resp|e] w' Hw Ho; [|done].
  destruct (is_success (status resp)) eqn:Es; [by apply wp_ret; eauto|].
  destruct (Z.eqb_spec (status resp) 404); by apply wp_ret; eauto.
Qed.

Lemma cf_delete_matching z v l :
  delete_matching c z v l = rec_deletes record_value (fun r => delete_record c z (r_id r)) v l.
Proof. induction l as [|r l IH]; cbn; [done|]. by rewrite IH. Qed.

Lemma cf_zone_name f w :
  valid_name f ->
  wp h (resolve_zone_name c (to_ascii_lowercase f)) (fun r w' =>
    same recs w w' /\ forall n, r = Ok n -> zone_for (zo_name <$> zone_override c) f n) w.
Proof.
  intros Hf. unfold resolve_zone_name. destruct (zone_override c) as [o|].
  - apply wp_try_pure; [|done]. intros _ _. apply wp_ret. split; [done|]. by intros n [= <-].
  - by apply (wp_found_zone h recs (cf_background _ _ _ _ _ Hapi)).
Qed.

(** The zone of a call for [f]: the one whose identifier was configured, or one
    with the configured domain, or with the domain found in the DNS. *)
Definition cf_zone (f zid : string) : Prop :=
  match configured_id c with
  | Some id => id = zid
  | None => exists n, zone_for (zo_name <$> zone_override c) f n /\ zones zid = Some n
  end.

Lemma cf_zone_id f n w :
  zone_for (zo_name <$> zone_override c) f n ->
  wp h (resolve_zone_id dbg c n) (fun r w' =>
    same recs w w' /\ forall zid, r = Ok zid -> cf_zone f zid) w.
Proof.
  intros Hn. unfold resolve_zone_id, cf_zone. destruct (configured_id c) as [id|].
  { apply wp_ret. split; [done|]. by intros zid [= <-]. }
  apply wp_bind, wp_vis, wp_ret.
  pose proof (bg_quiet _ _ (cf_background _ _ _ _ _ Hapi) _ (CacheGet n) w eq_refl) as Hq.
  pose proof (cf_cache _ _ _ _ _ Hapi n w) as Hcache.
  destruct (h _ (CacheGet n) w) as [[id|] w1]; cbn [fst snd] in *.
  { apply wp_ret. split; [done|]. intros zid [= <-]. exists n. split; [done|by apply Hcache]. }
  cbn zeta. apply wp_try, (wp_read h recs (cf_background _ _ _ _ _ Hapi)); [done|].
  intros w2 H2. rewrite <- Hq in H2. split; [done|]. intros resp w0 _ Hresp.
  destruct (is_success (status resp)) eqn:Es; [|by apply wp_ret]. cbn [negb].
  apply wp_try_pure; [|done]. intros b Hb. apply wp_try_pure; [|done]. intros l Hl.
  apply wp_try_pure; [|done]. intros z Hz. apply wp_bind, wp_vis, wp_ret, wp_ret.
  split; [rewrite H2; by apply (bg_quiet _ _ (cf_background _ _ _ _ _ Hapi))|].
  intros zid [= <-]. exists n. split; [done|].
  apply ok_or_ok, List.find_some in Hz as [Hz Hname%String.eqb_eq]. apply list_elem_of_In in Hz.
  unfold into_result in Hl. destruct (success b) eqn:Eb; [|done]. apply ok_or_ok in Hl.
  rewrite <- Hname. by eapply (cf_zones _ _ _ _ _ Hapi _ w0).
Qed.

(** The records a call for [f] may touch. *)
Definition cf_keys (f : string) (k : string * string) : Prop :=
  cf_zone f (fst k) /\ valid_name f /\ snd k = canon f.

Lemma cf_call (post : string * string -> string -> W -> dns_result unit -> W -> Prop) key work f v w
    `{Hpost : forall k v, Proper (same txt_values ==> eq ==> same txt_values ==> iff) (post k v)} :
  few w -> valid_name f ->
  (forall zid w0, few w0 -> wp h (work zid) (fun r w' => post (zid, canon f) v w0 r w') w0) ->
  wp h (await? zone_name := resolve_zone_name c (to_ascii_lowercase f) in
        await? zone_id := resolve_zone_id dbg c zone_name in
        with_lock (key zone_id) (work zone_id))
     (fun r w' => touches txt_values (cf_keys f) post v w r w') w.
Proof.
  intros Hfew Hf Hwork. apply wp_try. eapply wp_mono; [by apply cf_zone_name|].
  intros [zn|e] w1 [H1 Hn]; [|left; split; [by apply same_record_values|done]].
  apply wp_try. eapply wp_mono; [by apply cf_zone_id, Hn|].
  intros [zid|e] w2 [H2 Hz]; [|left; split; [apply same_record_values; by rewrite H1|done]].
  apply (wp_locked h recs (cf_background _ _ _ _ _ Hapi)).
  { intros a w3 w4 Hs. apply (same_record_values recs (trim_matches quote)) in Hs.
    fold txt_values in Hs. unfold touches. by setoid_rewrite Hs. }
  intros w3 H3. assert (same recs w w3) as Hw by (by rewrite H1, H2).
  eapply wp_mono; [apply Hwork; by eapply few_same|]. intros r w' Hr. right. exists (zid, canon f).
  split; [split_and!; [by apply Hz|done|done]|]. apply (same_record_values recs (trim_matches quote)) in Hw. by rewrite Hw.
Qed.

Lemma cf_name f : trim_end_matches dot (to_ascii_lowercase f) = canon f.
Proof. unfold canon. by rewrite lower_trim_end. Qed.

Lemma cf_present f v w :
  few w ->
  wp h (present dbg c f v) (fun r w' => touches txt_values (cf_keys f) (added txt_values) v w r w') w.
Proof.
  intros Hfew. apply wp_try_pure; [|by left]. intros u Hf%validate_fqdn_unit. cbn zeta.
  apply wp_try_pure; [|by left]. intros u' Hv%acme_value_bytes.
  apply (cf_call (added txt_values) (fun z => z +:+ "|" +:+ to_ascii_lowercase f)); [apply _|done|done|]. intros zid w0 Hfew0.
  apply (wp_rec_present recs (trim_matches quote) h r_id record_value
    (list_matching_records dbg c zid (to_ascii_lowercase f)) (create_record dbg c zid (to_ascii_lowercase f))
    zid (canon f) few); [| |done].
  - intros w1 Hw1. rewrite <- cf_name. by apply cf_lists.
  - intros w1. rewrite <- cf_name. by apply cf_creates.
Qed.

Lemma cf_cleanup f v w :
  few w ->
  wp h (cleanup dbg c f v) (fun r w' => touches txt_values (cf_keys f) (removed txt_values) v w r w') w.
Proof.
  intros Hfew. apply wp_try_pure; [|by left]. intros u Hf%validate_fqdn_unit. cbn zeta.
  apply (cf_call (removed txt_values) (fun z => z +:+ "|" +:+ to_ascii_lowercase f)); [apply _|done|done|]. intros zid w0 Hfew0.
  eapply (wp_ext _ _ (rec_cleanup record_value (list_matching_records dbg c zid (to_ascii_lowercase f))
    (fun r => delete_record c zid (r_id r)) v)).
  - unfold rec_cleanup, ptry. rewrite !run_bind.
    destruct (run h (list_matching_records _ _ _ _) w0) as [[l|e] w1]; [|done]. by rewrite cf_delete_matching.
  - apply (wp_rec_cleanup recs (trim_matches quote) h r_id record_value _ _ zid (canon f) few); [| |done].
    + intros w1 Hw1. rewrite <- cf_name. by apply cf_lists.
    + intros r w1. apply cf_deletes.
Qed.
End theory.

(** ** A server, with the zone whose identifier is [z1]

    It lists another zone next to it. *)

Definition cf_demo : CloudflareConfig :=
  mkCloudflareConfig "secret" "https://cf.test"
    (Some (mkZoneOverride "example.com" None)) 60 HTTP_TIMEOUT.

Abbreviation cf_store := (gmap string (string * string)).

Definition ser_pair (p : string * string) : Json :=
  JObj [("id", JStr (fst p)); ("content", JStr (snd p))].

Definition cf_reply (j : Json) : Response := reply 200 (JObj [("success"%string, JBool true); ("result"%string, j)]).

Definition cf_demo_zones (zid : string) : option string :=
  if (zid =? "z0")%string then Some "sub.example.com"%string
  else if (zid =? "z1")%string then Some "example.com"%string else None.

Definition cf_zone_list : Json :=
  JArr [JObj [("id", JStr "z0"); ("name", JStr "sub.example.com")];
        JObj [("id", JStr "z1"); ("name", JStr "example.com")]]%string.

Definition cf_list_prefix : string := "https://cf.test/zones/z1/dns_records?type=TXT&per_page=100&name=".

Definition cf_http (req : Request) (m : cf_store) : result Response ReqwestError * cf_store :=
  match method req with
  | GET =>
      match strip_prefix cf_list_prefix (url req) ≫= percent_decode with
      | Some n => (Ok (cf_reply (JArr (map ser_pair (take 100 (records_of m n))))), m)
      | None =>
          match strip_prefix "https://cf.test/zones?name=" (url req) with
          | Some _ => (Ok (cf_reply cf_zone_list), m)
          | None => (Ok (reply_empty 404), m)
          end
      end
  | POST =>
      match (url req =? "https://cf.test/zones/z1/dns_records")%string, body req with
      | true, Some (JObj [(_, _); (_, JStr n); (_, JStr d); (_, _)]) =>
          let id := fresh (dom m : gset string) in
          (Ok (cf_reply (ser_pair (id, d))), <[id := (n, d)]> m)
      | _, _ => (Ok (reply_empty 404), m)
      end
  | DELETE =>
      match strip_prefix "https://cf.test/zones/z1/dns_records/" (url req) ≫= percent_decode with
      | Some id => (Ok (reply_empty 200), delete id m)
      | None => (Ok (reply_empty 404), m)
      end
  | _ => (Ok (reply_empty 405), m)
  end.

Definition cf_server : handler sysE cf_store := served_by cf_http.

Lemma cf_records_url zid x :
  records_url (X := ref_ext) cf_demo zid +:+ x = "https://cf.test/zones/z1/dns_records" +:+ x <-> zid = "z1"%string.
Proof.
  split; [|by intros ->]. unfold records_url. rewrite !append_assoc. intros E.
  apply (append_inj_l "https://cf.test/zones/" _ (encode_path (X := ref_ext) "z1" +:+ "/dns_records" +:+ x)) in E.
  apply (slash_inj _ (encode_path (X := ref_ext) "z1")) in E as [Ez _]; [|apply encode_path_no_slash..].
  by apply encode_path_inj in Ez.
Qed.

(** The rest of a URL after a prefix that ends with the zone [z1]. *)
Lemma cf_strip zid x y :
  strip_prefix ("https://cf.test/zones/z1/dns_records" +:+ x)
    (records_url (X := ref_ext) cf_demo zid +:+ x +:+ y) = if decide (zid = "z1"%string) then Some y else None.
Proof.
  case_decide as E; [subst; apply (strip_prefix_append ("https://cf.test/zones/z1/dns_records" +:+ x))|].
  destruct (strip_prefix _ _) as [p|] eqn:Ep; [|done]. exfalso. apply E.
  apply strip_prefix_spec in Ep. unfold records_url in Ep. rewrite !append_assoc in Ep.
  apply (append_inj_l "https://cf.test/zones/" _ (encode_path (X := ref_ext) "z1" +:+ "/dns_records" +:+ x +:+ p)) in Ep.
  apply (slash_inj _ (encode_path (X := ref_ext) "z1")) in Ep as [Ez _]; [|apply encode_path_no_slash..].
  by apply encode_path_inj in Ez.
Qed.

Lemma cf_de_ser_pairs l rs : mapM de_CfDnsRecord (map ser_pair l) = Some rs -> map pair_of rs = l.
Proof.
  revert rs. induction l as [|[i d] l IH]; intros rs; cbn; [by intros [= <-]|].
  destruct (mapM de_CfDnsRecord (map ser_pair l)) as [rs'|]; [|done]. intros [= <-]. cbn.
  by rewrite (IH rs' eq_refl).
Qed.

Lemma cf_server_api : cf_api (X := ref_ext) cf_server cf_demo cf_demo_zones (one_zone "z1"%string) records_of.
Proof.
  split.
  - split; [by intros Y e w; destruct e|]. intros [m u q hd b] w; cbn. intros ->. unfold cf_http; cbn [method url].
    by repeat case_match.
  - intros. apply elem_of_records_of.
  - intros [m u q hd b] w resp n b' l z Hr; cbn [method url]. intros -> ->. revert Hr.
    unfold cf_server, served_by, cf_http. cbn [method url].
    change (api_base cf_demo +:+ "/zones?name=" +:+ ?s) with ("https://cf.test/zones?name=" +:+ s).
    change (strip_prefix cf_list_prefix ("https://cf.test/zones?name=" +:+ ?s)) with (@None string).
    cbn [mbind option_bind]. rewrite strip_prefix_append. intros [= <-] _ [= <-] _ [= <-].
    by intros [->|[->|[]%elem_of_nil]%elem_of_cons]%elem_of_cons.
  - done.
  - intros [m u q hd b] w resp zid n b' l Hr; cbn [method url]. intros -> ->. revert Hr.
    unfold cf_server, served_by, cf_http. cbn [method url].
    pose proof (cf_strip zid "?type=TXT&per_page=100&name=" (encode_path (X := ref_ext) n)) as Hs.
    change ("https://cf.test/zones/z1/dns_records" +:+ "?type=TXT&per_page=100&name=") with cf_list_prefix in Hs.
    unfold list_url. rewrite Hs. unfold one_zone. case_decide.
    2: { cbn [mbind option_bind].
         change (strip_prefix "https://cf.test/zones?name=" (records_url (X := ref_ext) cf_demo zid +:+ ?s)) with (@None string).
         by intros [= <-]. }
    cbn [mbind option_bind]. rewrite encode_decode. intros [= <-] _.
    unfold response_json, cf_reply, reply. cbn [resp_body].
    destruct (de_CfEnvelope _ _) as [bb|] eqn:E; [|done]. intros [= <-]. revert E.
    unfold de_CfEnvelope. cbn -[take]. destruct (mapM de_CfDnsRecord _) as [rs|] eqn:E; [|done].
    intros [= <-] _ [= <-]. by apply cf_de_ser_pairs.
  - intros [m u q hd b] zid rn d t Hm Hu Hb w; cbn [method url body] in *. subst.
    unfold cf_server, served_by, cf_http. cbn [method url body].
    destruct (String.eqb_spec (records_url (X := ref_ext) cf_demo zid) "https://cf.test/zones/z1/dns_records") as [E|].
    + assert (zid = "z1"%string) as -> by (apply (cf_records_url zid EmptyString); by rewrite !append_nil_r).
      cbn. assert (w !! fresh (dom w) = None) as Hf by (apply not_elem_of_dom, is_fresh).
      split; [right|intros resp _ _]; by apply one_zone_creates.
    + split; [by left|]. intros resp [= <-]. by intros [? _].
  - intros [m u q hd b] zid id Hm Hu w; cbn [method url] in *. subst.
    unfold cf_server, served_by, cf_http. cbn [method url].
    pose proof (cf_strip zid "/" (encode_path (X := ref_ext) id)) as Hs.
    change ("https://cf.test/zones/z1/dns_records" +:+ "/") with "https://cf.test/zones/z1/dns_records/"%string in Hs.
    replace (record_item_url (X := ref_ext) cf_demo zid id)
      with (records_url (X := ref_ext) cf_demo zid +:+ "/" +:+ encode_path (X := ref_ext) id)
      by (unfold record_item_url, records_url; by rewrite !append_assoc).
    rewrite Hs. case_decide as E.
    + cbn [mbind option_bind]. rewrite encode_decode. subst.
      split; [right|intros resp _ _]; apply one_zone_deletes.
    + split; [by left|]. intros resp _ _. by apply one_zone_deletes_other.
Qed.

(** ** Properties *)


Definition cf_demo_state : cf_store := {["r7"%string := ("_acme-challenge.example.com", quoted "other")%string]}.

Lemma cf_demo_few : few (one_zone "z1"%string) records_of cf_demo_state.
Proof.
  intros zid n. unfold one_zone, records_of.
  case_decide; [|rewrite map_to_list_empty; cbn; lia]. unfold cf_demo_state.
  rewrite map_to_list_singleton. cbn. case_decide; cbn; lia.
Qed.

Definition cf_demo_call : sys (dns_result unit) :=
  present (X := ref_ext) (fun _ => EmptyString) cf_demo "_acme-challenge.Example.com." "tok".

