(* ===== verification/Bunny.v ===== *)
(** * The Bunny DNS provider (src/providers/bunny.rs)

    Zones are found by their domain in the zones of the account, page by
    page; the records of a zone come with the zone; one is created, or
    deleted by its identifier.  [bunny_api] states what the Bunny API
    documents of the requests this file sends. *)

From S2P Require Import Prelude Rstr Errors Effects Sys Common Zone Provider Txt Records.

Definition BUNNY_API_BASE : string := "https://api.bunny.net".
Definition ENV_API_KEY : string := "BUNNY_API_KEY".
Definition ACCESS_KEY_HEADER : string := "AccessKey".
Definition RECORD_TYPE_TXT : Z := 3.
Definition DEFAULT_TTL : Z := 60.
Definition PER_PAGE : Z := 1000.
Definition MAX_PAGES : Z := 50.
Definition HTTP_TIMEOUT : Duration := from_secs 30.
Definition CONNECT_TIMEOUT : Duration := from_secs 5.
Definition MAX_ERROR_MESSAGE : nat := 512.
Definition PROVIDER : string := "bunny".

Record BunnyConfig : Type := mkBunnyConfig {
  api_key : string;
  api_base : string;
  zone_override : option string;
  ttl : Z;
  http_timeout : Duration
}.

Record BZone : Type := mkBZone {
  bz_id : Z;
  bz_domain : string
}.

(** ** Bodies *)

Record BunnyZoneSummary : Type := mkBunnyZoneSummary {
  zs_id : Z;
  zs_domain : string
}.

Definition de_BunnyZoneSummary (j : Json) : option BunnyZoneSummary :=
  match struct_fields ["Id"; "Domain"] j with
  | Some [i; d] =>
      i' ← required de_i64 i; d' ← defaulted EmptyString de_string d; Some (mkBunnyZoneSummary i' d')
  | _ => None
  end.

Record BunnyZoneList : Type := mkBunnyZoneList {
  items : option (list BunnyZoneSummary);
  has_more_items : bool
}.

Definition de_BunnyZoneList (j : Json) : option BunnyZoneList :=
  match struct_fields ["Items"; "HasMoreItems"] j with
  | Some [i; m] =>
      i' ← defaulted None (de_option (de_vec de_BunnyZoneSummary)) i; m' ← defaulted false de_bool m;
      Some (mkBunnyZoneList i' m')
  | _ => None
  end.

Record BunnyRecord : Type := mkBunnyRecord {
  br_id : Z;
  br_type : Z;
  br_name : option string;
  br_value : option string
}.

Definition de_BunnyRecord (j : Json) : option BunnyRecord :=
  match struct_fields ["Id"; "Type"; "Name"; "Value"] j with
  | Some [i; t; n; v] =>
      i' ← required de_i64 i; t' ← required de_u8 t; n' ← defaulted None (de_option de_string) n;
      v' ← defaulted None (de_option de_string) v; Some (mkBunnyRecord i' t' n' v')
  | _ => None
  end.

(** [BunnyZone]. *)
Definition de_BunnyZone (j : Json) : option (option (list BunnyRecord)) :=
  match struct_fields ["Records"] j with
  | Some [r] => defaulted None (de_option (de_vec de_BunnyRecord)) r
  | _ => None
  end.

Definition ser_AddRecordBody (ty t : Z) (value name : string) : Json :=
  JObj [("Type", JNum ty); ("Ttl", JNum t); ("Value", JStr value); ("Name", JStr name)].

Record BunnyErrorBody : Type := mkBunnyErrorBody {
  error_key : option string;
  err_message : option string
}.

Definition de_BunnyErrorBody (j : Json) : option BunnyErrorBody :=
  match struct_fields ["ErrorKey"; "Message"] j with
  | Some [k; m] =>
      k' ← defaulted None (de_option de_string) k; m' ← defaulted None (de_option de_string) m;
      Some (mkBunnyErrorBody k' m')
  | _ => None
  end.

(** ** Pure helpers *)

(** [is_suffix], for an ASCII [name]. *)
Definition is_suffix (name zone : string) : bool :=
  eq_ignore_ascii_case name zone
  || ((String.length zone <? String.length name)%nat
      && match String.get (String.length name - String.length zone - 1) name with
         | Some b => Ascii.eqb b dot
         | None => false
         end
      && eq_ignore_ascii_case
           (String.substring (String.length name - String.length zone) (String.length zone) name) zone).

Definition record_name (r : BunnyRecord) : string :=
  let name := default EmptyString (br_name r) in
  if (name =? "@")%string then EmptyString else name.

Definition value_text (v : option string) : string := trim_matches quote (trim (default EmptyString v)).
Definition record_value (r : BunnyRecord) : string := value_text (br_value r).

Definition truncate (text : string) : string :=
  if (String.length text <=? MAX_ERROR_MESSAGE)%nat then text
  else take_bytes (find_cut text MAX_ERROR_MESSAGE) text +:+ truncated_mark.

(** [Iterator::max_by_key]: the last of the greatest. *)
Definition max_by_key {A} (key : A -> Z) (l : list A) : option A :=
  fold_left (fun best x =>
    match best with
    | None => Some x
    | Some b => if key b <=? key x then Some x else Some b
    end) l None.

Definition bunny_name (fqdn zone : string) : dns_result string :=
  let! rname := relative_name fqdn zone in
  Ok (if (rname =? "@")%string then EmptyString else rname).

Section bunny.
Context `{X : Ext}.

(** ** Configuration *)

Definition config_new (k : string) : BunnyConfig :=
  mkBunnyConfig k BUNNY_API_BASE None DEFAULT_TTL HTTP_TIMEOUT.

Definition with_api_base (c : BunnyConfig) (base : string) : dns_result BunnyConfig :=
  let! _ := validate_https_base base PROVIDER in
  Ok (mkBunnyConfig (api_key c) (trim_end_matches "/" base) (zone_override c) (ttl c) (http_timeout c)).

Definition with_zone (c : BunnyConfig) (zone : string) : dns_result BunnyConfig :=
  let! _ := validate_zone zone in
  Ok (mkBunnyConfig (api_key c) (api_base c)
        (Some (to_ascii_lowercase (trim_end_matches dot zone))) (ttl c) (http_timeout c)).

Definition with_ttl (c : BunnyConfig) (t : Z) : dns_result BunnyConfig :=
  let! t' := validate_ttl t in
  Ok (mkBunnyConfig (api_key c) (api_base c) (zone_override c) t' (http_timeout c)).

Definition with_timeout (c : BunnyConfig) (d : Duration) : BunnyConfig :=
  mkBunnyConfig (api_key c) (api_base c) (zone_override c) (ttl c) d.

Definition new (client : Duration -> Duration -> result unit ReqwestError) (c : BunnyConfig)
  : dns_result BunnyConfig :=
  let! _ := map_err Http (client (http_timeout c) CONNECT_TIMEOUT) in Ok c.

Definition from_env (client : Duration -> Duration -> result unit ReqwestError)
    (var : string -> option string) : dns_result BunnyConfig :=
  let! k := ok_or (var ENV_API_KEY) (MissingCredentials ENV_API_KEY) in
  new client (config_new k).

(** ** Requests *)

Definition zone_path (zone_id : Z) : string := "/dnszone/" +:+ pretty zone_id.
Definition records_path (zone_id : Z) : string := "/dnszone/" +:+ pretty zone_id +:+ "/records".
Definition record_item_path (zone_id record_id : Z) : string :=
  "/dnszone/" +:+ pretty zone_id +:+ "/records/" +:+ pretty record_id.
Definition url_of (c : BunnyConfig) (path : string) : string := api_base c +:+ path.
Definition auth (c : BunnyConfig) : list (string * string) := [(ACCESS_KEY_HEADER, api_key c)].

Definition check_error (meth path : string) (response : Response) : DnsError :=
  if status response =? 429 then
    let hint :=
      match header_str "retry-after" response with
      | Some secs => "retry after " +:+ secs +:+ "s"
      | None => "retry later"
      end in
    Api (PROVIDER +:+ " " +:+ meth +:+ " " +:+ path +:+ " was rate limited (429), " +:+ hint)
  else if status response =? 401 then
    Auth (PROVIDER +:+ " " +:+ meth +:+ " " +:+ path +:+ " rejected the API key (401)")
  else
    let is_json :=
      match header_str "content-type" response with Some ct => contains "json" ct | None => false end in
    if negb is_json then api_error PROVIDER meth path response
    else
      let raw := text_or_default response in
      let detail :=
        match from_body de_BunnyErrorBody response with
        | Some (mkBunnyErrorBody k (Some m)) =>
            match k with
            | Some key => truncate key +:+ ": " +:+ truncate m
            | None => truncate m
            end
        | _ => truncate raw
        end in
      Api (PROVIDER +:+ " " +:+ meth +:+ " " +:+ path +:+ " returned "
           +:+ status_text (status response) +:+ ": " +:+ detail).

(** The loop of [list_zones], with [left = MAX_PAGES - page]. *)
Fixpoint list_zones_loop (c : BunnyConfig) (search : string) (left : nat) (zones : list BZone)
  : sys (dns_result (list BZone)) :=
  let page := MAX_PAGES - Z.of_nat left in
  await? response :=
    send (mkRequest GET (url_of c "/dnszone")
            [("search", search); ("perPage", pretty PER_PAGE); ("page", pretty page)] (auth c) None) in
  if negb (is_success (status response)) then Ret (Err (check_error "GET" "/dnszone" response))
  else
    try? body := response_json de_BunnyZoneList response in
    let zones := zones ++ map (fun z => mkBZone (zs_id z) (to_ascii_lowercase (trim_end_matches dot (zs_domain z))))
                              (default [] (items body)) in
    if negb (has_more_items body) then Ret (Ok zones)
    else
      match left with
      | O => Ret (Err (Api (PROVIDER +:+ " GET /dnszone: more than " +:+ pretty MAX_PAGES +:+ " pages of zones")))
      | S left' => list_zones_loop c search left' zones
      end.

Definition list_zones (c : BunnyConfig) (search : string) : sys (dns_result (list BZone)) :=
  list_zones_loop c search (Z.to_nat (MAX_PAGES - 1)) [].

(** The last two labels of a name. *)
Definition search_of (name : string) : string :=
  let labels := split dot name in join "." (drop (length labels - 2) labels).

Definition resolve_zone (c : BunnyConfig) (fqdn : string) : sys (dns_result BZone) :=
  let name := trim_end_matches dot fqdn in
  match zone_override c with
  | Some zone =>
      await? zones := list_zones c zone in
      Ret (ok_or (List.find (fun z => (bz_domain z =? zone)%string) zones) (ZoneNotFound zone))
  | None =>
      await? zones := list_zones c (search_of name) in
      Ret (ok_or (max_by_key (fun z => len (bz_domain z))
                    (List.filter (fun z => is_suffix name (bz_domain z)) zones)) (ZoneNotFound fqdn))
  end.

Definition list_matching_records (c : BunnyConfig) (zone : BZone) (rname : string)
  : sys (dns_result (list BunnyRecord)) :=
  let path := zone_path (bz_id zone) in
  await? response := send (mkRequest GET (url_of c path) [] (auth c) None) in
  if status response =? 404 then Ret (Err (ZoneNotFound (bz_domain zone)))
  else if negb (is_success (status response)) then Ret (Err (check_error "GET" path response))
  else
    try? body := response_json de_BunnyZone response in
    Ret (Ok (List.filter (fun r => (br_type r =? RECORD_TYPE_TXT) && eq_ignore_ascii_case (record_name r) rname)
                         (default [] body))).

Definition create_record (c : BunnyConfig) (zone : BZone) (rname value : string) : sys (dns_result unit) :=
  let path := records_path (bz_id zone) in
  let body := ser_AddRecordBody RECORD_TYPE_TXT (ttl c) value rname in
  await? response := send (mkRequest PUT (url_of c path) [] (auth c) (Some body)) in
  if status response =? 404 then Ret (Err (ZoneNotFound (bz_domain zone)))
  else if negb (is_success (status response)) then Ret (Err (check_error "PUT" path response))
  else Ret (Ok tt).

Definition delete_record (c : BunnyConfig) (zone : BZone) (record_id : Z) : sys (dns_result unit) :=
  let path := record_item_path (bz_id zone) record_id in
  await? response := send (mkRequest DELETE (url_of c path) [] (auth c) None) in
  if negb (is_success (status response)) && negb (status response =? 404) then
    Ret (Err (check_error "DELETE" path response))
  else Ret (Ok tt).

(** ** Operations *)

Definition present (c : BunnyConfig) (fqdn value : string) : sys (dns_result unit) :=
  try? _ := validate_fqdn fqdn in
  let fqdn := to_ascii_lowercase fqdn in
  try? _ := validate_acme_value value in
  await? zone := resolve_zone c fqdn in
  try? rname := bunny_name fqdn (bz_domain zone) in
  with_lock (bz_domain zone +:+ "|" +:+ rname)
    (await? existing := list_matching_records c zone rname in
     if existsb (fun rec => (record_value rec =? value)%string) existing then Ret (Ok tt)
     else create_record c zone rname value).

Fixpoint delete_matching (c : BunnyConfig) (zone : BZone) (value : string) (existing : list BunnyRecord)
  : sys (dns_result unit) :=
  match existing with
  | [] => Ret (Ok tt)
  | rec :: rest =>
      if (record_value rec =? value)%string then
        await? _ := delete_record c zone (br_id rec) in
        delete_matching c zone value rest
      else delete_matching c zone value rest
  end.

Definition cleanup (c : BunnyConfig) (fqdn value : string) : sys (dns_result unit) :=
  try? _ := validate_fqdn fqdn in
  let fqdn := to_ascii_lowercase fqdn in
  await? zone := resolve_zone c fqdn in
  try? rname := bunny_name fqdn (bz_domain zone) in
  with_lock (bz_domain zone +:+ "|" +:+ rname)
    (await? existing := list_matching_records c zone rname in
     delete_matching c zone value existing).
End bunny.

(** ** The Bunny API

    [zones] maps the identifiers of the zones of the account to their domains,
    in lower case and without a trailing dot; [recs w zid] maps identifiers to
    the TXT records of the zone [zid], each with its relative name, in lower
    case and empty at the apex, and its value. *)

(** The relative name of a record that the API answers with. *)
Definition owner_of (r : BunnyRecord) : string :=
  match br_name r with
  | None => EmptyString
  | Some n => if (n =? "@")%string then EmptyString else to_ascii_lowercase n
  end.

Record bunny_api `{X : Ext} {W} (h : handler sysE W) (c : BunnyConfig) (zones : Z -> option string)
    (recs : W -> Z -> gmap Z (string * string)) : Prop := {
  ba_background : background h recs;
  ba_domains : forall zid d, zones zid = Some d -> canon d = d;
  ba_zones : forall req w resp b s,
    fst (h _ (HttpSend req) w) = Ok resp ->
    method req = GET -> url req = url_of c "/dnszone" ->
    is_success (status resp) = true -> response_json de_BunnyZoneList resp = Ok b ->
    s ∈ default [] (items b) -> zones (zs_id s) = Some (canon (zs_domain s));
  ba_zone : forall req w resp zid b,
    fst (h _ (HttpSend req) w) = Ok resp ->
    method req = GET -> url req = url_of c (zone_path zid) ->
    is_success (status resp) = true -> response_json de_BunnyZone resp = Ok b ->
    forall id n v,
      (exists r, r ∈ default [] b /\ br_type r = 3 /\ br_id r = id /\
                 owner_of r = n /\ default EmptyString (br_value r) = v) <->
      recs w zid !! id = Some (n, v);
  ba_create : forall req zid n v t,
    method req = PUT -> url req = url_of c (records_path zid) ->
    body req = Some (ser_AddRecordBody 3 t v n) ->
    posts recs h req zid (to_ascii_lowercase n) v (fun resp => is_success (status resp) = true);
  ba_delete : forall req zid id,
    method req = DELETE -> url req = url_of c (record_item_path zid id) -> drops recs h req zid id
}.

Section theory.
Context `{X : Ext} `{S : !ExtSpec X} {W : Type} (h : handler sysE W) (c : BunnyConfig).
Context (zones : Z -> option string) (recs : W -> Z -> gmap Z (string * string)).
Context (Hapi : bunny_api h c zones recs).

Definition bunny_decode (v : string) : string := trim_matches quote (trim v).
Definition txt_values : W -> Z * string -> list string := record_values recs bunny_decode.

Lemma owner_of_name r : owner_of r = to_ascii_lowercase (record_name r).
Proof. unfold owner_of, record_name. destruct (br_name r) as [n|]; [|done]. cbn. by destruct (n =? "@")%string. Qed.

Lemma bunny_lists z rn w :
  wp h (list_matching_records c z rn) (fun r w' => same recs w w' /\
    forall l, r = Ok l -> forall id v,
      (exists r, r ∈ l /\ br_id r = id /\ record_value r = v) <->
      (exists d, recs w (bz_id z) !! id = Some (to_ascii_lowercase rn, d) /\ bunny_decode d = v)) w.
Proof.
  apply wp_try, (wp_read h recs (ba_background _ _ _ _ Hapi)); [done|].
  intros w' Hw'. split; [done|]. intros resp w0 Hw0 Hresp.
  destruct (status resp =? 404); [by apply wp_ret|].
  destruct (is_success (status resp)) eqn:Es; [|by apply wp_ret].
  apply wp_try_pure; [|done]. intros b Hb. apply wp_ret. split; [done|]. intros l [= <-] id v.
  pose proof (ba_zone _ _ _ _ Hapi _ _ _ (bz_id z) b Hresp eq_refl eq_refl Es Hb id) as Hz.
  rewrite <- (Hw0 (bz_id z)). setoid_rewrite owner_of_name in Hz. setoid_rewrite filter_elem. split.
  - intros (r & [Hin Hr] & Hid & <-). apply andb_true_iff in Hr as [Ht%Z.eqb_eq Hn%String.eqb_eq].
    exists (default EmptyString (br_value r)). split; [|done]. apply Hz. by exists r.
  - intros (d & Hd & <-). apply Hz in Hd as (r & Hin & Ht & Hid & Hn & <-). exists r. split_and!; try done.
    apply andb_true_iff. split; [by apply Z.eqb_eq|by apply String.eqb_eq].
Qed.

Lemma bunny_creates z rn v w :
  all_bytes name_byte v = true ->
  wp h (create_record c z rn v) (fun r w' =>
    (same recs w w' \/ creates recs bunny_decode (bz_id z) (to_ascii_lowercase rn) v w w') /\
    (r = Ok tt -> creates recs bunny_decode (bz_id z) (to_ascii_lowercase rn) v w w')) w.
Proof.
  intros Hv. assert (bunny_decode v = v) as Hd.
  { unfold bunny_decode. destruct (name_bytes_trim v Hv) as [-> ?]. done. }
  apply wp_try. eapply (wp_post recs bunny_decode h (ba_background _ _ _ _ Hapi) _ (bz_id z)
    (to_ascii_lowercase rn) v); [by eapply (ba_create _ _ _ _ Hapi)|]. rewrite Hd.
  intros [resp|e] w' Hw Ho; [|done]. destruct (status resp =? 404); [by apply wp_ret|].
  destruct (is_success (status resp)) eqn:Es; by apply wp_ret; eauto.
Qed.

Lemma bunny_deletes z id w :
  wp h (delete_record c z id) (fun r w' =>
    (same recs w w' \/ deletes recs (bz_id z) id w w') /\ (r = Ok tt -> deletes recs (bz_id z) id w w')) w.
Proof.
  apply wp_try. eapply (wp_drop recs h (ba_background _ _ _ _ Hapi) _ (bz_id z) id); [by apply (ba_delete _ _ _ _ Hapi)|].
  intros [resp|e] w' Hw Ho; [|done].
  destruct (is_success (status resp)) eqn:Es; [by apply wp_ret; eauto|].
  destruct (Z.eqb_spec (status resp) 404); by apply wp_ret; eauto.
Qed.

Lemma bunny_delete_matching z v l :
  delete_matching c z v l = rec_deletes record_value (fun r => delete_record c z (br_id r)) v l.
Proof. induction l as [|r l IH]; cbn; [done|]. by rewrite IH. Qed.

Lemma bunny_list_zones search left found w :
  wp h (list_zones_loop c search left found) (fun r w' => same recs w w' /\
    forall l z, r = Ok l -> z ∈ l -> z ∈ found \/ zones (bz_id z) = Some (bz_domain z)) w.
Proof.
  revert found w. induction left as [|left IH]; intros found w; cbn [list_zones_loop];
    apply wp_try, (wp_read h recs (ba_background _ _ _ _ Hapi)); try done;
    intros w' Hw'; (split; [done|]); intros resp w0 _ Hresp;
    (destruct (is_success (status resp)) eqn:Es; [|by apply wp_ret]);
    (apply wp_try_pure; [|done]); intros b Hb; cbn zeta; set (more := map _ _);
    (assert (forall z, z ∈ more -> zones (bz_id z) = Some (bz_domain z)) as Hm;
     [intros z (s & -> & Hs)%list_elem_of_fmap;
      exact (ba_zones _ _ _ _ Hapi _ _ _ b s Hresp eq_refl eq_refl Es Hb Hs)|]);
    (assert (forall z, z ∈ found ++ more -> z ∈ found \/ zones (bz_id z) = Some (bz_domain z)) as Hf;
     [intros z [?|?]%elem_of_app; auto|]);
    (destruct (has_more_items b); [|apply wp_ret; split; [done|]; intros l z [= <-]; apply Hf]).
  - by apply wp_ret.
  - eapply wp_mono; [apply IH|]. intros a w2 [H2 Hl]. split; [by rewrite Hw'|].
    intros l z Ha Hz. destruct (Hl l z Ha Hz) as [?|?]; auto.
Qed.

(** A zone of the account: the configured one, if there is one. *)
Definition bunny_zone (zid : Z) (d : string) : Prop :=
  zones zid = Some d /\ forall d', zone_override c = Some d' -> d = d'.
End theory.

(** ** The zone chosen *)

Lemma max_by_key_spec {A} (key : A -> Z) l x :
  max_by_key key l = Some x -> x ∈ l /\ forall y, y ∈ l -> key y <= key x.
Proof.
  unfold max_by_key.
  assert (forall l best, fold_left (fun best x =>
    match best with None => Some x | Some b => if key b <=? key x then Some x else Some b end) l best = Some x ->
    (x ∈ l \/ best = Some x) /\ (forall y, y ∈ l \/ best = Some y -> key y <= key x)) as H.
  { clear. induction l as [|y l IH]; intros best; cbn.
    - intros ->. split; [by right|]. intros y [?%elem_of_nil|[= <-]]; [done|lia].
    - intros Hf. apply IH in Hf as [Hin Hmax]. split.
      + destruct Hin as [Hin|Hb]; [left; by right|]. destruct best as [b|].
        * destruct (key b <=? key y); injection Hb as ->; [left; left|by right].
        * injection Hb as ->. left; left.
      + intros z [[->|Hz]%elem_of_cons| ->].
        * destruct best as [b|]; [destruct (Z.leb_spec (key b) (key y))|]; [by apply Hmax; right| |by apply Hmax; right].
          specialize (Hmax b (or_intror eq_refl)). lia.
        * apply Hmax. by left.
        * destruct (Z.leb_spec (key z) (key y)) as [Hle|]; [|by apply Hmax; right].
          specialize (Hmax y (or_intror eq_refl)). lia. }
  intros Hf. apply H in Hf as [[?|?] Hmax]; [|done]. split; [done|]. intros y Hy. apply Hmax. by left.
Qed.

Lemma max_by_key_none {A} (key : A -> Z) l : max_by_key key l = None -> l = [].
Proof.
  unfold max_by_key. destruct l as [|x l]; [done|]. cbn.
  assert (forall (l : list A) b, fold_left (fun best x =>
    match best with None => Some x | Some b => if key b <=? key x then Some x else Some b end) l (Some b) <> None) as H.
  { clear. induction l as [|y l IH]; intros b; cbn; [done|]. destruct (key b <=? key y); apply IH. }
  intros E. by destruct (H l x).
Qed.

Lemma get_split n s b :
  String.get n s = Some b -> exists p q, s = p +:+ String b q /\ String.length p = n.
Proof.
  revert n. induction s as [|x s IH]; intros [|n]; cbn; try done.
  - intros [= ->]. by exists EmptyString, s.
  - intros Hg. destruct (IH n Hg) as (p & q & -> & <-). by exists (String x p), q.
Qed.

Lemma substring_after p b q :
  String.substring (S (String.length p)) (String.length q) (p +:+ String b q) = q.
Proof.
  assert (forall q, String.substring 0 (String.length q) q = q) as H0.
  { clear. induction q as [|x q IH]; cbn; [done|]. by rewrite IH. }
  induction p as [|x p IH]; cbn; [apply H0|exact IH].
Qed.

(** [is_suffix] decides whether a zone holds a name. *)
Lemma is_suffix_relative name zone :
  to_ascii_lowercase name = name -> to_ascii_lowercase zone = zone ->
  trim_end_matches dot name = name -> trim_end_matches dot zone = zone ->
  (is_suffix name zone = true <-> exists r, relative_name name zone = Ok r).
Proof.
  intros Ln Lz Tn Tz. setoid_rewrite relative_name_ok. rewrite Tn, Tz.
  unfold is_suffix, eq_ignore_ascii_case. rewrite Ln, Lz, orb_true_iff, String.eqb_eq. split.
  - intros [->|H]; [by exists "@"; left|].
    rewrite !andb_true_iff, Nat.ltb_lt in H. destruct H as [[Hlt Hd] Hs].
    destruct (String.get _ name) as [b|] eqn:Eg; [|done]. apply Ascii.eqb_eq in Hd as ->.
    apply get_split in Eg as (p & q & -> & Hp). rewrite length_append in Hlt, Hp, Hs. cbn in Hlt, Hp, Hs.
    assert (String.length q = String.length zone) as Hq by lia.
    replace (String.length p + S (String.length q) - String.length zone)%nat with (S (String.length p)) in Hs by lia.
    rewrite <- Hq, substring_after in Hs. apply String.eqb_eq in Hs.
    assert (to_ascii_lowercase q = q) as Lq.
    { rewrite lower_append in Ln. apply append_split in Ln as [_ Ln]; [by injection Ln|apply lower_length]. }
    exists p. right. assert (q = zone) as -> by congruence.
    split; [|done]. intros E. apply (f_equal String.length) in E. rewrite length_append in E. cbn in E. lia.
  - intros (r & [[-> _]|[Hne Hr]]); [by left|right]. rewrite Hr, length_append. cbn [String.length String.append].
    rewrite !andb_true_iff, Nat.ltb_lt. change ("." +:+ zone) with (String dot zone).
    replace (String.length r + S (String.length zone) - String.length zone - 1)%nat with (String.length r + 0)%nat by lia.
    replace (String.length r + S (String.length zone) - String.length zone)%nat with (S (String.length r)) by lia.
    rewrite get_append, substring_after. cbn [String.get]. split_and!; [lia|done|].
    by rewrite Lz, String.eqb_refl.
Qed.

Section calls.
Context `{X : Ext} `{S : !ExtSpec X} {W : Type} (h : handler sysE W) (c : BunnyConfig).
Context (zones : Z -> option string) (recs : W -> Z -> gmap Z (string * string)).
Context (Hapi : bunny_api h c zones recs).

Lemma bunny_resolve fqdn w :
  wp h (resolve_zone c fqdn) (fun r w' => same recs w w' /\
    forall z, r = Ok z -> bunny_zone c zones (bz_id z) (bz_domain z)) w.
Proof.
  unfold resolve_zone, bunny_zone. cbn zeta. destruct (zone_override c) as [d|].
  - apply wp_try. eapply wp_mono; [apply (bunny_list_zones h c zones recs Hapi)|].
    intros [l|e] w' [Hw Hl]; [|done]. apply wp_ret. split; [done|]. intros z Hz%ok_or_ok.
    apply List.find_some in Hz as [Hin%list_elem_of_In Hz%String.eqb_eq].
    destruct (Hl l z eq_refl Hin) as [?%elem_of_nil|?]; [done|]. split; [done|]. by intros d' [= <-].
  - apply wp_try. eapply wp_mono; [apply (bunny_list_zones h c zones recs Hapi)|].
    intros [l|e] w' [Hw Hl]; [|done]. apply wp_ret. split; [done|]. intros z Hz%ok_or_ok.
    apply max_by_key_spec in Hz as [Hz _]. apply filter_elem in Hz as [Hin _].
    by destruct (Hl l z eq_refl Hin) as [?%elem_of_nil|?].
Qed.

(** The domain name of a relative name in a zone. *)
Definition in_domain (rn d : string) : string := if is_empty rn then d else rn +:+ "." +:+ d.

(** The records a call for [f] may touch: those with its name, in a zone of the
    account, the configured one if there is one. *)
Definition bunny_keys (f : string) (k : Z * string) : Prop :=
  exists d, bunny_zone c zones (fst k) d /\ valid_name f /\ in_domain (snd k) d = canon f.

Lemma bunny_name_in f d rn :
  valid_name f -> canon d = d -> bunny_name (to_ascii_lowercase f) d = Ok rn ->
  in_domain (to_ascii_lowercase rn) d = canon f.
Proof.
  intros Hf Hd Hr. unfold bunny_name in Hr. destruct (relative_name _ _) as [r|] eqn:E; [|done].
  cbn [rbind] in Hr. pose proof (relative_lower _ _ _ E) as Hl. pose proof (relative_not_empty f _ _ Hf E) as Hne.
  rewrite <- (relative_canon f d r Hf E). unfold absolute_name, in_domain.
  assert (trim_end_matches dot d = d) as -> by (rewrite <- Hd; unfold canon; by rewrite lower_trim_end, trim_end_idem).
  destruct (r =? "@")%string; injection Hr as <-; [done|]. rewrite Hl. by destruct r.
Qed.

Lemma bunny_call (post : Z * string -> string -> W -> dns_result unit -> W -> Prop) key work f v w
    (Hpost : forall k v, Proper (same (txt_values recs) ==> eq ==> same (txt_values recs) ==> iff) (post k v)) :
  valid_name f ->
  (forall z rn w0, wp h (work z rn) (fun r w' => post (bz_id z, to_ascii_lowercase rn) v w0 r w') w0) ->
  wp h (await? zone := resolve_zone c (to_ascii_lowercase f) in
        try? rname := bunny_name (to_ascii_lowercase f) (bz_domain zone) in
        with_lock (key zone rname) (work zone rname))
     (fun r w' => touches (txt_values recs) (bunny_keys f) post v w r w') w.
Proof.
  intros Hf Hwork. apply wp_try. eapply wp_mono; [apply bunny_resolve|].
  intros [z|e] w1 [H1 Hz]; [|left; split; [by apply same_record_values|done]].
  apply wp_try_pure; [|intros; left; split; [by apply same_record_values|done]]. intros rn Hrn.
  apply (wp_locked h recs (ba_background _ _ _ _ Hapi)).
  { intros a w3 w4 Hs. apply (same_record_values recs bunny_decode) in Hs.
    unfold touches, txt_values in *. by setoid_rewrite Hs. }
  intros w3 H3. assert (same recs w w3) as Hw by (by rewrite H1).
  eapply wp_mono; [apply Hwork|]. intros r w' Hr. right. exists (bz_id z, to_ascii_lowercase rn).
  split.
  { exists (bz_domain z). specialize (Hz z eq_refl). split_and!; [done|done|].
    eapply bunny_name_in; [done| |done]. eapply (ba_domains _ _ _ _ Hapi), Hz. }
  apply (same_record_values recs bunny_decode) in Hw. unfold txt_values in *. by rewrite Hw.
Qed.

Lemma bunny_present f v w :
  wp h (present c f v) (fun r w' =>
    touches (txt_values recs) (bunny_keys f) (added (txt_values recs)) v w r w') w.
Proof.
  apply wp_try_pure; [|by left]. intros u Hf%validate_fqdn_unit. cbn zeta.
  apply wp_try_pure; [|by left]. intros u' Hv%acme_value_bytes.
  apply (bunny_call (added (txt_values recs)) (fun z rn => bz_domain z +:+ "|" +:+ rn)); [apply _|done|].
  intros z rn w0.
  apply (wp_rec_present recs bunny_decode h br_id record_value
    (list_matching_records c z rn) (create_record c z rn) (bz_id z) (to_ascii_lowercase rn) (fun _ => True)); [| |done].
  - intros w1 _. by apply (bunny_lists h c zones recs Hapi).
  - intros w1. by apply (bunny_creates h c zones recs Hapi).
Qed.

Lemma bunny_cleanup f v w :
  wp h (cleanup c f v) (fun r w' =>
    touches (txt_values recs) (bunny_keys f) (removed (txt_values recs)) v w r w') w.
Proof.
  apply wp_try_pure; [|by left]. intros u Hf%validate_fqdn_unit. cbn zeta.
  apply (bunny_call (removed (txt_values recs)) (fun z rn => bz_domain z +:+ "|" +:+ rn)); [apply _|done|].
  intros z rn w0.
  eapply (wp_ext _ _ (rec_cleanup record_value (list_matching_records c z rn)
    (fun r => delete_record c z (br_id r)) v)).
  - unfold rec_cleanup, ptry. rewrite !run_bind.
    destruct (run h (list_matching_records _ _ _) w0) as [[l|e] w1]; [|done]. by rewrite bunny_delete_matching.
  - apply (wp_rec_cleanup recs bunny_decode h br_id record_value _ _ (bz_id z) (to_ascii_lowercase rn)
      (fun _ => True)); [| |done].
    + intros w1 _. by apply (bunny_lists h c zones recs Hapi).
    + intros r w1. by apply (bunny_deletes h c zones recs Hapi).
Qed.
End calls.

(** ** A server, with the zone [example.com] whose identifier is 1 *)

Definition bunny_demo : BunnyConfig :=
  mkBunnyConfig "secret" "https://bunny.test" None 60 HTTP_TIMEOUT.

Abbreviation bunny_store := (gmap Z (string * string)).

Definition ser_record (r : Z * (string * string)) : Json :=
  JObj [("Id", JNum (fst r)); ("Type", JNum 3); ("Name", JStr (fst (snd r))); ("Value", JStr (snd (snd r)))].

(** Names are kept in lower case, and empty at the apex. *)
Definition normal (r : Z * (string * string)) : bool :=
  (to_ascii_lowercase (fst (snd r)) =? fst (snd r))%string && negb (fst (snd r) =? "@")%string.

Definition bunny_http (req : Request) (m : bunny_store) : result Response ReqwestError * bunny_store :=
  match method req with
  | GET =>
      if (url req =? "https://bunny.test/dnszone")%string then
        (Ok (reply 200 (JObj [("Items"%string, JArr [JObj [("Id"%string, JNum 1); ("Domain"%string, JStr "Example.com.")];
                                        JObj [("Id"%string, JNum 2); ("Domain"%string, JStr "com.example.com")]])])), m)
      else if (url req =? "https://bunny.test/dnszone/1")%string && forallb normal (map_to_list m) then
        (Ok (reply 200 (JObj [("Records"%string, JArr (map ser_record (map_to_list m)))])), m)
      else (Ok (reply_empty 404), m)
  | PUT =>
      match (url req =? "https://bunny.test/dnszone/1/records")%string, body req with
      | true, Some (JObj [(_, _); (_, _); (_, JStr v); (_, JStr n)]) =>
          (Ok (reply_empty 201), <[fresh (dom m : gset Z) := (to_ascii_lowercase n, v)]> m)
      | _, _ => (Ok (reply_empty 404), m)
      end
  | DELETE =>
      (Ok (reply_empty 204),
       filter (fun r => "https://bunny.test/dnszone/1/records/" +:+ pretty (fst r) <> url req) m)
  | _ => (Ok (reply_empty 405), m)
  end.

Definition bunny_server : handler sysE bunny_store := served_by bunny_http.

Definition demo_zones (zid : Z) : option string :=
  if zid =? 1 then Some "example.com"%string else if zid =? 2 then Some "com.example.com"%string else None.

Definition record_of (r : Z * (string * string)) : BunnyRecord :=
  mkBunnyRecord (fst r) 3 (Some (fst (snd r))) (Some (snd (snd r))).

Lemma bunny_de_ser l rs : mapM de_BunnyRecord (map ser_record l) = Some rs -> rs = map record_of l.
Proof.
  revert rs. induction l as [|[i [n v]] l IH]; intros rs; cbn -[de_i64]; [by intros [= <-]|].
  destruct (de_i64 (JNum i)) as [i'|] eqn:E; [|done]. cbn.
  destruct (mapM de_BunnyRecord (map ser_record l)) as [rs'|]; [|done]. intros [= <-].
  rewrite (IH rs' eq_refl). f_equal. unfold record_of. cbn. f_equal.
  unfold de_i64, de_int in E. destruct (_ && _); [|done]. by injection E.
Qed.

Lemma bunny_item_url i zid id :
  "https://bunny.test/dnszone/1/records/" +:+ pretty i = url_of bunny_demo (record_item_path zid id) ->
  zid = 1 /\ i = id.
Proof.
  unfold url_of, record_item_path. intros E.
  assert ("https://bunny.test/dnszone/" +:+ (pretty 1 +:+ "/records/" +:+ pretty i) =
          "https://bunny.test/dnszone/" +:+ (pretty zid +:+ "/records/" +:+ pretty id)) as E' by exact E.
  clear E. apply append_inj_l in E' as E.
  apply (slash_inj (pretty 1)) in E as [Ez E]; [|apply pretty_no_slash..].
  apply pretty_Z_inj in Ez as <-. split; [done|]. apply (append_inj_l "records/") in E. by apply pretty_Z_inj.
Qed.

Lemma bunny_server_api : bunny_api (X := ref_ext) bunny_server bunny_demo demo_zones (one_zone 1).
Proof.
  split.
  - split; [by intros Y e w; destruct e|]. intros [m u q hd b] w; cbn. intros ->. unfold bunny_http; cbn.
    repeat case_match; done.
  - intros zid d. unfold demo_zones. destruct (zid =? 1); [by intros [= <-]|].
    destruct (zid =? 2); [by intros [= <-]|done].
  - intros [m u q hd b] w resp b' z Hr; cbn [method url]. intros -> ->. revert Hr.
    assert (forall q hd b, bunny_http (mkRequest GET (url_of bunny_demo "/dnszone") q hd b) w =
      (Ok (reply 200 (JObj [("Items"%string, JArr [JObj [("Id"%string, JNum 1); ("Domain"%string, JStr "Example.com.")];
        JObj [("Id"%string, JNum 2); ("Domain"%string, JStr "com.example.com")]])])), w)) as E by reflexivity.
    unfold bunny_server, served_by. rewrite E. cbn [fst]. intros Hr _. apply (inj Ok) in Hr. subst resp.
    intros Hb. apply (inj Ok (_ : BunnyZoneList)) in Hb. subst b'. intros Hz. cbn in Hz. repeat (apply elem_of_cons in Hz as [->|Hz]; [reflexivity|]).
    by apply elem_of_nil in Hz.
  - intros [m u q hd b] w resp zid b' Hr; cbn [method url]. intros -> ->. revert Hr.
    unfold bunny_server, served_by, bunny_http. cbn [method url].
    destruct (String.eqb_spec (url_of bunny_demo (zone_path zid)) "https://bunny.test/dnszone") as [E|_].
    { apply (f_equal String.length) in E. unfold url_of, zone_path in E. cbn in E. lia. }
    destruct (String.eqb_spec (url_of bunny_demo (zone_path zid)) "https://bunny.test/dnszone/1") as [E|_];
      [|by intros [= <-]].
    assert ("https://bunny.test/dnszone/" +:+ pretty zid = "https://bunny.test/dnszone/" +:+ pretty 1) as Ez by exact E.
    apply append_inj_l, pretty_Z_inj in Ez as ->. clear E.
    destruct (forallb normal (map_to_list w)) eqn:Hn; [|by intros [= <-]].
    intros [= <-] _. unfold response_json, reply. cbn [resp_body].
    destruct (de_BunnyZone _) as [bb|] eqn:E; [|done]. intros [= <-]. revert E.
    unfold de_BunnyZone. cbn. destruct (mapM de_BunnyRecord _) as [rs|] eqn:E; [|done].
    intros [= <-]. apply bunny_de_ser in E as ->. cbn [default]. intros id n v. unfold one_zone.
    rewrite decide_True by done. rewrite <- elem_of_map_to_list. rewrite forallb_forall in Hn.
    setoid_rewrite <- list_elem_of_In in Hn.
    assert (forall i m x, (i, (m, x)) ∈ map_to_list w -> owner_of (record_of (i, (m, x))) = m) as Hm.
    { intros i m x Hin. apply Hn in Hin. unfold normal in Hin. cbn in Hin.
      apply andb_true_iff in Hin as [H1%String.eqb_eq H2%negb_true_iff]. unfold owner_of. cbn. by rewrite H2. }
    split.
    + intros (r & Hr & _ & <- & <- & <-). apply list_elem_of_fmap in Hr as ([i [m x]] & -> & Hin).
      rewrite Hm by done. exact Hin.
    + intros Hin. exists (record_of (id, (n, v))). split_and!; try done; [|by apply Hm].
      apply list_elem_of_fmap. by exists (id, (n, v)).
  - intros [m u q hd b] zid n v t Hm Hu Hb w; cbn [method url body] in *. subst.
    unfold bunny_server, served_by, bunny_http. cbn [method url body].
    destruct (String.eqb_spec (url_of bunny_demo (records_path zid)) "https://bunny.test/dnszone/1/records") as [E|].
    + assert ("https://bunny.test/dnszone/" +:+ (pretty zid +:+ "/records") =
              "https://bunny.test/dnszone/" +:+ (pretty 1 +:+ "/records")) as Ez by exact E.
      apply append_inj_l, append_inj_r, pretty_Z_inj in Ez as ->. clear E. cbn.
      assert (w !! fresh (dom w) = None) as Hf by (apply not_elem_of_dom, is_fresh).
      split; [right|intros resp _ _]; by apply one_zone_creates.
    + split; [by left|]. by intros resp [= <-].
  - intros [m u q hd b] zid id Hm Hu w; cbn [method url] in *. subst.
    unfold bunny_server, served_by, bunny_http. cbn [method url].
    match goal with |- context [filter ?P w] => assert (deletes (one_zone 1) zid id w (filter P w)) as Hd end.
    2: { split; [by right|done]. }
    apply (one_zone_drops 1 (fun i => "https://bunny.test/dnszone/1/records/" +:+ pretty i)).
    intros i. split; [apply bunny_item_url|]. by intros [-> ->].
Qed.

(** ** Properties *)

(** C21. Against a server that behaves as the Bunny API documents, whatever
    requests fail, are retried or are carried out without an answer (also when
    a retried [PUT] has created two records): [present] and [cleanup] change
    no TXT value but the one given, of the name given, in a zone of the account
    that holds it, the configured one if there is one; [present] returns [Ok]
    only when the value is there, and [cleanup] only when no record with it is
    left. *)
Theorem bunny_contract `{X : Ext} `{!ExtSpec X} {W} (h : handler sysE W) (c : BunnyConfig) zones recs f v w :
  bunny_api h c zones recs ->
  (let '(r, w') := run h (present c f v) w in
   touches (txt_values recs) (bunny_keys c zones f) (added (txt_values recs)) v w r w') /\
  (let '(r, w') := run h (cleanup c f v) w in
   touches (txt_values recs) (bunny_keys c zones f) (removed (txt_values recs)) v w r w').
Proof.
  intros Hapi. split.
  - exact (bunny_present h c zones recs Hapi f v w).
  - exact (bunny_cleanup h c zones recs Hapi f v w).
Qed.

Definition bunny_demo_call : sys (dns_result unit) :=
  cleanup (X := ref_ext) bunny_demo "_acme-challenge.Example.com." "tok".

Definition bunny_demo_state : bunny_store :=
  {[7 := ("_acme-challenge", "other")%string; 8 := ("_acme-challenge", "tok")%string]}.

Lemma bunny_contract_witness :
  run bunny_server bunny_demo_call bunny_demo_state = (Ok tt, {[7 := ("_acme-challenge", "other")%string]}) /\
  let '(r, w') := run bunny_server bunny_demo_call bunny_demo_state in
  touches (txt_values (one_zone 1)) (bunny_keys bunny_demo demo_zones "_acme-challenge.Example.com.")
    (removed (txt_values (one_zone 1))) "tok" bunny_demo_state r w'.
Proof.
  split; [vm_compute; reflexivity|].
  exact (proj2 (bunny_contract (X := ref_ext) bunny_server bunny_demo demo_zones (one_zone 1)
    "_acme-challenge.Example.com." "tok" bunny_demo_state bunny_server_api)).
Defined.

(** Without a configured zone, the zone of a name is the longest of the
    account's zones that hold it, so that a delegated zone wins over its
    parent; when none holds it the call fails with [ZoneNotFound]. *)
Theorem bunny_longest_zone `{X : Ext} {W} (h : handler sysE W) (c : BunnyConfig) fqdn zones w w' :
  zone_override c = None ->
  run h (list_zones c (search_of (trim_end_matches dot fqdn))) w = (Ok zones, w') ->
  exists r, run h (resolve_zone c fqdn) w = (r, w') /\
    match r with
    | Ok z => z ∈ zones /\ is_suffix (trim_end_matches dot fqdn) (bz_domain z) = true /\
        forall z', z' ∈ zones -> is_suffix (trim_end_matches dot fqdn) (bz_domain z') = true ->
          len (bz_domain z') <= len (bz_domain z)
    | Err e => e = ZoneNotFound fqdn /\
        forall z, z ∈ zones -> is_suffix (trim_end_matches dot fqdn) (bz_domain z) = false
    end.
Proof.
  intros Hz Hl. unfold resolve_zone, ptry. cbn zeta. rewrite Hz, run_bind, Hl. eexists. split; [reflexivity|].
  set (fs := List.filter _ zones). destruct (max_by_key _ fs) as [z|] eqn:E; cbn [ok_or].
  - apply max_by_key_spec in E as [Hin Hmax]. apply filter_elem in Hin as [Hin Hs]. split_and!; [done|done|].
    intros z' Hz' Hs'. apply Hmax. by apply filter_elem.
  - split; [done|]. intros z Hin. apply not_true_iff_false. intros Hs.
    apply max_by_key_none in E. assert (z ∈ fs) as Hf by by apply filter_elem.
    rewrite E in Hf. by apply elem_of_nil in Hf.
Qed.

Lemma bunny_longest_zone_witness :
  exists r, run bunny_server (resolve_zone (X := ref_ext) bunny_demo "_acme-challenge.com.example.com") ∅ = (r, ∅) /\
    r = Ok (mkBZone 2 "com.example.com").
Proof.
  destruct (bunny_longest_zone (X := ref_ext) bunny_server bunny_demo "_acme-challenge.com.example.com"
    [mkBZone 1 "example.com"; mkBZone 2 "com.example.com"] ∅ ∅) as (r & Hr & _).
  - reflexivity.
  - vm_compute. reflexivity.
  - exists r. split; [exact Hr|]. apply (f_equal fst) in Hr. cbn [fst] in Hr. rewrite <- Hr. vm_compute. reflexivity.
Defined.
