(* ===== verification/Infomaniak.v ===== *)
(** * The Infomaniak provider (src/providers/infomaniak.rs)

    The TXT records of a zone are listed page by page; one is created, or
    deleted by its identifier.  Every answer is an envelope that says whether
    the request succeeded.  [ik_api] states what the Infomaniak API documents
    of the requests this file sends. *)

From S2P Require Import Prelude Rstr Errors Effects Sys Common Zone Provider Txt Records.

Definition INFOMANIAK_API_BASE : string := "https://api.infomaniak.com".
Definition ENV_TOKEN : string := "INFOMANIAK_ACCESS_TOKEN".
Definition DEFAULT_TTL : Z := 300.
Definition HTTP_TIMEOUT : Duration := from_secs 30.
Definition CONNECT_TIMEOUT : Duration := from_secs 5.
Definition PROVIDER : string := "infomaniak".
Definition ALREADY_EXISTS : string := "dns_record_already_exists".
Definition MAX_PAGES : Z := 100.
(** [MAX] of [fn truncate]. *)
Definition MAX_ERROR_BODY : nat := 512.

Record InfomaniakConfig : Type := mkInfomaniakConfig {
  access_token : string;
  api_base : string;
  zone_override : option string;
  ttl : Z;
  http_timeout : Duration
}.

(** ** Bodies *)

Record IkError : Type := mkIkError {
  code : option string;
  description : option string
}.

Definition de_IkError (j : Json) : option IkError :=
  match struct_fields ["code"; "description"] j with
  | Some [c; d] =>
      c' ← defaulted None (de_option de_string) c; d' ← defaulted None (de_option de_string) d;
      Some (mkIkError c' d')
  | _ => None
  end.

(** [impl Display for IkError]. *)
Definition show_IkError (e : IkError) : string :=
  default "unknown" (code e) +:+ " (" +:+ default EmptyString (description e) +:+ ")".

Record IkEnvelope (T : Type) : Type := mkIkEnvelope {
  ik_result : string;
  ik_data : option T;
  ik_error : option IkError;
  pages : option Z
}.
Arguments mkIkEnvelope {T} _ _ _ _.
Arguments ik_result {T} _.
Arguments ik_data {T} _.
Arguments ik_error {T} _.
Arguments pages {T} _.

Definition de_IkEnvelope {T} (dec : Json -> option T) (j : Json) : option (IkEnvelope T) :=
  match struct_fields ["result"; "data"; "error"; "pages"] j with
  | Some [r; d; e; p] =>
      r' ← required de_string r; d' ← defaulted None (de_option dec) d;
      e' ← defaulted None (de_option de_IkError) e; p' ← defaulted None (de_option de_u32) p;
      Some (mkIkEnvelope r' d' e' p')
  | _ => None
  end.

(** [serde_json::Value] reads every document. *)
Definition de_Value (j : Json) : option Json := Some j.

Definition into_data {T} (env : IkEnvelope T) (method path : string) : dns_result T :=
  if negb (ik_result env =? "success")%string then
    Err (Api (PROVIDER +:+ " " +:+ method +:+ " " +:+ path +:+ ": result " +:+ ik_result env +:+ ": "
              +:+ default "no error details"%string (show_IkError <$> ik_error env)))
  else
    ok_or (ik_data env) (Api (PROVIDER +:+ " " +:+ method +:+ " " +:+ path +:+ ": missing data")).

Definition error_code {T} (env : IkEnvelope T) : option string := ik_error env ≫= code.

(** [IkZone]. *)
Definition de_IkZone (j : Json) : option string :=
  match struct_fields ["fqdn"] j with Some [f] => required de_string f | _ => None end.

Record IkRecord : Type := mkIkRecord {
  ik_id : Z;
  source : string;
  record_type : string;
  target : string
}.

Definition de_IkRecord (j : Json) : option IkRecord :=
  match struct_fields ["id"; "source"; "type"; "target"] j with
  | Some [i; s; t; g] =>
      i' ← required de_u64 i; s' ← defaulted EmptyString de_string s;
      t' ← required de_string t; g' ← defaulted EmptyString de_string g;
      Some (mkIkRecord i' s' t' g')
  | _ => None
  end.

Definition ser_IkRecordWrite (source record_type target : string) (t : Z) : Json :=
  JObj [("source", JStr source); ("type", JStr record_type); ("target", JStr target); ("ttl", JNum t)].

(** [fn same_source], [fn unquote] and [fn truncate]. *)
Definition same_source (source rname : string) : bool :=
  let source := trim_end_matches dot source in
  if (rname =? "@")%string then is_empty source || (source =? "@")%string
  else eq_ignore_ascii_case source rname.

Definition unquote (target : string) : string :=
  let trimmed := trim target in
  default trimmed (strip_prefix dquote trimmed ≫= strip_suffix dquote).

Definition truncate (raw : string) : string :=
  if (String.length raw <=? MAX_ERROR_BODY)%nat then raw
  else take_bytes (find_cut raw MAX_ERROR_BODY) raw +:+ truncated_mark.

Section infomaniak.
Context `{X : Ext}.

(** ** Configuration *)

Definition config_new (t : string) : InfomaniakConfig :=
  mkInfomaniakConfig t INFOMANIAK_API_BASE None DEFAULT_TTL HTTP_TIMEOUT.

Definition with_api_base (c : InfomaniakConfig) (base : string) : dns_result InfomaniakConfig :=
  let! _ := validate_https_base base PROVIDER in
  Ok (mkInfomaniakConfig (access_token c) (trim_end_matches "/" base) (zone_override c) (ttl c) (http_timeout c)).

Definition with_zone (c : InfomaniakConfig) (zone : string) : dns_result InfomaniakConfig :=
  let! _ := validate_zone zone in
  Ok (mkInfomaniakConfig (access_token c) (api_base c)
        (Some (to_ascii_lowercase (trim_end_matches dot zone))) (ttl c) (http_timeout c)).

Definition with_ttl (c : InfomaniakConfig) (t : Z) : dns_result InfomaniakConfig :=
  let! t' := validate_ttl_range t 60 86400 in
  Ok (mkInfomaniakConfig (access_token c) (api_base c) (zone_override c) t' (http_timeout c)).

Definition with_timeout (c : InfomaniakConfig) (d : Duration) : InfomaniakConfig :=
  mkInfomaniakConfig (access_token c) (api_base c) (zone_override c) (ttl c) d.

Definition new (client : Duration -> Duration -> result unit ReqwestError) (c : InfomaniakConfig)
  : dns_result InfomaniakConfig :=
  let! _ := map_err Http (client (http_timeout c) CONNECT_TIMEOUT) in Ok c.

Definition from_env (client : Duration -> Duration -> result unit ReqwestError)
    (var : string -> option string) : dns_result InfomaniakConfig :=
  let! t := ok_or (var ENV_TOKEN) (MissingCredentials ENV_TOKEN) in
  new client (config_new t).

(** ** Requests *)

Definition zone_path (zone : string) : string := "/2/zones/" +:+ encode_path zone.

Definition records_path (zone : string) : string := "/2/zones/" +:+ encode_path zone +:+ "/records".

Definition record_path (zone : string) (record_id : Z) : string :=
  "/2/zones/" +:+ encode_path zone +:+ "/records/" +:+ pretty record_id.

Definition url_of (c : InfomaniakConfig) (path : string) : string := api_base c +:+ path.

Definition auth (c : InfomaniakConfig) : list (string * string) :=
  [("authorization", "Bearer " +:+ access_token c)].

Definition fetch_zone (c : InfomaniakConfig) (candidate : string) : sys (dns_result (option string)) :=
  let path := zone_path candidate in
  await? response := send (mkRequest GET (url_of c path) [] (auth c) None) in
  if status response =? 404 then Ret (Ok None)
  else if negb (is_success (status response)) then Ret (Err (api_error PROVIDER "GET" path response))
  else
    try? body := response_json (de_IkEnvelope de_IkZone) response in
    try? fqdn := into_data body "GET" path in
    Ret (Ok (Some (to_ascii_lowercase (trim_end_matches dot fqdn)))).

Definition resolve_zone (c : InfomaniakConfig) (fqdn : string) : sys (dns_result string) :=
  walked_zone (fetch_zone c) (zone_override c) fqdn.

Definition page_query (page : Z) : list (string * string) :=
  [("filter[types][]", "TXT"); ("page", pretty page)].

Definition is_txt (r : IkRecord) : bool := eq_ignore_ascii_case (record_type r) "TXT".

(** The loop of [list_txt_records], with [left = MAX_PAGES - page]. *)
Fixpoint list_loop (c : InfomaniakConfig) (zone rname : string) (left : nat) (matching : list IkRecord)
  : sys (dns_result (list IkRecord)) :=
  let path := records_path zone in
  let page := MAX_PAGES - Z.of_nat left in
  await? response := send (mkRequest GET (url_of c path) (page_query page) (auth c) None) in
  if negb (is_success (status response)) then Ret (Err (api_error PROVIDER "GET" path response))
  else
    try? body := response_json (de_IkEnvelope (de_vec de_IkRecord)) response in
    let n_pages := default 1 (pages body) in
    try? records := into_data body "GET" path in
    let matching :=
      matching ++ List.filter (fun r => same_source (source r) rname) (List.filter is_txt records) in
    if n_pages <=? page then Ret (Ok matching)
    else
      match left with
      | O => Ret (Err (Api (PROVIDER +:+ " GET " +:+ path +:+ ": TXT listing has " +:+ pretty n_pages
                            +:+ " pages, more than the " +:+ pretty MAX_PAGES +:+ " read")))
      | S left' => list_loop c zone rname left' matching
      end.

Definition list_txt_records (c : InfomaniakConfig) (zone rname : string) : sys (dns_result (list IkRecord)) :=
  list_loop c zone rname (Z.to_nat (MAX_PAGES - 1)) [].

Definition create_record (c : InfomaniakConfig) (zone rname value : string) : sys (dns_result unit) :=
  let path := records_path zone in
  let source := if (rname =? "@")%string then "."%string else rname in
  await? response :=
    send (mkRequest POST (url_of c path) [] (auth c) (Some (ser_IkRecordWrite source "TXT" value (ttl c)))) in
  if negb (is_success (status response)) then
    let raw := text_or_default response in
    if decide (from_body (de_IkEnvelope de_Value) response ≫= error_code = Some ALREADY_EXISTS)
    then Ret (Ok tt)
    else Ret (Err (Api (PROVIDER +:+ " POST " +:+ path +:+ " returned " +:+ status_text (status response)
                        +:+ ": " +:+ truncate raw)))
  else
    try? body := response_json (de_IkEnvelope de_Value) response in
    try? _ := into_data body "POST" path in
    Ret (Ok tt).

Definition delete_record (c : InfomaniakConfig) (zone : string) (record_id : Z) : sys (dns_result unit) :=
  let path := record_path zone record_id in
  await? response := send (mkRequest DELETE (url_of c path) [] (auth c) None) in
  if status response =? 404 then Ret (Ok tt)
  else if negb (is_success (status response)) then Ret (Err (api_error PROVIDER "DELETE" path response))
  else
    try? body := response_json (de_IkEnvelope de_Value) response in
    try? _ := into_data body "DELETE" path in
    Ret (Ok tt).

(** ** Operations *)

Definition present_locked (c : InfomaniakConfig) (zone rname value : string) : sys (dns_result unit) :=
  await? existing := list_txt_records c zone rname in
  if existsb (fun r => (unquote (target r) =? value)%string) existing then Ret (Ok tt)
  else create_record c zone rname value.

Definition present (c : InfomaniakConfig) (fqdn value : string) : sys (dns_result unit) :=
  try? _ := validate_fqdn fqdn in
  try? _ := validate_acme_value value in
  await? zone := resolve_zone c fqdn in
  try? rname := relative_name (to_ascii_lowercase fqdn) zone in
  with_lock (zone +:+ "|" +:+ rname) (present_locked c zone rname value).

(** [for record in existing { if unquote(&record.target) == value { ... } }]. *)
Fixpoint delete_matching (c : InfomaniakConfig) (zone value : string) (existing : list IkRecord)
  : sys (dns_result unit) :=
  match existing with
  | [] => Ret (Ok tt)
  | record :: rest =>
      if (unquote (target record) =? value)%string then
        await? _ := delete_record c zone (ik_id record) in
        delete_matching c zone value rest
      else delete_matching c zone value rest
  end.

Definition cleanup_locked (c : InfomaniakConfig) (zone rname value : string) : sys (dns_result unit) :=
  await? existing := list_txt_records c zone rname in
  delete_matching c zone value existing.

Definition cleanup (c : InfomaniakConfig) (fqdn value : string) : sys (dns_result unit) :=
  try? _ := validate_fqdn fqdn in
  await? zone := resolve_zone c fqdn in
  try? rname := relative_name (to_ascii_lowercase fqdn) zone in
  with_lock (zone +:+ "|" +:+ rname) (cleanup_locked c zone rname value).
End infomaniak.

(** ** The Infomaniak API

    [recs w z] maps identifiers to the TXT records of the zone [z], each with
    its name and its target.  The name is relative, in lower case and without
    a trailing dot; the apex is [@].  The listing of a zone is cut into pages
    in a way that depends only on its records. *)

Definition canon_source (s : string) : string :=
  let t := to_ascii_lowercase (trim_end_matches dot s) in
  if is_empty t then "@" else t.

Definition txt_entry (r : IkRecord) : Z * (string * string) :=
  (ik_id r, (canon_source (source r), target r)).

(** The envelope of an answer says that the request was carried out. *)
Definition succeeded `{X : Ext} (resp : Response) : Prop :=
  is_success (status resp) = true /\
  exists b, response_json (de_IkEnvelope de_Value) resp = Ok b /\ ik_result b = "success"%string.

Record ik_api `{X : Ext} {W} (h : handler sysE W) (c : InfomaniakConfig)
    (recs : W -> string -> gmap Z (string * string))
    (paged : gmap Z (string * string) -> list (list (Z * (string * string)))) : Prop := {
  ik_background : background h recs;
  ik_paged : forall m id x, (id, x) ∈ concat (paged m) <-> m !! id = Some x;
  ik_list : forall req w resp z p b rs,
    fst (h _ (HttpSend req) w) = Ok resp ->
    method req = GET -> url req = url_of c (records_path z) -> query req = page_query p -> 1 <= p ->
    is_success (status resp) = true -> response_json (de_IkEnvelope (de_vec de_IkRecord)) resp = Ok b ->
    ik_result b = "success"%string -> ik_data b = Some rs ->
    map txt_entry (List.filter is_txt rs) = default [] (paged (recs w z) !! Z.to_nat (p - 1)) /\
    Z.of_nat (length (paged (recs w z))) <= default 1 (pages b);
  (** The answer that a record exists already has changed nothing. *)
  ik_create : forall req z src d t,
    method req = POST -> url req = url_of c (records_path z) ->
    body req = Some (ser_IkRecordWrite src "TXT" d t) ->
    forall w, let '(r, w') := h _ (HttpSend req) w in
      (same recs w w' \/ creates_record recs z (canon_source src) (quoted d) w w') /\
      forall resp, r = Ok resp ->
        (succeeded resp -> creates_record recs z (canon_source src) (quoted d) w w') /\
        (is_success (status resp) = false ->
         from_body (de_IkEnvelope de_Value) resp ≫= error_code = Some ALREADY_EXISTS ->
         same recs w w' /\ exists id, recs w z !! id = Some (canon_source src, quoted d));
  ik_delete : forall req z id,
    method req = DELETE -> url req = url_of c (record_path z id) ->
    drops_when recs h req z id (fun resp => succeeded resp \/ status resp = 404)
}.

Lemma lower_at s : (to_ascii_lowercase s =? "@")%string = (s =? "@")%string.
Proof.
  destruct s as [|b [|b' s]]; [done| |].
  - cbn. rewrite to_lower_eqb by done. done.
  - cbn. rewrite to_lower_eqb by done. done.
Qed.

(** [same_source] compares canonical names. *)
Lemma same_source_spec s rn :
  to_ascii_lowercase rn = rn -> rn <> EmptyString ->
  same_source s rn = (canon_source s =? rn)%string.
Proof.
  intros Hl Hne. unfold same_source, canon_source. cbn zeta. rewrite lower_is_empty.
  destruct (String.eqb_spec rn "@") as [->|Hat].
  - destruct (is_empty _); [done|]. symmetry. apply lower_at.
  - unfold eq_ignore_ascii_case. rewrite Hl. destruct (trim_end_matches dot s) as [|b t]; cbn [is_empty]; [|done].
    cbn [to_ascii_lowercase]. destruct (String.eqb_spec EmptyString rn); [by subst|].
    symmetry. by apply String.eqb_neq.
Qed.

Lemma canon_source_idem s : canon_source (canon_source s) = canon_source s.
Proof.
  assert (canon_source s = "@"%string \/
          is_empty (to_ascii_lowercase (trim_end_matches dot s)) = false /\
          canon_source s = to_ascii_lowercase (trim_end_matches dot s)) as [->|[He ->]]; [|done|].
  { unfold canon_source. cbn zeta. destruct (is_empty _); [by left|by right]. }
  unfold canon_source. cbn zeta. rewrite lower_trim_end, trim_end_idem, lower_idem by done.
  by rewrite He.
Qed.

(** What [create_record] writes for a relative name. *)
Lemma canon_source_written f z rn :
  valid_name f -> relative_name (to_ascii_lowercase f) z = Ok rn ->
  canon_source (if (rn =? "@")%string then "." else rn) = rn.
Proof.
  intros Hf Hr. destruct (String.eqb_spec rn "@") as [->|Hat]; [done|].
  pose proof (relative_not_empty f z rn Hf Hr) as Hne. unfold canon_source. cbn zeta.
  rewrite (relative_no_dot f z rn), (relative_lower f z rn) by done. by destruct rn.
Qed.

Lemma entries_of_name l rn :
  to_ascii_lowercase rn = rn -> rn <> EmptyString ->
  map txt_entry (List.filter (fun r => same_source (source r) rn) l) =
  List.filter (fun e => (fst (snd e) =? rn)%string) (map txt_entry l).
Proof.
  intros Hl Hne. induction l as [|r l IH]; [done|]. cbn [List.filter map].
  rewrite (same_source_spec _ rn Hl Hne). cbn [txt_entry fst snd].
  destruct (_ =? rn)%string; cbn [map]; by rewrite IH.
Qed.

(** One more page. *)
Lemma concat_take {A} (ls : list (list A)) n :
  concat (take (S n) ls) = concat (take n ls) ++ default [] (ls !! n).
Proof.
  destruct (ls !! n) as [l|] eqn:E; cbn.
  - rewrite (take_S_r _ _ _ E), concat_app. cbn. by rewrite app_nil_r.
  - apply lookup_ge_None in E. by rewrite !take_ge, app_nil_r by lia.
Qed.

Section theory.
Context `{X : Ext} `{S : !ExtSpec X} {W : Type} (h : handler sysE W) (c : InfomaniakConfig).
Context (recs : W -> string -> gmap Z (string * string)).
Context (paged : gmap Z (string * string) -> list (list (Z * (string * string)))).
Context (Hapi : ik_api h c recs paged).

Definition txt_values : W -> string * string -> list string := record_values recs unquote.

Lemma ik_background_values : background h txt_values.
Proof.
  destruct (ik_background _ _ _ _ Hapi) as [Hq Hg].
  split; intros; apply same_record_values; eauto.
Qed.

Lemma into_data_ok {T} (b : IkEnvelope T) m p d :
  into_data b m p = Ok d -> ik_result b = "success"%string /\ ik_data b = Some d.
Proof.
  unfold into_data. destruct (String.eqb_spec (ik_result b) "success") as [->|]; [|done].
  cbn [negb]. by rewrite ok_or_ok.
Qed.

Definition of_name (rn : string) (l : list (Z * (string * string))) : list (Z * (string * string)) :=
  List.filter (fun e => (fst (snd e) =? rn)%string) l.

Lemma ik_list_loop z rn left matching w :
  to_ascii_lowercase rn = rn -> rn <> EmptyString -> (left < 100)%nat ->
  map txt_entry matching = of_name rn (concat (take (99 - left) (paged (recs w z)))) ->
  wp h (list_loop c z rn left matching) (fun r w' =>
    same recs w w' /\ forall l, r = Ok l -> map txt_entry l = of_name rn (concat (paged (recs w z)))) w.
Proof.
  intros Hl Hne. revert matching w.
  induction left as [|left IH]; intros matching w Hleft Hm; cbn [list_loop];
    apply wp_try, (wp_read h recs (ik_background _ _ _ _ Hapi)); try done;
    intros w' Hw'; (split; [done|]); intros resp w0 Hw0 Hresp;
    (destruct (is_success (status resp)) eqn:Es; [|by apply wp_ret]);
    (apply wp_try_pure; [|done]); intros b Hb; cbn zeta;
    (apply wp_try_pure; [|done]); intros rs [Hres Hrs]%into_data_ok;
    edestruct (ik_list _ _ _ _ Hapi _ _ _ z _ b rs Hresp eq_refl eq_refl eq_refl
                 ltac:(unfold MAX_PAGES; lia) Es Hb Hres Hrs) as [Hl' Hn];
    rewrite (Hw0 z) in Hl', Hn.
  - assert (map txt_entry (matching ++ List.filter (fun r => same_source (source r) rn) (List.filter is_txt rs))
      = of_name rn (concat (take 100 (paged (recs w z))))) as Hm'.
    { rewrite map_app, Hm, entries_of_name, Hl' by done. unfold of_name.
      rewrite <- List.filter_app. by rewrite (concat_take _ 99). }
    destruct (Z.leb_spec (default 1 (pages b)) (MAX_PAGES - Z.of_nat 0)); [|by apply wp_ret].
    apply wp_ret. split; [done|]. intros l [= <-]. rewrite Hm', take_ge; [done|]. unfold MAX_PAGES in *. lia.
  - assert (map txt_entry (matching ++ List.filter (fun r => same_source (source r) rn) (List.filter is_txt rs))
      = of_name rn (concat (take (99 - left) (paged (recs w z))))) as Hm'.
    { rewrite map_app, Hm, entries_of_name, Hl' by done. unfold of_name.
      rewrite <- List.filter_app. replace (99 - left)%nat with (Datatypes.S (99 - Datatypes.S left)) by lia.
      rewrite (concat_take _ (99 - Datatypes.S left)). do 4 f_equal. unfold MAX_PAGES. lia. }
    destruct (Z.leb_spec (default 1 (pages b)) (MAX_PAGES - Z.of_nat (Datatypes.S left))).
    + apply wp_ret. split; [done|]. intros l [= <-]. rewrite Hm', take_ge; [done|]. unfold MAX_PAGES in *. lia.
    + eapply wp_mono; [apply IH; [lia|by rewrite (Hw' z)]|].
      cbn. intros r w2 [H2 Hr]. rewrite (Hw' z) in Hr. split; [by rewrite Hw'|done].
Qed.

Lemma ik_lists z rn w :
  to_ascii_lowercase rn = rn -> rn <> EmptyString ->
  wp h (list_txt_records c z rn) (fun r w' => same recs w w' /\
    forall l, r = Ok l -> forall id v,
      (exists r, r ∈ l /\ ik_id r = id /\ unquote (target r) = v) <->
      (exists d, recs w z !! id = Some (rn, d) /\ unquote d = v)) w.
Proof.
  intros Hl Hne. eapply wp_mono; [apply (ik_list_loop z rn); [done|done|vm_compute; lia|done]|].
  intros r w' [Hw Hr]. split; [done|]. intros l Hr' id v. specialize (Hr l Hr').
  assert (forall id d, (id, (rn, d)) ∈ map txt_entry l <-> recs w z !! id = Some (rn, d)) as Hin.
  { intros i d. rewrite <- (ik_paged _ _ _ _ Hapi), Hr. unfold of_name. rewrite filter_elem.
    cbn [fst snd]. rewrite String.eqb_refl. naive_solver. }
  split.
  - intros (x & Hx & <- & <-). exists (target x). split; [|done]. apply Hin.
    assert (txt_entry x ∈ map txt_entry l) as Hx' by (apply list_elem_of_fmap; by exists x).
    pose proof Hx' as Hx2. rewrite Hr in Hx2. apply filter_elem in Hx2 as [_ Hn].
    apply String.eqb_eq in Hn. unfold txt_entry in *. cbn [fst snd] in Hn. by rewrite Hn in Hx'.
  - intros (d & Hd%Hin & <-). apply list_elem_of_fmap in Hd as (x & Hd & Hx).
    exists x. injection Hd as -> _ ->. done.
Qed.

Lemma ik_unquote s : unquote s = Txt.unquote s.
Proof. reflexivity. Qed.

Lemma ik_unquote_quoted v : unquote (quoted v) = v.
Proof. rewrite ik_unquote. apply unquote_quoted. Qed.

(** A record that exists already is as good as one created. *)
Lemma ik_creates z rn v w :
  canon_source (if (rn =? "@")%string then "." else rn) = rn ->
  wp h (create_record c z rn v) (fun r w' =>
    (same recs w w' \/ creates recs unquote z rn v w w') /\
    (r = Ok tt -> creates recs unquote z rn v w w')) w.
Proof.
  intros Hrn. unfold create_record. cbn zeta. apply wp_try.
  eapply (wp_write h recs (ik_background _ _ _ _ Hapi) _ (creates recs unquote z rn v)
    (fun resp => succeeded resp \/ is_success (status resp) = false /\
       from_body (de_IkEnvelope de_Value) resp ≫= error_code = Some ALREADY_EXISTS)); [apply _..| |].
  - intros w1. match goal with |- context [HttpSend ?req] =>
      pose proof (ik_create _ _ _ _ Hapi req z _ v (ttl c) eq_refl eq_refl eq_refl w1) as Hc end.
    destruct (h _ (HttpSend _) w1) as [r w2]. rewrite Hrn in Hc. destruct Hc as [Hd Ho].
    assert (creates_record recs z rn (quoted v) w1 w2 -> creates recs unquote z rn v w1 w2) as Hcr.
    { intros H. rewrite <- (ik_unquote_quoted v). by apply creates_record_value. }
    split; [destruct Hd as [Hd|Hd]; [by left|right; exact (Hcr Hd)]|]. intros resp Hr. destruct (Ho resp Hr) as [Hs He].
    intros [Hok|[Hf Hcode]]; [exact (Hcr (Hs Hok))|]. destruct (He Hf Hcode) as [Hsame [id Hid]].
    rewrite <- Hsame. split_and!; [done|by left| |done]. exists id, (quoted v). by rewrite ik_unquote_quoted.
  - intros [resp|e] w' Hw Ho; [|done]. destruct (is_success (status resp)) eqn:Es; cbn [negb].
    + apply wp_try_pure; [|done]. intros b Hb. apply wp_try_pure; [|done].
      intros d [Hres _]%into_data_ok. apply wp_ret. split; [done|]. intros _.
      apply (Ho resp); [done|]. left. split; [done|by exists b].
    + case_decide as Hcode; apply wp_ret; (split; [done|]); [|done]. intros _.
      apply (Ho resp); [done|by right].
Qed.

Lemma ik_deletes z id w :
  wp h (delete_record c z id) (fun r w' =>
    (same recs w w' \/ deletes recs z id w w') /\ (r = Ok tt -> deletes recs z id w w')) w.
Proof.
  apply wp_try. eapply (wp_drop_when recs h (ik_background _ _ _ _ Hapi) _ z id);
    [by apply (ik_delete _ _ _ _ Hapi)|].
  intros [resp|e] w' Hw Ho; [|done]. destruct (Z.eqb_spec (status resp) 404); [by apply wp_ret; eauto|].
  destruct (is_success (status resp)) eqn:Es; [|by apply wp_ret].
  apply wp_try_pure; [|done]. intros b Hb. apply wp_try_pure; [|done].
  intros d [Hres _]%into_data_ok. apply wp_ret. split; [done|]. intros _.
  apply (Ho resp); [done|]. left. split; [done|by exists b].
Qed.

Lemma ik_delete_matching z v l :
  delete_matching c z v l =
  rec_deletes (fun r => unquote (target r)) (fun r => delete_record c z (ik_id r)) v l.
Proof. induction l as [|r l IH]; cbn; [done|]. by rewrite IH. Qed.

Lemma ik_fetch_zone s w : wp h (fetch_zone c s) (fun _ w' => same txt_values w w') w.
Proof.
  apply wp_try, (wp_read h txt_values ik_background_values); [done|]. intros w1 H1. split; [done|].
  intros resp w0 _ _. destruct (status resp =? 404); [by apply wp_ret|].
  destruct (is_success (status resp)); [|by apply wp_ret]. by do 2 (apply wp_try_pure; [intros ? _|done]).
Qed.

Lemma ik_resolve fqdn w :
  wp h (resolve_zone c fqdn) (fun r w' =>
    same txt_values w w' /\ forall z, r = Ok z -> configured_zone (zone_override c) z) w.
Proof. exact (wp_walked_zone _ h _ ik_background_values ik_fetch_zone _ _ _). Qed.

Lemma ik_present f v w :
  wp h (present c f v) (fun r w' =>
    concerns txt_values (added txt_values) (configured_zone (zone_override c)) f v w r w') w.
Proof.
  do 2 (apply wp_try_pure; [|by intros; apply failed_concerns]; intros ? ?).
  assert (valid_name f) as Hf by by eapply validate_fqdn_unit.
  apply (wp_in_zone h txt_values ik_background_values (added txt_values) id); [done|by apply ik_resolve|].
  intros z rn w0 _ Hr _.
  apply (wp_rec_present recs unquote h ik_id (fun r => unquote (target r))
    (list_txt_records c z rn) (create_record c z rn) z rn (fun _ => True)); [| |done].
  - intros w1 _. apply ik_lists; [by eapply relative_lower|by eapply relative_not_empty].
  - intros w1. by eapply ik_creates, canon_source_written.
Qed.

Lemma ik_cleanup f v w :
  wp h (cleanup c f v) (fun r w' =>
    concerns txt_values (removed txt_values) (configured_zone (zone_override c)) f v w r w') w.
Proof.
  apply wp_try_pure; [|by intros; apply failed_concerns]. intros u Hf%validate_fqdn_unit.
  apply (wp_in_zone h txt_values ik_background_values (removed txt_values) id); [done|by apply ik_resolve|].
  intros z rn w0 _ Hr _. eapply (wp_ext _ _ (rec_cleanup (fun r => unquote (target r))
    (list_txt_records c z rn) (fun r => delete_record c z (ik_id r)) v)).
  - unfold cleanup_locked, rec_cleanup, ptry. rewrite !run_bind.
    destruct (run h (list_txt_records _ _ _) w0) as [[l|e] w1]; [|done]. by rewrite ik_delete_matching.
  - apply (wp_rec_cleanup recs unquote h ik_id (fun r => unquote (target r)) _ _ z rn (fun _ => True));
      [| |done].
    + intros w1 _. apply ik_lists; [by eapply relative_lower|by eapply relative_not_empty].
    + intros r w1. apply ik_deletes.
Qed.
End theory.

(** The provider in an environment; it keeps the default timing. *)
Definition ik_provider `{X : Ext} {W} (h : handler sysE W) (c : InfomaniakConfig) : DnsProvider W :=
  mkProvider (fun f v w => run h (present c f v) w) (fun f v w => run h (cleanup c f v) w) default_timing.

(** ** A server, with the zone [example.com]; it lists one page *)

Definition ik_demo : InfomaniakConfig :=
  mkInfomaniakConfig "secret" "https://ik.test" (Some "example.com"%string) 300 HTTP_TIMEOUT.

Definition ik_demo_url : string := "https://ik.test/2/zones/example.com/records".

Abbreviation ik_store := (gmap Z (string * string)).

Definition canon_entry (x : string * string) : string * string := (canon_source (fst x), snd x).

(** The records of the store, by their canonical names. *)
Definition ik_recs (m : ik_store) (z : string) : ik_store :=
  one_zone "example.com"%string (canon_entry <$> m) z.

Definition one_page (m : ik_store) : list (list (Z * (string * string))) := [map_to_list m].

Definition ser_entry (e : Z * (string * string)) : Json :=
  JObj [("id", JNum (fst e)); ("source", JStr (fst (snd e))); ("type", JStr "TXT");
        ("target", JStr (snd (snd e)))].

Definition ik_success (d : Json) : Json := JObj [("result"%string, JStr "success"); ("data"%string, d)].

Definition ik_exists : Json :=
  JObj [("result"%string, JStr "error");
        ("error"%string, JObj [("code"%string, JStr ALREADY_EXISTS)])].

Definition ik_http (req : Request) (m : ik_store) : result Response ReqwestError * ik_store :=
  match method req with
  | GET =>
      match query req with
      | [(_, _); (_, page)] =>
          if (url req =? ik_demo_url)%string && (page =? "1")%string then
            (Ok (reply 200 (ik_success (JArr (map ser_entry (map_to_list (canon_entry <$> m)))))), m)
          else (Ok (reply_empty 500), m)
      | _ => (Ok (reply_empty 404), m)
      end
  | POST =>
      match url req =? ik_demo_url, body req with
      | true, Some (JObj [(_, JStr n); (_, _); (_, JStr d); (_, _)]) =>
          let x := (canon_source n, quoted d) in
          if decide (map_Exists (fun _ y => canon_entry y = x) m) then (Ok (reply 409 ik_exists), m)
          else (Ok (reply 201 (ik_success (JNum 1))), <[fresh (dom m : gset Z) := x]> m)
      | _, _ => (Ok (reply_empty 404), m)
      end%string
  | DELETE =>
      (Ok (reply 200 (ik_success (JBool true))),
       filter (fun r => ik_demo_url +:+ "/" +:+ pretty (fst r) <> url req) m)
  | _ => (Ok (reply_empty 405), m)
  end.

Definition ik_server : handler sysE ik_store := served_by ik_http.

Lemma ik_de_ser_entries l rs :
  Forall (fun e => canon_source (fst (snd e)) = fst (snd e)) l ->
  de_vec de_IkRecord (JArr (map ser_entry l)) = Some rs ->
  map txt_entry (List.filter is_txt rs) = l.
Proof.
  cbn. intros Hl. revert rs. induction Hl as [|[i [n d]] l Hn Hl IH]; intros rs; cbn -[de_u64].
  { by intros [= <-]. }
  destruct (de_u64 (JNum i)) as [i'|] eqn:E; [|done]. cbn.
  destruct (mapM de_IkRecord (map ser_entry l)) as [rs'|]; [|done]. intros [= <-]. cbn [List.filter].
  unfold is_txt at 1. cbn [record_type map]. change (eq_ignore_ascii_case "TXT" "TXT") with true. cbn [map].
  rewrite (IH rs' eq_refl). unfold txt_entry at 1. cbn [ik_id source target] in *. cbn [fst snd] in Hn.
  rewrite Hn. do 2 f_equal. unfold de_u64, de_int in E. destruct (_ && _); [|done]. by injection E.
Qed.

Lemma ik_records_url z :
  url_of ik_demo (records_path (X := ref_ext) z) = ik_demo_url <-> z = "example.com"%string.
Proof.
  split; [|by intros ->]. unfold url_of, records_path. intros E.
  apply (append_inj_l "https://ik.test/2/zones/" _ "example.com/records") in E.
  apply (slash_inj _ (encode_path (X := ref_ext) "example.com")) in E as [Ez _];
    [|apply encode_path_no_slash..]. by apply encode_path_inj in Ez.
Qed.

Lemma ik_item_url z i id :
  ik_demo_url +:+ "/" +:+ pretty i = url_of ik_demo (record_path (X := ref_ext) z id) ->
  z = "example.com"%string /\ i = id.
Proof.
  unfold url_of, record_path. intros E.
  apply (append_inj_l "https://ik.test/2/zones/" ("example.com/records" +:+ "/" +:+ pretty i)) in E.
  apply (slash_inj (encode_path (X := ref_ext) "example.com")) in E as [Ez E];
    [|apply encode_path_no_slash..]. apply encode_path_inj in Ez as <-.
  split; [done|]. apply (append_inj_l "records/") in E. by apply pretty_Z_inj.
Qed.

Lemma ik_server_api : ik_api (X := ref_ext) ik_server ik_demo ik_recs one_page.
Proof.
  split.
  - split; [by intros Y e w; destruct e|]. intros [m u q hd b] w; cbn. intros ->. unfold ik_http; cbn.
    repeat case_match; done.
  - intros m id x. unfold one_page. cbn. rewrite app_nil_r. apply elem_of_map_to_list.
  - intros [m u q hd b] w resp z p b' rs Hr; cbn [method url query]. intros -> -> -> Hp. revert Hr.
    unfold ik_server, served_by, ik_http, page_query. cbn [method query url].
    destruct (String.eqb_spec (url_of ik_demo (records_path (X := ref_ext) z)) ik_demo_url)
      as [->%ik_records_url|]; [|by intros [= <-]].
    destruct (String.eqb_spec (pretty p) "1") as [E|]; [|by intros [= <-]].
    change ("1"%string) with (pretty 1) in E. apply pretty_Z_inj in E as ->. cbn [andb].
    intros [= <-] _. unfold response_json, reply, ik_recs, one_zone. cbn [resp_body].
    rewrite decide_True by done. destruct (de_IkEnvelope _ _) as [bb|] eqn:E; [|done]. intros [= <-].
    revert E. unfold de_IkEnvelope. cbn -[de_vec map_to_list].
    destruct (de_vec de_IkRecord _) as [rs'|] eqn:E; [|done]. intros [= <-] _ [= <-].
    split; [|cbn; lia]. apply ik_de_ser_entries in E; [exact E|].
    apply Forall_forall. intros [i x] Hx%elem_of_map_to_list. apply lookup_fmap_Some in Hx as (y & <- & _).
    apply canon_source_idem.
  - intros [m u q hd b] z src d t Hm Hu Hb w; cbn [method url body] in *. subst.
    unfold ik_server, served_by, ik_http. cbn [method url body].
    destruct (String.eqb_spec (url_of ik_demo (records_path (X := ref_ext) z)) ik_demo_url)
      as [->%ik_records_url|].
    + cbv beta iota zeta delta [ser_IkRecordWrite]. case_decide as Hex.
      * split; [by left|]. intros resp [= <-]. split; [by intros [? _]|]. intros _ _. split; [done|].
        destruct Hex as (id & y & Hy & Hx). exists id. unfold ik_recs, one_zone. rewrite decide_True by done.
        by rewrite lookup_fmap, Hy, <- Hx.
      * assert (creates_record ik_recs "example.com" (canon_source src) (quoted d) w
          (<[fresh (dom w) := (canon_source src, quoted d)]> w)) as Hc.
        { change (creates_record (one_zone "example.com"%string) "example.com" (canon_source src) (quoted d)
            (canon_entry <$> w) (canon_entry <$> <[fresh (dom w) := (canon_source src, quoted d)]> w)).
          rewrite fmap_insert. unfold canon_entry at 2. cbn [fst snd]. rewrite canon_source_idem.
          apply one_zone_creates. rewrite lookup_fmap.
          assert (w !! fresh (dom w) = None) as -> by (apply not_elem_of_dom, is_fresh). done. }
        split; [by right|]. intros resp [= <-]. by split.
    + split; [by left|]. intros resp [= <-]. split; [by intros [? _]|done].
  - intros [m u q hd b] z id Hm Hu w; cbn [method url] in *. subst.
    unfold ik_server, served_by, ik_http. cbn [method url].
    match goal with |- context [filter ?P w] => assert (deletes ik_recs z id w (filter P w)) as Hd end.
    2: { split; [by right|done]. }
    change (deletes (one_zone "example.com"%string) z id (canon_entry <$> w)
      (canon_entry <$> filter (fun r => ik_demo_url +:+ "/" +:+ pretty (fst r) <>
         url_of ik_demo (record_path (X := ref_ext) z id)) w)).
    replace (canon_entry <$> filter _ w) with
      (filter (fun r : Z * (string * string) => ik_demo_url +:+ "/" +:+ pretty (fst r) <>
         url_of ik_demo (record_path (X := ref_ext) z id)) (canon_entry <$> w)).
    + apply (one_zone_drops "example.com"%string (fun i => ik_demo_url +:+ "/" +:+ pretty i)).
      intros i. split; [apply ik_item_url|]. by intros [-> ->].
    + rewrite map_filter_fmap. done.
Qed.

(** With a configured zone, the contract of [DnsProvider]. *)
Lemma ik_laws `{X : Ext} `{!ExtSpec X} {W} (h : handler sysE W) (c : InfomaniakConfig) recs paged z :
  ik_api h c recs paged -> zone_override c = Some z ->
  ProviderLaws (ik_provider h c) canon (serves_in (txt_values recs) z) (fun _ => True).
Proof.
  intros Hapi Hz.
  assert (forall f v w, _) as Hp by exact (ik_present h c recs paged Hapi).
  assert (forall f v w, _) as Hc by exact (ik_cleanup h c recs paged Hapi).
  unfold wp in *. rewrite Hz in Hp, Hc. by apply zone_laws.
Qed.

(** ** Properties *)

(** C22. Against a server that behaves as the Infomaniak API documents, whatever
    requests fail, are retried or are carried out without an answer, and also
    when another writer has created the record first: [present] and
    [cleanup] change no TXT value but the one given, of the name given, in
    its zone; [present] returns [Ok] only when the value is there, and
    [cleanup] only when no record with it is left, on any page; and with a
    configured zone the provider keeps the contract of [DnsProvider]. *)
Theorem infomaniak_contract `{X : Ext} `{!ExtSpec X} {W} (h : handler sysE W) (c : InfomaniakConfig) recs paged :
  ik_api h c recs paged ->
  (forall f v w, let '(r, w') := run h (present c f v) w in
     concerns (txt_values recs) (added (txt_values recs)) (configured_zone (zone_override c)) f v w r w') /\
  (forall f v w, let '(r, w') := run h (cleanup c f v) w in
     concerns (txt_values recs) (removed (txt_values recs)) (configured_zone (zone_override c)) f v w r w') /\
  (forall z, zone_override c = Some z ->
     ProviderLaws (ik_provider h c) canon (serves_in (txt_values recs) z) (fun _ => True)).
Proof.
  intros Hapi. split_and!.
  - exact (ik_present h c recs paged Hapi).
  - exact (ik_cleanup h c recs paged Hapi).
  - intros z. by apply (ik_laws h c recs paged).
Qed.

(** At the apex, which the server writes as [@]: the value of another name
    is kept. *)
Lemma infomaniak_contract_witness :
  run ik_server (cleanup (X := ref_ext) ik_demo "Example.com" "tok")
      {[7 := ("_acme-challenge", quoted "tok")%string; 8 := (".", quoted "tok")%string]}
    = (Ok tt, {[7 := ("_acme-challenge", quoted "tok")%string]}) /\
  fst (run ik_server (present (X := ref_ext) ik_demo "example.com" "tok") {[8 := (".", quoted "tok")%string]})
    = Ok tt /\
  ProviderLaws (ik_provider (X := ref_ext) ik_server ik_demo) canon
    (serves_in (txt_values ik_recs) "example.com") (fun _ => True).
Proof.
  split; [vm_compute; reflexivity|]. split; [vm_compute; reflexivity|].
  apply (infomaniak_contract ik_server ik_demo ik_recs one_page ik_server_api).
  reflexivity.
Defined.
