(* ===== verification/Porkbun.v ===== *)
(** * The Porkbun provider (src/providers/porkbun.rs)

    Every call is a [POST] that carries the credentials in its body, and
    every answer an envelope with a status, which can be an error with HTTP
    200.  Records are listed by name, created, and deleted by identifier; a
    record that was stored but will not resolve is taken down again.
    [pb_api] states what the Porkbun API documents of the requests this file
    sends. *)

From S2P Require Import Prelude Rstr Errors Effects Sys Common Zone Provider Txt Records.

Definition PORKBUN_API_BASE : string := "https://api.porkbun.com/api/json/v3".
Definition ENV_API_KEY : string := "PORKBUN_API_KEY".
Definition ENV_SECRET_API_KEY : string := "PORKBUN_SECRET_API_KEY".
Definition DEFAULT_TTL : Z := 600.
Definition HTTP_TIMEOUT : Duration := from_secs 30.
Definition CONNECT_TIMEOUT : Duration := from_secs 5.
Definition PROVIDER : string := "porkbun".
Definition MAX_ERROR_MESSAGE : nat := 512.
Definition CODE_API_ACCESS_DISABLED : string := "API_ACCESS_DISABLED".
Definition CODE_DUPLICATE_RECORD : string := "DUPLICATE_RECORD".
Definition CODE_INVALID_RECORD_ID : string := "INVALID_RECORD_ID".
Definition AUTH_CODES : list string :=
  ["API_KEY_REQUIRED"; "MISSING_SECRETAPIKEY"; "INVALID_API_KEYS_001"; "INVALID_API_KEYS_002";
   "INVALID_USER"; "IP_NOT_ALLOWED"; "DOMAIN_NOT_ALLOWED"]%string.

Record PorkbunConfig : Type := mkPorkbunConfig {
  api_key : string;
  secret_api_key : string;
  api_base : string;
  zone_override : option string;
  ttl : Z;
  http_timeout : Duration
}.

(** ** Bodies *)

(** A document read as [serde_json::Value]: of the fields of an object with
    the same name the last one counts. *)
Fixpoint last_wins {A} (l : list (string * A)) : list (string * A) :=
  match l with
  | [] => []
  | (k, a) :: l' =>
      if existsb (fun p => (fst p =? k)%string) l' then last_wins l' else (k, a) :: last_wins l'
  end.

Fixpoint to_value (j : Json) : Json :=
  match j with
  | JArr l => JArr (map to_value l)
  | JObj fs => JObj (last_wins (map (fun p => (fst p, to_value (snd p))) fs))
  | _ => j
  end.

(** [fn string_or_number] and [fn optional_string_or_number]. *)
Definition string_or_number (j : Json) : option string :=
  match de_string j with
  | Some s => Some s
  | None => pretty <$> de_u64 j
  end.

Definition optional_string_or_number (j : Json) : option (option string) :=
  Some <$> string_or_number j.

(** [AuthenticatedBody], with the fields flattened into it. *)
Definition ser_AuthenticatedBody (apikey secretapikey : string) (fields : list (string * Json)) : Json :=
  JObj (("apikey", JStr apikey) :: ("secretapikey", JStr secretapikey) :: fields)%string.

(** [Empty] and [CreateRecord]. *)
Definition ser_Empty : list (string * Json) := [].

Definition ser_CreateRecord (name record_type content : string) (t : Z) : list (string * Json) :=
  [("name", JStr name); ("type", JStr record_type); ("content", JStr content); ("ttl", JNum t)]%string.

Inductive Warnings : Type :=
| WNone
| WOne (w : string)
| WMany (ws : list string).

(** The variants in order; the first that fits. *)
Definition de_Warnings (j : Json) : option Warnings :=
  match j with
  | JNull => Some WNone
  | JStr w => Some (WOne w)
  | JArr _ => WMany <$> de_vec de_string j
  | _ => None
  end.

Definition into_vec (w : Warnings) : list string :=
  let all := match w with WNone => [] | WOne w => [w] | WMany ws => ws end in
  List.filter (fun w => negb (is_empty (trim w))) all.

Record CreatedRecord : Type := mkCreatedRecord {
  cr_id : option string;
  warnings : Warnings
}.

Definition de_CreatedRecord (j : Json) : option CreatedRecord :=
  match struct_fields ["id"; "warnings"] j with
  | Some [i; w] =>
      i' ← defaulted None optional_string_or_number i; w' ← defaulted WNone de_Warnings w;
      Some (mkCreatedRecord i' w')
  | _ => None
  end.

(** [serde_json::from_value(body).unwrap_or_default()]. *)
Definition created_of (body : Json) : CreatedRecord :=
  default (mkCreatedRecord None WNone) (de_CreatedRecord body).

Record Envelope : Type := mkEnvelope {
  env_status : string;
  env_code : option string;
  env_message : option string
}.

Definition de_Envelope (j : Json) : option Envelope :=
  match struct_fields ["status"; "code"; "message"] j with
  | Some [s; c; m] =>
      s' ← required de_string s; c' ← defaulted None (de_option de_string) c;
      m' ← defaulted None (de_option de_string) m; Some (mkEnvelope s' c' m')
  | _ => None
  end.

Record PorkbunRecord : Type := mkPorkbunRecord {
  pb_id : string;
  record_type : string;
  content : string
}.

Definition de_PorkbunRecord (j : Json) : option PorkbunRecord :=
  match struct_fields ["id"; "type"; "content"] j with
  | Some [i; t; c] =>
      i' ← required string_or_number i; t' ← required de_string t; c' ← required de_string c;
      Some (mkPorkbunRecord i' t' c')
  | _ => None
  end.

(** [PorkbunRecords]. *)
Definition de_PorkbunRecords (j : Json) : option (list PorkbunRecord) :=
  match struct_fields ["records"] j with
  | Some [rs] => defaulted [] (de_vec de_PorkbunRecord) rs
  | _ => None
  end.

(** ** Errors *)

Inductive PorkbunError : Type :=
| PbCode (code : string) (err : DnsError)
| PbOther (err : DnsError).

(** [impl From<PorkbunError> for DnsError]. *)
Definition into_dns (e : PorkbunError) : DnsError :=
  match e with PbCode _ err => err | PbOther err => err end.

(** [fn is_api_access_message], [fn truncate] and [fn unquote]. *)
Definition is_api_access_message (message : string) : bool :=
  let lower := to_ascii_lowercase message in
  contains "api access" lower || contains "opted in" lower.

Definition truncate (raw : string) : string :=
  if (String.length raw <=? MAX_ERROR_MESSAGE)%nat then raw
  else take_bytes (find_cut raw MAX_ERROR_MESSAGE) raw +:+ truncated_mark.

Definition unquote (content : string) : string :=
  let trimmed := trim content in
  default trimmed (strip_prefix dquote trimmed ≫= strip_suffix dquote).

Definition subdomain_of (fqdn zone : string) : dns_result string :=
  let! rname := relative_name fqdn zone in
  if (rname =? "@")%string then Ok EmptyString else Ok rname.

Section porkbun.
Context `{X : Ext}.
(** The text of the [serde_json] error for a body that is not a listing. *)
Context (body_error : Json -> string).

(** ** Configuration *)

Definition config_new (api_key secret_api_key : string) : PorkbunConfig :=
  mkPorkbunConfig api_key secret_api_key PORKBUN_API_BASE None DEFAULT_TTL HTTP_TIMEOUT.

Definition with_api_base (c : PorkbunConfig) (base : string) : dns_result PorkbunConfig :=
  let! _ := validate_https_base base PROVIDER in
  Ok (mkPorkbunConfig (api_key c) (secret_api_key c) (trim_end_matches "/" base) (zone_override c) (ttl c)
        (http_timeout c)).

Definition with_zone (c : PorkbunConfig) (zone : string) : dns_result PorkbunConfig :=
  let! _ := validate_zone zone in
  Ok (mkPorkbunConfig (api_key c) (secret_api_key c) (api_base c)
        (Some (to_ascii_lowercase (trim_end_matches dot zone))) (ttl c) (http_timeout c)).

Definition with_ttl (c : PorkbunConfig) (t : Z) : dns_result PorkbunConfig :=
  let! t' := validate_ttl t in
  Ok (mkPorkbunConfig (api_key c) (secret_api_key c) (api_base c) (zone_override c) t' (http_timeout c)).

Definition with_timeout (c : PorkbunConfig) (d : Duration) : PorkbunConfig :=
  mkPorkbunConfig (api_key c) (secret_api_key c) (api_base c) (zone_override c) (ttl c) d.

Definition new (client : Duration -> Duration -> result unit ReqwestError) (c : PorkbunConfig)
  : dns_result PorkbunConfig :=
  let! _ := map_err Http (client (http_timeout c) CONNECT_TIMEOUT) in Ok c.

Definition from_env (client : Duration -> Duration -> result unit ReqwestError)
    (var : string -> option string) : dns_result PorkbunConfig :=
  let! api_key := ok_or (var ENV_API_KEY) (MissingCredentials ENV_API_KEY) in
  let! secret := ok_or (var ENV_SECRET_API_KEY) (MissingCredentials ENV_SECRET_API_KEY) in
  new client (config_new api_key secret).

(** ** Requests *)

Definition resolve_zone (c : PorkbunConfig) (fqdn : string) : sys (dns_result string) :=
  match zone_override c with
  | Some zone => Ret (Ok (trim_end_matches dot zone))
  | None =>
      await? zone := find_zone fqdn in
      try? _ := validate_zone zone in
      Ret (Ok zone)
  end.

Definition retrieve_path (zone subdomain : string) : string :=
  let path := "/dns/retrieveByNameType/" +:+ encode_path zone +:+ "/TXT" in
  if is_empty subdomain then path else path +:+ "/" +:+ encode_path subdomain.

Definition create_path (zone : string) : string := "/dns/create/" +:+ encode_path zone.

Definition delete_path (zone id : string) : string :=
  "/dns/delete/" +:+ encode_path zone +:+ "/" +:+ encode_path id.

(** The error of an envelope that is not a success. *)
Definition envelope_error (path zone : string) (st : Z) (env : Envelope) : PorkbunError :=
  let code := default EmptyString (env_code env) in
  let message := truncate (default "no message"%string (env_message env)) in
  let err :=
    if (code =? CODE_API_ACCESS_DISABLED)%string || is_api_access_message message then
      Auth (PROVIDER +:+ ": API access is not enabled for domain " +:+ zone +:+ "; turn on "
            +:+ dquote +:+ "API Access" +:+ dquote
            +:+ " for it in the Porkbun domain management page (" +:+ message +:+ ")")
    else if existsb (String.eqb code) AUTH_CODES then
      Auth (PROVIDER +:+ " POST " +:+ path +:+ " refused credentials: " +:+ code +:+ ": " +:+ message)
    else if is_empty code then
      Api (PROVIDER +:+ " POST " +:+ path +:+ " returned " +:+ status_text st +:+ ": " +:+ message)
    else
      Api (PROVIDER +:+ " POST " +:+ path +:+ " returned " +:+ status_text st +:+ ": " +:+ code
           +:+ ": " +:+ message) in
  PbCode code err.

Definition parse_envelope (path zone : string) (response : Response) : result Json PorkbunError :=
  let retry_after := header_str "retry-after" response in
  match resp_body response with
  | None => Err (PbOther (Http Decode))
  | Some (raw, parsed) =>
      let body := to_value <$> parsed in
      let envelope := body ≫= de_Envelope in
      let refused :=
        if status response =? 429 then
          let hint :=
            match retry_after with
            | Some secs => "retry after " +:+ secs +:+ "s"
            | None => "retry later"%string
            end in
          Err (PbCode "RATE_LIMIT_EXCEEDED"
                 (Api (PROVIDER +:+ " POST " +:+ path +:+ " was rate limited (429), " +:+ hint)))
        else
          match envelope with
          | None => Err (PbOther (Api (PROVIDER +:+ " POST " +:+ path +:+ " returned "
                                       +:+ status_text (status response) +:+ ": " +:+ truncate raw)))
          | Some env => Err (envelope_error path zone (status response) env)
          end in
      match is_success (status response), envelope, body with
      | true, Some env, Some b =>
          if eq_ignore_ascii_case (env_status env) "SUCCESS" then Ok b else refused
      | _, _, _ => refused
      end
  end.

Definition post (c : PorkbunConfig) (path zone : string) (fields : list (string * Json))
  : sys (result Json PorkbunError) :=
  let body := ser_AuthenticatedBody (api_key c) (secret_api_key c) fields in
  let* r := send (mkRequest POST (api_base c +:+ path) [] [] (Some body)) in
  match r with
  | Ok response => Ret (parse_envelope path zone response)
  | Err e => Ret (Err (PbOther e))
  end.

Definition is_txt (r : PorkbunRecord) : bool := eq_ignore_ascii_case (record_type r) "TXT".

Definition fetch_existing (c : PorkbunConfig) (zone subdomain : string)
  : sys (dns_result (list PorkbunRecord)) :=
  let path := retrieve_path zone subdomain in
  let* r := post c path zone ser_Empty in
  try? body := map_err into_dns r in
  try? parsed := ok_or (de_PorkbunRecords body)
    (Api (PROVIDER +:+ " POST " +:+ path +:+ " returned an invalid body: " +:+ body_error body)) in
  Ret (Ok (List.filter is_txt parsed)).

Definition delete_record (c : PorkbunConfig) (zone id : string) : sys (dns_result unit) :=
  let path := delete_path zone id in
  let* r := post c path zone ser_Empty in
  match r with
  | Ok _ => Ret (Ok tt)
  | Err (PbCode code err) =>
      if (code =? CODE_INVALID_RECORD_ID)%string then Ret (Ok tt) else Ret (Err err)
  | Err (PbOther err) => Ret (Err err)
  end.

(** What [create_record] does with the body of a successful answer. *)
Definition check_created (c : PorkbunConfig) (zone : string) (body : Json) : sys (dns_result unit) :=
  let created := created_of body in
  let warnings := into_vec (warnings created) in
  match warnings with
  | [] => Ret (Ok tt)
  | _ :: _ =>
      let* _ :=
        match cr_id created with
        | Some id => let* _ := delete_record c zone id in Ret tt
        | None => Ret tt
        end in
      Ret (Err (Api (PROVIDER +:+ ": record for " +:+ zone +:+ " was stored but will not resolve: "
                     +:+ truncate (join " " warnings))))
  end.

Definition create_record (c : PorkbunConfig) (zone subdomain value : string) : sys (dns_result unit) :=
  let path := create_path zone in
  let* r := post c path zone (ser_CreateRecord subdomain "TXT" value (ttl c)) in
  match r with
  | Ok body => check_created c zone body
  | Err (PbCode code err) =>
      if (code =? CODE_DUPLICATE_RECORD)%string then Ret (Ok tt) else Ret (Err err)
  | Err (PbOther err) => Ret (Err err)
  end.

(** ** Operations *)

Definition present_locked (c : PorkbunConfig) (zone subdomain value : string) : sys (dns_result unit) :=
  await? existing := fetch_existing c zone subdomain in
  if existsb (fun r => (unquote (content r) =? value)%string) existing then Ret (Ok tt)
  else create_record c zone subdomain value.

Definition present (c : PorkbunConfig) (fqdn value : string) : sys (dns_result unit) :=
  try? _ := validate_fqdn fqdn in
  let fqdn := to_ascii_lowercase fqdn in
  try? _ := validate_acme_value value in
  await? zone := resolve_zone c fqdn in
  try? subdomain := subdomain_of fqdn zone in
  with_lock (zone +:+ "|" +:+ subdomain) (present_locked c zone subdomain value).

(** [for record in existing.iter().filter(...) { ... }]. *)
Fixpoint delete_each (c : PorkbunConfig) (zone : string) (records : list PorkbunRecord)
  : sys (dns_result unit) :=
  match records with
  | [] => Ret (Ok tt)
  | record :: rest =>
      await? _ := delete_record c zone (pb_id record) in
      delete_each c zone rest
  end.

Definition cleanup_locked (c : PorkbunConfig) (zone subdomain value : string) : sys (dns_result unit) :=
  await? existing := fetch_existing c zone subdomain in
  delete_each c zone (List.filter (fun r => (unquote (content r) =? value)%string) existing).

Definition cleanup (c : PorkbunConfig) (fqdn value : string) : sys (dns_result unit) :=
  try? _ := validate_fqdn fqdn in
  let fqdn := to_ascii_lowercase fqdn in
  await? zone := resolve_zone c fqdn in
  try? subdomain := subdomain_of fqdn zone in
  with_lock (zone +:+ "|" +:+ subdomain) (cleanup_locked c zone subdomain value).
End porkbun.

(** ** The Porkbun API

    [recs w z] maps identifiers to the TXT records of the domain [z], each
    with its relative name, [@] at the apex, and its content. *)

Definition apex_name (subdomain : string) : string :=
  if is_empty subdomain then "@" else subdomain.

Definition sub_of (rname : string) : string :=
  if (rname =? "@")%string then EmptyString else rname.

(** What an answer says, in the fields of its document: whether the request
    was carried out, and otherwise why not. *)
Definition document (resp : Response) : option Json := to_value <$> (resp_body resp ≫= snd).

Definition succeeded `{X : Ext} (resp : Response) (j : Json) : Prop :=
  is_success (status resp) = true /\ document resp = Some j /\
  exists s, member 0 "status" j = Some (JStr s) /\ to_ascii_lowercase s = "success"%string.

Definition refused_with `{X : Ext} (resp : Response) (code : string) : Prop :=
  exists j, document resp = Some j /\ ~ succeeded resp j /\ member 1 "code" j = Some (JStr code).

(** An identifier, a string or a number. *)
Definition shows (j : Json) (s : string) : Prop := j = JStr s \/ exists n, j = JNum n /\ s = pretty n.

(** The record an element of a listing stands for. *)
Definition lists_record (j : Json) (id kind cn : string) : Prop :=
  (exists i, member 0 "id" j = Some i /\ shows i id) /\
  member 1 "type" j = Some (JStr kind) /\ member 2 "content" j = Some (JStr cn).

Definition listed_items (j : Json) (items : list Json) : Prop :=
  member 0 "records" j = Some (JArr items) \/ (member 0 "records" j = None /\ items = []).

Record pb_api `{X : Ext} {W} (h : handler sysE W) (c : PorkbunConfig)
    (recs : W -> string -> gmap string (string * string)) : Prop := {
  pb_background : background h recs;
  (** The TXT records of the listing are those of the name. *)
  pb_list : forall req z sub,
    method req = POST -> url req = api_base c +:+ retrieve_path z sub ->
    body req = Some (ser_AuthenticatedBody (api_key c) (secret_api_key c) ser_Empty) ->
    forall w, let '(r, w') := h _ (HttpSend req) w in
      same recs w w' /\
      forall resp j items, r = Ok resp -> succeeded resp j -> listed_items j items ->
        forall id cn,
          (exists item kind, item ∈ items /\ lists_record item id kind cn /\ to_ascii_lowercase kind = "txt"%string) <->
          recs w z !! id = Some (apex_name sub, cn);
  (** The identifier in the answer is that of a record with the value; a
      duplicate has changed nothing. *)
  pb_create : forall req z sub d t,
    method req = POST -> url req = api_base c +:+ create_path z -> all_bytes name_byte d = true ->
    body req = Some (ser_AuthenticatedBody (api_key c) (secret_api_key c) (ser_CreateRecord sub "TXT" d t)) ->
    forall w, let '(r, w') := h _ (HttpSend req) w in
      let holds u id := exists cn, recs u z !! id = Some (apex_name sub, cn) /\ unquote cn = d in
      (same recs w w' \/ creates recs unquote z (apex_name sub) d w w') /\
      forall resp, r = Ok resp ->
        (forall j, succeeded resp j ->
           creates recs unquote z (apex_name sub) d w w' /\
           forall i id, member 0 "id" j = Some i -> shows i id -> holds w' id) /\
        (refused_with resp "DUPLICATE_RECORD" -> same recs w w' /\ exists id, holds w id);
  (** An unknown identifier is that of no record. *)
  pb_delete : forall req z id,
    method req = POST -> url req = api_base c +:+ delete_path z id ->
    body req = Some (ser_AuthenticatedBody (api_key c) (secret_api_key c) ser_Empty) ->
    drops_when recs h req z id (fun resp =>
      (exists j, succeeded resp j) \/ refused_with resp "INVALID_RECORD_ID")
}.

(** *** What the provider makes of an answer *)

Lemma de_Envelope_fields j env :
  de_Envelope j = Some env ->
  member 0 "status" j = Some (JStr (env_status env)) /\
  forall code, env_code env = Some code -> member 1 "code" j = Some (JStr code).
Proof.
  unfold de_Envelope. destruct (struct_fields _ j) as [fs|] eqn:Ef; [|done].
  pose proof (struct_fields_member _ _ _ 0 "status" Ef eq_refl) as H0.
  pose proof (struct_fields_member _ _ _ 1 "code" Ef eq_refl) as H1.
  destruct fs as [|s [|c [|m [|? ?]]]]; try done. injection H0 as ->. injection H1 as ->.
  destruct (member 0 _ j) as [[| | | |s| |]|]; try done. cbn.
  destruct (defaulted _ _ (member 1 _ j)) as [c|] eqn:Ec; [|done]. cbn.
  destruct (defaulted _ _ m) as [m'|]; [|done]. intros [= <-]. split; [done|]. cbn. intros code ->.
  destruct (member 1 _ j) as [[| | | |c| |]|]; try done. by injection Ec as ->.
Qed.

Lemma envelope_succeeded `{X : Ext} path z resp j : parse_envelope path z resp = Ok j -> succeeded resp j.
Proof.
  unfold parse_envelope, succeeded, document. destruct (resp_body resp) as [[raw o]|]; [|done]. cbn.
  destruct (is_success (status resp)); [|by repeat case_match].
  destruct (to_value <$> o) as [b|]; [|by repeat case_match]. cbn.
  destruct (de_Envelope b) as [env|] eqn:Ee; [|by repeat case_match].
  destruct (eq_ignore_ascii_case _ _) eqn:Es; [|by repeat case_match]. intros [= <-].
  apply de_Envelope_fields in Ee as [Ee _]. split_and!; [done|done|]. eexists. split; [exact Ee|].
  by apply String.eqb_eq in Es.
Qed.

Lemma envelope_refused `{X : Ext} path z resp code err :
  parse_envelope path z resp = Err (PbCode code err) -> code <> EmptyString -> code <> "RATE_LIMIT_EXCEEDED"%string ->
  refused_with resp code.
Proof.
  unfold parse_envelope, refused_with, succeeded, document. destruct (resp_body resp) as [[raw o]|]; [|done]. cbn.
  intros Hp He Hr. destruct (to_value <$> o) as [b|]; [|by repeat case_match; simplify_eq]. cbn in Hp.
  destruct (de_Envelope b) as [env|] eqn:Ee; [|by repeat case_match; simplify_eq].
  exists b. apply de_Envelope_fields in Ee as [Es Ec]. split_and!; [done| |].
  - intros (Hs & _ & s & Hs' & Hl). rewrite Hs in Hp. rewrite Es in Hs'. injection Hs' as <-.
    unfold eq_ignore_ascii_case in Hp. rewrite Hl in Hp. done.
  - apply Ec. assert (Err (envelope_error path z (status resp) env) = Err (A := Json) (PbCode code err)) as Hx.
    { revert Hp. repeat (case_match; try done); intros; simplify_eq; done. }
    unfold envelope_error in Hx. cbn zeta in Hx. destruct (env_code env) as [c|]; cbn in Hx; congruence.
Qed.

Lemma string_or_number_shows j s : string_or_number j = Some s -> shows j s.
Proof.
  unfold string_or_number, de_u64, de_int. destruct j; cbn; try done; [|intros [= ->]; by left].
  destruct (_ && _); [|done]. intros [= <-]. right. eauto.
Qed.

Lemma shows_unique j s s' : shows j s -> shows j s' -> s = s'.
Proof. intros [->|(n & -> & ->)] [E|(n' & E & ->)]; by simplify_eq. Qed.

Lemma de_PorkbunRecord_fields j r :
  de_PorkbunRecord j = Some r -> lists_record j (pb_id r) (record_type r) (content r).
Proof.
  unfold de_PorkbunRecord. destruct (struct_fields _ j) as [fs|] eqn:Ef; [|done].
  pose proof (struct_fields_member _ _ _ 0 "id" Ef eq_refl) as H0.
  pose proof (struct_fields_member _ _ _ 1 "type" Ef eq_refl) as H1.
  pose proof (struct_fields_member _ _ _ 2 "content" Ef eq_refl) as H2.
  destruct fs as [|i [|k [|c [|? ?]]]]; try done. injection H0 as ->. injection H1 as ->. injection H2 as ->.
  unfold lists_record. destruct (member 0 _ j) as [i|]; [|done]. cbn.
  destruct (string_or_number i) as [s|] eqn:Es; [|done]. cbn.
  destruct (member 1 _ j) as [[| | | |k| |]|]; try done. cbn.
  destruct (member 2 _ j) as [[| | | |c| |]|]; try done. intros [= <-]. cbn.
  split_and!; [|done..]. exists i. split; [done|]. by apply string_or_number_shows.
Qed.

Lemma lists_record_unique j id k cn id' k' cn' :
  lists_record j id k cn -> lists_record j id' k' cn' -> id = id' /\ k = k' /\ cn = cn'.
Proof.
  intros [(i & Hi & Hs) [Hk Hc]] [(i' & Hi' & Hs') [Hk' Hc']]. simplify_eq. split; [|done]. by eapply shows_unique.
Qed.

Lemma de_PorkbunRecords_items j rs :
  de_PorkbunRecords j = Some rs ->
  exists items, listed_items j items /\ Forall2 (fun x r => de_PorkbunRecord x = Some r) items rs.
Proof.
  unfold de_PorkbunRecords. destruct (struct_fields _ j) as [fs|] eqn:Ef; [|done].
  pose proof (struct_fields_member _ _ _ 0 "records" Ef eq_refl) as H0.
  destruct fs as [|i [|? ?]]; try done. injection H0 as ->. unfold listed_items.
  destruct (member 0 _ j) as [i|]; cbn; [|intros [= <-]; exists []; eauto].
  destruct i as [| | | | |l|]; try done. cbn. intros Hl%mapM_Some. exists l. eauto.
Qed.

(** The listing the provider reads. *)
Lemma listing_read j rs id cn :
  de_PorkbunRecords j = Some rs ->
  exists items, listed_items j items /\
    ((exists r, r ∈ rs /\ is_txt r = true /\ pb_id r = id /\ content r = cn) <->
     (exists item kind, item ∈ items /\ lists_record item id kind cn /\ to_ascii_lowercase kind = "txt"%string)).
Proof.
  intros (items & Hi & Hf)%de_PorkbunRecords_items. exists items. split; [done|]. split.
  - intros (r & Hr & Ht & <- & <-). apply list_elem_of_lookup in Hr as [k Hk].
    destruct (Forall2_lookup_r _ _ _ _ _ Hf Hk) as (x & Hx & Hd%de_PorkbunRecord_fields).
    exists x, (record_type r). split_and!; [by eapply list_elem_of_lookup_2|done|]. by apply String.eqb_eq in Ht.
  - intros (x & kind & Hx & Hl & Ht). apply list_elem_of_lookup in Hx as [k Hk].
    destruct (Forall2_lookup_l _ _ _ _ _ Hf Hk) as (r & Hr & Hd%de_PorkbunRecord_fields).
    destruct (lists_record_unique _ _ _ _ _ _ _ Hl Hd) as (-> & -> & ->).
    exists r. split_and!; [by eapply list_elem_of_lookup_2| |done..]. by apply String.eqb_eq.
Qed.

Lemma created_id j id :
  cr_id (created_of j) = Some id -> exists i, member 0 "id" j = Some i /\ shows i id.
Proof.
  unfold created_of, de_CreatedRecord. destruct (struct_fields _ j) as [fs|] eqn:Ef; [|done].
  pose proof (struct_fields_member _ _ _ 0 "id" Ef eq_refl) as H0.
  destruct fs as [|i [|k [|? ?]]]; try done. injection H0 as ->.
  destruct (member 0 _ j) as [i|]; cbn.
  - unfold optional_string_or_number. destruct (string_or_number i) as [s|] eqn:Es; [|done]. cbn.
    destruct (defaulted _ _ k); [|done]. cbn. intros [= ->]. exists i. split; [done|]. by apply string_or_number_shows.
  - by destruct (defaulted _ _ k).
Qed.

Lemma apex_sub rn : rn <> EmptyString -> apex_name (sub_of rn) = rn.
Proof.
  intros Hne. unfold apex_name, sub_of. destruct (String.eqb_spec rn "@") as [->|]; [done|]. by destruct rn.
Qed.

Lemma subdomain_of_relative f z : subdomain_of f z = let! rn := relative_name f z in Ok (sub_of rn).
Proof.
  unfold subdomain_of, sub_of. destruct (relative_name f z) as [rn|e]; cbn; [|done]. by destruct (rn =? "@")%string.
Qed.

Section theory.
Context `{X : Ext} `{S : !ExtSpec X} (body_error : Json -> string) {W : Type} (h : handler sysE W).
Context (c : PorkbunConfig) (recs : W -> string -> gmap string (string * string)).
Context (Hapi : pb_api h c recs).

Definition txt_values : W -> string * string -> list string := record_values recs unquote.

Lemma pb_background_values : background h txt_values.
Proof.
  destruct (pb_background _ _ _ Hapi) as [Hq Hg].
  split; intros; apply same_record_values; eauto.
Qed.

Lemma pb_lists z sub w :
  wp h (fetch_existing body_error c z sub) (fun r w' => same recs w w' /\
    forall l, r = Ok l -> forall id v,
      (exists r, r ∈ l /\ pb_id r = id /\ unquote (content r) = v) <->
      (exists d, recs w z !! id = Some (apex_name sub, d) /\ unquote d = v)) w.
Proof.
  apply wp_bind, wp_bind.
  set (req := mkRequest POST (api_base c +:+ retrieve_path z sub) [] [] _).
  pose proof (pb_list _ _ _ Hapi req z sub eq_refl eq_refl eq_refl) as Hl.
  assert (forall v, same recs v (snd (h _ (HttpSend req) v))) as Hread.
  { intros v. specialize (Hl v). destruct (h _ (HttpSend req) v) as [r v1]. apply Hl. }
  apply (wp_reading h recs (pb_background _ _ _ Hapi)); [exact Hread|].
  intros w' Hw'. split; [intros e; by apply wp_ret|]. intros resp w0 Hw0 Hresp. apply wp_ret.
  apply wp_try_pure; [|done]. intros j Hj. apply wp_try_pure; [|done]. intros rs Hrs. apply wp_ret.
  split; [done|]. intros l [= <-] id v.
  assert (parse_envelope (retrieve_path z sub) z resp = Ok j) as Hp.
  { destruct (parse_envelope _ _ resp) as [j'|e]; [|done]. by injection Hj as ->. }
  rewrite ok_or_ok in Hrs.
  specialize (Hl w0). destruct (h _ (HttpSend req) w0) as [r w1]. cbn [fst] in Hresp. destruct Hl as [_ Hl].
  assert (forall cn, (exists r, r ∈ rs /\ is_txt r = true /\ pb_id r = id /\ content r = cn) <->
    recs w z !! id = Some (apex_name sub, cn)) as Hrec.
  { intros cn. destruct (listing_read j rs id cn Hrs) as (items & Hi & ->). rewrite <- (Hw0 z).
    by apply (Hl resp j items Hresp (envelope_succeeded _ _ _ _ Hp)). }
  setoid_rewrite filter_elem. split.
  - intros (x & [Hx Ht] & <- & <-). exists (content x). split; [|done]. apply Hrec. eauto.
  - intros (d & Hd%Hrec & <-). destruct Hd as (x & Hx & Ht & <- & <-). eauto.
Qed.

Lemma pb_deletes z id w :
  wp h (delete_record c z id) (fun r w' =>
    (same recs w w' \/ deletes recs z id w w') /\ (r = Ok tt -> deletes recs z id w w')) w.
Proof.
  apply wp_bind, wp_bind. eapply (wp_drop_when recs h (pb_background _ _ _ Hapi) _ z id);
    [by apply (pb_delete _ _ _ Hapi)|].
  intros [resp|e] w' Hw Ho; apply wp_ret; [|by apply wp_ret].
  destruct (parse_envelope _ z resp) as [j|[code err|err]] eqn:Ep; [| |by apply wp_ret].
  { apply wp_ret. split; [done|]. intros _. apply (Ho resp); [done|]. apply envelope_succeeded in Ep. eauto. }
  destruct (String.eqb_spec code CODE_INVALID_RECORD_ID) as [->|]; apply wp_ret; [|done].
  split; [done|]. intros _. apply (Ho resp); [done|]. right. by apply envelope_refused in Ep.
Qed.

(** The rollback touches only records with the value. *)
Lemma pb_check_created z n v j w0 w :
  creates recs unquote z n v w0 w ->
  (forall id, cr_id (created_of j) = Some id -> exists cn, recs w z !! id = Some (n, cn) /\ unquote cn = v) ->
  wp h (check_created c z j) (fun r w' => added txt_values (z, n) v w0 r w') w.
Proof.
  intros Hc Hid. unfold check_created. cbn zeta. destruct (into_vec _) as [|x l].
  { apply wp_ret. apply creates_added; [by right|done]. }
  apply wp_bind. destruct (cr_id (created_of j)) as [id|].
  - destruct (Hid id eq_refl) as (cn & Hcn & Hv). apply wp_bind. eapply wp_mono; [apply pb_deletes|].
    intros a w1 [Hd _]. apply wp_ret, wp_ret. split; [|done].
    apply (frame_trans _ _ _ _ _ w); [by apply creates_frame|].
    destruct Hd as [Hd|Hd]; [by apply frame_same, same_record_values|].
    eapply deletes_frame; [exact Hd|]. intros y. rewrite Hcn. intros [= <-]. eauto.
  - apply wp_ret, wp_ret. split; [by apply creates_frame|done].
Qed.

Lemma pb_creates z sub v w :
  all_bytes name_byte v = true ->
  wp h (create_record c z sub v) (fun r w' => added txt_values (z, apex_name sub) v w r w') w.
Proof.
  intros Hv. apply wp_bind, wp_bind.
  eapply (wp_write_answer h recs (pb_background _ _ _ Hapi) _ (creates recs unquote z (apex_name sub) v)
    (fun resp => (exists j, parse_envelope (create_path z) z resp = Ok j) \/
       (refused_with resp CODE_DUPLICATE_RECORD /\ forall j, parse_envelope (create_path z) z resp <> Ok j))
    (fun resp w' => forall j id, parse_envelope (create_path z) z resp = Ok j ->
       cr_id (created_of j) = Some id ->
       exists cn, recs w' z !! id = Some (apex_name sub, cn) /\ unquote cn = v)); [apply _..| |].
  - intros w1. match goal with |- context [HttpSend ?req] =>
      pose proof (pb_create _ _ _ Hapi req z sub v (ttl c) eq_refl eq_refl Hv eq_refl w1) as Hc end.
    destruct (h _ (HttpSend _) w1) as [r w2]. cbn zeta in Hc. destruct Hc as [Hd Ho]. split; [done|].
    intros resp Hr. destruct (Ho resp Hr) as [Hs He]. intros [[j Hj]|[Hre Hno]].
    + destruct (Hs j (envelope_succeeded _ _ _ _ Hj)) as [Hcr Hid]. split; [done|]. intros j' id.
      rewrite Hj. intros [= <-] (i & Hi & Hsh)%created_id. by apply (Hid i).
    + split; [|intros j' id Hj'; by destruct (Hno j')]. destruct (He Hre) as [Hsame (id & cn & Hid & Hcn)].
      rewrite <- Hsame. split_and!; [done|by left|eauto|done].
  - intros [resp|e] w' Hw Ho; apply wp_ret.
    + destruct (parse_envelope _ z resp) as [j|[code err|err]] eqn:Ep.
      * destruct (Ho resp eq_refl) as [Hcr Hid]; [left; eauto|].
        apply (pb_check_created z); [done|]. intros id. by apply Hid.
      * destruct (String.eqb_spec code CODE_DUPLICATE_RECORD) as [->|]; apply wp_ret, creates_added; try done.
        intros _. apply (Ho resp eq_refl). right. rewrite Ep. split; [by apply envelope_refused in Ep|done].
      * by apply wp_ret, creates_added.
    + by apply wp_ret, creates_added.
Qed.

Lemma pb_delete_each z v l :
  delete_each c z (List.filter (fun r => (unquote (content r) =? v)%string) l) =
  rec_deletes (fun r => unquote (content r)) (fun r => delete_record c z (pb_id r)) v l.
Proof.
  induction l as [|r l IH]; [done|]. cbn [List.filter rec_deletes].
  destruct (_ =? v)%string; cbn [delete_each]; by rewrite IH.
Qed.

(** The zone given in the configuration, without its trailing dots, or found
    in the DNS. *)
Definition pb_zone (f : string) : string -> Prop := zone_for (trim_end_matches dot <$> zone_override c) f.

Lemma pb_resolve f w :
  valid_name f ->
  wp h (resolve_zone c (to_ascii_lowercase f)) (fun r w' =>
    same txt_values w w' /\ forall z, r = Ok z -> pb_zone f z) w.
Proof.
  intros Hf. unfold resolve_zone, pb_zone. destruct (zone_override c) as [z|].
  - apply wp_ret. split; [done|]. by intros z' [= <-].
  - by apply (wp_found_zone h txt_values pb_background_values).
Qed.

(** The shape of a call, with the relative name. *)
Lemma pb_call (work : string -> string -> sys (dns_result unit)) f w :
  run h (await? zone := resolve_zone c f in
         try? subdomain := subdomain_of f zone in
         with_lock (zone +:+ "|" +:+ subdomain) (work zone subdomain)) w =
  run h (await? zone := resolve_zone c f in
         try? rname := relative_name f zone in
         with_lock (zone +:+ "|" +:+ sub_of rname) (work zone (sub_of rname))) w.
Proof.
  unfold ptry. rewrite !run_bind. destruct (run h (resolve_zone c f) w) as [[z|e] w1]; [|done].
  rewrite subdomain_of_relative. by destruct (relative_name f z).
Qed.

Lemma pb_present f v w :
  wp h (present body_error c f v) (fun r w' =>
    concerns txt_values (added txt_values) (pb_zone f) f v w r w') w.
Proof.
  apply wp_try_pure; [|by intros; apply failed_concerns]. intros u Hf%validate_fqdn_unit. cbn zeta.
  apply wp_try_pure; [|by intros; apply failed_concerns]. intros u' Hv%acme_value_bytes.
  eapply wp_ext; [apply (pb_call (fun z s => present_locked body_error c z s v))|].
  apply (wp_in_zone h txt_values pb_background_values (added txt_values) id
    (resolve_zone c (to_ascii_lowercase f)) (pb_zone f) (fun z rn => z +:+ "|" +:+ sub_of rn)
    (fun z rn => present_locked body_error c z (sub_of rn) v)); [done|by apply pb_resolve|].
  intros z rn w0 _ Hr _. pose proof (apex_sub rn (relative_not_empty f z rn Hf Hr)) as Hrn.
  apply (wp_rec_present_added recs unquote h pb_id (fun r => unquote (content r))
    (fetch_existing body_error c z (sub_of rn)) (create_record c z (sub_of rn)) z rn (fun _ => True)); [| |done].
  - intros w1 _. pose proof (pb_lists z (sub_of rn) w1) as Hl. by rewrite Hrn in Hl.
  - intros w1. pose proof (pb_creates z (sub_of rn) v w1 Hv) as Hc. by rewrite Hrn in Hc.
Qed.

Lemma pb_cleanup f v w :
  wp h (cleanup body_error c f v) (fun r w' =>
    concerns txt_values (removed txt_values) (pb_zone f) f v w r w') w.
Proof.
  apply wp_try_pure; [|by intros; apply failed_concerns]. intros u Hf%validate_fqdn_unit. cbn zeta.
  eapply wp_ext; [apply (pb_call (fun z s => cleanup_locked body_error c z s v))|].
  apply (wp_in_zone h txt_values pb_background_values (removed txt_values) id
    (resolve_zone c (to_ascii_lowercase f)) (pb_zone f) (fun z rn => z +:+ "|" +:+ sub_of rn)
    (fun z rn => cleanup_locked body_error c z (sub_of rn) v)); [done|by apply pb_resolve|].
  intros z rn w0 _ Hr _. pose proof (apex_sub rn (relative_not_empty f z rn Hf Hr)) as Hrn.
  eapply (wp_ext _ _ (rec_cleanup (fun r => unquote (content r))
    (fetch_existing body_error c z (sub_of rn)) (fun r => delete_record c z (pb_id r)) v)).
  - unfold cleanup_locked, rec_cleanup, ptry. rewrite !run_bind.
    destruct (run h (fetch_existing _ _ _ _) w0) as [[l|e] w1]; [|done]. by rewrite pb_delete_each.
  - apply (wp_rec_cleanup recs unquote h pb_id (fun r => unquote (content r)) _ _ z rn (fun _ => True));
      [| |done].
    + intros w1 _. pose proof (pb_lists z (sub_of rn) w1) as Hl. by rewrite Hrn in Hl.
    + intros r w1. apply pb_deletes.
Qed.
End theory.

(** The provider in an environment; it keeps the default timing. *)
Definition pb_provider `{X : Ext} (body_error : Json -> string) {W} (h : handler sysE W) (c : PorkbunConfig)
  : DnsProvider W :=
  mkProvider (fun f v w => run h (present body_error c f v) w)
             (fun f v w => run h (cleanup body_error c f v) w) default_timing.

(** ** A server, with the domain [example.com]

    Records of the name [parked] are stored with a warning. *)

Definition pb_demo : PorkbunConfig :=
  mkPorkbunConfig "key" "secret" "https://pb.test" (Some "example.com."%string) 600 HTTP_TIMEOUT.

Abbreviation pb_store := (gmap string (string * string)).

Definition pb_ok (fs : list (string * Json)) : Response :=
  reply 200 (JObj (("status", JStr "SUCCESS") :: fs)%string).

Definition pb_failed (code : string) : Response :=
  reply 200 (JObj [("status", JStr "ERROR"); ("code", JStr code)]%string).

Definition ser_pb_record (p : string * string) : Json :=
  JObj [("id", JStr (fst p)); ("type", JStr "TXT"); ("content", JStr (snd p))].

(** The subdomain of a retrieval, after the domain. *)
Definition pb_retrieved (rest : string) : option string :=
  if (rest =? "TXT")%string then Some EmptyString
  else strip_prefix "TXT/" rest ≫= percent_decode.

Definition pb_http (req : Request) (m : pb_store) : result Response ReqwestError * pb_store :=
  match method req with
  | POST =>
      match strip_prefix "https://pb.test/dns/retrieveByNameType/example.com/" (url req) ≫= pb_retrieved,
            strip_prefix "https://pb.test/dns/delete/example.com/" (url req) ≫= percent_decode with
      | Some sub, _ =>
          (Ok (pb_ok [("records"%string, JArr (map ser_pb_record (records_of m (apex_name sub))))]), m)
      | None, Some id =>
          if decide (is_Some (m !! id)) then (Ok (pb_ok []), delete id m)
          else (Ok (pb_failed CODE_INVALID_RECORD_ID), m)
      | None, None =>
          match url req =? "https://pb.test/dns/create/example.com", body req with
          | true, Some (JObj [(_, _); (_, _); (_, JStr n); (_, _); (_, JStr d); (_, _)]) =>
              let x := (apex_name n, d) in
              let id := fresh (dom m : gset string) in
              if decide (map_Exists (fun _ y => y = x) m) then (Ok (pb_failed CODE_DUPLICATE_RECORD), m)
              else (Ok (pb_ok [("id"%string, JStr id);
                               ("warnings"%string, JArr (if (n =? "parked")%string
                                                 then [JStr "not delegated"] else []))]),
                    <[id := x]> m)
          | _, _ => (Ok (reply_empty 404), m)
          end%string
      end
  | _ => (Ok (reply_empty 405), m)
  end.

Definition pb_server : handler sysE pb_store := served_by pb_http.

(** What the answers of the server say. *)
Lemma pb_ok_document fs j :
  succeeded (X := ref_ext) (pb_ok fs) j -> j = to_value (JObj (("status", JStr "SUCCESS") :: fs)%string).
Proof. intros (_ & H & _). by injection H as <-. Qed.

Lemma pb_failed_code code code' :
  refused_with (X := ref_ext) (pb_failed code) code' -> code' = code.
Proof. intros (j & H & _ & Hc). injection H as <-. by injection Hc as <-. Qed.

Lemma pb_failed_fails code j : ~ succeeded (X := ref_ext) (pb_failed code) j.
Proof. intros (_ & H & s & Hs & Hl). injection H as <-. injection Hs as <-. done. Qed.

Lemma reply_empty_silent st code j :
  ~ succeeded (X := ref_ext) (reply_empty st) j /\ ~ refused_with (X := ref_ext) (reply_empty st) code.
Proof. by split; [intros (_ & ? & _)|intros (? & ? & _)]. Qed.

Lemma pb_item p id kind cn : lists_record (to_value (ser_pb_record p)) id kind cn <-> p = (id, cn) /\ kind = "TXT"%string.
Proof.
  destruct p as [i d]. split.
  - intros [(x & Hx & Hs) [Hk Hc]]. injection Hx as <-. injection Hk as <-. injection Hc as <-.
    destruct Hs as [[= ->]|(n & ? & _)]; done.
  - intros [[= -> ->] ->]. split_and!; [|done..]. eexists. split; [done|by left].
Qed.

Lemma pb_listing l j items id cn :
  succeeded (X := ref_ext) (pb_ok [("records"%string, JArr (map ser_pb_record l))]) j -> listed_items j items ->
  (exists item kind, item ∈ items /\ lists_record item id kind cn /\ to_ascii_lowercase kind = "txt"%string) <->
  (id, cn) ∈ l.
Proof.
  intros ->%pb_ok_document Hi.
  assert (items = map to_value (map ser_pb_record l)) as -> by (destruct Hi as [[= <-]|[? _]]; done).
  split.
  - intros (x & kind & Hx & Hl & _). rewrite map_map in Hx. apply list_elem_of_fmap in Hx as (y & -> & Hy).
    by apply pb_item in Hl as [-> _].
  - intros Hin. exists (to_value (ser_pb_record (id, cn))), "TXT"%string. split_and!; [|by apply pb_item|done].
    rewrite map_map. apply list_elem_of_fmap. eauto.
Qed.

(** Where the requests of the provider go. *)
Lemma pb_retrieve_url z sub :
  strip_prefix "https://pb.test/dns/retrieveByNameType/example.com/"
    (api_base pb_demo +:+ retrieve_path (X := ref_ext) z sub) ≫= pb_retrieved =
  if decide (z = "example.com"%string) then Some sub else None.
Proof.
  assert (exists rest, retrieve_path (X := ref_ext) z sub =
    "/dns/retrieveByNameType/" +:+ encode_path (X := ref_ext) z +:+ "/" +:+ rest /\
    pb_retrieved rest = Some sub) as (rest & -> & Hrest).
  { unfold retrieve_path, pb_retrieved. destruct sub as [|b sub]; cbn [is_empty].
    - by exists "TXT"%string.
    - exists ("TXT/" +:+ encode_path (X := ref_ext) (String b sub)). split; [by rewrite !append_assoc|].
      destruct (String.eqb_spec ("TXT/" +:+ encode_path (X := ref_ext) (String b sub)) "TXT"); [done|].
      rewrite strip_prefix_append. cbn [mbind option_bind]. apply encode_decode. }
  pose proof (strip_segment (X := ref_ext) "https://pb.test/dns/retrieveByNameType/" "example.com" z rest) as Hs.
  change ("https://pb.test/dns/retrieveByNameType/" +:+ encode_path (X := ref_ext) "example.com" +:+ "/")
    with "https://pb.test/dns/retrieveByNameType/example.com/"%string in Hs.
  change (api_base pb_demo +:+ "/dns/retrieveByNameType/" +:+ ?s)
    with ("https://pb.test/dns/retrieveByNameType/" +:+ s).
  rewrite Hs. by case_decide.
Qed.

Lemma pb_delete_url z id :
  strip_prefix "https://pb.test/dns/delete/example.com/"
    (api_base pb_demo +:+ delete_path (X := ref_ext) z id) ≫= percent_decode =
  if decide (z = "example.com"%string) then Some id else None.
Proof.
  pose proof (strip_segment (X := ref_ext) "https://pb.test/dns/delete/" "example.com" z
    (encode_path (X := ref_ext) id)) as Hs.
  change ("https://pb.test/dns/delete/" +:+ encode_path (X := ref_ext) "example.com" +:+ "/")
    with "https://pb.test/dns/delete/example.com/"%string in Hs.
  unfold delete_path. change (api_base pb_demo +:+ "/dns/delete/" +:+ ?s) with ("https://pb.test/dns/delete/" +:+ s).
  rewrite Hs. case_decide; [|done]. cbn [mbind option_bind]. apply encode_decode.
Qed.

Lemma pb_create_url z :
  (api_base pb_demo +:+ create_path (X := ref_ext) z =? "https://pb.test/dns/create/example.com")%string =
  bool_decide (z = "example.com"%string).
Proof.
  unfold create_path. change (api_base pb_demo +:+ "/dns/create/" +:+ ?s) with ("https://pb.test/dns/create/" +:+ s).
  case_bool_decide as Hz; [by subst|]. apply String.eqb_neq.
  change "https://pb.test/dns/create/example.com"%string
    with ("https://pb.test/dns/create/" +:+ encode_path (X := ref_ext) "example.com").
  intros E%append_inj_l%encode_path_inj. done.
Qed.

Lemma pb_unquote s : unquote s = Txt.unquote s.
Proof. reflexivity. Qed.

Lemma pb_server_api : pb_api (X := ref_ext) pb_server pb_demo (one_zone "example.com"%string).
Proof.
  split.
  - split; [by intros Y e w; destruct e|]. intros [m u q hd b] w; cbn. by intros ->.
  - intros [m u q hd b] z sub Hm Hu Hb w; cbn [method url body] in *. subst.
    unfold pb_server, served_by, pb_http. cbn [method url body].
    rewrite pb_retrieve_url. case_decide as Hz.
    + subst. split; [done|]. intros resp j items [= <-] Hj Hi id cn.
      rewrite (pb_listing _ _ _ _ _ Hj Hi). unfold one_zone. rewrite decide_True by done.
      apply elem_of_records_of.
    + assert (strip_prefix "https://pb.test/dns/delete/example.com/"
        (api_base pb_demo +:+ retrieve_path (X := ref_ext) z sub) = None) as ->
        by (unfold retrieve_path; by destruct (is_empty sub)).
      assert ((api_base pb_demo +:+ retrieve_path (X := ref_ext) z sub =?
        "https://pb.test/dns/create/example.com")%string = false) as ->
        by (unfold retrieve_path; by destruct (is_empty sub)).
      split; [done|]. by intros resp j items [= <-] Hj%(fun H => proj1 (reply_empty_silent 404 EmptyString j) H).
  - intros [m u q hd b] z sub d t Hm Hu Hd Hb w; cbn [method url body] in *. subst.
    unfold pb_server, served_by, pb_http. cbn [method url body].
    assert (strip_prefix "https://pb.test/dns/retrieveByNameType/example.com/"
      (api_base pb_demo +:+ create_path (X := ref_ext) z) = None) as -> by done.
    assert (strip_prefix "https://pb.test/dns/delete/example.com/"
      (api_base pb_demo +:+ create_path (X := ref_ext) z) = None) as -> by done.
    rewrite pb_create_url. case_bool_decide as Hz.
    2: { split; [by left|]. intros resp [= <-]. split.
         - by intros j Hj%(fun H => proj1 (reply_empty_silent 404 EmptyString j) H).
         - by intros Hj%(fun H => proj2 (reply_empty_silent 404 _ JNull) H). }
    subst. cbv beta iota zeta delta [ser_AuthenticatedBody ser_CreateRecord mbind option_bind].
    assert (unquote d = d) as Hq by (rewrite pb_unquote; by apply unquote_value).
    case_decide as Hex.
    + split; [by left|]. intros resp [= <-]. split; [by intros j Hj%pb_failed_fails|]. intros _. split; [done|].
      destruct Hex as (id & y & Hy & ->). exists id, d. split; [|done]. unfold one_zone. by rewrite decide_True.
    + assert (w !! fresh (dom w) = None) as Hf by (apply not_elem_of_dom, is_fresh).
      pose proof (creates_record_value (one_zone "example.com"%string) unquote _ _ _ _ _
        (one_zone_creates "example.com"%string (apex_name sub) d (fresh (dom w)) w Hf)) as Hc.
      rewrite Hq in Hc. split; [by right|]. intros resp [= <-]. split.
      2: { intros (j & [= <-] & Hn & _). destruct Hn. split_and!; [done..|]. by eexists. }
      intros j ->%pb_ok_document. split; [done|]. intros i id [= <-] [[= <-]|(n & ? & _)]; [|done]. exists d.
      split; [|done]. unfold one_zone. rewrite decide_True by done. apply lookup_insert_eq.
  - intros [m u q hd b] z id Hm Hu Hb w; cbn [method url body] in *. subst.
    unfold pb_server, served_by, pb_http. cbn [method url body].
    assert (strip_prefix "https://pb.test/dns/retrieveByNameType/example.com/"
      (api_base pb_demo +:+ delete_path (X := ref_ext) z id) = None) as -> by done.
    rewrite pb_delete_url. cbn [mbind option_bind]. case_decide as Hz.
    + subst. case_decide as Hid.
      * split; [right|intros resp _ _]; apply one_zone_deletes.
      * assert (deletes (one_zone "example.com"%string) "example.com"%string id w w) as Hd.
        { unfold deletes. split; [|done]. unfold one_zone. rewrite decide_True by done.
          symmetry. apply delete_id. by apply eq_None_not_Some. }
        split; [by left|done].
    + assert ((api_base pb_demo +:+ delete_path (X := ref_ext) z id =?
        "https://pb.test/dns/create/example.com")%string = false) as -> by done.
      split; [by left|]. intros resp [= <-]. intros [[j Hj]|Hj].
      * by apply reply_empty_silent in Hj.
      * by apply (reply_empty_silent 404 _ JNull) in Hj.
Qed.

(** With a configured zone, the contract of [DnsProvider]. *)
Lemma pb_laws `{X : Ext} `{!ExtSpec X} body_error {W} (h : handler sysE W) (c : PorkbunConfig) recs z :
  pb_api h c recs -> zone_override c = Some z ->
  ProviderLaws (pb_provider body_error h c) canon
    (serves_in (txt_values recs) (trim_end_matches dot z)) (fun _ => True).
Proof.
  intros Hapi Hz.
  assert (forall f v w, _) as Hp by exact (pb_present body_error h c recs Hapi).
  assert (forall f v w, _) as Hc by exact (pb_cleanup body_error h c recs Hapi).
  unfold wp, pb_zone in *. rewrite Hz in Hp, Hc. by apply zone_laws.
Qed.

(** ** Properties *)

(** C23. Against a server that behaves as the Porkbun API documents, whatever
    requests fail, are retried or are carried out without an answer, also
    when a record is stored with a warning and taken down again, and where an
    answer means success only by its status field, also on HTTP 200: [present]
    and [cleanup] change no TXT value but the one given, of the name given,
    in its zone; [present] returns [Ok] only when the value is there, and
    [cleanup] only when no record with it is left; and with a configured zone
    the provider keeps the contract of [DnsProvider]. *)
Theorem porkbun_contract `{X : Ext} `{!ExtSpec X} body_error {W} (h : handler sysE W) (c : PorkbunConfig) recs :
  pb_api h c recs ->
  (forall f v w, let '(r, w') := run h (present body_error c f v) w in
     concerns (txt_values recs) (added (txt_values recs)) (pb_zone c f) f v w r w') /\
  (forall f v w, let '(r, w') := run h (cleanup body_error c f v) w in
     concerns (txt_values recs) (removed (txt_values recs)) (pb_zone c f) f v w r w') /\
  (forall z, zone_override c = Some z ->
     ProviderLaws (pb_provider body_error h c) canon
       (serves_in (txt_values recs) (trim_end_matches dot z)) (fun _ => True)).
Proof.
  intros Hapi. split_and!.
  - exact (pb_present body_error h c recs Hapi).
  - exact (pb_cleanup body_error h c recs Hapi).
  - intros z. by apply pb_laws.
Qed.

(** The apex, next to another name; and a record that will not resolve,
    which is not left behind. *)
Lemma porkbun_contract_witness :
  run pb_server (cleanup (X := ref_ext) (fun _ => EmptyString) pb_demo "Example.com" "tok")
      {["7"%string := ("_acme-challenge", "tok")%string; "8"%string := ("@", "tok")%string]}
    = (Ok tt, {["7"%string := ("_acme-challenge", "tok")%string]}) /\
  (let '(r, s) := run pb_server (present (X := ref_ext) (fun _ => EmptyString) pb_demo "parked.example.com" "tok")
                      {["8"%string := ("@", "tok")%string]} in
   is_ok r = false /\ s = {["8"%string := ("@", "tok")%string]}) /\
  ProviderLaws (pb_provider (X := ref_ext) (fun _ => EmptyString) pb_server pb_demo) canon
    (serves_in (txt_values (one_zone "example.com"%string)) "example.com") (fun _ => True).
Proof.
  split; [vm_compute; reflexivity|]. split; [vm_compute; split; reflexivity|].
  destruct (porkbun_contract (fun _ => EmptyString) pb_server pb_demo (one_zone "example.com"%string)
           pb_server_api) as (_ & _ & Hlaws).
  exact (Hlaws "example.com."%string eq_refl).
Defined.
