(* ===== verification/Ovh.v ===== *)
(** * The OVH provider (src/providers/ovh.rs)

    Every request is signed, with a timestamp of the server's clock.  The
    records of a name are listed by identifier and read one by one; a change
    of the records is served only after the zone was refreshed.  [ovh_api]
    states what the OVH API documents of the requests this file sends. *)

From S2P Require Import Prelude Rstr Errors Effects Sys Common Zone Provider Txt Records.

(** [sha1] with [hex::encode], and [serde_json::to_string] with the text of its
    error. *)
Class OvhExt : Type := {
  sha1_hex : string -> string;
  to_json_string : Json -> result string string
}.

Definition OVH_EU_API_BASE : string := "https://eu.api.ovh.com/1.0".
Definition ENV_APP_KEY : string := "OVH_APPLICATION_KEY".
Definition ENV_APP_SECRET : string := "OVH_APPLICATION_SECRET".
Definition ENV_CONSUMER_KEY : string := "OVH_CONSUMER_KEY".
Definition DEFAULT_TTL : Z := 60.
Definition HTTP_TIMEOUT : Duration := from_secs 30.
Definition CONNECT_TIMEOUT : Duration := from_secs 5.
Definition PROVIDER : string := "ovh".

Record OvhConfig : Type := mkOvhConfig {
  application_key : string;
  application_secret : string;
  consumer_key : string;
  api_base : string;
  zone_override : option string;
  ttl : Z;
  http_timeout : Duration
}.

(** ** Bodies *)

Definition ser_CreateRecordBody (field_type sub_domain target : string) (t : Z) : Json :=
  JObj [("fieldType", JStr field_type); ("subDomain", JStr sub_domain); ("target", JStr target);
        ("ttl", JNum t)].

Record OvhRecord : Type := mkOvhRecord {
  ov_id : Z;
  target : string
}.

Definition de_OvhRecord (j : Json) : option OvhRecord :=
  match struct_fields ["id"; "target"] j with
  | Some [i; t] => i' ← required de_u64 i; t' ← required de_string t; Some (mkOvhRecord i' t')
  | _ => None
  end.

(** [reqwest::Method::as_str]. *)
Definition method_str (m : Method) : string :=
  match m with
  | GET => "GET" | POST => "POST" | PUT => "PUT" | PATCH => "PATCH" | DELETE => "DELETE"
  end.

Section ovh.
Context `{X : Ext} `{XO : OvhExt}.

(** ** Configuration *)

Definition config_new (application_key application_secret consumer_key : string) : OvhConfig :=
  mkOvhConfig application_key application_secret consumer_key OVH_EU_API_BASE None DEFAULT_TTL HTTP_TIMEOUT.

Definition with_api_base (c : OvhConfig) (base : string) : dns_result OvhConfig :=
  let! _ := validate_https_base base PROVIDER in
  Ok (mkOvhConfig (application_key c) (application_secret c) (consumer_key c) (trim_end_matches "/" base)
        (zone_override c) (ttl c) (http_timeout c)).

Definition with_zone (c : OvhConfig) (zone : string) : dns_result OvhConfig :=
  let! _ := validate_zone zone in
  Ok (mkOvhConfig (application_key c) (application_secret c) (consumer_key c) (api_base c)
        (Some (to_ascii_lowercase (trim_end_matches dot zone))) (ttl c) (http_timeout c)).

Definition with_ttl (c : OvhConfig) (t : Z) : dns_result OvhConfig :=
  let! t' := validate_ttl t in
  Ok (mkOvhConfig (application_key c) (application_secret c) (consumer_key c) (api_base c)
        (zone_override c) t' (http_timeout c)).

Definition with_timeout (c : OvhConfig) (d : Duration) : OvhConfig :=
  mkOvhConfig (application_key c) (application_secret c) (consumer_key c) (api_base c)
    (zone_override c) (ttl c) d.

Definition new (client : Duration -> Duration -> result unit ReqwestError) (c : OvhConfig)
  : dns_result OvhConfig :=
  let! _ := map_err Http (client (http_timeout c) CONNECT_TIMEOUT) in Ok c.

Definition from_env (client : Duration -> Duration -> result unit ReqwestError)
    (var : string -> option string) : dns_result OvhConfig :=
  let! ak := ok_or (var ENV_APP_KEY) (MissingCredentials ENV_APP_KEY) in
  let! asec := ok_or (var ENV_APP_SECRET) (MissingCredentials ENV_APP_SECRET) in
  let! ck := ok_or (var ENV_CONSUMER_KEY) (MissingCredentials ENV_CONSUMER_KEY) in
  new client (config_new ak asec ck).

(** ** Requests *)

Definition resolve_zone (c : OvhConfig) (fqdn : string) : sys (dns_result string) :=
  match zone_override c with
  | Some z => Ret (Ok z)
  | None =>
      await? zone := find_zone fqdn in
      try? _ := validate_fqdn zone in
      Ret (Ok zone)
  end.

Definition record_list_url (c : OvhConfig) (zone : string) : string :=
  api_base c +:+ "/domain/zone/" +:+ encode_path zone +:+ "/record".

Definition record_item_url (c : OvhConfig) (zone : string) (id : Z) : string :=
  api_base c +:+ "/domain/zone/" +:+ encode_path zone +:+ "/record/" +:+ pretty id.

Definition refresh_url (c : OvhConfig) (zone : string) : string :=
  api_base c +:+ "/domain/zone/" +:+ encode_path zone +:+ "/refresh".

Definition ovh_path (suffix : string) : string := "/domain/zone/" +:+ suffix.

Definition sign_request (c : OvhConfig) (meth url body : string) (timestamp : Z) : string :=
  "$1$" +:+ sha1_hex (application_secret c +:+ "+" +:+ consumer_key c +:+ "+" +:+ meth +:+ "+"
                      +:+ url +:+ "+" +:+ body +:+ "+" +:+ pretty timestamp).

(** Seconds of a [u64], [as i64]. *)
Definition now_timestamp : sys Z :=
  let* t := call SystemTimeNow in
  Ret (match t with Some s => wrap_i 64 s | None => 0 end).

Definition sync_time (c : OvhConfig) : sys unit :=
  let* time_delta := call OnceGet in
  match time_delta with
  | Some _ => Ret tt
  | None =>
      let* response := send (mkRequest GET (api_base c +:+ "/auth/time") [] [] None) in
      match response with
      | Err _ => Ret tt
      | Ok response =>
          if negb (is_success (status response)) then Ret tt
          else
            match response_json de_i64 response with
            | Err _ => Ret tt
            | Ok server_time =>
                let* now := now_timestamp in
                call (OnceSet (wrap_i 64 (server_time - now)))
            end
      end
  end.

(** The body is its text, with the value it is the text of. *)
Definition signed_request (c : OvhConfig) (m : Method) (url text : string) (value : option Json)
  : sys Request :=
  let* now := now_timestamp in
  let* time_delta := call OnceGet in
  let ts := wrap_i 64 (now + default 0 time_delta) in
  let signature := sign_request c (method_str m) url text ts in
  let headers :=
    [("X-Ovh-Application", application_key c); ("X-Ovh-Consumer", consumer_key c);
     ("X-Ovh-Timestamp", pretty ts); ("X-Ovh-Signature", signature)]%string in
  Ret (if negb (is_empty text)
       then mkRequest m url [] (headers ++ [("Content-Type", "application/json")]%string) value
       else mkRequest m url [] headers None).

(** [signed_request(...).send_retrying().await?]. *)
Definition send_signed (c : OvhConfig) (m : Method) (url text : string) (value : option Json)
  : sys (dns_result Response) :=
  let* request := signed_request c m url text value in send request.

Definition list_url (c : OvhConfig) (zone sub_domain : string) : string :=
  record_list_url c zone +:+ "?fieldType=TXT&subDomain=" +:+ encode_path sub_domain.

Definition list_records (c : OvhConfig) (zone sub_domain : string) : sys (dns_result (list Z)) :=
  await? response := send_signed c GET (list_url c zone sub_domain) EmptyString None in
  if negb (is_success (status response)) then
    Ret (Err (api_error PROVIDER "GET" (ovh_path (zone +:+ "/record")) response))
  else
    try? ids := response_json (de_vec de_u64) response in
    Ret (Ok ids).

Definition get_record (c : OvhConfig) (zone : string) (id : Z) : sys (dns_result OvhRecord) :=
  await? response := send_signed c GET (record_item_url c zone id) EmptyString None in
  if negb (is_success (status response)) then
    Ret (Err (api_error PROVIDER "GET" (ovh_path (zone +:+ "/record/" +:+ pretty id)) response))
  else
    try? record := response_json de_OvhRecord response in
    Ret (Ok record).

Definition create_record (c : OvhConfig) (zone sub_domain target : string) : sys (dns_result unit) :=
  let value := ser_CreateRecordBody "TXT" sub_domain target (ttl c) in
  try? text := map_err (fun e => Other ("serialize ovh create body: " +:+ e)) (to_json_string value) in
  await? response := send_signed c POST (record_list_url c zone) text (Some value) in
  if negb (is_success (status response)) then
    Ret (Err (api_error PROVIDER "POST" (ovh_path (zone +:+ "/record")) response))
  else Ret (Ok tt).

Definition delete_record (c : OvhConfig) (zone : string) (id : Z) : sys (dns_result unit) :=
  await? response := send_signed c DELETE (record_item_url c zone id) EmptyString None in
  if negb (is_success (status response)) && negb (status response =? 404) then
    Ret (Err (api_error PROVIDER "DELETE" (ovh_path (zone +:+ "/record/" +:+ pretty id)) response))
  else Ret (Ok tt).

Definition refresh_zone (c : OvhConfig) (zone : string) : sys (dns_result unit) :=
  await? response := send_signed c POST (refresh_url c zone) EmptyString None in
  if negb (is_success (status response)) then
    Ret (Err (api_error PROVIDER "POST" (ovh_path (zone +:+ "/refresh")) response))
  else Ret (Ok tt).

(** ** Operations *)

Definition stored_value (r : OvhRecord) : string := trim_matches quote (target r).

(** The loop of [present]; [true] when it returns. *)
Fixpoint has_value (c : OvhConfig) (zone value : string) (ids : list Z) : sys (dns_result bool) :=
  match ids with
  | [] => Ret (Ok false)
  | id :: rest =>
      await? record := get_record c zone id in
      if (stored_value record =? value)%string then Ret (Ok true) else has_value c zone value rest
  end.

Definition present_locked (c : OvhConfig) (zone sub_domain value : string) : sys (dns_result unit) :=
  let* _ := sync_time c in
  await? existing_ids := list_records c zone sub_domain in
  await? found := has_value c zone value existing_ids in
  if (found : bool) then Ret (Ok tt)
  else
    await? _ := create_record c zone sub_domain value in
    refresh_zone c zone.

Definition present (c : OvhConfig) (fqdn value : string) : sys (dns_result unit) :=
  try? _ := validate_fqdn fqdn in
  let fqdn := to_ascii_lowercase fqdn in
  try? _ := validate_acme_value value in
  await? zone := resolve_zone c fqdn in
  try? sub_domain := relative_name fqdn zone in
  with_lock (zone +:+ "|" +:+ sub_domain) (present_locked c zone sub_domain value).

(** The loop of [cleanup], with [deleted_any]. *)
Fixpoint delete_matching (c : OvhConfig) (zone value : string) (deleted_any : bool) (ids : list Z)
  : sys (dns_result bool) :=
  match ids with
  | [] => Ret (Ok deleted_any)
  | id :: rest =>
      await? record := get_record c zone id in
      if (stored_value record =? value)%string then
        await? _ := delete_record c zone (ov_id record) in
        delete_matching c zone value true rest
      else delete_matching c zone value deleted_any rest
  end.

Definition cleanup_locked (c : OvhConfig) (zone sub_domain value : string) : sys (dns_result unit) :=
  let* _ := sync_time c in
  await? existing_ids := list_records c zone sub_domain in
  await? deleted_any := delete_matching c zone value false existing_ids in
  if (deleted_any : bool) then
    await? _ := refresh_zone c zone in
    Ret (Ok tt)
  else Ret (Ok tt).

Definition cleanup (c : OvhConfig) (fqdn value : string) : sys (dns_result unit) :=
  try? _ := validate_fqdn fqdn in
  let fqdn := to_ascii_lowercase fqdn in
  await? zone := resolve_zone c fqdn in
  try? sub_domain := relative_name fqdn zone in
  with_lock (zone +:+ "|" +:+ sub_domain) (cleanup_locked c zone sub_domain value).
End ovh.

(** ** The OVH API

    [zones w z] is what the server holds for the zone [z]: its TXT records by
    identifier, each with its name and target, and the records it serves,
    which are those of the last refresh. *)

Class OvhExtSpec (XO : OvhExt) : Prop := {
  json_text_not_empty : forall j t, to_json_string j = Ok t -> t <> EmptyString
}.

Abbreviation txt_records := (gmap Z (string * string)).

Definition ov_decode (t : string) : string := trim_matches quote t.

Section effects.
Context {W : Type} (zones : W -> string -> txt_records * txt_records).

Definition records (w : W) (z : string) : txt_records := fst (zones w z).
Definition served (w : W) (z : string) : txt_records := snd (zones w z).

Definition ov_creates (z n v : string) (w w' : W) : Prop :=
  creates records ov_decode z n v w w' /\ same served w w'.
Definition ov_deletes (z : string) (id : Z) (w w' : W) : Prop :=
  deletes records z id w w' /\ same served w w'.
Definition ov_refreshes (z : string) (w w' : W) : Prop :=
  same records w w' /\ set_to served z (records w z) w w'.

Lemma same_zones w w' : same zones w w' <-> same records w w' /\ same served w w'.
Proof.
  unfold same, records, served. split.
  - intros H. split; intros z; by rewrite H.
  - intros [H1 H2] z. specialize (H1 z). specialize (H2 z). destruct (zones w z), (zones w' z). cbn in *. by subst.
Qed.

#[global] Instance records_sub : subrelation (same zones) (same records).
Proof. intros w w' H. by apply same_zones in H as [? _]. Qed.
#[global] Instance served_sub : subrelation (same zones) (same served).
Proof. intros w w' H. by apply same_zones in H as [_ ?]. Qed.

Lemma and_iff_compat2 (P Q P' Q' : Prop) : (P <-> P') -> (Q <-> Q') -> (P /\ Q <-> P' /\ Q').
Proof. tauto. Qed.

Lemma same_iff {K V} (vals : W -> K -> V) w1 w2 w3 w4 :
  same vals w1 w2 -> same vals w3 w4 -> (same vals w1 w3 <-> same vals w2 w4).
Proof. intros H1 H2. split; intros H k; [rewrite (H2 k), (H k), (H1 k)|rewrite <- (H2 k), (H k), (H1 k)]; done. Qed.

#[global] Instance ov_creates_proper z n v : Proper (same zones ==> same zones ==> iff) (ov_creates z n v).
Proof.
  intros w1 w2 [H1 H2]%same_zones w3 w4 [H3 H4]%same_zones.
  apply and_iff_compat2; [by apply creates_proper|by apply same_iff].
Qed.
#[global] Instance ov_deletes_proper z id : Proper (same zones ==> same zones ==> iff) (ov_deletes z id).
Proof.
  intros w1 w2 [H1 H2]%same_zones w3 w4 [H3 H4]%same_zones.
  apply and_iff_compat2; [by apply deletes_proper|by apply same_iff].
Qed.
#[global] Instance ov_refreshes_proper z : Proper (same zones ==> same zones ==> iff) (ov_refreshes z).
Proof.
  intros w1 w2 [H1 H2]%same_zones w3 w4 [H3 H4]%same_zones.
  apply and_iff_compat2; [by apply same_iff|]. rewrite (H1 z). by apply set_to_proper.
Qed.

#[global] Instance ov_creates_transitive z n v : Transitive (ov_creates z n v).
Proof. intros w1 w2 w3 [A1 A2] [B1 B2]. split; by etrans. Qed.
#[global] Instance ov_deletes_transitive z id : Transitive (ov_deletes z id).
Proof. intros w1 w2 w3 [A1 A2] [B1 B2]. split; by etrans. Qed.
#[global] Instance ov_refreshes_transitive z : Transitive (ov_refreshes z).
Proof.
  intros w1 w2 w3 [A1 A2] [B1 B2]. split; [by etrans|]. rewrite (A1 z) in B2. by eapply set_to_trans.
Qed.

(** The effect of a request happens or does not; it has happened when the
    answer says so. *)
Definition does (h : handler sysE W) (req : Request) (E : W -> W -> Prop) (done_ : Response -> Prop) : Prop :=
  forall w, let '(r, w') := h _ (HttpSend req) w in
    (same zones w w' \/ E w w') /\ forall resp, r = Ok resp -> done_ resp -> E w w'.
End effects.

Record ovh_api `{X : Ext} {W} (h : handler sysE W) (c : OvhConfig)
    (zones : W -> string -> txt_records * txt_records) : Prop := {
  ov_background : background h zones;
  ov_list : forall req w resp z sub ids,
    fst (h _ (HttpSend req) w) = Ok resp -> method req = GET -> url req = list_url c z sub ->
    is_success (status resp) = true -> response_json (de_vec de_u64) resp = Ok ids ->
    forall id, id ∈ ids <-> exists t, records zones w z !! id = Some (sub, t);
  ov_get : forall req w resp z id r,
    fst (h _ (HttpSend req) w) = Ok resp -> method req = GET -> url req = record_item_url c z id ->
    is_success (status resp) = true -> response_json de_OvhRecord resp = Ok r ->
    ov_id r = id /\ exists n, records zones w z !! id = Some (n, target r);
  ov_create : forall req z sub d t,
    method req = POST -> url req = record_list_url c z -> all_bytes name_byte d = true ->
    body req = Some (ser_CreateRecordBody "TXT" sub d t) ->
    does zones h req (ov_creates zones z sub d) (fun resp => is_success (status resp) = true);
  ov_delete : forall req z id,
    method req = DELETE -> url req = record_item_url c z id ->
    does zones h req (ov_deletes zones z id)
      (fun resp => is_success (status resp) = true \/ status resp = 404);
  ov_refresh : forall req z,
    method req = POST -> url req = refresh_url c z ->
    does zones h req (ov_refreshes zones z) (fun resp => is_success (status resp) = true)
}.


(** ** Correctness *)

Section theory.
Context `{X : Ext} `{S : !ExtSpec X} `{XO : OvhExt} `{SO : !OvhExtSpec XO}.
Context {W : Type} (h : handler sysE W) (c : OvhConfig).
Context (zones : W -> string -> txt_records * txt_records) (Hapi : ovh_api h c zones).
Local Abbreviation recs := (records zones).
Local Abbreviation vals := (record_values recs ov_decode).
Local Abbreviation quiet := (bg_quiet _ _ (ov_background _ _ _ Hapi)).

(** The prefix of a signed request reads the clocks. *)
Lemma wp_signed m u text j (Q : dns_result Response -> W -> Prop) w :
  (forall req w0, same zones w w0 -> method req = m -> url req = u ->
     (text <> EmptyString -> body req = j) -> wp h (send req) Q w0) ->
  wp h (send_signed c m u text j) Q w.
Proof.
  intros H. apply wp_bind, wp_bind, wp_bind, wp_vis, wp_ret, wp_ret, wp_bind, wp_vis, wp_ret. cbn zeta.
  pose proof (quiet _ SystemTimeNow w eq_refl) as Q1.
  pose proof (quiet _ OnceGet (snd (h _ SystemTimeNow w)) eq_refl) as Q2.
  apply wp_ret, H; [by etrans|by destruct (is_empty text)..|]. intros Ht. by destruct text.
Qed.

Lemma ov_sync_time w : wp h (sync_time c) (fun _ w' => same zones w w') w.
Proof.
  apply wp_bind, wp_vis, wp_ret. pose proof (quiet _ OnceGet w eq_refl) as Q1.
  destruct (h _ OnceGet w) as [[x|] w1]; cbn [fst snd] in *; [by apply wp_ret|]. apply wp_bind.
  apply (wp_read h zones (ov_background _ _ _ Hapi)); [done|]. intros w2 H2. rewrite <- Q1 in H2.
  split; [intros e; by apply wp_ret|]. intros resp _ _ _. destruct (is_success (status resp)); [|by apply wp_ret].
  cbn [negb]. destruct (response_json _ resp) as [t|e]; [|by apply wp_ret].
  apply wp_bind, wp_bind, wp_vis, wp_ret, wp_ret, wp_vis, wp_ret.
  etrans; [exact H2|]. etrans; [|by apply quiet]. by apply quiet.
Qed.

Lemma ov_lists z rn w :
  wp h (list_records c z rn) (fun r w' => same zones w w' /\
    forall ids, r = Ok ids -> forall id, id ∈ ids <-> exists t, recs w z !! id = Some (rn, t)) w.
Proof.
  apply wp_try, wp_signed. intros req w0 H0 Hm Hu _.
  apply (wp_read h zones (ov_background _ _ _ Hapi)); [done|]. intros w1 H1. rewrite <- H0 in H1.
  split; [done|]. intros resp w2 H2 Hr. rewrite <- H0 in H2.
  destruct (is_success (status resp)) eqn:Es; [|by apply wp_ret]. cbn [negb].
  apply wp_try_pure; [|done]. intros ids Hids. apply wp_ret. split; [done|]. intros ids' [= <-] id.
  rewrite (ov_list _ _ _ Hapi req w2 resp z rn ids Hr Hm Hu Es Hids id).
  unfold records. by rewrite (H2 z).
Qed.

Lemma ov_gets z id w :
  wp h (get_record c z id) (fun r w' => same zones w w' /\
    forall x, r = Ok x -> ov_id x = id /\ exists n, recs w z !! id = Some (n, target x)) w.
Proof.
  apply wp_try, wp_signed. intros req w0 H0 Hm Hu _.
  apply (wp_read h zones (ov_background _ _ _ Hapi)); [done|]. intros w1 H1. rewrite <- H0 in H1.
  split; [done|]. intros resp w2 H2 Hr. rewrite <- H0 in H2.
  destruct (is_success (status resp)) eqn:Es; [|by apply wp_ret]. cbn [negb].
  apply wp_try_pure; [|done]. intros x Hx. apply wp_ret. split; [done|]. intros x' [= <-].
  destruct (ov_get _ _ _ Hapi req w2 resp z id x Hr Hm Hu Es Hx) as [E Hn]. split; [done|].
  unfold records in *. by rewrite (H2 z) in Hn.
Qed.

(** A signed request with an effect. *)
Lemma wp_does m u text j (E : W -> W -> Prop) (done_ : Response -> Prop)
    (Q : dns_result Response -> W -> Prop) w :
  Proper (same zones ==> same zones ==> iff) E -> Transitive E ->
  (forall req, method req = m -> url req = u -> (text <> EmptyString -> body req = j) ->
     does zones h req E done_) ->
  (forall r w', (same zones w w' \/ E w w') -> (forall resp, r = Ok resp -> done_ resp -> E w w') -> Q r w') ->
  wp h (send_signed c m u text j) Q w.
Proof.
  intros HE HT Hreq HQ. apply wp_signed. intros req w0 H0 Hm Hu Hb.
  apply (wp_write h zones (ov_background _ _ _ Hapi) req E done_); [done|done|by apply Hreq|].
  intros r w' Hd Ho. apply HQ; [by rewrite H0|]. intros resp Hr Hdone. rewrite H0. by apply (Ho resp).
Qed.

Lemma ov_create_record z rn v w :
  all_bytes name_byte v = true ->
  wp h (create_record c z rn v) (fun r w' =>
    (same zones w w' \/ ov_creates zones z rn v w w') /\ (r = Ok tt -> ov_creates zones z rn v w w')) w.
Proof.
  intros Hv. unfold create_record. cbn zeta.
  destruct (to_json_string _) as [text|e] eqn:Et; cbn [map_err ptry_pure]; [|apply wp_ret; by split; [left|]].
  apply json_text_not_empty in Et.
  apply wp_try, (wp_does _ _ _ _ (ov_creates zones z rn v) (fun resp => is_success (status resp) = true));
    [apply _..| |].
  - intros req Hm Hu Hb. eapply (ov_create _ _ _ Hapi); [done|done|done|by apply Hb].
  - intros [resp|e] w' Hd Ho; [|done]. destruct (is_success (status resp)) eqn:Es; by apply wp_ret; eauto.
Qed.

Lemma ov_delete_record z id w :
  wp h (delete_record c z id) (fun r w' =>
    (same zones w w' \/ ov_deletes zones z id w w') /\ (r = Ok tt -> ov_deletes zones z id w w')) w.
Proof.
  apply wp_try, (wp_does _ _ _ _ (ov_deletes zones z id)
    (fun resp => is_success (status resp) = true \/ status resp = 404)); [apply _..| |].
  - intros req Hm Hu _. by apply (ov_delete _ _ _ Hapi).
  - intros [resp|e] w' Hd Ho; [|done]. destruct (is_success (status resp)) eqn:Es; [by apply wp_ret; eauto|].
    destruct (Z.eqb_spec (status resp) 404); by apply wp_ret; eauto.
Qed.

Lemma ov_refresh_zone z w :
  wp h (refresh_zone c z) (fun r w' =>
    (same zones w w' \/ ov_refreshes zones z w w') /\ (r = Ok tt -> ov_refreshes zones z w w')) w.
Proof.
  apply wp_try, (wp_does _ _ _ _ (ov_refreshes zones z) (fun resp => is_success (status resp) = true));
    [apply _..| |].
  - intros req Hm Hu _. by apply (ov_refresh _ _ _ Hapi).
  - intros [resp|e] w' Hd Ho; [|done]. destruct (is_success (status resp)) eqn:Es; by apply wp_ret; eauto.
Qed.

(** A refresh leaves the records as they are. *)
Lemma refreshes_same z w w' : same zones w w' \/ ov_refreshes zones z w w' ->
  same recs w w' /\ forall z', z' <> z -> served zones w' z' = served zones w z'.
Proof.
  intros [[H1 H2]%same_zones|[H1 [_ H2]]]; split; done.
Qed.

Lemma refreshes_in_sync z w w' : ov_refreshes zones z w w' -> served zones w' z = recs w' z.
Proof. intros [H1 [-> _]]. symmetry. apply H1. Qed.

Lemma ov_has_value z rn v ids w :
  (forall id, id ∈ ids -> exists t, recs w z !! id = Some (rn, t)) ->
  wp h (has_value c z v ids) (fun r w' => same zones w w' /\ (r = Ok true -> v ∈ vals w (z, rn))) w.
Proof.
  revert w. induction ids as [|id ids IH]; intros w Hids; cbn [has_value]; [by apply wp_ret|].
  apply wp_try. eapply wp_mono; [apply ov_gets|]. intros [x|e] w1 [H1 Hx]; [|done].
  destruct (Hx x eq_refl) as (Ex & n & Hn). destruct (Hids id) as (t & Ht); [left|].
  rewrite Ht in Hn. injection Hn as <- ->.
  destruct (String.eqb_spec (stored_value x) v) as [Ev|_].
  - apply wp_ret. split; [done|]. intros _. apply elem_of_record_values. by exists id, (target x).
  - eapply wp_mono; [apply IH|].
    + intros id' Hid'. unfold records in *. rewrite (H1 z). apply Hids. by right.
    + intros r w2 [H2 Hr]. split; [by rewrite H1|]. intros E. specialize (Hr E).
      pose proof (same_record_values recs ov_decode w w1 (records_sub zones _ _ H1)) as H. by rewrite (H (z, rn)) in Hr.
Qed.

(** What a call has done: [vchange] to the values of the name, and to what
    the zone serves only what a refresh does. *)
Definition ov_call (vchange : string * string -> string -> W -> dns_result unit -> W -> Prop)
    (k : string * string) (v : string) (w : W) (r : dns_result unit) (w' : W) : Prop :=
  vchange k v w r w' /\
  (forall z', z' <> fst k -> served zones w' z' = served zones w z') /\
  (r = Ok tt -> same zones w w' \/ served zones w' (fst k) = recs w' (fst k)).

Lemma ov_present_locked z rn v w :
  all_bytes name_byte v = true ->
  wp h (present_locked c z rn v) (fun r w' => ov_call (added vals) (z, rn) v w r w') w.
Proof.
  intros Hv. assert (forall w1 e, same zones w w1 -> ov_call (added vals) (z, rn) v w (Err e) w1) as Hfail.
  { intros w1 e [H1 H2]%same_zones. split_and!; [by apply same_failed_added, same_record_values|by intros|done]. }
  apply wp_bind. eapply wp_mono; [apply ov_sync_time|]. intros [] w1 H1.
  apply wp_try. eapply wp_mono; [apply ov_lists|]. intros [ids|e] w2 [H2 Hids]; [|apply Hfail; by rewrite H1].
  rewrite <- H1 in H2.
  apply wp_try. eapply wp_mono; [apply (ov_has_value z rn)|].
  { intros id Hid. unfold records in *. rewrite (H2 z), <- (H1 z). by apply (Hids ids eq_refl). }
  intros [found|e] w3 [H3 Hf]; [|apply Hfail; by rewrite H2]. rewrite <- H2 in H3.
  pose proof (same_record_values recs ov_decode _ _ (records_sub zones _ _ H2)) as V2.
  pose proof (same_record_values recs ov_decode _ _ (records_sub zones _ _ H3)) as V3.
  destruct found.
  { apply wp_ret. apply same_zones in H3 as H3'. split_and!.
    - split; [by apply frame_same|]. intros _. rewrite (V3 (z, rn)), <- (V2 (z, rn)). by apply Hf.
    - intros z' _. by apply H3'.
    - intros _. by left. }
  apply wp_try. eapply wp_mono; [by apply (ov_create_record z rn)|]. intros r w4 [Hd Ho]. rewrite <- H3 in Hd, Ho.
  assert (same (served zones) w w4) as S4.
  { destruct Hd as [[_ ?]%same_zones|[_ ?]]; done. }
  assert (added vals (z, rn) v w r w4) as A4.
  { apply creates_added; [|by intros E; apply Ho in E as [? _]].
    destruct Hd as [[? _]%same_zones|[? _]]; [by left|by right]. }
  destruct r as [[]|e]; [|by split_and!; [|intros z' _; apply S4|]].
  eapply wp_mono; [apply ov_refresh_zone|]. intros r w5 [H5 Ho5].
  apply refreshes_same in H5 as [R5 S5].
  pose proof (same_record_values recs ov_decode _ _ R5) as V5. destruct A4 as [F4 A4]. split_and!.
  - rewrite <- (added_proper vals (z, rn) v w w ltac:(done) r r eq_refl w4 w5 V5). split; [done|]. intros _. by apply A4.
  - intros z' Hz. rewrite (S5 z' Hz). apply S4.
  - intros Er. right. by eapply refreshes_in_sync, Ho5.
Qed.
(** Records with one value of one name have been deleted, not yet from what
    is served. *)
Definition dropping (z rn v : string) (w w' : W) : Prop :=
  frame vals (z, rn) v w w' /\ recs w' z ⊆ recs w z /\ same (served zones) w w'.

Lemma dropping_same z rn v w w' : same zones w w' -> dropping z rn v w w'.
Proof.
  intros [R S1]%same_zones. split_and!; [by apply frame_same, same_record_values|by rewrite (R z)|done].
Qed.

Lemma dropping_trans z rn v w1 w2 w3 : dropping z rn v w1 w2 -> dropping z rn v w2 w3 -> dropping z rn v w1 w3.
Proof. intros (A1 & A2 & A3) (B1 & B2 & B3). split_and!; [by eapply frame_trans|by etrans|by etrans]. Qed.

Lemma dropping_deletes z rn v id w w' t :
  recs w z !! id = Some (rn, t) -> ov_decode t = v -> ov_deletes zones z id w w' -> dropping z rn v w w'.
Proof.
  intros Hid Ht [Hd Hs]. split_and!; [|destruct Hd as [-> _]; apply delete_subseteq|done].
  eapply deletes_frame; [exact Hd|]. intros x. rewrite Hid. intros [= <-]. eauto.
Qed.

(** The loop of [cleanup], over records of the name. *)
Lemma ov_delete_matching z rn v d ids w :
  (forall id x, id ∈ ids -> recs w z !! id = Some x -> fst x = rn) ->
  wp h (delete_matching c z v d ids) (fun r w' => dropping z rn v w w' /\
    (r = Ok false -> d = false /\ same zones w w') /\
    forall b, r = Ok b -> forall id x, id ∈ ids -> recs w' z !! id = Some x -> ov_decode (snd x) <> v) w.
Proof.
  revert d w. induction ids as [|id ids IH]; intros d w Hids; cbn [delete_matching].
  { apply wp_ret. split_and!; [by apply dropping_same|by intros [= ->]|]. intros b _ id x Hid. by apply elem_of_nil in Hid. }
  apply wp_try. eapply wp_mono; [apply ov_gets|].
  intros [x|e] w1 [H1 Hx]; [|by split_and!; [apply dropping_same|..]].
  destruct (Hx x eq_refl) as (Ex & n & Hn). pose proof (Hids id _ ltac:(left) Hn) as En. cbn in En. subst n.
  pose proof (dropping_same z rn v _ _ H1) as D1. apply same_zones in H1 as H1'. destruct H1' as [R1 _].
  assert (forall w2, dropping z rn v w w2 -> forall id x, id ∈ ids -> recs w2 z !! id = Some x -> fst x = rn) as Hids'.
  { intros w2 (_ & Hsub & _) i y Hi Hy. apply (Hids i); [by right|]. by eapply lookup_weaken. }
  destruct (String.eqb_spec (stored_value x) v) as [Ev|Ev].
  - apply wp_try. eapply wp_mono; [apply ov_delete_record|]. rewrite Ex. intros r w2 [Hd Ho].
    assert (dropping z rn v w w2) as D2.
    { eapply dropping_trans; [exact D1|]. destruct Hd as [Hd|Hd]; [by apply dropping_same|].
      eapply dropping_deletes; [|exact Ev|exact Hd]. by rewrite (R1 z). }
    destruct r as [[]|e]; [|by split_and!].
    destruct (Ho eq_refl) as [[E2 _] _]. eapply wp_mono; [by apply IH, Hids'|].
    intros r w3 (D3 & Hf & Hg). split_and!; [by eapply dropping_trans|by intros [? _]%Hf|].
    intros b Hb i y [->|Hi]%elem_of_cons Hy; [|by eapply Hg].
    destruct D3 as (_ & Hsub & _). eapply lookup_weaken in Hy; [|exact Hsub]. by rewrite E2, lookup_delete_eq in Hy.
  - eapply wp_mono; [by apply IH, Hids'|]. intros r w3 (D3 & Hf & Hg). split_and!; [by eapply dropping_trans| |].
    + intros Hr. destruct (Hf Hr) as [-> H3]. split; [done|by rewrite H1].
    + intros b Hb i y [->|Hi]%elem_of_cons Hy; [|by eapply Hg].
      destruct D3 as (_ & Hsub & _). eapply lookup_weaken in Hy; [|exact Hsub].
      rewrite (R1 z), Hn in Hy. by injection Hy as <-.
Qed.

Lemma ov_cleanup_locked z rn v w :
  wp h (cleanup_locked c z rn v) (fun r w' => ov_call (removed vals) (z, rn) v w r w') w.
Proof.
  assert (forall w1 e, dropping z rn v w w1 -> ov_call (removed vals) (z, rn) v w (Err e) w1) as Hfail.
  { intros w1 e (F & _ & S1). by split_and!; [split| |]. }
  apply wp_bind. eapply wp_mono; [apply ov_sync_time|]. intros [] w1 H1.
  apply wp_try. eapply wp_mono; [apply ov_lists|]. intros [ids|e] w2 [H2 Hids].
  2: { apply Hfail, dropping_same. by rewrite H1. }
  specialize (Hids ids eq_refl). rewrite <- H1 in H2.
  apply same_zones in H1 as [R1 _]. apply same_zones in H2 as H2'. destruct H2' as [R2 _].
  apply wp_try. eapply wp_mono; [apply (ov_delete_matching z rn)|].
  { intros id x Hid Hx. apply Hids in Hid as (t & Ht). rewrite (R1 z) in Ht. rewrite (R2 z), Ht in Hx. by injection Hx as <-. }
  intros r w3 (D3 & Hf & Hg). pose proof (dropping_trans _ _ _ _ _ _ (dropping_same z rn v _ _ H2) D3) as D.
  destruct r as [d|e]; [|by apply Hfail].
  assert (v ∉ vals w3 (z, rn)) as Hgone.
  { rewrite elem_of_record_values. intros (id & t & Hid & Ht). destruct D3 as (_ & Hsub & _).
    apply (Hg d eq_refl id (rn, t)); [|done..]. apply Hids. exists t. rewrite (R1 z), <- (R2 z).
    by eapply lookup_weaken. }
  destruct d.
  2: { apply wp_ret. destruct (Hf eq_refl) as [_ H3]. rewrite <- H2 in H3. destruct D as (F & _ & S3).
       split_and!; [by split|by intros|by left]. }
  apply wp_try. eapply wp_mono; [apply ov_refresh_zone|]. intros r w4 [H4 Ho].
  apply refreshes_same in H4 as [R4 S4]. pose proof (same_record_values recs ov_decode _ _ R4) as V4.
  destruct D as (F & _ & S3).
  assert (forall z', z' <> z -> served zones w4 z' = served zones w z') as S'.
  { intros z' Hz. rewrite (S4 z' Hz). apply S3. }
  assert (frame vals (z, rn) v w w4) as F4 by by rewrite <- V4.
  destruct r as [[]|e]; [|by split_and!; [split| |]]. apply wp_ret. split_and!; [|done|].
  - split; [done|]. intros _. by rewrite (V4 (z, rn)).
  - intros _. right. by eapply refreshes_in_sync, Ho.
Qed.

#[global] Instance ov_call_proper (vchange : string * string -> string -> W -> dns_result unit -> W -> Prop) k v :
  Proper (same vals ==> eq ==> same vals ==> iff) (vchange k v) ->
  Proper (same zones ==> eq ==> same zones ==> iff) (ov_call vchange k v).
Proof.
  intros Hp w1 w2 H12 r ? <- w3 w4 H34. unfold ov_call.
  pose proof (same_record_values recs ov_decode _ _ (records_sub zones _ _ H12)) as V12.
  pose proof (same_record_values recs ov_decode _ _ (records_sub zones _ _ H34)) as V34.
  apply same_zones in H12 as H12'. apply same_zones in H34 as H34'. destruct H12' as [R12 S12], H34' as [R34 S34].
  pose proof (Hp w1 w2 V12 r r eq_refl w3 w4 V34) as E1.
  pose proof (same_iff zones w1 w2 w3 w4 H12 H34) as E2.
  assert ((forall z', z' <> fst k -> served zones w3 z' = served zones w1 z') <->
          (forall z', z' <> fst k -> served zones w4 z' = served zones w2 z')) as E3.
  { split; intros H z' Hz; specialize (H z' Hz); specialize (S12 z'); specialize (S34 z'); congruence. }
  rewrite E1, E2, E3, (R34 (fst k)), (S34 (fst k)). done.
Qed.

Lemma ov_resolve f w :
  valid_name f ->
  wp h (resolve_zone c (to_ascii_lowercase f)) (fun r w' =>
    same zones w w' /\ forall z, r = Ok z -> zone_for (zone_override c) f z) w.
Proof.
  intros Hf. unfold resolve_zone. destruct (zone_override c) as [z|] eqn:E.
  - apply wp_ret. split; [done|]. by intros z' [= <-].
  - by apply (wp_found_zone h zones (ov_background _ _ _ Hapi)).
Qed.

Lemma ov_present f v w :
  wp h (present c f v) (fun r w' =>
    concerns zones (ov_call (added vals)) (zone_for (zone_override c) f) f v w r w') w.
Proof.
  apply wp_try_pure; [|by intros; apply failed_concerns]. intros u Hf%validate_fqdn_unit. cbn zeta.
  apply wp_try_pure; [|by intros; apply failed_concerns]. intros u' Hv%acme_value_bytes.
  apply (wp_in_zone h zones (ov_background _ _ _ Hapi) (ov_call (added vals)) id); [done|by apply ov_resolve|].
  intros z rn w0 _ Hr _. by apply ov_present_locked.
Qed.

Lemma ov_cleanup f v w :
  wp h (cleanup c f v) (fun r w' =>
    concerns zones (ov_call (removed vals)) (zone_for (zone_override c) f) f v w r w') w.
Proof.
  apply wp_try_pure; [|by intros; apply failed_concerns]. intros u Hf%validate_fqdn_unit. cbn zeta.
  apply (wp_in_zone h zones (ov_background _ _ _ Hapi) (ov_call (removed vals)) id); [done|by apply ov_resolve|].
  intros z rn w0 _ Hr _. by apply ov_cleanup_locked.
Qed.
End theory.

(** The provider in an environment; it keeps the default timing. *)
Definition ov_provider `{X : Ext} `{XO : OvhExt} {W} (h : handler sysE W) (c : OvhConfig) : DnsProvider W :=
  mkProvider (fun f v w => run h (present c f v) w) (fun f v w => run h (cleanup c f v) w) default_timing.

(** ** A server, with the zone [example.com]

    Its state is the records, and those that are served. *)

Definition ref_ovh : OvhExt := {| sha1_hex := fun s => s; to_json_string := fun _ => Ok "{}"%string |}.

#[export] Instance ref_ovh_spec : OvhExtSpec ref_ovh.
Proof. split. by intros j t [= <-]. Qed.

Definition ov_demo : OvhConfig :=
  mkOvhConfig "ak" "as" "ck" "https://ov.test/1.0" (Some "example.com"%string) 60 HTTP_TIMEOUT.

Definition ov_demo_zone : string := "https://ov.test/1.0/domain/zone/example.com/".
Definition ov_listing : string := "record?fieldType=TXT&subDomain=".

Definition ov_zones (w : txt_records * txt_records) (z : string) : txt_records * txt_records :=
  (one_zone "example.com"%string (fst w) z, one_zone "example.com"%string (snd w) z).

Definition ov_demo_get (rest : string) (m : txt_records) : Response :=
  match strip_prefix ov_listing rest ≫= percent_decode with
  | Some sub => reply 200 (JArr (map JNum (map fst (records_of m sub))))
  | None =>
      match List.find (fun r => ("record/" +:+ pretty (fst r) =? rest)%string) (map_to_list m) with
      | Some (id, (_, t)) => reply 200 (JObj [("id"%string, JNum id); ("target"%string, JStr t)])
      | None => reply_empty 404
      end
  end.

Definition ov_http (req : Request) (w : txt_records * txt_records)
  : result Response ReqwestError * (txt_records * txt_records) :=
  match strip_prefix ov_demo_zone (url req) with
  | None => (Ok (reply_empty 404), w)
  | Some rest =>
      match method req with
      | GET => (Ok (ov_demo_get rest (fst w)), w)
      | POST =>
          if (rest =? "refresh")%string then (Ok (reply_empty 200), (fst w, fst w))
          else
            match rest =? "record", body req with
            | true, Some (JObj [(_, _); (_, JStr n); (_, JStr d); (_, _)]) =>
                (Ok (reply_empty 200), (<[fresh (dom (fst w) : gset Z) := (n, d)]> (fst w), snd w))
            | _, _ => (Ok (reply_empty 404), w)
            end%string
      | DELETE =>
          (Ok (reply_empty 200), (filter (fun r => "record/" +:+ pretty (fst r) <> rest) (fst w), snd w))
      | _ => (Ok (reply_empty 405), w)
      end
  end.

Definition ov_server : handler sysE (txt_records * txt_records) := served_by ov_http.

Lemma ov_zone_rest z rest :
  strip_prefix ov_demo_zone ("https://ov.test/1.0/domain/zone/" +:+ encode_path (X := ref_ext) z +:+ "/" +:+ rest) =
  if decide (z = "example.com"%string) then Some rest else None.
Proof. exact (strip_segment (X := ref_ext) "https://ov.test/1.0/domain/zone/" "example.com" z rest). Qed.

Lemma ov_list_rest z sub :
  strip_prefix ov_demo_zone (list_url (X := ref_ext) ov_demo z sub) =
  if decide (z = "example.com"%string) then Some (ov_listing +:+ encode_path (X := ref_ext) sub) else None.
Proof.
  rewrite <- ov_zone_rest. f_equal. unfold list_url, record_list_url. by rewrite !append_assoc.
Qed.

Lemma ov_item_rest z id :
  strip_prefix ov_demo_zone (record_item_url (X := ref_ext) ov_demo z id) =
  if decide (z = "example.com"%string) then Some ("record/" +:+ pretty id) else None.
Proof. rewrite <- ov_zone_rest. done. Qed.

Lemma ov_demo_listing m sub :
  ov_demo_get (ov_listing +:+ encode_path (X := ref_ext) sub) m = reply 200 (JArr (map JNum (map fst (records_of m sub)))).
Proof.
  unfold ov_demo_get. rewrite strip_prefix_append. cbn [mbind option_bind].
  by rewrite (encode_decode (X := ref_ext)).
Qed.

Lemma ov_server_list w z sub resp ids :
  fst (ov_http (mkRequest GET (list_url (X := ref_ext) ov_demo z sub) [] [] None) w) = Ok resp ->
  is_success (Ext := ref_ext) (status resp) = true -> response_json (de_vec de_u64) resp = Ok ids ->
  forall id, id ∈ ids <-> exists t, records ov_zones w z !! id = Some (sub, t).
Proof.
  unfold ov_http. cbn [url method]. rewrite ov_list_rest. case_decide as Hz; [|by intros [= <-]].
  rewrite ov_demo_listing. intros [= <-] _. unfold response_json. cbn [resp_body reply]. rewrite ok_or_ok.
  intros ->%de_u64s id. unfold records, ov_zones, one_zone. cbn [fst]. rewrite decide_True by done.
  rewrite list_elem_of_fmap. setoid_rewrite <- elem_of_records_of. split.
  - intros ([i t] & -> & Hin). eauto.
  - intros (t & Ht). by exists (id, t).
Qed.

Lemma ov_server_get w z id resp r :
  fst (ov_http (mkRequest GET (record_item_url (X := ref_ext) ov_demo z id) [] [] None) w) = Ok resp ->
  is_success (Ext := ref_ext) (status resp) = true -> response_json de_OvhRecord resp = Ok r ->
  ov_id r = id /\ exists n, records ov_zones w z !! id = Some (n, target r).
Proof.
  unfold ov_http. cbn [url method]. rewrite ov_item_rest. case_decide as Hz; [|by intros [= <-]].
  unfold ov_demo_get. change (strip_prefix ov_listing ("record/" +:+ pretty id)) with (@None string).
  cbn [mbind option_bind]. destruct (List.find _ _) as [[i [n t]]|] eqn:E; [|by intros [= <-]].
  apply List.find_some in E as [Hin Hi]. apply list_elem_of_In, elem_of_map_to_list in Hin.
  apply String.eqb_eq in Hi. cbn [fst] in Hi. apply (append_inj_l "record/"), pretty_Z_inj in Hi as ->.
  intros [= <-] _. unfold response_json. cbn [resp_body reply]. rewrite ok_or_ok. unfold de_OvhRecord. cbn -[de_u64].
  destruct (de_u64 (JNum id)) as [i|] eqn:Ei; [|done]. cbn. intros [= <-]. cbn. apply de_u64_num in Ei as ->.
  split; [done|]. exists n. unfold records, ov_zones, one_zone. cbn [fst]. by rewrite decide_True.
Qed.

Lemma ov_server_api : ovh_api (X := ref_ext) ov_server ov_demo ov_zones.
Proof.
  split.
  - split; [by intros Y e w; destruct e|]. intros [m u q hd b] w; cbn [method]. intros ->.
    unfold ov_server, served_by, ov_http. cbn [method url]. by destruct (strip_prefix ov_demo_zone u).
  - intros [m u q hd b] w resp z sub ids Hr; cbn [method url]. intros -> ->. by apply ov_server_list.
  - intros [m u q hd b] w resp z id r Hr; cbn [method url]. intros -> ->. by apply ov_server_get.
  - intros [m u q hd b] z sub d t; cbn [method url body]. intros -> -> Hd -> w.
    unfold ov_server, served_by, ov_http. cbn [method url body].
    change (record_list_url (X := ref_ext) ov_demo z) with
      ("https://ov.test/1.0/domain/zone/" +:+ encode_path (X := ref_ext) z +:+ "/" +:+ "record").
    rewrite ov_zone_rest. case_decide as Hz; [|by split; [left|intros resp [= <-]]]. subst z.
    cbv beta iota zeta delta [ser_CreateRecordBody]. cbn [String.eqb Ascii.eqb Bool.eqb].
    assert (ov_creates ov_zones "example.com" sub d w (<[fresh (dom (fst w)) := (sub, d)]> (fst w), snd w)) as Hc;
      [|by split; [right|]].
    split; [|done]. rewrite <- (proj2 (name_bytes_trim d Hd)) at 1. apply creates_record_value.
    apply (one_zone_creates "example.com"%string sub d). apply not_elem_of_dom, is_fresh.
  - intros [m u q hd b] z id; cbn [method url]. intros -> -> w.
    unfold ov_server, served_by, ov_http. cbn [method url]. rewrite ov_item_rest.
    case_decide as Hz.
    + subst z. match goal with |- context [(filter ?P ?m, _)] =>
        assert (ov_deletes ov_zones "example.com" id w (filter P m, snd w)) as Hd end; [|by split; [right|]].
      split; [|done]. apply (one_zone_drops "example.com"%string (fun i => "record/" +:+ pretty i)).
      intros i. split; [|by intros [_ ->]]. intros E. apply append_inj_l, pretty_Z_inj in E. done.
    + split; [by left|]. intros resp [= <-] _. split; [|done]. by apply (one_zone_deletes_other "example.com"%string).
  - intros [m u q hd b] z; cbn [method url]. intros -> -> w.
    unfold ov_server, served_by, ov_http. cbn [method url].
    change (refresh_url (X := ref_ext) ov_demo z) with
      ("https://ov.test/1.0/domain/zone/" +:+ encode_path (X := ref_ext) z +:+ "/" +:+ "refresh").
    rewrite ov_zone_rest. case_decide as Hz; [|by split; [left|intros resp [= <-]]]. subst z.
    cbn [String.eqb Ascii.eqb Bool.eqb]. assert (ov_refreshes ov_zones "example.com" w (fst w, fst w)) as Hr; [|by split; [right|]].
    split; [done|]. split; [done|]. intros z' Hz. unfold served, ov_zones, one_zone. cbn. by rewrite !decide_False.
Qed.

(** With a configured zone, the contract of [DnsProvider]. *)
Lemma ov_laws `{X : Ext} `{!ExtSpec X} `{XO : OvhExt} `{!OvhExtSpec XO} {W} (h : handler sysE W)
    (c : OvhConfig) zones z :
  ovh_api h c zones -> zone_override c = Some z ->
  ProviderLaws (ov_provider h c) canon (serves_in (record_values (records zones) ov_decode) z) (fun _ => True).
Proof.
  intros Hapi Hz.
  assert (forall f v w, _) as Hp by exact (ov_present h c zones Hapi).
  assert (forall f v w, _) as Hc by exact (ov_cleanup h c zones Hapi).
  unfold wp in *. rewrite Hz in Hp, Hc. cbn [zone_for] in Hp, Hc.
  assert (forall vchange f v w r w',
    concerns zones (ov_call zones vchange) (eq z) f v w r w' ->
    concerns (record_values (records zones) ov_decode) vchange (eq z) f v w r w') as Hm.
  { intros vchange f v w r w'. apply concerns_mono; [|by intros k [? _]].
    intros Hs. by apply same_record_values, records_sub. }
  apply zone_laws; intros f v w; cbn [Provider.present Provider.cleanup ov_provider].
  - specialize (Hp f v w). destruct (run h _ w). by apply Hm.
  - specialize (Hc f v w). destruct (run h _ w). by apply Hm.
Qed.

(** ** Properties *)

(** C25. Against a server that behaves as the OVH API documents, whatever
    requests fail, are retried or are carried out without an answer:
    [present] and [cleanup] change no TXT value but the one given, of the
    name given, in its zone, and the served records of no other zone;
    [present] returns [Ok] only when the value is recorded, [cleanup] only
    when it is not; either has then changed nothing, or the zone serves what
    is recorded.  With a configured zone the provider keeps the contract of
    [DnsProvider] for the recorded values. *)
Theorem ovh_contract `{X : Ext} `{!ExtSpec X} `{XO : OvhExt} `{!OvhExtSpec XO} {W} (h : handler sysE W)
    (c : OvhConfig) zones :
  ovh_api h c zones ->
  (forall f v w, let '(r, w') := run h (present c f v) w in
     concerns zones (ov_call zones (added (record_values (records zones) ov_decode)))
       (zone_for (zone_override c) f) f v w r w') /\
  (forall f v w, let '(r, w') := run h (cleanup c f v) w in
     concerns zones (ov_call zones (removed (record_values (records zones) ov_decode)))
       (zone_for (zone_override c) f) f v w r w') /\
  (forall z, zone_override c = Some z ->
     ProviderLaws (ov_provider h c) canon (serves_in (record_values (records zones) ov_decode) z) (fun _ => True)).
Proof.
  intros Hapi. split_and!.
  - exact (ov_present h c zones Hapi).
  - exact (ov_cleanup h c zones Hapi).
  - intros z. by apply ov_laws.
Qed.

(** A second [present] finds the value, recorded by a first one whose refresh
    failed, and succeeds while the zone does not serve it. *)
Lemma ovh_contract_witness :
  run ov_server (present (X := ref_ext) (XO := ref_ovh) ov_demo "_acme-challenge.Example.com" "tok")
      ({[7 := ("_acme-challenge", "other")%string]}, ∅)
    = (Ok tt, ({[8 := ("_acme-challenge", "tok")%string; 7 := ("_acme-challenge", "other")%string]},
               {[8 := ("_acme-challenge", "tok")%string; 7 := ("_acme-challenge", "other")%string]})) /\
  run ov_server (present (X := ref_ext) (XO := ref_ovh) ov_demo "_acme-challenge.Example.com" "tok")
      ({[7 := ("_acme-challenge", "tok")%string]}, ∅)
    = (Ok tt, ({[7 := ("_acme-challenge", "tok")%string]}, ∅)) /\
  ProviderLaws (ov_provider (X := ref_ext) (XO := ref_ovh) ov_server ov_demo) canon
    (serves_in (record_values (records ov_zones) ov_decode) "example.com") (fun _ => True).
Proof.
  split; [vm_compute; reflexivity|]. split; [vm_compute; reflexivity|].
  apply (ovh_contract (XO := ref_ovh) ov_server ov_demo ov_zones ov_server_api). reflexivity.
Defined.
