(* ===== verification/Hetzner.v ===== *)
(** * The Hetzner provider (src/providers/hetzner.rs)

    Values are added to, and removed from, a record set by actions that the
    server carries out on its own; the provider polls an action until it has
    settled, for a minute at most.  [hz_api] states what the Hetzner API
    documents of the requests this file sends, for a server whose actions may
    settle at any time. *)

From S2P Require Import Prelude Rstr Errors Effects Sys Common Zone Provider Txt Polling Jobs.

Definition HETZNER_API_BASE : string := "https://api.hetzner.cloud/v1".
Definition ENV_TOKEN : string := "HETZNER_API_TOKEN".
Definition DEFAULT_TTL : Z := 60.
Definition HTTP_TIMEOUT : Duration := from_secs 30.
Definition CONNECT_TIMEOUT : Duration := from_secs 5.
Definition ACTION_POLL_INTERVAL : Duration := from_secs 1.
Definition ACTION_TIMEOUT : Duration := from_secs 60.
Definition PROVIDER : string := "hetzner".

Record HetznerConfig : Type := mkHetznerConfig {
  token : string;
  api_base : string;
  zone_override : option string;
  ttl : Z;
  http_timeout : Duration
}.

(** ** Bodies *)

(** [HetznerZone] and [HetznerZones]. *)
Definition de_HetznerZone (j : Json) : option string :=
  match struct_fields ["name"] j with Some [n] => required de_string n | _ => None end.

Definition de_HetznerZones (j : Json) : option (list string) :=
  match struct_fields ["zones"] j with Some [z] => required (de_vec de_HetznerZone) z | _ => None end.

(** [HetznerRecord], [HetznerRrset] and [HetznerRrsetResponse]. *)
Definition de_HetznerRecord (j : Json) : option string :=
  match struct_fields ["value"] j with Some [v] => required de_string v | _ => None end.

Definition ser_HetznerRecord (value : string) : Json := JObj [("value"%string, JStr value)].

Definition de_HetznerRrset (j : Json) : option (list string) :=
  match struct_fields ["records"] j with Some [r] => required (de_vec de_HetznerRecord) r | _ => None end.

Definition de_HetznerRrsetResponse (j : Json) : option (list string) :=
  match struct_fields ["rrset"] j with Some [r] => required de_HetznerRrset r | _ => None end.

(** [HetznerRecordsWrite]; an absent TTL is not written. *)
Definition ser_HetznerRecordsWrite (t : option Z) (records : list string) : Json :=
  JObj (match t with Some t => [("ttl"%string, JNum t)] | None => [] end
        ++ [("records"%string, JArr (map ser_HetznerRecord records))]).

Record HetznerActionError : Type := mkHetznerActionError {
  err_code : string;
  err_message : string
}.

Definition de_HetznerActionError (j : Json) : option HetznerActionError :=
  match struct_fields ["code"; "message"] j with
  | Some [c; m] => c' ← required de_string c; m' ← required de_string m; Some (mkHetznerActionError c' m')
  | _ => None
  end.

Record HetznerAction : Type := mkHetznerAction {
  act_id : Z;
  act_command : string;
  act_status : string;
  act_error : option HetznerActionError
}.

Definition de_HetznerAction (j : Json) : option HetznerAction :=
  match struct_fields ["id"; "command"; "status"; "error"] j with
  | Some [i; c; s; e] =>
      i' ← required de_u64 i; c' ← defaulted EmptyString de_string c; s' ← required de_string s;
      e' ← defaulted None (de_option de_HetznerActionError) e; Some (mkHetznerAction i' c' s' e')
  | _ => None
  end.

Definition de_HetznerActionResponse (j : Json) : option HetznerAction :=
  match struct_fields ["action"] j with Some [a] => required de_HetznerAction a | _ => None end.

(** [fn unquote]. *)
Definition unquote (record : string) : string :=
  let trimmed := trim record in
  default trimmed (strip_prefix dquote trimmed ≫= strip_suffix dquote).

Section hetzner.
Context `{X : Ext}.

(** ** Configuration *)

Definition config_new (api_token : string) : HetznerConfig :=
  mkHetznerConfig api_token HETZNER_API_BASE None DEFAULT_TTL HTTP_TIMEOUT.

Definition with_api_base (c : HetznerConfig) (base : string) : dns_result HetznerConfig :=
  let! _ := validate_https_base base PROVIDER in
  Ok (mkHetznerConfig (token c) (trim_end_matches "/" base) (zone_override c) (ttl c) (http_timeout c)).

Definition with_zone (c : HetznerConfig) (zone : string) : dns_result HetznerConfig :=
  let! _ := validate_zone zone in
  Ok (mkHetznerConfig (token c) (api_base c)
        (Some (to_ascii_lowercase (trim_end_matches dot zone))) (ttl c) (http_timeout c)).

Definition with_ttl (c : HetznerConfig) (t : Z) : dns_result HetznerConfig :=
  let! t' := validate_ttl_range t 60 (2 ^ 31 - 1) in
  Ok (mkHetznerConfig (token c) (api_base c) (zone_override c) t' (http_timeout c)).

Definition with_timeout (c : HetznerConfig) (d : Duration) : HetznerConfig :=
  mkHetznerConfig (token c) (api_base c) (zone_override c) (ttl c) d.

Definition new (client : Duration -> Duration -> result unit ReqwestError) (c : HetznerConfig)
  : dns_result HetznerConfig :=
  let! _ := map_err Http (client (http_timeout c) CONNECT_TIMEOUT) in Ok c.

Definition from_env (client : Duration -> Duration -> result unit ReqwestError)
    (var : string -> option string) : dns_result HetznerConfig :=
  let! t := ok_or (var ENV_TOKEN) (MissingCredentials ENV_TOKEN) in
  new client (config_new t).

(** ** Requests *)

Definition auth_header (c : HetznerConfig) : string := "Bearer " +:+ token c.

Definition auth (c : HetznerConfig) : list (string * string) := [("authorization", auth_header c)].

Definition rrset_path (zone rname : string) : string :=
  "/zones/" +:+ encode_path zone +:+ "/rrsets/" +:+ encode_path rname +:+ "/TXT".

Definition rrset_url (c : HetznerConfig) (zone rname : string) : string :=
  api_base c +:+ rrset_path zone rname.

Definition check_error (meth path : string) (response : Response) : DnsError :=
  if status response =? 429 then
    let hint :=
      match header_str "ratelimit-reset" response with
      | Some ts => "limit resets at unix time " +:+ ts
      | None => "retry later"%string
      end in
    Api (PROVIDER +:+ " " +:+ meth +:+ " " +:+ path +:+ " was rate limited (429), " +:+ hint)
  else api_error PROVIDER meth path response.

Definition zone_exists (c : HetznerConfig) (name : string) : sys (dns_result bool) :=
  await? response := send (mkRequest GET (api_base c +:+ "/zones") [("name", name)] (auth c) None) in
  if negb (is_success (status response)) then Ret (Err (check_error "GET" "/zones" response))
  else
    try? zones := response_json de_HetznerZones response in
    Ret (Ok (existsb (fun z => (z =? name)%string) zones)).

(** The loop of [resolve_zone] over the candidates. *)
Fixpoint zone_search (c : HetznerConfig) (fqdn : string) (candidates : list string)
  : sys (dns_result string) :=
  match candidates with
  | [] => Ret (Err (ZoneNotFound fqdn))
  | candidate :: rest =>
      await? found := zone_exists c candidate in
      if (found : bool) then Ret (Ok candidate) else zone_search c fqdn rest
  end.

(** [labels[start..].join(".")] for [start] in [(0..labels.len() - 1).rev()]. *)
Definition shortest_first (labels : list string) : list string :=
  map (fun start => join "." (drop start labels)) (rev (seq 0 (length labels - 1))).

Definition resolve_zone (c : HetznerConfig) (fqdn : string) : sys (dns_result string) :=
  match zone_override c with
  | Some zone => Ret (Ok zone)
  | None =>
      let name := to_ascii_lowercase (trim_end_matches dot fqdn) in
      zone_search c fqdn (shortest_first (split dot name))
  end.

Definition fetch_existing (c : HetznerConfig) (zone rname : string)
  : sys (dns_result (option (list string))) :=
  await? response := send (mkRequest GET (rrset_url c zone rname) [] (auth c) None) in
  if status response =? 404 then Ret (Ok None)
  else if negb (is_success (status response)) then
    Ret (Err (check_error "GET" (rrset_path zone rname) response))
  else
    try? records := response_json de_HetznerRrsetResponse response in
    Ret (Ok (Some (map unquote records))).

Definition action_path (id : Z) : string := "/zones/actions/" +:+ pretty id.

Definition fetch_action (c : HetznerConfig) (id : Z) : sys (dns_result HetznerAction) :=
  let path := action_path id in
  await? response := send (mkRequest GET (api_base c +:+ path) [] (auth c) None) in
  if negb (is_success (status response)) then Ret (Err (check_error "GET" path response))
  else
    try? action := response_json de_HetznerActionResponse response in
    Ret (Ok action).

(** What the status of an action settles, if anything. *)
Definition settled (action : HetznerAction) : option (dns_result unit) :=
  if (act_status action =? "success")%string then Some (Ok tt)
  else if (act_status action =? "error")%string then
    let detail :=
      match act_error action with
      | Some e => err_code e +:+ ": " +:+ err_message e
      | None => "unknown error"%string
      end in
    Some (Err (Api (PROVIDER +:+ " action " +:+ pretty (act_id action) +:+ " (" +:+ act_command action
                    +:+ ") failed: " +:+ detail)))
  else None.

Definition late (action : HetznerAction) : DnsError :=
  Api (PROVIDER +:+ " action " +:+ pretty (act_id action) +:+ " (" +:+ act_command action
       +:+ ") still " +:+ act_status action +:+ " after " +:+ pretty (as_secs ACTION_TIMEOUT) +:+ "s").

Definition wait_for_action (c : HetznerConfig) (action : HetznerAction) : sys (fueled unit) :=
  let* now := call Now in
  let deadline := now + ACTION_TIMEOUT in
  wait_until settled late (fun action => lifted (fetch_action c (act_id action))) ACTION_POLL_INTERVAL
    (turns ACTION_TIMEOUT ACTION_POLL_INTERVAL) deadline action.

Definition run_records_action (c : HetznerConfig) (zone rname action value : string) (t : option Z)
  : sys (fueled unit) :=
  let path := rrset_path zone rname +:+ "/actions/" +:+ action in
  await? response :=
    lifted (send (mkRequest POST (api_base c +:+ path) [] (auth c)
                    (Some (ser_HetznerRecordsWrite t [quoted value])))) in
  if negb (is_success (status response)) then Ret (Err (Raised (check_error "POST" path response)))
  else
    try? action := lift (response_json de_HetznerActionResponse response) in
    wait_for_action c action.

(** ** Operations *)

Definition present_locked (c : HetznerConfig) (zone rname value : string) : sys (fueled unit) :=
  await? existing := lifted (fetch_existing c zone rname) in
  match
    match existing with
    | Some values => if existsb (fun v => (v =? value)%string) values then None else Some None
    | None => Some (Some (ttl c))
    end
  with
  | None => Ret (Ok tt)
  | Some t => run_records_action c zone rname "add_records" value t
  end.

Definition present (c : HetznerConfig) (fqdn value : string) : sys (fueled unit) :=
  try? _ := lift (validate_fqdn fqdn) in
  try? _ := lift (validate_acme_value value) in
  await? zone := lifted (resolve_zone c fqdn) in
  try? rname := lift (relative_name (to_ascii_lowercase fqdn) zone) in
  with_lock (zone +:+ "|" +:+ rname) (present_locked c zone rname value).

Definition cleanup_locked (c : HetznerConfig) (zone rname value : string) : sys (fueled unit) :=
  await? existing := lifted (fetch_existing c zone rname) in
  let present :=
    match existing with
    | Some values => existsb (fun v => (v =? value)%string) values
    | None => false
    end in
  if negb present then Ret (Ok tt)
  else run_records_action c zone rname "remove_records" value None.

Definition cleanup (c : HetznerConfig) (fqdn value : string) : sys (fueled unit) :=
  try? _ := lift (validate_fqdn fqdn) in
  await? zone := lifted (resolve_zone c fqdn) in
  try? rname := lift (relative_name (to_ascii_lowercase fqdn) zone) in
  with_lock (zone +:+ "|" +:+ rname) (cleanup_locked c zone rname value).
End hetzner.

(** ** The Hetzner API

    The server carries out its actions later ([Jobs]); record sets are given by
    their URL. *)

Definition kind_name (k : ActionKind) : string :=
  match k with AddRecords => "add_records" | RemoveRecords => "remove_records" end.

(** What the answer to a read says of the state it was given in. *)
Definition reads `{X : Ext} (c : HetznerConfig) (req : Request) (resp : Response) (s : JobState) : Prop :=
  (forall z rn, url req = rrset_url c z rn ->
     (status resp = 404 -> js_vals s (url req) = []) /\
     (is_success (status resp) = true -> forall b, response_json de_HetznerRrsetResponse resp = Ok b ->
        map unquote b = js_vals s (url req))) /\
  (forall id, url req = api_base c +:+ action_path id ->
     is_success (status resp) = true -> forall a, response_json de_HetznerActionResponse resp = Ok a ->
       act_id a = id /\
       (act_status a = "success"%string -> exists j, js_jobs s !! id = Some j /\ job_status j = Succeeded)).

(** A request for an action may have started it or not; it has, when it is
    answered with the action. *)
Record hz_api `{X : Ext} {W} (h : handler sysE W) (c : HetznerConfig) (abs : W -> JobState) : Prop := {
  hz_quiet : forall Y (e : sysE Y) w, is_request e = false -> drifts (abs w) (abs (snd (h Y e w)));
  hz_get : forall req w, method req = GET ->
    let '(r, w') := h _ (HttpSend req) w in
    exists s, drifts (abs w) s /\ drifts s (abs w') /\ forall resp, r = Ok resp -> reads c req resp s;
  hz_post : forall req w z rn k v t, method req = POST ->
    url req = api_base c +:+ rrset_path z rn +:+ "/actions/" +:+ kind_name k ->
    body req = Some (ser_HetznerRecordsWrite t [quoted v]) ->
    let '(r, w') := h _ (HttpSend req) w in
    exists s s', drifts (abs w) s /\ drifts s' (abs w') /\
      (s' = s \/ exists id, js_jobs s !! id = None /\ s' = start id (rrset_url c z rn) v k s) /\
      forall resp a, r = Ok resp -> is_success (status resp) = true ->
        response_json de_HetznerActionResponse resp = Ok a ->
        js_jobs s !! act_id a = None /\ s' = start (act_id a) (rrset_url c z rn) v k s /\
        (act_status a = "success"%string ->
         exists j, js_jobs (abs w') !! act_id a = Some j /\ job_status j = Succeeded)
}.

Section theory.
Context `{X : Ext} `{S : !ExtSpec X} {W : Type} (h : handler sysE W) (c : HetznerConfig).
Context (abs : W -> JobState) (Hapi : hz_api h c abs).

(** A read, under an invariant of the server's own work. *)
Lemma wp_hz_get (I : JobState -> Prop) req (Q : dns_result Response -> W -> Prop) w :
  (forall s s', I s -> drifts s s' -> I s') -> method req = GET -> I (abs w) ->
  (forall e w', I (abs w') -> Q (Err e) w') ->
  (forall resp s w', I s -> drifts s (abs w') -> reads c req resp s -> Q (Ok resp) w') ->
  wp h (send req) Q w.
Proof.
  intros HI Hm Hw He Ho. apply (wp_send h (fun v => I (abs v))); [done| |].
  - intros v d Hv. eapply HI; [exact Hv|]. by apply (hz_quiet _ _ _ Hapi).
  - intros v Hv. pose proof (hz_get _ _ _ Hapi req v Hm) as Hg.
    destruct (h _ (HttpSend req) v) as [r v']. destruct Hg as (s & Hs & Hs' & Hr).
    pose proof (HI _ _ Hv Hs) as Is. pose proof (HI _ _ Is Hs') as Iv. split; [|done].
    destruct r as [resp|e]; cbn; [eapply Ho; [exact Is|exact Hs'|by apply Hr]|by apply He].
Qed.

(** The same with nothing under way: the state is kept, and read. *)
Lemma wp_idle_get req (Q : dns_result Response -> W -> Prop) w :
  idle (abs w) -> method req = GET ->
  (forall e w', abs w' = abs w -> Q (Err e) w') ->
  (forall resp w', abs w' = abs w -> reads c req resp (abs w) -> Q (Ok resp) w') ->
  wp h (send req) Q w.
Proof.
  intros Hi Hm He Ho. apply (wp_hz_get (eq (abs w))); [|done|done| |].
  - intros s s' <- Hd. by rewrite (idle_drifts _ _ Hi Hd).
  - intros e w' E. by apply He.
  - intros resp s w' <- Hd Hr. apply Ho; [|done]. by apply idle_drifts.
Qed.

Lemma hz_zone_search f l w :
  idle (abs w) ->
  wp h (zone_search c f l) (fun r w' => abs w' = abs w /\ forall z, r = Ok z -> z ∈ l) w.
Proof.
  revert w. induction l as [|z l IH]; intros w Hi; [by apply wp_ret|]. cbn [zone_search].
  apply wp_try, wp_try, wp_idle_get; [done|done|done|]. intros resp w1 E1 _.
  destruct (is_success (status resp)); [|by apply wp_ret].
  apply wp_try_pure; [|done]. intros zs _. apply wp_ret. destruct (existsb _ zs).
  - apply wp_ret. split; [done|]. intros z' [= <-]. left.
  - eapply wp_mono; [apply IH; by rewrite E1|]. cbn. intros r w2 [E2 Hz]. split; [congruence|].
    intros z' Hz'. right. by apply Hz.
Qed.

Lemma suffix_ancestor labels n :
  (n < length labels - 1)%nat -> join "." (drop n labels) ∈ ancestors labels.
Proof.
  revert n. induction labels as [|x [|y l] IH]; intros n Hn; cbn in Hn; [lia..|].
  rewrite ancestors_cons by done. destruct n as [|n]; [left|right]. cbn [drop]. apply IH. cbn. lia.
Qed.

Lemma hz_resolve f w :
  idle (abs w) ->
  wp h (resolve_zone c f) (fun r w' => abs w' = abs w /\ forall z, r = Ok z -> zone_for (zone_override c) f z) w.
Proof.
  intros Hi. unfold resolve_zone. destruct (zone_override c) as [z|].
  - apply wp_ret. split; [done|]. by intros z' [= <-].
  - cbn zeta. eapply wp_mono; [by apply hz_zone_search|]. intros r w' [E Hz]. split; [done|].
    intros z Hr%Hz. cbn [zone_for]. unfold candidates. rewrite lower_trim_end by done.
    unfold shortest_first in Hr. apply list_elem_of_fmap in Hr as (n & -> & Hn).
    apply suffix_ancestor. apply list_elem_of_In, in_rev, list_elem_of_In in Hn.
    apply elem_of_seq in Hn. lia.
Qed.

(** The values read, of a record set that may not exist. *)
Lemma hz_fetch z rn w :
  idle (abs w) ->
  wp h (fetch_existing c z rn) (fun r w' => abs w' = abs w /\
    forall o, r = Ok o -> default [] o = js_vals (abs w) (rrset_url c z rn)) w.
Proof.
  intros Hi. apply wp_try, wp_idle_get; [done|done|done|]. intros resp w1 E1 [Hr _].
  destruct (Hr z rn eq_refl) as [H404 Hok].
  destruct (Z.eqb_spec (status resp) 404) as [E|_].
  { apply wp_ret. split; [done|]. intros o [= <-]. symmetry. by apply H404. }
  destruct (is_success (status resp)) eqn:Es; [|by apply wp_ret].
  apply wp_try_pure; [|done]. intros b Hb. apply wp_ret. split; [done|]. intros o [= <-].
  by apply Hok.
Qed.

Section action.
Context (k : ActionKind) (z rn v : string) (s0 : JobState) (Hidle : idle s0).
Local Abbreviation u := (rrset_url c z rn).
Local Abbreviation work := (working k u v s0).

(** An action of this call, as the server answered it. *)
Definition tracked (a : HetznerAction) (s : JobState) : Prop :=
  js_jobs s0 !! act_id a = None /\
  exists j, js_jobs s !! act_id a = Some j /\
    (act_status a = "success"%string -> job_status j = Succeeded).

Local Abbreviation worked := (worked k u v s0).

Lemma tracked_drifts a s s' : tracked a s -> drifts s s' -> tracked a s'.
Proof.
  intros [H0 (j & Hj & Hs)] Hd. split; [done|].
  destruct (drifts_job _ _ _ _ Hd Hj) as (j' & Hj' & Hs'). exists j'. eauto.
Qed.

Lemma hz_fetch_action a w :
  work (abs w) -> tracked a (abs w) ->
  wp h (fetch_action c (act_id a)) (fun r w' =>
    work (abs w') /\ forall a', r = Ok a' -> tracked a' (abs w')) w.
Proof.
  intros Hw Ht. apply wp_try, (wp_hz_get (fun s => work s /\ tracked a s)).
  - intros s s' [H1 H2] Hd. split; [by eapply working_drifts|by eapply tracked_drifts].
  - done.
  - done.
  - intros e w' [H1 _]. done.
  - intros resp s w' [H1 H2] Hd [_ Ha]. pose proof (working_drifts _ _ _ _ _ _ Hidle H1 Hd) as Hw'.
    destruct (is_success (status resp)) eqn:Es; [|by apply wp_ret].
    apply wp_try_pure; [|done]. intros a1 Ha1. apply wp_ret. split; [done|]. intros a' [= <-].
    destruct (Ha (act_id a) eq_refl eq_refl a1 Ha1) as [Eid Hs].
    apply (tracked_drifts _ s); [|done]. destruct H2 as [H0 (j & Hj & _)]. split; [by rewrite Eid|].
    rewrite Eid. exists j. split; [done|]. intros Hst. destruct (Hs Hst) as (j' & Hj' & Hs').
    rewrite Hj in Hj'. by injection Hj' as ->.
Qed.

Lemma settled_ok a : settled a = Some (Ok tt) -> act_status a = "success"%string.
Proof.
  unfold settled. destruct (String.eqb_spec (act_status a) "success"); [done|]. by destruct (_ =? _)%string.
Qed.

Lemma hz_wait fuel deadline a w :
  work (abs w) -> tracked a (abs w) ->
  wp h (wait_until settled late (fun action => lifted (fetch_action c (act_id action))) ACTION_POLL_INTERVAL fuel deadline a)
    (fun r w' => worked r (abs w')) w.
Proof.
  intros Hw Ht. apply (wp_wait_until h (fun a w => work (abs w) /\ tracked a (abs w))); [| | | |done].
  - intros Y e y a1 He [H1 H2]. pose proof (hz_quiet _ _ _ Hapi Y e y He) as D.
    split; [by eapply working_drifts|by eapply tracked_drifts].
  - intros a1 y r [H1 [H0 (j & Hj & Hs)]] Es. split; [done|]. destruct r as [[]|e]; [|done]. intros _. right.
    apply settled_ok in Es. exists (act_id a1), j. split; [done|]. split; [done|]. by apply Hs.
  - by intros a1 y o [H1 _].
  - intros a1 y [H1 H2]. apply wp_lifted. eapply wp_mono; [by apply hz_fetch_action|].
    intros [a2|e] y' [H3 H4]; [split; [done|by apply H4]|done].
Qed.

Lemma hz_run_action t w :
  abs w = s0 ->
  wp h (run_records_action c z rn (kind_name k) v t) (fun r w' => worked r (abs w')) w.
Proof.
  intros E0. apply wp_try, wp_lifted.
  set (req := mkRequest POST _ _ _ _).
  apply (wp_send h (fun w => work (abs w))).
  - rewrite E0. apply working_refl.
  - intros w1 d Hw. eapply working_drifts; [done|exact Hw|]. by apply (hz_quiet _ _ _ Hapi).
  - intros w1 Hw. pose proof (hz_post _ _ _ Hapi req w1 z rn k v t eq_refl eq_refl eq_refl) as Hp.
    destruct (h _ (HttpSend req) w1) as [r w2]. destruct Hp as (s & s' & D1 & D2 & Hstart & Hans).
    pose proof (working_drifts _ _ _ _ _ _ Hidle Hw D1) as Hs.
    assert (work s') as Hs'.
    { destruct Hstart as [->|(id & Hid & ->)]; [done|]. by apply working_start. }
    pose proof (working_drifts _ _ _ _ _ _ Hidle Hs' D2) as Hw2. split; [|done].
    destruct r as [resp|e]; cbn [map_err lift]; [|done].
    destruct (is_success (status resp)) eqn:Es; cbn [negb]; [|by apply wp_ret].
    apply wp_try_pure; [|done]. intros a Ea%lift_ok. unfold wait_for_action.
    destruct (Hans resp a eq_refl Es Ea) as (Hid & -> & Hst).
    assert (tracked a (abs w2)) as Ht.
    { split.
      - destruct (js_jobs s0 !! act_id a) as [j|] eqn:E; [|done]. apply (wk_old _ _ _ _ _ Hs) in E. congruence.
      - destruct (drifts_job _ _ (act_id a) (mkJob u v k Running) D2) as (j & Hj & _);
          [apply lookup_insert_eq|]. exists j. split; [done|]. intros Hsu. destruct (Hst Hsu) as (j' & Hj' & Hs2).
        rewrite Hj in Hj'. by injection Hj' as ->. }
    apply wp_bind, wp_vis, wp_ret. pose proof (hz_quiet _ _ _ Hapi _ Now w2 eq_refl) as D3.
    apply hz_wait; [by eapply working_drifts|by eapply tracked_drifts].
Qed.
End action.

(** The TXT values of a name of a zone. *)
Definition hz_values (w : W) (k : string * string) : list string :=
  js_vals (abs w) (rrset_url c (fst k) (snd k)).

(** The outcome of a call made while nothing was under way: it failed and the
    server is as it was; or its action concerned its value only, has had its
    effect if the call succeeded, and is all the server may still have to do. *)
Definition hz_outcome (k : ActionKind) (f v : string) (w : W) (r : fueled unit) (w' : W) : Prop :=
  (abs w' = abs w /\ is_ok r = false) \/
  exists z rn, zone_for (zone_override c) f z /\ valid_name f /\
    relative_name (to_ascii_lowercase f) z = Ok rn /\
    frame hz_values (z, rn) v w w' /\
    (r = Ok tt -> effect k v (hz_values w' (z, rn))) /\
    forall id j, js_jobs (abs w') !! id = Some j -> job_status j = Running ->
      j = mkJob (rrset_url c z rn) v k Running.

Lemma rrset_url_inj z rn z' rn' : rrset_url c z rn = rrset_url c z' rn' -> z = z' /\ rn = rn'.
Proof.
  unfold rrset_url, rrset_path. intros E%append_inj_l. apply (append_inj_l "/zones/") in E.
  apply slash_inj in E as [Ez E]; [|apply encode_path_no_slash..].
  apply (append_inj_l "rrsets/") in E. apply slash_inj in E as [Er _]; [|apply encode_path_no_slash..].
  by apply encode_path_inj in Ez, Er.
Qed.

Lemma worked_outcome k f z rn v w r w' :
  idle (abs w) -> zone_for (zone_override c) f z -> valid_name f ->
  relative_name (to_ascii_lowercase f) z = Ok rn ->
  worked k (rrset_url c z rn) v (abs w) r (abs w') -> hz_outcome k f v w r w'.
Proof.
  intros Hi Hz Hf Hr Hw. right. exists z, rn. split_and!; [done..| | |].
  - intros [z' rn'] x Hne. apply (wk_frame _ _ _ _ _ (proj1 Hw)). intros [= E ->].
    apply rrset_url_inj in E as [-> ->]. done.
  - intros Hok. by eapply worked_effect.
  - intros id j. by apply (working_running _ _ _ (abs w)); [|apply Hw].
Qed.

Lemma hz_call k (work : string -> string -> sys (fueled unit)) f v w :
  idle (abs w) -> valid_name f ->
  (forall z rn w0, abs w0 = abs w -> wp h (work z rn) (fun r w' => worked k (rrset_url c z rn) v (abs w) r (abs w')) w0) ->
  wp h (await? zone := lifted (resolve_zone c f) in
        try? rname := lift (relative_name (to_ascii_lowercase f) zone) in
        with_lock (zone +:+ "|" +:+ rname) (work zone rname))
     (fun r w' => hz_outcome k f v w r w') w.
Proof.
  intros Hi Hf Hwork. apply wp_try, wp_lifted. eapply wp_mono; [by apply hz_resolve|].
  intros [z|e] w1 [E1 Hz]; [|by left]. cbn [lift map_err].
  apply wp_try_pure; [|by left]. intros rn Hrn%lift_ok. apply wp_with_lock.
  eapply wp_mono; [apply Hwork|].
  - rewrite <- E1. apply idle_drifts; [by rewrite E1|]. by apply (hz_quiet _ _ _ Hapi).
  - cbn beta. intros r w2 Hw. eapply worked_outcome; [done|by apply Hz|done|exact Hrn|].
    eapply worked_drifts; [done|exact Hw|]. by apply (hz_quiet _ _ _ Hapi).
Qed.

Lemma hz_present f v w :
  idle (abs w) -> wp h (present c f v) (fun r w' => hz_outcome AddRecords f v w r w') w.
Proof.
  intros Hi. apply wp_try_pure; [|by left]. intros u Hf%lift_ok%validate_fqdn_unit.
  apply wp_try_pure; [|by left]. intros _ _. apply hz_call; [done|done|].
  intros z rn w0 E0. apply wp_try, wp_lifted. eapply wp_mono; [apply hz_fetch; by rewrite E0|].
  rewrite E0. intros [o|e] w1 [E1 Ho]; [|rewrite E1; by apply worked_failed, working_refl]. cbn [lift map_err].
  specialize (Ho o eq_refl). destruct o as [l|]; cbn [default] in Ho.
  - destruct (existsb _ l) eqn:Ex; [|by apply (hz_run_action AddRecords)].
    apply wp_ret. rewrite E1. apply worked_nothing. apply existsb_value in Ex. by rewrite <- Ho.
  - by apply (hz_run_action AddRecords).
Qed.

Lemma hz_cleanup f v w :
  idle (abs w) -> wp h (cleanup c f v) (fun r w' => hz_outcome RemoveRecords f v w r w') w.
Proof.
  intros Hi. apply wp_try_pure; [|by left]. intros u Hf%lift_ok%validate_fqdn_unit.
  apply hz_call; [done|done|].
  intros z rn w0 E0. apply wp_try, wp_lifted. eapply wp_mono; [apply hz_fetch; by rewrite E0|].
  rewrite E0. intros [o|e] w1 [E1 Ho]; [|rewrite E1; by apply worked_failed, working_refl]. cbn [lift map_err].
  specialize (Ho o eq_refl). cbn zeta.
  assert (match o with Some values => existsb (fun x => (x =? v)%string) values | None => false end =
          existsb (fun x => (x =? v)%string) (js_vals (abs w) (rrset_url c z rn))) as ->.
  { rewrite <- Ho. by destruct o. }
  destruct (existsb _ _) eqn:Ex; cbn [negb]; [by apply (hz_run_action RemoveRecords)|].
  apply wp_ret. rewrite E1. apply worked_nothing. intros Hv%existsb_value. congruence.
Qed.
End theory.

(** ** Termination *)

Section termination.
Context `{X : Ext} {W : Type} (h : handler sysE W) (clock : W -> Z) (Hc : steady_clock h clock).

Lemma run_action_returns c z rn action v t w :
  wp h (run_records_action c z rn action v t) (fun r _ => returns r) w.
Proof.
  apply (wp_ends_try h clock Hc _). intros resp w1 _. destruct (is_success (status resp)); [|apply wp_ret, raised_ends].
  cbn [negb]. apply (wp_ends_pure h). intros a.
  apply (waiting_ends h clock Hc); [|done..]. intros a' w2. by apply (wp_lifted_ends h clock Hc).
Qed.

Lemma hz_present_returns c f v w : wp h (present c f v) (fun r _ => returns r) w.
Proof.
  do 2 (apply (wp_ends_pure h _); intros _). apply (wp_ends_try h clock Hc _). intros z w1 _.
  apply (wp_ends_pure h _). intros rn. apply wp_with_lock. apply (wp_ends_try h clock Hc _). intros o w2 _.
  destruct o as [l|]; [destruct (existsb _ l); [by apply wp_ret|]|]; apply run_action_returns.
Qed.

Lemma hz_cleanup_returns c f v w : wp h (cleanup c f v) (fun r _ => returns r) w.
Proof.
  apply (wp_ends_pure h _); intros _. apply (wp_ends_try h clock Hc _). intros z w1 _.
  apply (wp_ends_pure h _). intros rn. apply wp_with_lock. apply (wp_ends_try h clock Hc _). intros o w2 _. cbn zeta.
  destruct (negb _); [by apply wp_ret|apply run_action_returns].
Qed.
End termination.

(** ** A server

    It starts an action when asked to, and carries it out when it is polled. *)

Definition hz_demo : HetznerConfig :=
  mkHetznerConfig "secret" "https://hz.test/v1" (Some "example.com"%string) 60 HTTP_TIMEOUT.

Definition ser_action (id : Z) (st : string) : Json :=
  JObj [("action"%string, JObj [("id"%string, JNum id); ("status"%string, JStr st)])].

(** The action a URL is of. *)
Definition polled (u : string) (jobs : gmap Z Job) : option (Z * Job) :=
  List.find (fun p => (api_base hz_demo +:+ action_path (fst p) =? u)%string) (map_to_list jobs).

Definition job_text (st : JobStatus) : string :=
  match st with Failed => "error" | _ => "success" end.

Definition hz_values_reply (l : list string) : Response :=
  match l with
  | [] => reply_empty 404
  | _ => reply 200 (JObj [("rrset"%string, JObj [("records"%string,
           JArr (map (fun v => ser_HetznerRecord (quoted v)) l))])])
  end.

Definition asked (u : string) : option (string * ActionKind) :=
  match strip_suffix "/actions/add_records" u, strip_suffix "/actions/remove_records" u with
  | Some p, _ => Some (p, AddRecords)
  | None, Some p => Some (p, RemoveRecords)
  | None, None => None
  end.

Definition asked_value (j : Json) : option string :=
  match j with
  | JObj fs =>
      match assoc "records" fs ≫= de_vec de_HetznerRecord with
      | Some [r] => Some (unquote r)
      | _ => None
      end
  | _ => None
  end.

Definition hz_http (req : Request) (s : JobState) : result Response ReqwestError * JobState :=
  match method req with
  | GET =>
      match polled (url req) (js_jobs s) with
      | Some (id, j) => (Ok (reply 200 (ser_action id (job_text (job_status j)))), settle_job id j s)
      | None => (Ok (hz_values_reply (js_vals s (url req))), s)
      end
  | POST =>
      match asked (url req), body req ≫= asked_value with
      | Some (u, k), Some v =>
          let id := fresh (dom (js_jobs s) : gset Z) in
          (Ok (reply 201 (ser_action id "running")), start id u v k s)
      | _, _ => (Ok (reply_empty 404), s)
      end
  | _ => (Ok (reply_empty 405), s)
  end.

Definition hz_server : handler sysE (JobState * Z) := clocked_by hz_http.

Lemma polled_spec u jobs id j :
  polled u jobs = Some (id, j) -> jobs !! id = Some j /\ api_base hz_demo +:+ action_path id = u.
Proof.
  intros H. apply List.find_some in H as [Hin Hu]. split; [by apply elem_of_map_to_list, list_elem_of_In|].
  by apply String.eqb_eq in Hu.
Qed.

(** The URL of an action is not that of a record set. *)
Lemma action_not_rrset c id z rn :
  api_base c +:+ action_path id <> rrset_url (X := ref_ext) c z rn.
Proof.
  unfold rrset_url, rrset_path, action_path. intros E%append_inj_l.
  apply (append_inj_l "/zones/" ("actions" +:+ "/" +:+ pretty id)) in E.
  apply slash_inj in E as [_ E]; [|done|apply encode_path_no_slash].
  pose proof (pretty_no_slash id) as Hn. unfold no_slash in Hn. rewrite E in Hn.
  by cbn in Hn.
Qed.

Lemma action_path_inj id id' : action_path id = action_path id' -> id = id'.
Proof. intros E. apply (append_inj_l "/zones/actions/") in E. by apply pretty_Z_inj. Qed.

Lemma hz_de_values l :
  mapM de_HetznerRecord (map (fun v => ser_HetznerRecord (quoted v)) l) = Some (map quoted l).
Proof. induction l as [|v l IH]; [done|]. cbn -[quoted]. by rewrite IH. Qed.

Lemma hz_unquote s : unquote s = Txt.unquote s.
Proof. reflexivity. Qed.

Lemma hz_map_unquote l : map unquote (map quoted l) = l.
Proof. induction l as [|v l IH]; [done|]. cbn [map]. by rewrite hz_unquote, unquote_quoted, IH. Qed.

Lemma asked_kind p k : asked (p +:+ "/actions/" +:+ kind_name k) = Some (p, k).
Proof.
  unfold asked. destruct k; cbn [kind_name].
  - change ("/actions/" +:+ "add_records") with "/actions/add_records"%string.
    by rewrite (strip_suffix_append p "/actions/add_records").
  - change ("/actions/" +:+ "remove_records") with "/actions/remove_records"%string.
    destruct (strip_suffix "/actions/add_records" _) as [q|] eqn:E.
    + apply strip_suffix_spec in E.
      assert ((p +:+ "/actions/remove") +:+ "_records" = (q +:+ "/actions/add") +:+ "_records") as E'
        by (rewrite !append_assoc; exact E).
      apply append_inj_r, (f_equal last_byte) in E'. by rewrite !last_byte_append in E'.
    + by rewrite (strip_suffix_append p "/actions/remove_records").
Qed.

Lemma asked_value_record t x : asked_value (ser_HetznerRecordsWrite t [x]) = Some (unquote x).
Proof. by destruct t. Qed.

Lemma asked_value_write t v : asked_value (ser_HetznerRecordsWrite t [quoted v]) = Some v.
Proof. by rewrite asked_value_record, hz_unquote, unquote_quoted. Qed.

Lemma hz_server_api : hz_api (X := ref_ext) hz_server hz_demo fst.
Proof.
  split.
  - intros Y e [s t] He. destruct e; try done; apply rtc_refl.
  - intros [m u q hd b] [s t]; cbn [method]. intros ->. unfold hz_server, clocked_by, hz_http. cbn [method url fst snd].
    destruct (polled u (js_jobs s)) as [[id j]|] eqn:Ep.
    + apply polled_spec in Ep as [Hj Hu]. exists (settle_job id j s). cbn [fst].
      split_and!; [by apply settle_job_drifts|done|]. intros resp [= <-]. split; cbn [url].
      * intros z rn E. subst u. by apply action_not_rrset in E.
      * intros id' E _ a. subst u. apply append_inj_l, action_path_inj in E as ->.
        unfold response_json. cbn [resp_body reply]. rewrite ok_or_ok.
        unfold de_HetznerActionResponse, ser_action. cbn -[de_HetznerAction].
        unfold de_HetznerAction. cbn -[de_u64]. destruct (de_u64 (JNum id')) as [i|] eqn:Ei; [|done].
        intros [= <-]. cbn. apply de_u64_num in Ei as ->. split; [done|]. unfold settle_job. destruct (job_status j) eqn:Es; cbn; intros Ht; [| |done].
        -- eexists. split; [apply lookup_insert_eq|done].
        -- eauto.
    + exists s. cbn [fst]. split_and!; [done|done|]. intros resp [= <-]. split; cbn [url].
      * intros z rn _. unfold hz_values_reply. destruct (js_vals s u) as [|x l]; [done|]. split; [done|].
        intros _ b'. unfold response_json. cbn [resp_body reply]. rewrite ok_or_ok.
        change (mapM de_HetznerRecord (map (fun v => ser_HetznerRecord (quoted v)) (x :: l)) = Some b' ->
                map unquote b' = x :: l).
        rewrite hz_de_values. intros [= <-]. apply (hz_map_unquote (x :: l)).
      * intros id _ _ a. unfold hz_values_reply. by destruct (js_vals s u).
  - intros [m u q hd b] [s t0] z rn k v t; cbn [method url body]. intros -> -> ->.
    unfold hz_server, clocked_by, hz_http. cbn [method url body fst snd mbind option_bind].
    rewrite asked_value_write, <- append_assoc, asked_kind. cbn zeta iota beta.
    assert (js_jobs s !! fresh (dom (js_jobs s)) = None) as Hf by (apply not_elem_of_dom, is_fresh).
    exists s, (start (fresh (dom (js_jobs s))) (rrset_url (X := ref_ext) hz_demo z rn) v k s).
    cbn [fst]. split_and!; [done|done|right; eauto|]. intros resp a [= <-] _.
    unfold response_json. cbn [resp_body reply]. rewrite ok_or_ok.
    unfold de_HetznerActionResponse, ser_action. cbn -[de_HetznerAction start].
    unfold de_HetznerAction. cbn -[de_u64 start]. destruct (de_u64 (JNum _)) as [i|] eqn:Ei; [|done].
    intros [= <-]. cbn [act_id act_status]. apply de_u64_num in Ei as ->. done.
Qed.

(** ** Properties *)

(** C26. Against a server that behaves as the Hetzner API documents, and carries
    out its actions whenever it likes: a call made while no action is under
    way changes no TXT value but the one given, of the name given, in its
    zone; [present] returns [Ok] only when the value is there, and [cleanup]
    only when it is gone; and if the call fails, what the server may still do
    later is only the change it was asked for. *)
Theorem hetzner_contract `{X : Ext} `{!ExtSpec X} {W} (h : handler sysE W) (c : HetznerConfig) abs f v w :
  hz_api h c abs -> idle (abs w) ->
  (let '(r, w') := run h (present c f v) w in hz_outcome c abs AddRecords f v w r w') /\
  (let '(r, w') := run h (cleanup c f v) w in hz_outcome c abs RemoveRecords f v w r w').
Proof.
  intros Hapi Hi. split.
  - exact (hz_present h c abs Hapi f v w Hi).
  - exact (hz_cleanup h c abs Hapi f v w Hi).
Qed.

Definition hz_demo_url : string := "https://hz.test/v1/zones/example.com/rrsets/_acme-challenge/TXT".

Definition hz_demo_state : JobState * Z := (mkJobs (only hz_demo_url ["other"%string]) ∅, 0).

Lemma hz_demo_idle : idle (fst hz_demo_state).
Proof. intros id j Hj. by apply (lookup_empty_Some id j) in Hj. Qed.

Lemma hetzner_contract_witness :
  (let '(r, w') := run hz_server (present (X := ref_ext) hz_demo "_acme-challenge.Example.com" "tok") hz_demo_state in
   r = Ok tt /\ js_vals (fst w') hz_demo_url = ["other"%string; "tok"%string] /\ snd w' = from_secs 1) /\
  (let '(r, w') := run hz_server (present (X := ref_ext) hz_demo "_acme-challenge.Example.com" "tok") hz_demo_state in
   hz_outcome (X := ref_ext) hz_demo fst AddRecords "_acme-challenge.Example.com" "tok" hz_demo_state r w').
Proof.
  split; [vm_compute; split_and!; reflexivity|].
  exact (proj1 (hetzner_contract hz_server hz_demo fst "_acme-challenge.Example.com" "tok" hz_demo_state
    hz_server_api hz_demo_idle)).
Defined.
