(* ===== verification/GoogleCloudDns.v ===== *)
(** * The Google Cloud DNS provider (src/providers/google_cloud_dns.rs)

    Requests carry an access token, which is exchanged for a signed assertion
    and cached until shortly before it expires.  A record set is replaced
    whole, by a change that deletes it as it was read and adds the new one;
    the change is then polled until it is applied. *)

From S2P Require Import Prelude Rstr Errors Effects Sys Common Zone Provider Txt Polling.

(** ** Other crates

    [serde_json], [data_encoding], [rustls_pki_types] and [ring]. *)
Class GcExt : Type := {
  (** [serde_json::from_str]: the document, or the error of its syntax; and the
      error of a document that is not a service account key. *)
  json_of_text : string -> result Json string;
  key_error : Json -> string;
  (** [serde_json::to_vec]. *)
  to_vec : Json -> result string string;
  (** [BASE64URL_NOPAD.encode]. *)
  base64url : string -> string;
  (** [PrivatePkcs8KeyDer::from_pem_slice], [RsaKeyPair::from_pkcs8] and
      [RsaKeyPair::sign] with [RSA_PKCS1_SHA256]. *)
  pkcs8_of_pem : string -> option string;
  rsa_of_pkcs8 : string -> result unit string;
  rsa_sign : string -> string -> option string
}.

Definition GCDNS_API_BASE : string := "https://dns.googleapis.com/dns/v1".
Definition DEFAULT_TOKEN_URI : string := "https://oauth2.googleapis.com/token".
Definition ENV_CREDENTIALS : string := "GOOGLE_APPLICATION_CREDENTIALS".
Definition SCOPE : string := "https://www.googleapis.com/auth/ndev.clouddns.readwrite".
Definition JWT_GRANT_TYPE : string := "urn:ietf:params:oauth:grant-type:jwt-bearer".
Definition JWT_LIFETIME : Duration := from_secs 3600.
Definition TOKEN_REFRESH_MARGIN : Duration := from_secs 60.
Definition DEFAULT_TTL : Z := 60.
Definition MAX_PAGES : nat := 50.
Definition HTTP_TIMEOUT : Duration := from_secs 30.
Definition CONNECT_TIMEOUT : Duration := from_secs 5.
Definition CHANGE_POLL_INTERVAL : Duration := from_secs 1.
Definition CHANGE_TIMEOUT : Duration := from_secs 60.
Definition PROVIDER : string := "google-cloud-dns".

Record GoogleCloudDnsConfig : Type := mkGoogleCloudDnsConfig {
  client_email : string;
  private_key : string;
  private_key_id : option string;
  token_uri : string;
  project : string;
  api_base : string;
  managed_zone : option string;
  ttl : Z;
  http_timeout : Duration
}.

(** The provider: its configuration, and the DER of its key. *)
Record GoogleCloudDnsProvider : Type := mkGoogleCloudDnsProvider {
  config : GoogleCloudDnsConfig;
  key : string
}.

(** ** Bodies *)

Definition de_opt_string : option Json -> option (option string) := defaulted None (de_option de_string).

Record ServiceAccountKey : Type := mkServiceAccountKey {
  sa_kind : option string;
  sa_client_email : string;
  sa_private_key : string;
  sa_private_key_id : option string;
  sa_token_uri : option string;
  sa_project_id : option string
}.

Definition de_ServiceAccountKey (j : Json) : option ServiceAccountKey :=
  match struct_fields ["type"; "client_email"; "private_key"; "private_key_id"; "token_uri"; "project_id"] j with
  | Some [k; e; p; i; t; r] =>
      k' ← de_opt_string k; e' ← required de_string e; p' ← required de_string p;
      i' ← de_opt_string i; t' ← de_opt_string t; r' ← de_opt_string r;
      Some (mkServiceAccountKey k' e' p' i' t' r')
  | _ => None
  end.

Definition ser_JwtHeader (alg typ : string) (kid : option string) : Json :=
  JObj ([("alg", JStr alg); ("typ", JStr typ)]%string
        ++ match kid with Some k => [("kid"%string, JStr k)] | None => [] end).

Definition ser_JwtClaims (iss scope aud : string) (iat exp : Z) : Json :=
  JObj [("iss", JStr iss); ("scope", JStr scope); ("aud", JStr aud); ("iat", JNum iat); ("exp", JNum exp)].

Record TokenResponse : Type := mkTokenResponse {
  access_token_text : string;
  expires_in : option Z
}.

Definition de_TokenResponse (j : Json) : option TokenResponse :=
  match struct_fields ["access_token"; "expires_in"] j with
  | Some [t; e] =>
      t' ← required de_string t; e' ← defaulted None (de_option de_u64) e; Some (mkTokenResponse t' e')
  | _ => None
  end.

Record ManagedZone : Type := mkManagedZone {
  mz_name : string;
  dns_name : string;
  visibility : option string
}.

Definition de_ManagedZone (j : Json) : option ManagedZone :=
  match struct_fields ["name"; "dnsName"; "visibility"] j with
  | Some [n; d; v] =>
      n' ← required de_string n; d' ← required de_string d; v' ← de_opt_string v; Some (mkManagedZone n' d' v')
  | _ => None
  end.

Record ManagedZones : Type := mkManagedZones {
  managed_zones : list ManagedZone;
  next_page_token : option string
}.

Definition de_ManagedZones (j : Json) : option ManagedZones :=
  match struct_fields ["managedZones"; "nextPageToken"] j with
  | Some [z; t] =>
      z' ← defaulted [] (de_vec de_ManagedZone) z; t' ← de_opt_string t; Some (mkManagedZones z' t')
  | _ => None
  end.

(** A [serde_json::Value] is the document itself. *)
Definition de_RrsetList (j : Json) : option (list Json) :=
  match struct_fields ["rrsets"] j with Some [r] => defaulted [] (de_vec Some) r | _ => None end.

Record Rrset : Type := mkRrset {
  rr_name : string;
  rr_kind : string;
  rr_ttl : Z;
  rr_datas : list string
}.

Definition ser_Rrset (r : Rrset) : Json :=
  JObj [("name", JStr (rr_name r)); ("type", JStr (rr_kind r)); ("ttl", JNum (rr_ttl r));
        ("rrdatas", JArr (map JStr (rr_datas r)))].

Definition option_list {A} (o : option A) : list A := match o with Some a => [a] | None => [] end.

Definition ser_ChangeRequest (additions : list Rrset) (deletions : list Json) : Json :=
  JObj [("additions"%string, JArr (map ser_Rrset additions)); ("deletions"%string, JArr deletions)].

Record Change : Type := mkChange {
  ch_id : string;
  ch_status : string
}.

Definition de_Change (j : Json) : option Change :=
  match struct_fields ["id"; "status"] j with
  | Some [i; s] => i' ← required de_string i; s' ← required de_string s; Some (mkChange i' s')
  | _ => None
  end.

(** [Value]'s indexing by a string ([Null] where there is nothing; of a
    repeated key the last entry is kept), [as_str], [as_u64] and [as_array]. *)
Definition index (j : Json) (k : string) : Json :=
  match j with JObj fs => default JNull (assoc k (rev fs)) | _ => JNull end.
Definition as_str (j : Json) : option string := de_string j.
Definition as_u64 (j : Json) : option Z := de_u64 j.
Definition as_array (j : Json) : option (list Json) := match j with JArr l => Some l | _ => None end.

(** [fn unquote]. *)
Definition unquote (record : string) : string :=
  let trimmed := trim record in
  default trimmed (strip_prefix dquote trimmed ≫= strip_suffix dquote).

Definition rrdatas (rrset : Json) : list string :=
  match as_array (index rrset "rrdatas") with Some values => omap as_str values | None => [] end.

(** The name of the API has a trailing dot. *)
Definition absolute (fqdn : string) : string := to_ascii_lowercase (trim_end_matches dot fqdn) +:+ ".".

Definition ends_with (suffix s : string) : bool :=
  match strip_suffix suffix s with Some _ => true | None => false end.

Section google.
Context `{X : Ext} `{XG : GcExt}.

(** ** Configuration *)

Definition validate_project (project : string) : dns_result unit :=
  let valid :=
    negb (is_empty project) && (len project <=? 100) &&
    all_bytes (fun b => in_range 97 122 b || in_range 48 57 b || existsb (Ascii.eqb b) ["-"; "."; ":"]%char) project in
  if negb valid then Err (Other (PROVIDER +:+ " invalid project id: " +:+ project)) else Ok tt.

Definition from_service_account_json (json : string) : dns_result GoogleCloudDnsConfig :=
  let invalid e := Other (PROVIDER +:+ " invalid service account key: " +:+ e) in
  let! doc := map_err invalid (json_of_text json) in
  let! k := ok_or (de_ServiceAccountKey doc) (invalid (key_error doc)) in
  let! _ :=
    match sa_kind k with
    | Some kind =>
        if negb (kind =? "service_account")%string then
          Err (Other (PROVIDER +:+ " credentials must be a service account key, got type " +:+ kind))
        else Ok tt
    | None => Ok tt
    end in
  let uri := default DEFAULT_TOKEN_URI (sa_token_uri k) in
  let! _ := validate_https_base uri PROVIDER in
  let proj := default EmptyString (sa_project_id k) in
  let! _ := if negb (is_empty proj) then validate_project proj else Ok tt in
  Ok (mkGoogleCloudDnsConfig (sa_client_email k) (sa_private_key k) (sa_private_key_id k) uri proj
        GCDNS_API_BASE None DEFAULT_TTL HTTP_TIMEOUT).

(** [read] is [std::fs::read_to_string]. *)
Definition from_service_account_file (read : string -> result string string) (path : string)
  : dns_result GoogleCloudDnsConfig :=
  let! json := map_err (fun e => MissingCredentials
    (PROVIDER +:+ " cannot read service account key " +:+ path +:+ ": " +:+ e)) (read path) in
  from_service_account_json json.

Definition with_api_base (c : GoogleCloudDnsConfig) (base : string) : dns_result GoogleCloudDnsConfig :=
  let! _ := validate_https_base base PROVIDER in
  Ok (mkGoogleCloudDnsConfig (client_email c) (private_key c) (private_key_id c) (token_uri c) (project c)
        (trim_end_matches "/" base) (managed_zone c) (ttl c) (http_timeout c)).

Definition with_token_uri (c : GoogleCloudDnsConfig) (uri : string) : dns_result GoogleCloudDnsConfig :=
  let! _ := validate_https_base uri PROVIDER in
  Ok (mkGoogleCloudDnsConfig (client_email c) (private_key c) (private_key_id c) uri (project c)
        (api_base c) (managed_zone c) (ttl c) (http_timeout c)).

Definition with_project (c : GoogleCloudDnsConfig) (proj : string) : dns_result GoogleCloudDnsConfig :=
  let! _ := validate_project proj in
  Ok (mkGoogleCloudDnsConfig (client_email c) (private_key c) (private_key_id c) (token_uri c) proj
        (api_base c) (managed_zone c) (ttl c) (http_timeout c)).

Definition with_managed_zone (c : GoogleCloudDnsConfig) (name : string) : dns_result GoogleCloudDnsConfig :=
  if is_empty name || (63 <? len name) then
    Err (Other (PROVIDER +:+ " invalid managed zone name: " +:+ name))
  else
    Ok (mkGoogleCloudDnsConfig (client_email c) (private_key c) (private_key_id c) (token_uri c) (project c)
          (api_base c) (Some name) (ttl c) (http_timeout c)).

Definition with_ttl (c : GoogleCloudDnsConfig) (t : Z) : dns_result GoogleCloudDnsConfig :=
  let! t' := validate_ttl t in
  Ok (mkGoogleCloudDnsConfig (client_email c) (private_key c) (private_key_id c) (token_uri c) (project c)
        (api_base c) (managed_zone c) t' (http_timeout c)).

Definition with_timeout (c : GoogleCloudDnsConfig) (d : Duration) : GoogleCloudDnsConfig :=
  mkGoogleCloudDnsConfig (client_email c) (private_key c) (private_key_id c) (token_uri c) (project c)
    (api_base c) (managed_zone c) (ttl c) d.

Definition new (client : Duration -> Duration -> result unit ReqwestError) (c : GoogleCloudDnsConfig)
  : dns_result GoogleCloudDnsProvider :=
  if is_empty (project c) then
    Err (MissingCredentials (PROVIDER +:+ " project id (not in the key, set it with with_project)"))
  else
    let! der := ok_or (pkcs8_of_pem (private_key c))
                  (Other (PROVIDER +:+ " private_key is not a PKCS#8 PEM private key")) in
    let! _ := map_err (fun e => Other (PROVIDER +:+ " private_key is not a usable RSA key: " +:+ e))
                (rsa_of_pkcs8 der) in
    let! _ := map_err Http (client (http_timeout c) CONNECT_TIMEOUT) in
    Ok (mkGoogleCloudDnsProvider c der).

Definition from_env (client : Duration -> Duration -> result unit ReqwestError)
    (read : string -> result string string) (var : string -> option string) : dns_result GoogleCloudDnsProvider :=
  let! path := ok_or (var ENV_CREDENTIALS) (MissingCredentials ENV_CREDENTIALS) in
  let! c := from_service_account_file read path in
  new client c.

(** ** Tokens *)

Definition json_err (e : string) : DnsError := Other (PROVIDER +:+ " JSON encoding failed: " +:+ e).

Definition into_auth (err : DnsError) : DnsError :=
  match err with Api msg => Auth msg | other => other end.

(** [iat + JWT_LIFETIME.as_secs()], in [u64]. *)
Definition signed_assertion (p : GoogleCloudDnsProvider) : sys (dns_result string) :=
  let* now := call SystemTimeNow in
  try? iat := ok_or now (Other "system clock is before the unix epoch") in
  let header := ser_JwtHeader "RS256" "JWT" (private_key_id (config p)) in
  let claims := ser_JwtClaims (client_email (config p)) SCOPE (token_uri (config p)) iat
                  (wrap_u 64 (iat + as_secs JWT_LIFETIME)) in
  try? h := map_err json_err (to_vec header) in
  try? b := map_err json_err (to_vec claims) in
  let signing_input := base64url h +:+ "." +:+ base64url b in
  try? signature := ok_or (rsa_sign (key p) signing_input) (Other (PROVIDER +:+ " failed to sign the JWT")) in
  Ret (Ok (signing_input +:+ "." +:+ base64url signature)).

(** [self.token.lock().await] for the rest of a block. *)
Definition with_token {A} (p : sys A) : sys A :=
  let* _ := call TokenLock in
  let* a := p in
  let* _ := call TokenUnlock in
  Ret a.

Definition token_request (p : GoogleCloudDnsProvider) (assertion : string) : Request :=
  mkRequest POST (token_uri (config p)) [] [("Content-Type", "application/x-www-form-urlencoded")]%string
    (Some (JObj [("grant_type", JStr JWT_GRANT_TYPE); ("assertion", JStr assertion)])).

(** The exchange of a fresh assertion for a token; adding its lifetime to the
    clock can panic. *)
Definition exchange_token (p : GoogleCloudDnsProvider) : sys (fueled string) :=
  await? assertion := lifted (signed_assertion p) in
  await? response := lifted (send (token_request p assertion)) in
  if negb (is_success (status response)) then
    Ret (Err (Raised (into_auth (api_error PROVIDER "POST" "token" response))))
  else
    try? body := lift (response_json de_TokenResponse response) in
    let lifetime := from_secs (default 3600 (expires_in body)) in
    let* now := call Now in
    match instant_add now (Z.max 0 (lifetime - TOKEN_REFRESH_MARGIN)) with
    | None => Ret (Err Panicked)
    | Some refresh_at =>
        let* _ := call (TokenSet (Some (access_token_text body, refresh_at))) in
        Ret (Ok (access_token_text body))
    end.

Definition access_token (p : GoogleCloudDnsProvider) : sys (fueled string) :=
  with_token
    (let* cached := call TokenGet in
     match cached with
     | Some (value, refresh_at) =>
         let* now := call Now in
         if now <? refresh_at then Ret (Ok value) else exchange_token p
     | None => exchange_token p
     end).

Definition forget_token_on_unauthorized (code : Z) : sys unit :=
  if code =? 401 then with_token (call (TokenSet None)) else Ret tt.

(** ** Requests *)

Definition zones_path (p : GoogleCloudDnsProvider) : string :=
  "/projects/" +:+ encode_path (project (config p)) +:+ "/managedZones".

Definition zone_path (p : GoogleCloudDnsProvider) (zone : string) : string :=
  zones_path p +:+ "/" +:+ encode_path zone.

Definition check_error (meth path : string) (response : Response) : DnsError :=
  let code := status response in
  if (code =? 401) || (code =? 403) then into_auth (api_error PROVIDER meth path response)
  else if code =? 429 then
    let hint :=
      match header_str "retry-after" response with
      | Some delay => "retry after " +:+ delay +:+ "s"
      | None => "retry later"%string
      end in
    Api (PROVIDER +:+ " " +:+ meth +:+ " " +:+ path +:+ " was rate limited (429), " +:+ hint)
  else if (code =? 409) || (code =? 412) then
    Api (PROVIDER +:+ " " +:+ meth +:+ " " +:+ path +:+ " returned " +:+ status_text code
         +:+ ": the record set was modified concurrently, retry the operation")
  else api_error PROVIDER meth path response.

Definition bearer (token : string) : list (string * string) := [("authorization", "Bearer " +:+ token)].

Definition url_of (p : GoogleCloudDnsProvider) (path : string) : string := api_base (config p) +:+ path.

Definition get (p : GoogleCloudDnsProvider) (path : string) (query : list (string * string))
  : sys (fueled Response) :=
  await? token := access_token p in
  await? response := lifted (send (mkRequest GET (url_of p path) query (bearer token) None)) in
  if negb (is_success (status response)) then
    let* _ := forget_token_on_unauthorized (status response) in
    Ret (Err (Raised (check_error "GET" path response)))
  else Ret (Ok response).

(** One zone of a page, with the best one so far. *)
Definition better_zone (name : string) (best : option (Z * string)) (zone : ManagedZone) : option (Z * string) :=
  if decide (visibility zone = Some "private"%string) then best
  else
    let dns_name := to_ascii_lowercase (dns_name zone) in
    let matches := (name =? dns_name)%string || ends_with ("." +:+ dns_name) name in
    if matches && match best with None => true | Some (length, _) => length <? len dns_name end
    then Some (len dns_name, mz_name zone)
    else best.

(** The loop over the pages; [pages] are left. *)
Fixpoint zone_pages (p : GoogleCloudDnsProvider) (fqdn : string) (pages : nat) (best : option (Z * string))
    (page_token : option string) : sys (fueled string) :=
  match pages with
  | O => Ret (Err (Raised (Api (PROVIDER +:+ " zone listing exceeded " +:+ pretty MAX_PAGES +:+ " pages"))))
  | S pages' =>
      let query := match page_token with Some t => [("pageToken"%string, t)] | None => [] end in
      await? response := get p (zones_path p) query in
      try? body := lift (response_json de_ManagedZones response) in
      let best := fold_left (better_zone (absolute fqdn)) (managed_zones body) best in
      match next_page_token body with
      | Some t =>
          if negb (is_empty t) then zone_pages p fqdn pages' best (Some t)
          else Ret (lift (ok_or (snd <$> best) (ZoneNotFound fqdn)))
      | None => Ret (lift (ok_or (snd <$> best) (ZoneNotFound fqdn)))
      end
  end.

Definition resolve_zone (p : GoogleCloudDnsProvider) (fqdn : string) : sys (fueled string) :=
  match managed_zone (config p) with
  | Some zone => Ret (Ok zone)
  | None => zone_pages p fqdn MAX_PAGES None None
  end.

Definition is_txt_set (name : string) (r : Json) : bool :=
  bool_decide (as_str (index r "type") = Some "TXT"%string) &&
  match as_str (index r "name") with Some n => eq_ignore_ascii_case n name | None => false end.

Definition rrsets_path (p : GoogleCloudDnsProvider) (zone : string) : string := zone_path p zone +:+ "/rrsets".
Definition changes_path (p : GoogleCloudDnsProvider) (zone : string) : string := zone_path p zone +:+ "/changes".

Definition rrset_query (name : string) : list (string * string) := [("name", name); ("type", "TXT")]%string.

Definition fetch_rrset (p : GoogleCloudDnsProvider) (zone name : string) : sys (fueled (option Json)) :=
  await? response := get p (rrsets_path p zone) (rrset_query name) in
  try? rrsets := lift (response_json de_RrsetList response) in
  Ret (Ok (List.find (is_txt_set name) rrsets)).

(** *** Changes *)

Definition settled (change : Change) : option (dns_result unit) :=
  if (ch_status change =? "done")%string then Some (Ok tt) else None.

Definition late (change : Change) : DnsError :=
  Api (PROVIDER +:+ " change " +:+ ch_id change +:+ " still " +:+ ch_status change
       +:+ " after " +:+ pretty (as_secs CHANGE_TIMEOUT) +:+ "s").

Definition change_path (p : GoogleCloudDnsProvider) (zone id : string) : string :=
  changes_path p zone +:+ "/" +:+ encode_path id.

Definition fetch_change (p : GoogleCloudDnsProvider) (zone : string) (change : Change) : sys (fueled Change) :=
  await? response := get p (change_path p zone (ch_id change)) [] in
  try? change := lift (response_json de_Change response) in
  Ret (Ok change).

Definition wait_for_change (p : GoogleCloudDnsProvider) (zone : string) (change : Change) : sys (fueled unit) :=
  let* now := call Now in
  let deadline := now + CHANGE_TIMEOUT in
  wait_until settled late (fetch_change p zone) CHANGE_POLL_INTERVAL
    (turns CHANGE_TIMEOUT CHANGE_POLL_INTERVAL) deadline change.

Definition change_request (p : GoogleCloudDnsProvider) (zone : string) (deletion : option Json)
    (addition : option Rrset) (token : string) : Request :=
  mkRequest POST (url_of p (changes_path p zone)) [] (bearer token)
    (Some (ser_ChangeRequest (option_list addition) (option_list deletion))).

(** The request of [apply_change], and its answer. *)
Definition post_change (p : GoogleCloudDnsProvider) (zone : string) (deletion : option Json)
    (addition : option Rrset) : sys (fueled Change) :=
  await? token := access_token p in
  await? response := lifted (send (change_request p zone deletion addition token)) in
  if negb (is_success (status response)) then
    let* _ := forget_token_on_unauthorized (status response) in
    Ret (Err (Raised (check_error "POST" (changes_path p zone) response)))
  else
    try? change := lift (response_json de_Change response) in
    Ret (Ok change).

Definition apply_change (p : GoogleCloudDnsProvider) (zone : string) (deletion : option Json)
    (addition : option Rrset) : sys (fueled unit) :=
  await? change := post_change p zone deletion addition in
  wait_for_change p zone change.

(** ** Operations *)

(** The values and the TTL of the set, or those of a new one. *)
Definition values_of (existing : option Json) : list string :=
  match existing with Some rrset => rrdatas rrset | None => [] end.

Definition ttl_of (c : GoogleCloudDnsConfig) (existing : option Json) : Z :=
  match existing with Some rrset => default (ttl c) (as_u64 (index rrset "ttl")) | None => ttl c end.

Definition has_value (values : list string) (value : string) : bool :=
  existsb (fun v => (unquote v =? value)%string) values.

Definition present_locked (p : GoogleCloudDnsProvider) (zone name value : string) : sys (fueled unit) :=
  await? existing := fetch_rrset p zone name in
  let values := values_of existing in
  if has_value values value then Ret (Ok tt)
  else
    let addition := mkRrset name "TXT" (ttl_of (config p) existing) (values ++ [quoted value]) in
    apply_change p zone existing (Some addition).

Definition present (p : GoogleCloudDnsProvider) (fqdn value : string) : sys (fueled unit) :=
  try? _ := lift (validate_fqdn fqdn) in
  try? _ := lift (validate_acme_value value) in
  await? zone := resolve_zone p fqdn in
  let name := absolute fqdn in
  with_lock (zone +:+ "|" +:+ name) (present_locked p zone name value).

Definition cleanup_locked (p : GoogleCloudDnsProvider) (zone name value : string) : sys (fueled unit) :=
  await? existing := fetch_rrset p zone name in
  match existing with
  | None => Ret (Ok tt)
  | Some rrset =>
      let values := rrdatas rrset in
      let remaining := List.filter (fun v => negb (unquote v =? value)%string) values in
      if (length remaining =? length values)%nat then Ret (Ok tt)
      else
        let addition :=
          match remaining with
          | [] => None
          | _ => Some (mkRrset name "TXT" (ttl_of (config p) existing) remaining)
          end in
        apply_change p zone existing addition
  end.

Definition cleanup (p : GoogleCloudDnsProvider) (fqdn value : string) : sys (fueled unit) :=
  try? _ := lift (validate_fqdn fqdn) in
  await? zone := resolve_zone p fqdn in
  let name := absolute fqdn in
  with_lock (zone +:+ "|" +:+ name) (cleanup_locked p zone name value).
End google.

(** ** The Google Cloud DNS API

    [recs w (z, n)] is the data of the TXT record set of the name [n] in the
    managed zone [z], as the API writes it; it is empty when there is no such
    set.  A change is accepted or refused whole. *)

Definition added_values (a : option Rrset) : list string :=
  match a with Some r => rr_datas r | None => [] end.

(** A document that stands for the TXT record set of the name [n], with the
    data [d]. *)
Definition txt_named (n : string) (j : Json) : Prop :=
  index j "type" = JStr "TXT" /\
  exists m, index j "name" = JStr m /\ to_ascii_lowercase m = to_ascii_lowercase n.
Definition has_data (d : list string) (j : Json) : Prop := index j "rrdatas" = JArr (map JStr d).

(** A change that concerns the TXT record set of one name. *)
Definition changes_set (n : string) (a : option Rrset) (d : option Json) : Prop :=
  (forall r, a = Some r -> rr_name r = n /\ rr_kind r = "TXT"%string) /\
  (forall j, d = Some j -> txt_named n j) /\ (a <> None \/ d <> None) /\
  to_ascii_lowercase n = n.

(** The zones of an account, on the pages from a token on. *)
Inductive listed (pages : option string -> list ManagedZone * option string) : option string -> list ManagedZone -> Prop :=
| last_page t l next : pages t = (l, next) -> next = None \/ next = Some EmptyString -> listed pages t l
| next_page t l t' l' :
    pages t = (l, Some t') -> t' <> EmptyString -> listed pages (Some t') l' -> listed pages t (l ++ l').

(** A public zone that the name [n] is in, and the one it is in whose name is
    the longest. *)
Definition holds (n : string) (m : ManagedZone) : Prop :=
  visibility m <> Some "private"%string /\
  (n = to_ascii_lowercase (dns_name m) \/ exists s, n = s +:+ "." +:+ to_ascii_lowercase (dns_name m)).

Definition hosts (account : list ManagedZone) (n z : string) : Prop :=
  exists m, m ∈ account /\ mz_name m = z /\ holds n m /\
    forall m', m' ∈ account -> holds n m' ->
      len (to_ascii_lowercase (dns_name m')) <= len (to_ascii_lowercase (dns_name m)).

Record gc_api `{X : Ext} {W} (h : handler sysE W) (p : GoogleCloudDnsProvider) (account : list ManagedZone)
    (recs : W -> string * string -> list string)
    (change_of : W -> string * string -> option ((string * string) * list string))
    (applied : W -> string * string -> Prop) : Prop := {
  gc_background : background h recs;
  gc_kept : changes_kept h change_of applied;
  gc_token : forall req w, url req = token_uri (config p) -> same recs w (snd (h _ (HttpSend req) w));
  (** The zones of the account are on the pages that follow the first one. *)
  gc_zones : exists pages, listed pages None account /\
    forall req w resp t b,
      fst (h _ (HttpSend req) w) = Ok resp -> method req = GET -> url req = url_of p (zones_path p) ->
      query req = match t with Some t => [("pageToken"%string, t)] | None => [] end ->
      is_success (status resp) = true -> response_json de_ManagedZones resp = Ok b ->
      pages t = (managed_zones b, next_page_token b);
  (** The listing has the TXT record set of the name, with its data, unless
      there is none; it may have others. *)
  gc_list : forall req w resp z n l,
    fst (h _ (HttpSend req) w) = Ok resp -> method req = GET -> url req = url_of p (rrsets_path p z) ->
    query req = rrset_query n -> is_success (status resp) = true ->
    response_json de_RrsetList resp = Ok l ->
    (forall j, j ∈ l -> txt_named n j -> has_data (recs w (z, n)) j) /\
    ((forall j, j ∈ l -> ~ txt_named n j) -> recs w (z, n) = []);
  gc_change : forall req z n a d,
    method req = POST -> url req = url_of p (changes_path p z) ->
    body req = Some (ser_ChangeRequest (option_list a) (option_list d)) -> changes_set n a d ->
    forall w, let '(r, w') := h _ (HttpSend req) w in
      (same recs w w' \/ set_to recs (z, n) (added_values a) w w') /\
      forall resp c, r = Ok resp -> is_success (status resp) = true -> response_json de_Change resp = Ok c ->
        set_to recs (z, n) (added_values a) w w' /\
        change_of w' (z, ch_id c) = Some ((z, n), added_values a) /\
        (ch_status c = "done"%string -> applied w' (z, ch_id c));
  gc_poll : forall req w resp z id c,
    fst (h _ (HttpSend req) w) = Ok resp -> method req = GET -> url req = url_of p (change_path p z id) ->
    is_success (status resp) = true -> response_json de_Change resp = Ok c ->
    ch_id c = id /\ (ch_status c = "done"%string -> applied (snd (h _ (HttpSend req) w)) (z, id))
}.

(** ** Correctness *)

Lemma is_txt_set_named n j : is_txt_set n j = true <-> txt_named n j.
Proof.
  unfold is_txt_set, txt_named. rewrite andb_true_iff, bool_decide_eq_true. unfold as_str.
  split.
  - intros [Ht Hn]. split; [by destruct (index j "type"); try done; injection Ht as ->|].
    destruct (index j "name"); try done. eexists. split; [done|]. by apply String.eqb_eq.
  - intros [-> (m & -> & Hm)]. split; [done|]. by apply String.eqb_eq.
Qed.

Lemma rrdatas_data d j : has_data d j -> rrdatas j = d.
Proof. unfold has_data, rrdatas. intros ->. cbn. induction d as [|x l IH]; cbn; [done|]. by f_equal. Qed.

(** What the provider takes for the record set. *)
Definition found_in (n : string) (l : list Json) (o : option Json) : Prop :=
  match o with
  | Some j => j ∈ l /\ txt_named n j
  | None => forall j, j ∈ l -> ~ txt_named n j
  end.

Lemma find_found n l : found_in n l (List.find (is_txt_set n) l).
Proof.
  unfold found_in. destruct (List.find _ l) as [j|] eqn:E.
  - apply List.find_some in E as [Hj Hn%is_txt_set_named]. by apply list_elem_of_In in Hj.
  - intros j Hj Hn%is_txt_set_named. apply list_elem_of_In in Hj.
    pose proof (List.find_none _ _ E j Hj) as Hx. cbn beta in Hx. congruence.
Qed.

Lemma found_values n l o (r : list string) :
  found_in n l o -> (forall j, j ∈ l -> txt_named n j -> has_data r j) ->
  ((forall j, j ∈ l -> ~ txt_named n j) -> r = []) -> values_of o = r.
Proof.
  intros Ho Hd He. destruct o as [j|]; cbn; [|by symmetry; apply He]. destruct Ho as [H1 H2].
  by apply rrdatas_data, Hd.
Qed.

Lemma listed_page pages t rest l next :
  listed pages t rest -> pages t = (l, next) ->
  (next = None \/ next = Some EmptyString -> rest = l) /\
  (forall t', next = Some t' -> t' <> EmptyString -> exists l', rest = l ++ l' /\ listed pages (Some t') l').
Proof.
  intros Hl Hp. destruct Hl as [t l0 next0 H1 H2|t l0 t' l' H1 H2 H3]; rewrite Hp in H1; injection H1 as -> ->.
  - split; [done|]. intros t' -> Ht. destruct H2 as [|[= ->]]; done.
  - split; [intros [|[= ->]]; done|]. intros t2 [= <-] _. eauto.
Qed.

(** The zone chosen among those seen. *)
Definition best_of (n : string) (l : list ManagedZone) (best : option (Z * string)) : Prop :=
  match best with
  | None => forall m, m ∈ l -> ~ holds n m
  | Some (length, z) => exists m, m ∈ l /\ mz_name m = z /\ holds n m /\ length = len (to_ascii_lowercase (dns_name m)) /\
      forall m', m' ∈ l -> holds n m' -> len (to_ascii_lowercase (dns_name m')) <= length
  end.

Lemma ends_with_spec suffix s : ends_with suffix s = true <-> exists q, s = q +:+ suffix.
Proof.
  unfold ends_with. destruct (strip_suffix suffix s) as [q|] eqn:E.
  - apply strip_suffix_spec in E. split; [eauto|done].
  - split; [done|]. intros [q Hq]. apply strip_suffix_spec in Hq. congruence.
Qed.

Lemma best_of_better n l best m : best_of n l best -> best_of n (l ++ [m]) (better_zone n best m).
Proof.
  intros Hb. assert (forall m', m' ∈ l ++ [m] <-> m' ∈ l \/ m' = m) as Hin.
  { intros m'. rewrite elem_of_app, list_elem_of_singleton. done. }
  assert (~ holds n m -> best_of n (l ++ [m]) best) as Hskip.
  { intros Hm. destruct best as [[k z]|]; cbn in *.
    - destruct Hb as (m0 & H1 & H2 & H3 & H4 & H5). exists m0. split_and!; [by apply Hin; left|done..|].
      intros m' [Hm'| ->]%Hin; [by apply H5|done].
    - intros m' [Hm'| ->]%Hin; [by apply Hb|done]. }
  unfold better_zone. case_decide as Hv; [apply Hskip; by intros [? _]|].
  set (d := to_ascii_lowercase (dns_name m)). destruct ((n =? d)%string || ends_with ("." +:+ d) n) eqn:E.
  2: { apply Hskip. intros [_ H]. apply orb_false_iff in E as [E1%String.eqb_neq E2]. fold d in H.
       destruct H as [H|H]; [done|]. apply ends_with_spec in H. congruence. }
  assert (holds n m) as Hm.
  { split; [done|]. fold d. apply orb_true_iff in E as [E%String.eqb_eq|E%ends_with_spec]; auto. }
  destruct best as [[k z]|]; cbn in *.
  - destruct Hb as (m0 & H1 & H2 & H3 & H4 & H5). destruct (Z.ltb_spec k (len d)).
    + exists m. split_and!; [by apply Hin; right|done..|]. intros m' [Hm'| ->]%Hin Hh; [|done].
      specialize (H5 m' Hm' Hh). fold d. lia.
    + exists m0. split_and!; [by apply Hin; left|done..|]. intros m' [Hm'| ->]%Hin Hh; [by apply H5|]. done.
  - exists m. split_and!; [by apply Hin; right|done..|]. intros m' [Hm'| ->]%Hin Hh; [by destruct (Hb m')|done].
Qed.

Lemma best_of_page n l best ms : best_of n l best -> best_of n (l ++ ms) (fold_left (better_zone n) ms best).
Proof.
  revert l best. induction ms as [|m ms IH]; intros l best Hb; [by rewrite app_nil_r|].
  cbn [fold_left]. change (m :: ms) with ([m] ++ ms). rewrite app_assoc. by apply IH, best_of_better.
Qed.

Lemma best_of_hosts n l best z : best_of n l best -> snd <$> best = Some z -> hosts l n z.
Proof.
  intros Hb Hz. destruct best as [[k z']|]; [|done]. injection Hz as ->.
  destruct Hb as (m & H1 & H2 & H3 & -> & H5). by exists m.
Qed.

Section events.
Context `{X : Ext} `{S : !ExtSpec X} `{XG : GcExt} (p : GoogleCloudDnsProvider).

(** Events that change no record: reads, and requests for a token. *)
Definition reading (Y : Type) (e : sysE Y) : Prop :=
  match e with
  | HttpSend req => method req = GET \/ exists assertion, req = token_request p assertion
  | _ => is_request e = false
  end.

Lemma signed_assertion_reads : emits reading (signed_assertion p) (fun _ => True).
Proof.
  apply emits_call; [done|]. intros now. apply emits_try_pure; [|done]. intros iat _. cbn zeta.
  do 2 (apply emits_try_pure; [|done]; intros ? _). cbn zeta. by apply emits_try_pure.
Qed.

Lemma exchange_token_reads : emits reading (exchange_token p) (fun _ => True).
Proof.
  apply emits_seq; [apply emits_bind, (emits_mono _ _ _ _ signed_assertion_reads); done|intros assertion|done].
  apply emits_seq; [apply emits_bind, emits_send; [by right; exists assertion|done|done]|intros resp|done].
  destruct (is_success (status resp)); [|done]. cbn [negb]. apply emits_try_pure; [|done]. intros b _. cbn zeta.
  apply emits_call; [done|]. intros now. destruct (instant_add _ _); [by apply emits_call|done].
Qed.

Lemma with_token_reads {A} (q : sys A) : emits reading q (fun _ => True) -> emits reading (with_token q) (fun _ => True).
Proof.
  intros Hq. apply emits_call; [done|]. intros _. apply emits_bind. eapply emits_mono; [exact Hq|].
  intros a _. by apply emits_call.
Qed.

Lemma access_token_reads : emits reading (access_token p) (fun _ => True).
Proof.
  apply with_token_reads, emits_call; [done|]. intros [[v t]|]; [|apply exchange_token_reads].
  apply emits_call; [done|]. intros now. destruct (_ <? _); [done|apply exchange_token_reads].
Qed.

Lemma forget_token_reads code : emits reading (forget_token_on_unauthorized code) (fun _ => True).
Proof. unfold forget_token_on_unauthorized. destruct (_ =? _); [|done]. apply with_token_reads. by split. Qed.
End events.

Section theory.
Context `{X : Ext} `{S : !ExtSpec X} `{XG : GcExt} {W : Type} (h : handler sysE W) (p : GoogleCloudDnsProvider).
Context (account : list ManagedZone) (recs : W -> string * string -> list string).
Context (change_of : W -> string * string -> option ((string * string) * list string)).
Context (applied : W -> string * string -> Prop) (Hapi : gc_api h p account recs change_of applied).

Lemma reading_same Y (e : sysE Y) w : reading p Y e -> same recs w (snd (h Y e w)).
Proof.
  destruct e; cbn; try (intros _; by apply (bg_quiet _ _ (gc_background _ _ _ _ _ _ Hapi))); try done.
  intros [Hm|[a ->]]; [by apply (bg_get _ _ (gc_background _ _ _ _ _ _ Hapi))|by apply (gc_token _ _ _ _ _ _ Hapi)].
Qed.

(** A read of the API, under an invariant of the reading events. *)
Lemma wp_gc_get (J : W -> Prop) path q (Q : fueled Response -> W -> Prop) w :
  (forall Y (e : sysE Y) v, reading p Y e -> J v -> J (snd (h Y e v))) -> J w ->
  (forall e v, J v -> Q (Err e) v) ->
  (forall req resp v v', J v -> h _ (HttpSend req) v = (Ok resp, v') -> method req = GET ->
     url req = url_of p path -> query req = q -> is_success (status resp) = true -> J v' -> Q (Ok resp) v') ->
  wp h (get p path q) Q w.
Proof.
  intros HJ Hw He Ho. apply wp_try.
  eapply wp_mono; [apply (wp_emits _ h J _ _ _ (access_token_reads p) HJ Hw)|].
  intros [t|e] w1 [_ H1]; [|by apply He].
  apply wp_try, wp_lifted. set (req := mkRequest _ _ _ _ _). apply (wp_send h J); [done| |].
  { intros v d Hv. by apply HJ. }
  intros v Hv. pose proof (HJ _ (HttpSend req) v (or_introl eq_refl) Hv) as Hv'.
  destruct (h _ (HttpSend req) v) as [r v'] eqn:E. cbn [snd] in Hv'. split; [|done].
  destruct r as [resp|e]; cbn [map_err lift]; [|by apply He].
  destruct (is_success (status resp)) eqn:Es; cbn [negb]; [by apply wp_ret, (Ho req resp v v')|].
  apply wp_bind. eapply wp_mono; [apply (wp_emits _ h J _ _ _ (forget_token_reads p _) HJ Hv')|].
  intros [] w2 [_ H2]. by apply wp_ret, He.
Qed.
Local Abbreviation vals := (view recs (map unquote) (fun k => k)).

Lemma gc_fetch z n w :
  wp h (fetch_rrset p z n) (fun r w' => same recs w w' /\
    forall o, r = Ok o -> values_of o = recs w (z, n) /\ forall j, o = Some j -> txt_named n j) w.
Proof.
  apply wp_try, (wp_gc_get (same recs w)).
  - intros Y e v He Hv. etrans; [exact Hv|by apply reading_same].
  - done.
  - done.
  - intros req resp v v' Hv Hr Hm Hu Hq Es Hv'. apply wp_try_pure; [|done]. intros l Hl%lift_ok. apply wp_ret.
    split; [done|]. intros o [= <-]. pose proof (find_found n l) as Hf. split.
    + assert (fst (h _ (HttpSend req) v) = Ok resp) as Hr' by by rewrite Hr.
      destruct (gc_list _ _ _ _ _ _ Hapi req v resp z n l Hr' Hm Hu Hq Es Hl) as [H1 H2]. rewrite (Hv (z, n)) in H1, H2.
      by apply (found_values n l).
    + intros j Hj. rewrite Hj in Hf. apply Hf.
Qed.

Section change.
Context (z n : string) (l : list string).

(** The change is known, and has set the record set; what its status says. *)
Definition tracked (w : W) (c : Change) (v : W) : Prop :=
  set_to recs (z, n) l w v /\ change_of v (z, ch_id c) = Some ((z, n), l) /\
  (ch_status c = "done"%string -> applied v (z, ch_id c)).

Lemma tracked_reading w c Y (e : sysE Y) v : reading p Y e -> tracked w c v -> tracked w c (snd (h Y e v)).
Proof.
  intros He%(fun H => reading_same Y e v H) (Hs & Hc & Ha). split_and!.
  - by rewrite <- He.
  - by apply (kept_change _ _ _ (gc_kept _ _ _ _ _ _ Hapi)).
  - intros Hd. by apply (kept_applied _ _ _ (gc_kept _ _ _ _ _ _ Hapi)), Ha.
Qed.

Lemma gc_fetch_change w c v :
  tracked w c v ->
  wp h (fetch_change p z c) (fun r v' =>
    match r with Ok c' => tracked w c' v' | Err _ => set_to recs (z, n) l w v' end) v.
Proof.
  intros Hv. apply wp_try, (wp_gc_get (tracked w c)).
  - intros Y e y He Hy. by apply tracked_reading.
  - done.
  - intros e y Hy. apply Hy.
  - intros req resp y y' Hy Hr Hm Hu Hq Es Hy'. apply wp_try_pure; [|intros e _; apply Hy'].
    intros c' Hc'%lift_ok. apply wp_ret. assert (fst (h _ (HttpSend req) y) = Ok resp) as Hr' by by rewrite Hr.
    destruct (gc_poll _ _ _ _ _ _ Hapi req y resp z (ch_id c) c' Hr' Hm Hu Es Hc') as [Ei Hd].
    destruct Hy' as (H1 & H2 & _). split_and!; [done|by rewrite Ei|]. rewrite Ei. intros Hs.
    specialize (Hd Hs). by rewrite Hr in Hd.
Qed.

Lemma gc_wait w c v :
  tracked w c v ->
  wp h (wait_for_change p z c) (fun r v' => set_to recs (z, n) l w v' /\ (r = Ok tt -> applied_set recs change_of applied (z, n) v')) v.
Proof.
  intros Hv. apply wp_bind, wp_vis, wp_ret. cbn zeta.
  apply (wp_wait_until h (tracked w)).
  - intros Y e y a He Hy. apply tracked_reading; [|done]. by destruct e.
  - intros a y r (H1 & H2 & H3) Ha. split; [done|]. intros Hr. exists (z, ch_id a).
    unfold settled in Ha. destruct (String.eqb_spec (ch_status a) "done") as [Ed|]; [|done].
    split; [|by apply H3]. by rewrite (proj1 H1).
  - intros a y o (H1 & _). by split.
  - intros a y Hy. eapply wp_mono; [by apply (gc_fetch_change w)|]. intros [a'|e] y' H; [done|by split].
  - by apply tracked_reading.
Qed.

Lemma gc_apply d a w :
  changes_set n a d -> added_values a = l ->
  wp h (apply_change p z d a) (fun r w' =>
    (same recs w w' \/ set_to recs (z, n) l w w') /\
    (r = Ok tt -> set_to recs (z, n) l w w' /\ applied_set recs change_of applied (z, n) w')) w.
Proof.
  intros Hset Hl. apply wp_try, wp_try.
  eapply wp_mono; [apply (wp_emits _ h (same recs w) _ _ _ (access_token_reads p))|].
  { intros Y e v He Hv. etrans; [exact Hv|by apply reading_same]. }
  { done. }
  intros [t|e] w1 [_ H1]; [|by split; [left|]].
  assert (forall v, let '(r, v') := h _ (HttpSend (change_request p z d a t)) v in
     (same recs v v' \/ set_to recs (z, n) l v v') /\
     forall resp c, r = Ok resp -> is_success (status resp) = true -> response_json de_Change resp = Ok c ->
       tracked v c v') as Hreq.
  { intros v. pose proof (gc_change _ _ _ _ _ _ Hapi (change_request p z d a t) z n a d eq_refl eq_refl eq_refl Hset v) as Hc.
    rewrite Hl in Hc. exact Hc. }
  apply wp_try, wp_lifted, (wp_write_answer h recs (gc_background _ _ _ _ _ _ Hapi) _ (set_to recs (z, n) l)
    (fun resp => is_success (status resp) = true /\ exists c, response_json de_Change resp = Ok c)
    (fun resp w' => forall c, response_json de_Change resp = Ok c ->
       change_of w' (z, ch_id c) = Some ((z, n), l) /\ (ch_status c = "done"%string -> applied w' (z, ch_id c))));
    [apply _|intros ???; apply set_to_trans| |].
  - intros v. specialize (Hreq v). destruct (h _ (HttpSend _) v) as [r v']. destruct Hreq as [Hd Ho].
    split; [done|]. intros resp Hr [Es [c Hc]]. split; [by eapply (Ho resp c)|]. intros c' Hc'.
    destruct (Ho resp c' Hr Es Hc') as (_ & ? & ?). done.
  - intros r w2 Hd Ho. rewrite <- H1 in Hd. destruct r as [resp|e]; cbn [lift map_err]; [|by split].
    destruct (is_success (status resp)) eqn:Es; cbn [negb].
    2: { apply wp_bind. eapply wp_mono;
           [apply (wp_emits _ h (fun v => same recs w v \/ set_to recs (z, n) l w v) _ _ _ (forget_token_reads p _))|].
         - intros Y e v He%(fun H => reading_same Y e v H) [Hv|Hv]; [left; by etrans|right; by rewrite <- He].
         - done.
         - intros [] w3 [_ H3]. by apply wp_ret. }
    destruct (response_json de_Change resp) as [c|e] eqn:Ec; [|by apply wp_ret].
    apply wp_ret. cbn [lift map_err].
    destruct (Ho resp eq_refl (conj Es (ex_intro _ c Ec))) as [He Hc]. rewrite <- H1 in He.
    specialize (Hc c Ec). eapply wp_mono; [apply (gc_wait w c w2); by split|].
    intros r w3 [H3 H4]. split; [by right|]. intros Hr. split; [done|by apply H4].
Qed.
End change.

Lemma gc_unquote s : unquote s = Txt.unquote s.
Proof. reflexivity. Qed.

Lemma gc_unquote_quoted v : unquote (quoted v) = v.
Proof. by rewrite gc_unquote, unquote_quoted. Qed.

Definition written (n : string) (existing : option Json) (l : list string) : option Rrset :=
  match l with [] => None | _ => Some (mkRrset n "TXT" (ttl_of (config p) existing) l) end.

Lemma gc_present_locked z n v w :
  to_ascii_lowercase n = n ->
  wp h (present_locked p z n v) (fun r w' =>
    added vals (z, n) v w r w' /\ (r = Ok tt -> same recs w w' \/ applied_set recs change_of applied (z, n) w')) w.
Proof.
  intros Hn. eapply wp_ext; [|apply (wp_change_present h recs change_of applied unquote gc_unquote_quoted (z, n)
    (fetch_rrset p z n) values_of (fun s => forall j, s = Some j -> txt_named n j) (fun existing l =>
    apply_change p z existing (Some (mkRrset n "TXT" (ttl_of (config p) existing) l)))); [apply gc_fetch|]].
  { unfold present_locked, has_value, rr_present, ptry. rewrite !run_bind. cbn zeta.
    destruct (run h (fetch_rrset p z n) w) as [[o|e] w1]; [|reflexivity].
    destruct (existsb _ (values_of o)); reflexivity. }
  intros s l w0 Hg. apply gc_apply; [|done]. split_and!; [by intros r [= <-]|done|by left|done].
Qed.

Lemma gc_cleanup_locked z n v w :
  to_ascii_lowercase n = n ->
  wp h (cleanup_locked p z n v) (fun r w' =>
    removed vals (z, n) v w r w' /\ (r = Ok tt -> same recs w w' \/ applied_set recs change_of applied (z, n) w')) w.
Proof.
  intros Hn. eapply wp_ext; [|apply (wp_change_cleanup h recs change_of applied unquote (z, n)
    (fetch_rrset p z n) values_of (fun s => forall j, s = Some j -> txt_named n j) (fun existing l =>
    match existing with
    | None => Ret (Err Exhausted)
    | Some _ => apply_change p z existing (written n existing l)
    end)); [apply gc_fetch|]].
  - unfold cleanup_locked, rr_cleanup, ptry. rewrite !run_bind.
    destruct (run h (fetch_rrset p z n) w) as [[[rrset|]|e] w1]; [|done..].
    cbn [values_of]. by destruct (_ =? _)%nat.
  - intros [j|] l w0 Hg.
    + apply gc_apply; [|by destruct l]. split_and!; [|done|by right|done]. intros r Hr. by destruct l; [|injection Hr as <-].
    + apply wp_ret. by split; [left|].
Qed.

Lemma absolute_lower f : to_ascii_lowercase (absolute f) = absolute f.
Proof. unfold absolute. by rewrite lower_append, lower_idem. Qed.

(** The record set of a call: that of the name, in the configured zone, or in
    the public zone of the account with the longest name it is in. *)
Definition gc_keys (f : string) (k : string * string) : Prop :=
  snd k = absolute f /\
  match managed_zone (config p) with
  | Some z => z = fst k
  | None => hosts account (absolute f) (fst k)
  end.

Lemma gc_zone_pages f n pages seen rest best t w :
  listed pages t rest -> account = seen ++ rest -> best_of (absolute f) seen best ->
  (forall req w resp t b,
      fst (h _ (HttpSend req) w) = Ok resp -> method req = GET -> url req = url_of p (zones_path p) ->
      query req = match t with Some t => [("pageToken"%string, t)] | None => [] end ->
      is_success (status resp) = true -> response_json de_ManagedZones resp = Ok b ->
      pages t = (managed_zones b, next_page_token b)) ->
  wp h (zone_pages p f n best t) (fun r w' => same recs w w' /\ forall z, r = Ok z -> hosts account (absolute f) z) w.
Proof.
  intros Hl Ha Hb Hpages. revert seen rest best t w Hl Ha Hb.
  induction n as [|n IH]; intros seen rest best t w Hl Ha Hb; cbn [zone_pages]; [by apply wp_ret|].
  cbn zeta. apply wp_try, (wp_gc_get (same recs w)).
  - intros Y e v He Hv. etrans; [exact Hv|by apply reading_same].
  - done.
  - done.
  - intros req resp v v' _ Hr Hm Hu Hq Es Hv'. apply wp_try_pure; [|done]. intros b Hbody%lift_ok. cbn zeta.
    assert (fst (h _ (HttpSend req) v) = Ok resp) as Hr' by by rewrite Hr.
    pose proof (Hpages req v resp t b Hr' Hm Hu Hq Es Hbody) as Hp.
    pose proof (best_of_page _ _ _ (managed_zones b) Hb) as Hb'.
    destruct (listed_page _ _ _ _ _ Hl Hp) as [Hend Hmore].
    assert (rest = managed_zones b -> forall z,
      lift (ok_or (snd <$> fold_left (better_zone (absolute f)) (managed_zones b) best) (ZoneNotFound f)) = Ok z ->
      hosts account (absolute f) z) as Hfin.
    { intros -> z Hz%lift_ok%ok_or_ok. rewrite Ha. by eapply best_of_hosts. }
    destruct (next_page_token b) as [t'|]; [|by apply wp_ret; split; [done|apply Hfin, Hend; left]].
    destruct (is_empty t') eqn:Ee; cbn [negb].
    { apply wp_ret. split; [done|]. apply Hfin, Hend. right. by destruct t'. }
    destruct (Hmore t' eq_refl) as (l' & -> & Hl'); [by destruct t'|].
    eapply wp_mono; [eapply (IH (seen ++ managed_zones b)); [exact Hl'|by rewrite <- app_assoc|exact Hb']|].
    intros r w' [H Hz]. split; [by rewrite Hv'|done].
Qed.

Lemma gc_resolve f w :
  wp h (resolve_zone p f) (fun r w' =>
    same recs w w' /\ forall z, r = Ok z -> gc_keys f (z, absolute f)) w.
Proof.
  unfold resolve_zone, gc_keys. cbn [fst snd]. destruct (managed_zone (config p)) as [z|].
  - apply wp_ret. split; [done|]. by intros z' [= <-].
  - destruct (gc_zones _ _ _ _ _ _ Hapi) as (pages & Hl & Hpages).
    eapply wp_mono; [apply (gc_zone_pages f MAX_PAGES pages [] account); [done|done|by intros m ?%elem_of_nil|done]|].
    intros r w' [H Hz]. split; [done|]. intros z Hr. split; [done|by apply Hz].
Qed.

Lemma gc_present f v w :
  wp h (present p f v) (fun r w' => touches recs (gc_keys f) (change_call recs change_of applied (added vals)) v w r w') w.
Proof.
  do 2 (apply wp_try_pure; [intros ? _|by intros; left]). cbn zeta.
  apply (wp_change_call h recs change_of applied (gc_kept _ _ _ _ _ _ Hapi) (gc_background _ _ _ _ _ _ Hapi)
    (added vals) (gc_keys f) (fun z => (z, absolute f)) (resolve_zone p f) (fun z => z +:+ "|" +:+ absolute f)).
  - intros k r w1 w2 w3 w4 H12 H34. by apply added_proper; [symmetry; apply same_view|done|symmetry; apply same_view].
  - apply gc_resolve.
  - intros z w0 _. apply gc_present_locked, absolute_lower.
Qed.

Lemma gc_cleanup f v w :
  wp h (cleanup p f v) (fun r w' => touches recs (gc_keys f) (change_call recs change_of applied (removed vals)) v w r w') w.
Proof.
  apply wp_try_pure; [intros ? _|by intros; left]. cbn zeta.
  apply (wp_change_call h recs change_of applied (gc_kept _ _ _ _ _ _ Hapi) (gc_background _ _ _ _ _ _ Hapi)
    (removed vals) (gc_keys f) (fun z => (z, absolute f)) (resolve_zone p f) (fun z => z +:+ "|" +:+ absolute f)).
  - intros k r w1 w2 w3 w4 H12 H34. by apply removed_proper; [symmetry; apply same_view|done|symmetry; apply same_view].
  - apply gc_resolve.
  - intros z w0 _. apply gc_cleanup_locked, absolute_lower.
Qed.
End theory.

(** ** Changes are exact

    What is asked of the server, whatever it answers. *)

Section exact.
Context `{X : Ext} `{S : !ExtSpec X} `{XG : GcExt} (p : GoogleCloudDnsProvider).

(** Among the events, a read of the TXT record set [n] of the zone [z] that was
    answered with [existing], or with no such set. *)
Definition was_read (z n : string) (existing : option Json) (t : list (event sysE)) : Prop :=
  exists req resp l,
    Ev (HttpSend req) (Ok resp) ∈ t /\ method req = GET /\ url req = url_of p (rrsets_path p z) /\
    query req = rrset_query n /\ is_success (status resp) = true /\ response_json de_RrsetList resp = Ok l /\
    found_in n l existing.

(** A change of the zone [z] that deletes [existing], nothing when there is no
    such set, and adds the record sets [adds]. *)
Definition replaces (z : string) (existing : option Json) (adds : list Rrset) (req : Request) : Prop :=
  method req = POST /\ url req = url_of p (changes_path p z) /\
  body req = Some (ser_ChangeRequest adds match existing with Some j => [j] | None => [] end).

(** The data and the TTL of a set as it was read. *)
Definition kept_from (existing : option Json) (data : list string) (t : Z) : Prop :=
  match existing with
  | Some j =>
      (forall d, has_data d j -> data = d) /\
      (forall n, index j "ttl" = JNum n -> 0 <= n < 2 ^ 64 -> t = n)
  | None => data = [] /\ t = ttl (config p)
  end.

(** The change of [present]: the set as it was read before, which does not
    hold the value, is replaced by the same data and the value, with the same
    TTL. *)
Definition adds_exactly (f v : string) (before : list (event sysE)) (req : Request) : Prop :=
  exists z existing data t,
    was_read z (absolute f) existing before /\ kept_from existing data t /\
    (forall x, x ∈ data -> unquote x <> v) /\
    replaces z existing [mkRrset (absolute f) "TXT" t (data ++ [quoted v])] req.

(** The change of [cleanup]: the set as it was read before, which holds the
    value, is replaced by the rest of its data, with the same TTL, or deleted
    when nothing is left. *)
Definition removes_exactly (f v : string) (before : list (event sysE)) (req : Request) : Prop :=
  exists z j data t rest,
    was_read z (absolute f) (Some j) before /\ kept_from (Some j) data t /\
    (exists x, x ∈ data /\ unquote x = v) /\
    rest = List.filter (fun x => negb (unquote x =? v)%string) data /\
    replaces z (Some j) match rest with [] => [] | _ => [mkRrset (absolute f) "TXT" t rest] end req.

(** Every request is a read, a request for a token, or one that [exact] allows
    after the events before it. *)
Definition ordered (exact : list (event sysE) -> Request -> Prop) (t : list (event sysE)) : Prop :=
  forall before req x after, t = before ++ Ev (HttpSend req) x :: after ->
    reading p _ (HttpSend req) \/ exact before req.

(** The events of a call that asks for no change but [exact] ones. *)
Definition asks (exact : Request -> Prop) (Y : Type) (e : sysE Y) : Prop :=
  match e with
  | HttpSend req => reading p _ (HttpSend req) \/ exact req
  | _ => is_request e = false
  end.

Lemma reading_asks exact Y (e : sysE Y) : reading p Y e -> asks exact Y e.
Proof. destruct e; cbn; auto. Qed.

Lemma ordered_nil exact : ordered exact [].
Proof. intros [|? ?] req x after; done. Qed.

Lemma ordered_snoc exact t Y (e : sysE Y) x :
  ordered exact t -> asks (exact t) Y e -> ordered exact (t ++ [Ev e x]).
Proof.
  intros Ht He before req y after Heq. destruct after as [|a after _] using rev_ind.
  - apply app_inj_tail in Heq as [-> Hev].
    change (match Ev (HttpSend req) y with @Ev _ Z g _ => asks (exact before) Z g end). by rewrite <- Hev.
  - rewrite app_comm_cons, app_assoc in Heq. apply app_inj_tail in Heq as [-> _]. by eapply Ht.
Qed.

Lemma was_read_app z n o t t' : was_read z n o t -> was_read z n o (t ++ t').
Proof.
  intros (req & resp & l & Hin & H). exists req, resp, l. split; [|done]. apply elem_of_app. by left.
Qed.

Lemma ttl_of_kept existing : kept_from existing (values_of existing) (ttl_of (config p) existing).
Proof.
  destruct existing as [j|]; [|done]. split; cbn.
  - intros d Hd. by apply rrdatas_data.
  - intros n -> Hn. unfold as_u64, de_u64, de_int.
    destruct (Z.leb_spec 0 n), (Z.leb_spec n (2 ^ 64 - 1)); try lia. done.
Qed.

Lemma get_reads path q (Q : fueled Response -> Prop) : (forall r, Q r) -> emits (reading p) (get p path q) Q.
Proof.
  intros HQ. apply emits_seq; [apply access_token_reads|intros t|by intros; apply HQ].
  apply emits_seq; [by apply emits_bind, emits_send; [left|done|done]|intros resp|by intros; apply HQ].
  destruct (is_success (status resp)); [apply HQ|]. cbn [negb]. apply emits_bind.
  eapply emits_mono; [apply forget_token_reads|]. intros _ _. apply HQ.
Qed.

Lemma zone_pages_reads f pages best t : emits (reading p) (zone_pages p f pages best t) (fun _ => True).
Proof.
  revert best t. induction pages as [|pages IH]; intros best t; [done|]. cbn [zone_pages]. cbn zeta.
  apply emits_seq; [by apply get_reads|intros resp|done]. apply emits_try_pure; [|done]. intros b _. cbn zeta.
  destruct (next_page_token b) as [t'|]; [|done]. destruct (is_empty t'); [done|apply IH].
Qed.

Lemma resolve_zone_reads f : emits (reading p) (resolve_zone p f) (fun _ => True).
Proof. unfold resolve_zone. destruct (managed_zone (config p)); [done|apply zone_pages_reads]. Qed.

Lemma apply_change_asks exact z d a :
  (forall token, exact (change_request p z d a token)) ->
  emits (asks exact) (apply_change p z d a) (fun _ => True).
Proof.
  intros Hx. apply emits_seq; [|intros c|done].
  - apply emits_seq; [|intros t|done].
    { eapply emits_impl; [apply reading_asks|apply access_token_reads]. }
    apply emits_seq; [by apply emits_bind, emits_send; [right; apply Hx|done|done]|intros resp|done].
    destruct (is_success (status resp)); cbn [negb]; [by apply emits_try_pure|].
    apply emits_bind. eapply emits_mono; [eapply emits_impl; [apply reading_asks|apply forget_token_reads]|]. done.
  - apply emits_call; [done|]. intros now. cbn zeta. apply wait_until_emits; [done|done|]. intros c'.
    eapply emits_impl; [apply reading_asks|]. apply emits_seq; [by apply get_reads|intros resp|done].
    by apply emits_try_pure.
Qed.

(** *** The recorded run *)

Section recording.
Context {W : Type} (h : handler sysE W) (exact : list (event sysE) -> Request -> Prop).
Local Abbreviation in_order := (fun v : W * list (event sysE) => ordered exact (snd v)).

Lemma in_order_reading Y (e : sysE Y) v : reading p Y e -> in_order v -> in_order (snd (recorded h Y e v)).
Proof. intros He Hv. rewrite recorded_snd. apply ordered_snoc; [done|by apply reading_asks]. Qed.

Lemma locked_in_order key (q : sys (fueled unit)) v :
  in_order v -> (forall v', in_order v' -> wp (recorded h) q (fun _ => in_order) v') ->
  wp (recorded h) (with_lock key q) (fun _ => in_order) v.
Proof.
  intros Hv Hq. apply wp_with_lock. eapply wp_mono; [by apply Hq, in_order_reading|].
  intros r v' Hv'. by apply in_order_reading.
Qed.

Lemma resolve_in_order f (k : string -> sys (fueled unit)) v :
  in_order v -> (forall z v', in_order v' -> wp (recorded h) (k z) (fun _ => in_order) v') ->
  wp (recorded h) (await? z := resolve_zone p f in k z) (fun _ => in_order) v.
Proof.
  intros Hv Hk. apply wp_try. eapply wp_mono; [apply (wp_emits _ _ in_order _ _ _ (resolve_zone_reads f))|].
  - apply in_order_reading.
  - done.
  - intros [z|s] v' [_ Hv']; [by apply Hk|done].
Qed.

Lemma fetch_in_order z n (k : option Json -> sys (fueled unit)) v :
  in_order v ->
  (forall o v', in_order v' -> was_read z n o (snd v') -> wp (recorded h) (k o) (fun _ => in_order) v') ->
  wp (recorded h) (await? o := fetch_rrset p z n in k o) (fun _ => in_order) v.
Proof.
  intros Hv Hk. apply wp_try, wp_try, (wp_gc_get (recorded h) p in_order).
  - apply in_order_reading.
  - done.
  - done.
  - intros req resp y y' Hy Hr Hm Hu Hq Es Hy'. apply wp_try_pure; [|done]. intros l Hl%lift_ok. apply wp_ret.
    apply Hk; [done|]. exists req, resp, l. split_and!; try done; [|apply find_found].
    unfold recorded in Hr. destruct (h _ (HttpSend req) (fst y)) as [r w']. injection Hr as -> <-.
    cbn [snd]. apply elem_of_app. right. by apply list_elem_of_singleton.
Qed.

Lemma change_in_order z n d a o v :
  in_order v -> was_read z n o (snd v) ->
  (forall token t, was_read z n o t -> exact t (change_request p z d a token)) ->
  wp (recorded h) (apply_change p z d a) (fun _ => in_order) v.
Proof.
  intros Hv Hr Hx. eapply wp_mono.
  - apply (wp_emits (asks (fun req => forall t, was_read z n o t -> exact t req)) _
      (fun v => in_order v /\ was_read z n o (snd v)) _ (fun _ => True)); [|clear v Hv Hr|done].
    + apply apply_change_asks. intros token t. apply Hx.
    + intros Y e v He [Hv Hr]. rewrite recorded_snd. cbn [snd]. split; [|by apply was_read_app].
      apply ordered_snoc; [done|]. destruct e; try done. destruct He as [He|He]; [by left|right; by apply He].
  - by intros r v' [_ [H _]].
Qed.
End recording.

Lemma has_value_spec l v : has_value l v = true <-> exists x, x ∈ l /\ unquote x = v.
Proof.
  unfold has_value. rewrite existsb_exists. setoid_rewrite String.eqb_eq. by setoid_rewrite <- list_elem_of_In.
Qed.

Lemma present_ordered {W} (h : handler sysE W) f v w :
  ordered (adds_exactly f v) (trace h (present p f v) w).
Proof.
  apply (recorded_trace h _ (fun _ y => ordered (adds_exactly f v) (snd y))).
  do 2 (apply wp_try_pure; [intros _ _|by intros; apply ordered_nil]).
  apply resolve_in_order; [apply ordered_nil|]. intros z v1 H1. cbn zeta.
  apply locked_in_order; [done|]. intros v2 H2. apply fetch_in_order; [done|]. intros o v3 H3 Hr. cbn zeta.
  destruct (has_value (values_of o) v) eqn:E; [by apply wp_ret|].
  apply (change_in_order h _ z (absolute f) o _ o); [done..|]. intros token t Ht.
  exists z, o, (values_of o), (ttl_of (config p) o). split_and!; [done|apply ttl_of_kept| |].
  - intros x Hx Hv. assert (has_value (values_of o) v = true) by (apply has_value_spec; eauto). congruence.
  - split_and!; [done..|]. by destruct o.
Qed.

Lemma filtered_value v l :
  (length (List.filter (fun x => negb (unquote x =? v)%string) l) =? length l)%nat = negb (has_value l v).
Proof. apply filter_length_existsb. Qed.

Lemma cleanup_ordered {W} (h : handler sysE W) f v w :
  ordered (removes_exactly f v) (trace h (cleanup p f v) w).
Proof.
  apply (recorded_trace h _ (fun _ y => ordered (removes_exactly f v) (snd y))).
  apply wp_try_pure; [intros _ _|by intros; apply ordered_nil].
  apply resolve_in_order; [apply ordered_nil|]. intros z v1 H1. cbn zeta.
  apply locked_in_order; [done|]. intros v2 H2. apply fetch_in_order; [done|]. intros [j|] v3 H3 Hr; [|by apply wp_ret].
  cbn zeta. rewrite filtered_value. destruct (has_value (rrdatas j) v) eqn:E; [|by apply wp_ret]. cbn [negb].
  apply (change_in_order h _ z (absolute f) (Some j) _ (Some j)); [done..|]. intros token t Ht.
  exists z, j, (rrdatas j), (ttl_of (config p) (Some j)). eexists.
  split; [done|]. split; [apply (ttl_of_kept (Some j))|]. split_and!; [by apply has_value_spec|done|].
  split_and!; [done..|]. by destruct (List.filter _ _).
Qed.
End exact.

(** ** Termination *)

Section termination.
Context `{X : Ext} `{XG : GcExt} {W : Type} (h : handler sysE W) (clock : W -> Z) (Hc : steady_clock h clock).
Context (p : GoogleCloudDnsProvider).
Local Abbreviation stops := (fun r (_ : W) => ends (fun s => s = Panicked) r).

Lemma exchange_token_ends w : wp h (exchange_token p) stops w.
Proof.
  do 2 (apply (wp_ends_try h clock Hc); intros ? ? _). destruct (is_success _); [|apply wp_ret, raised_ends].
  cbn [negb]. apply (wp_ends_pure h). intros b. cbn zeta. apply wp_bind, wp_vis, wp_ret.
  destruct (instant_add _ _); [apply wp_bind, wp_vis, wp_ret, wp_ret, ok_ends|]. apply wp_ret. intros s [= <-]. by right.
Qed.

Lemma access_token_ends w : wp h (access_token p) stops w.
Proof.
  apply wp_bind, wp_vis, wp_ret, wp_bind, wp_bind, wp_vis, wp_ret.
  assert (forall w', wp h (exchange_token p) (fun r w'' => wp h (let* _ := call TokenUnlock in Ret r) stops w'') w') as Hx.
  { intros w'. eapply wp_mono; [apply exchange_token_ends|]. intros r w'' Hr. by apply wp_bind, wp_vis, wp_ret, wp_ret. }
  destruct (fst (h _ TokenGet _)) as [[value t]|]; [|apply Hx].
  apply wp_bind, wp_vis, wp_ret. destruct (_ <? _); [|apply Hx].
  by apply wp_ret, wp_bind, wp_vis, wp_ret, wp_ret, ok_ends.
Qed.

Lemma get_ends path q w : wp h (get p path q) stops w.
Proof.
  apply (wp_ends_bind h clock Hc); [apply access_token_ends|]. intros token w1 _.
  apply (wp_ends_try h clock Hc). intros resp w2 _. destruct (is_success _); [apply wp_ret, ok_ends|]. cbn [negb].
  apply wp_bind. eapply wp_mono; [apply (run_clock h clock Hc)|]. intros u w3 _. apply wp_ret, raised_ends.
Qed.

(** A read, and what is made of its answer. *)
Lemma get_then_ends {A B} path q (dec : Response -> dns_result A) (k : A -> sys (fueled B)) w :
  (forall a w', wp h (k a) stops w') ->
  wp h (await? resp := get p path q in try? a := lift (dec resp) in k a) stops w.
Proof.
  intros Hk. apply (wp_ends_bind h clock Hc); [apply get_ends|]. intros resp w1 _. by apply (wp_ends_pure h).
Qed.

Lemma zone_pages_ends f pages best t w : wp h (zone_pages p f pages best t) stops w.
Proof.
  revert best t w. induction pages as [|pages IH]; intros best t w; [apply wp_ret, raised_ends|].
  apply get_then_ends. intros b w1. cbn zeta. destruct (next_page_token b) as [t'|]; [|apply wp_ret, lift_ends].
  destruct (negb _); [apply IH|apply wp_ret, lift_ends].
Qed.

Lemma resolve_zone_ends f w : wp h (resolve_zone p f) stops w.
Proof. unfold resolve_zone. destruct (managed_zone (config p)); [apply wp_ret, ok_ends|apply zone_pages_ends]. Qed.

Lemma fetch_rrset_ends z n w : wp h (fetch_rrset p z n) stops w.
Proof. apply get_then_ends. intros l w1. apply wp_ret, ok_ends. Qed.

Lemma apply_change_ends z d a w : wp h (apply_change p z d a) stops w.
Proof.
  apply (wp_ends_bind h clock Hc).
  - apply (wp_ends_bind h clock Hc); [apply access_token_ends|]. intros token w1 _.
    apply (wp_ends_try h clock Hc). intros resp w2 _. destruct (is_success _); [apply (wp_ends_pure h); intros c; apply wp_ret, ok_ends|]. cbn [negb].
    apply wp_bind. eapply wp_mono; [apply (run_clock h clock Hc)|]. intros u w3 _. apply wp_ret, raised_ends.
  - intros c w1 _. apply (waiting_ends h clock Hc); [|done..]. intros c' w2. apply get_then_ends. intros c2 w3. apply wp_ret, ok_ends.
Qed.

Lemma gc_present_ends f v w : wp h (present p f v) stops w.
Proof.
  do 2 (apply (wp_ends_pure h); intros _). apply (wp_ends_bind h clock Hc); [apply resolve_zone_ends|]. intros z w1 _.
  cbn zeta. apply wp_with_lock, (wp_ends_bind h clock Hc); [apply fetch_rrset_ends|]. intros o w2 _. cbn zeta.
  destruct (has_value _ _); [apply wp_ret, ok_ends|apply apply_change_ends].
Qed.

Lemma gc_cleanup_ends f v w : wp h (cleanup p f v) stops w.
Proof.
  apply (wp_ends_pure h); intros _. apply (wp_ends_bind h clock Hc); [apply resolve_zone_ends|]. intros z w1 _.
  cbn zeta. apply wp_with_lock, (wp_ends_bind h clock Hc); [apply fetch_rrset_ends|]. intros [j|] w2 _; [|apply wp_ret, ok_ends].
  cbn zeta. destruct (_ =? _)%nat; [apply wp_ret, ok_ends|apply apply_change_ends].
Qed.
End termination.

(** ** Panics

    A call panics only when the lifetime of a token takes the clock past the
    largest [Instant]. *)

Section panics.
Context `{X : Ext} `{S : !ExtSpec X} `{XG : GcExt} {W : Type} (h : handler sysE W) (p : GoogleCloudDnsProvider).

(** Among the events, a token and a reading of the clock whose sum is no
    [Instant]. *)
Definition overflowed (t : list (event sysE)) : Prop :=
  exists assertion resp token now,
    Ev (HttpSend (token_request p assertion)) (Ok resp) ∈ t /\ is_success (status resp) = true /\
    response_json de_TokenResponse resp = Ok token /\ Ev Now now ∈ t /\
    from_secs (2 ^ 63) <= now + Z.max 0 (from_secs (default 3600 (expires_in token) - 60)).

Lemma overflowed_app t t' : overflowed t -> overflowed (t ++ t').
Proof.
  intros (a & r & b & n & H1 & H2 & H3 & H4 & H5). exists a, r, b, n. split_and!; [|done..| |done];
    apply elem_of_app; by left.
Qed.

(** A program that panics for no other reason. *)
Definition excused {A} (q : sys (fueled A)) : Prop :=
  forall v, wp (recorded h) q (fun r v' => r = Err Panicked -> overflowed (snd v')) v.

Lemma excused_ret {A} (r : fueled A) : r <> Err Panicked -> excused (Ret r).
Proof. intros Hr v. by apply wp_ret. Qed.

Lemma excused_lift {A} (r : dns_result A) : excused (Ret (lift r)).
Proof. apply excused_ret. by destruct r. Qed.

Lemma excused_try {A B} (q : sys (fueled A)) (k : A -> sys (fueled B)) :
  excused q -> (forall a, excused (k a)) -> excused (ptry q k).
Proof.
  intros Hq Hk v. apply wp_try. eapply wp_mono; [apply Hq|]. intros [a|s] v' Hr; [by apply Hk|].
  intros [= ->]. by apply Hr.
Qed.

Lemma excused_lifted {A} (q : sys (dns_result A)) : excused (lifted q).
Proof.
  intros v. apply wp_bind. eapply wp_mono; [apply (wp_inv _ (fun _ => True)); done|]. intros r v' _.
  by destruct r; apply wp_ret.
Qed.

Lemma excused_pure {A B} (r : dns_result A) (k : A -> sys (fueled B)) :
  (forall a, excused (k a)) -> excused (ptry_pure (lift r) k).
Proof. intros Hk. destruct r as [a|e]; [apply Hk|]. by apply excused_ret. Qed.

Lemma excused_after {A B} (q : sys A) (k : A -> sys (fueled B)) : (forall a, excused (k a)) -> excused (pbind q k).
Proof.
  intros Hk v. apply wp_bind. eapply wp_mono; [apply (wp_inv _ (fun _ => True)); done|]. intros a v' _. apply Hk.
Qed.

(** What follows an unwinding, the release of a lock, changes nothing. *)
Lemma excused_then {A} (q : sys (fueled A)) (e : sysE unit) : excused q -> excused (let* a := q in let* _ := call e in Ret a).
Proof.
  intros Hq v. apply wp_bind. eapply wp_mono; [apply Hq|]. intros a v' Ha.
  apply wp_bind, wp_vis, wp_ret, wp_ret. intros Hp%Ha. rewrite recorded_snd. by apply overflowed_app.
Qed.

Lemma excused_locked {A} key (q : sys (fueled A)) : excused q -> excused (with_lock key q).
Proof. intros Hq. apply excused_after. intros _. by apply excused_then. Qed.

Lemma excused_token {A} (q : sys (fueled A)) : excused q -> excused (with_token q).
Proof. intros Hq. apply excused_after. intros _. by apply excused_then. Qed.

Lemma excused_wait {A} st lt (fetch : A -> sys (fueled A)) i fuel d a :
  (forall a, excused (fetch a)) -> excused (wait_until st lt fetch i fuel d a).
Proof.
  intros Hf. revert a. induction fuel as [|fuel IH]; intros a; [by apply excused_ret|]. cbn [wait_until].
  destruct (st a) as [r|]; [apply excused_lift|]. apply excused_after. intros now.
  destruct (_ <? _); [by apply excused_ret|]. apply excused_after. intros _. by apply excused_try.
Qed.

Create HintDb excused.
#[local] Hint Resolve excused_lift excused_lifted excused_locked excused_token excused_wait : excused.
#[local] Hint Extern 1 (excused (Ret _)) => (apply excused_ret; congruence) : excused.
#[local] Hint Extern 2 (excused (ptry _ _)) => (apply excused_try; [|intros ?]) : excused.
#[local] Hint Extern 2 (excused (ptry_pure _ _)) => (apply excused_pure; intros ?; cbv zeta) : excused.
#[local] Hint Extern 2 (excused (pbind _ _)) => (apply excused_after; intros ?; cbv zeta) : excused.
#[local] Hint Extern 3 (excused (if ?b then _ else _)) => destruct b : excused.
#[local] Hint Extern 3 (excused (match ?o with Some _ => _ | None => _ end)) => destruct o : excused.

(** The one place where the code panics. *)
Lemma exchange_token_excused : excused (exchange_token p).
Proof.
  apply excused_try; [apply excused_lifted|]. intros assertion v.
  apply wp_try, wp_lifted, (wp_send _ (fun _ => True)); [done|done|]. intros v0 _.
  destruct (recorded h _ (HttpSend _) v0) as [r v1] eqn:Er. split; [|done].
  destruct r as [resp|e]; cbn [map_err lift]; [|done].
  destruct (is_success (status resp)) eqn:Es; cbn [negb]; [|by apply wp_ret].
  apply wp_try_pure; [intros b Hb%lift_ok|intros s Hs [= ->]; by destruct (response_json _ resp)]. cbn zeta.
  apply wp_bind, wp_vis, wp_ret. destruct (recorded h _ Now v1) as [now v2] eqn:En. cbn [fst snd].
  destruct (instant_add _ _) eqn:Ea; [by apply wp_bind, wp_vis, wp_ret, wp_ret|]. apply wp_ret. intros _.
  unfold recorded in Er, En. destruct (h _ (HttpSend _) (fst v0)) as [r0 w0]. injection Er as -> <-. cbn [fst snd] in En.
  destruct (h _ Now w0) as [now0 w1]. injection En as -> <-. cbn [snd].
  exists assertion, resp, b, now. split_and!; [|done|done| |].
  - apply elem_of_app. left. apply elem_of_app. right. by apply list_elem_of_singleton.
  - apply elem_of_app. right. by apply list_elem_of_singleton.
  - unfold instant_add, INSTANT_LIMIT, TOKEN_REFRESH_MARGIN, from_secs in *. case_match eqn:El; [done|].
    apply Z.ltb_ge in El. rewrite Z.mul_sub_distr_r. exact El.
Qed.

Lemma access_token_excused : excused (access_token p).
Proof.
  pose proof exchange_token_excused. apply excused_token, excused_after. intros [[value t]|]; [|done].
  apply excused_after. intros now. destruct (_ <? _); [by apply excused_ret|done].
Qed.

Lemma get_excused path q : excused (get p path q).
Proof. pose proof access_token_excused. unfold get. auto 10 with excused. Qed.
#[local] Hint Resolve get_excused access_token_excused : excused.

Lemma resolve_zone_excused f : excused (resolve_zone p f).
Proof.
  unfold resolve_zone. destruct (managed_zone (config p)); [by apply excused_ret|].
  generalize (@None (Z * string)) (@None string). induction MAX_PAGES as [|n IH]; intros best t; [by apply excused_ret|].
  cbn [zone_pages]. auto 10 with excused.
Qed.

Lemma apply_change_excused z d a : excused (apply_change p z d a).
Proof. unfold apply_change, post_change, wait_for_change, fetch_change. auto 15 with excused. Qed.
#[local] Hint Resolve resolve_zone_excused apply_change_excused : excused.

Lemma present_excused f v : excused (present p f v).
Proof. unfold present, present_locked, fetch_rrset. auto 15 with excused. Qed.

Lemma cleanup_excused f v : excused (cleanup p f v).
Proof. unfold cleanup, cleanup_locked, fetch_rrset. auto 15 with excused. Qed.

(** Of a run. *)
Lemma excused_run {A} (q : sys (fueled A)) w :
  excused q -> fst (run h q w) = Err Panicked -> overflowed (trace h q w).
Proof. intros Hq. exact (recorded_trace h q _ w (Hq (w, []))). Qed.
End panics.

(** ** A server, with the managed zone [zone-1]

    The zones of the account are on two pages; a private one has the same name.

    It accepts a change when the set it deletes is the one there is, and has
    applied it when it is asked about it. *)

Definition ref_gc : GcExt := {|
  json_of_text := fun _ => Err EmptyString;
  key_error := fun _ => EmptyString;
  to_vec := fun _ => Ok EmptyString;
  base64url := fun s => s;
  pkcs8_of_pem := Some;
  rsa_of_pkcs8 := fun _ => Ok tt;
  rsa_sign := fun _ s => Some s
|}.

Definition gc_demo : GoogleCloudDnsProvider :=
  mkGoogleCloudDnsProvider
    (mkGoogleCloudDnsConfig "me" "key" None "https://gc.test/token" "p" "https://gc.test/v1"
       None 60 HTTP_TIMEOUT) "key".

Definition gc_demo_zone : string := "https://gc.test/v1/projects/p/managedZones/zone-1/".

Definition gc_demo_page (t : option string) : list ManagedZone * option string :=
  match t with
  | None => ([mkManagedZone "zone-p" "Example.com." (Some "private"); mkManagedZone "zone-0" "com." None]%string,
             Some "2"%string)
  | Some _ => ([mkManagedZone "zone-1" "Example.com." (Some "public")]%string, None)
  end.

Definition gc_account : list ManagedZone := fst (gc_demo_page None) ++ fst (gc_demo_page (Some "2"%string)).

Definition ser_zone (m : ManagedZone) : Json :=
  JObj ([("name", JStr (mz_name m)); ("dnsName", JStr (dns_name m))]%string
        ++ match visibility m with Some v => [("visibility"%string, JStr v)] | None => [] end).

Definition gc_demo_zones (q : list (string * string)) : Response :=
  let '(l, next) := gc_demo_page (snd <$> head q) in
  reply 200 (JObj [("managedZones"%string, JArr (map ser_zone l));
                   ("nextPageToken"%string, match next with Some t => JStr t | None => JNull end)]).

Record GcState : Type := mkGc {
  gs_sets : string -> list string;
  gs_changes : gmap string ((string * list string) * bool)
}.

Definition gc_recs (w : GcState * Z) (k : string * string) : list string :=
  if decide (fst k = "zone-1"%string) then gs_sets (fst w) (snd k) else [].

Definition gc_change_of (w : GcState * Z) (i : string * string) : option ((string * string) * list string) :=
  if decide (fst i = "zone-1"%string)
  then (fun c => (("zone-1"%string, fst (fst c)), snd (fst c))) <$> gs_changes (fst w) !! snd i
  else None.

Definition gc_applied (w : GcState * Z) (i : string * string) : Prop :=
  fst i = "zone-1"%string /\ exists c, gs_changes (fst w) !! snd i = Some (c, true).

Definition gc_set_json (n : string) (l : list string) : Json :=
  ser_Rrset (mkRrset n "TXT" 60 l).

(** An address of the name, which is in its listing too. *)
Definition gc_address (n : string) : Json :=
  JObj [("name", JStr n); ("type", JStr "A"); ("ttl", JNum 300); ("rrdatas", JArr [JStr "192.0.2.1"])].

Definition gc_listing (n : string) (l : list string) : list Json :=
  gc_address n :: match l with [] => [] | _ => [gc_set_json n l] end.

(** The name and the values of a change. *)
Definition gc_asked (additions deletions : list Json) : option (string * list string) :=
  match additions, deletions with
  | [j], _ => n ← as_str (index j "name"); Some (n, rrdatas j)
  | [], [j] => n ← as_str (index j "name"); Some (to_ascii_lowercase n, [])
  | _, _ => None
  end.

Definition gc_deleted (deletions : list Json) : list string :=
  match deletions with [j] => rrdatas j | _ => [] end.

Definition ser_Change (id st : string) : Json := JObj [("id", JStr id); ("status", JStr st)]%string.

Definition gc_demo_get (rest : string) (q : list (string * string)) (s : GcState) : Response * GcState :=
  if (rest =? "rrsets")%string then
    match q with
    | [(_, n); _] =>
        (reply 200 (JObj [("rrsets"%string, JArr (gc_listing n (gs_sets s n)))]), s)
    | _ => (reply_empty 400, s)
    end
  else
    match strip_prefix "changes/" rest ≫= percent_decode with
    | Some id =>
        match gs_changes s !! id with
        | Some (c, _) => (reply 200 (ser_Change id "done"), mkGc (gs_sets s) (<[id := (c, true)]> (gs_changes s)))
        | None => (reply_empty 404, s)
        end
    | None => (reply_empty 404, s)
    end.

Definition gc_demo_post (b : option Json) (s : GcState) : Response * GcState :=
  match b with
  | Some (JObj [(_, JArr adds); (_, JArr dels)]) =>
      match gc_asked adds dels with
      | Some (n, l) =>
          if decide (gs_sets s n = gc_deleted dels) then
            let id := fresh (dom (gs_changes s) : gset string) in
            (reply 200 (ser_Change id "pending"),
             mkGc (put n l (gs_sets s)) (<[id := ((n, l), false)]> (gs_changes s)))
          else (reply_empty 412, s)
      | None => (reply_empty 400, s)
      end
  | _ => (reply_empty 400, s)
  end.

Definition gc_http (req : Request) (s : GcState) : result Response ReqwestError * GcState :=
  if (url req =? "https://gc.test/token")%string then
    (Ok (reply 200 (JObj [("access_token"%string, JStr "tok")])), s)
  else if (url req =? "https://gc.test/v1/projects/p/managedZones")%string then
    (Ok (gc_demo_zones (query req)), s)
  else
    match strip_prefix gc_demo_zone (url req), method req with
    | Some rest, GET => let '(r, s') := gc_demo_get rest (query req) s in (Ok r, s')
    | Some rest, POST =>
        if (rest =? "changes")%string then let '(r, s') := gc_demo_post (body req) s in (Ok r, s')
        else (Ok (reply_empty 404), s)
    | _, _ => (Ok (reply_empty 404), s)
    end.

Definition gc_server : handler sysE (GcState * Z) := clocked_by gc_http.

Definition gc_demo_state : GcState * Z :=
  (mkGc (only "_acme-challenge.example.com."%string [quoted "other"]) ∅, 0).

Lemma gc_zone_rest z rest :
  strip_prefix gc_demo_zone
    ("https://gc.test/v1/projects/p/managedZones/" +:+ encode_path (X := ref_ext) z +:+ "/" +:+ rest) =
  if decide (z = "zone-1"%string) then Some rest else None.
Proof. exact (strip_segment (X := ref_ext) "https://gc.test/v1/projects/p/managedZones/" "zone-1" z rest). Qed.

(** What the server does at a URL of a zone. *)
Lemma gc_http_zone m z rest q hd b s :
  gc_http (mkRequest m ("https://gc.test/v1/projects/p/managedZones/" +:+ encode_path (X := ref_ext) z +:+ "/" +:+ rest) q hd b) s =
  if decide (z = "zone-1"%string) then
    match m with
    | GET => let '(r, s') := gc_demo_get rest q s in (Ok r, s')
    | POST =>
        if (rest =? "changes")%string then let '(r, s') := gc_demo_post b s in (Ok r, s')
        else (Ok (reply_empty 404), s)
    | _ => (Ok (reply_empty 404), s)
    end
  else (Ok (reply_empty 404), s).
Proof.
  unfold gc_http. cbn [url method query body]. rewrite gc_zone_rest.
  change ((("https://gc.test/v1/projects/p/managedZones/" +:+ encode_path (X := ref_ext) z +:+ "/" +:+ rest)
           =? "https://gc.test/token")%string) with false.
  change ((("https://gc.test/v1/projects/p/managedZones/" +:+ encode_path (X := ref_ext) z +:+ "/" +:+ rest)
           =? "https://gc.test/v1/projects/p/managedZones")%string) with false.
  by case_decide; destruct m.
Qed.

Lemma gc_change_url z id :
  url_of gc_demo (change_path (X := ref_ext) gc_demo z id) =
  "https://gc.test/v1/projects/p/managedZones/" +:+ encode_path (X := ref_ext) z +:+ "/" +:+ "changes/" +:+
  encode_path (X := ref_ext) id.
Proof. unfold change_path, changes_path, url_of, zone_path. by rewrite !append_assoc. Qed.

(** Reads keep the sets, and no request forgets a change. *)
Lemma gc_http_get req s : method req = GET -> gs_sets (snd (gc_http req s)) = gs_sets s.
Proof.
  intros Hm. unfold gc_http. do 2 (destruct (url req =? _)%string; [done|]). rewrite Hm.
  destruct (strip_prefix _ _) as [rest|]; [|done]. unfold gc_demo_get.
  destruct (rest =? _)%string; [by destruct (query req) as [|[? ?] [|? [|? ?]]]|].
  destruct (_ ≫= _) as [id|]; [|done]. by destruct (gs_changes s !! id) as [[c b]|].
Qed.

Lemma gc_post_changes b s id c :
  gs_changes s !! id = Some c -> gs_changes (snd (gc_demo_post b s)) !! id = Some c.
Proof.
  intros Hid. unfold gc_demo_post. repeat (case_match; try done). cbn [snd gs_changes].
  rewrite lookup_insert_ne; [done|]. intros E.
  apply (is_fresh (dom (gs_changes s))). rewrite E. apply elem_of_dom. eauto.
Qed.

Lemma gc_http_changes req s id c b :
  gs_changes s !! id = Some (c, b) ->
  exists b', gs_changes (snd (gc_http req s)) !! id = Some (c, b') /\ (b = true -> b' = true).
Proof.
  intros Hid. assert (exists b', gs_changes s !! id = Some (c, b') /\ (b = true -> b' = true)) as Hsame by eauto.
  unfold gc_http. do 2 (destruct (url req =? _)%string; [done|]).
  destruct (strip_prefix _ _) as [rest|]; [|done]. destruct (method req); try done.
  - unfold gc_demo_get. destruct (rest =? _)%string; [by destruct (query req) as [|[? ?] [|? [|? ?]]]|].
    destruct (_ ≫= _) as [id'|]; [|done]. destruct (gs_changes s !! id') as [[c' b']|] eqn:E; [|done]. cbn.
    destruct (decide (id' = id)) as [->|Hne]; [|by rewrite lookup_insert_ne].
    rewrite lookup_insert_eq. rewrite Hid in E. injection E as -> ->. eauto.
  - destruct (rest =? _)%string; [|done]. pose proof (gc_post_changes (body req) s id (c, b) Hid) as Hp.
    destruct (gc_demo_post (body req) s) as [r s']. cbn in *. eauto.
Qed.

Lemma gc_server_snd Y (e : sysE Y) w :
  fst (snd (gc_server Y e w)) = fst w \/
  exists req, fst (snd (gc_server Y e w)) = snd (gc_http req (fst w)).
Proof.
  destruct w as [s t]. destruct e; try (left; reflexivity). right. exists r. unfold gc_server, clocked_by.
  cbn [fst snd]. by destruct (gc_http r s).
Qed.

Lemma gc_server_kept : changes_kept gc_server gc_change_of gc_applied.
Proof.
  split; intros Y e w [z id].
  - intros x. unfold gc_change_of. cbn [fst snd]. case_decide; [|done].
    destruct (gs_changes (fst w) !! id) as [[c b]|] eqn:E; [|done]. intros [= <-].
    destruct (gc_server_snd Y e w) as [->|[req ->]]; [by rewrite E|].
    destruct (gc_http_changes req (fst w) id c b E) as (b' & -> & _). done.
  - intros [Hz [c Hc]]. split; [done|]. cbn [snd] in *.
    destruct (gc_server_snd Y e w) as [->|[req ->]]; [eauto|].
    destruct (gc_http_changes req (fst w) id c true Hc) as (b' & Hb & Hb'). rewrite Hb' in Hb by done. eauto.
Qed.

Lemma gc_server_background : background gc_server gc_recs.
Proof.
  split.
  - by intros Y e [s t] He; destruct e.
  - intros req [s t] Hm k. unfold gc_recs, gc_server, clocked_by. cbn [fst snd].
    pose proof (gc_http_get req s Hm) as Hg. destruct (gc_http req s) as [r s']. cbn in *. by rewrite Hg.
Qed.

(** What the documents of the server are read as. *)
Lemma rrdatas_ser r : rrdatas (ser_Rrset r) = rr_datas r.
Proof. by apply rrdatas_data. Qed.

Lemma gc_listing_read n l : de_RrsetList (JObj [("rrsets"%string, JArr (gc_listing n l))]) = Some (gc_listing n l).
Proof. by destruct l. Qed.

Lemma gc_listing_sets n l :
  (forall j, j ∈ gc_listing n l -> txt_named n j -> has_data l j) /\
  ((forall j, j ∈ gc_listing n l -> ~ txt_named n j) -> l = []).
Proof.
  unfold gc_listing. split.
  - intros j [->|Hj]%elem_of_cons; [by intros [Ht _]|]. destruct l as [|x l]; [by apply elem_of_nil in Hj|].
    by apply list_elem_of_singleton in Hj as ->.
  - intros Hno. destruct l as [|x l]; [done|]. destruct (Hno (gc_set_json n (x :: l))).
    + right. by left.
    + split; [done|]. by exists n.
Qed.

Lemma gc_asked_set n a d :
  changes_set n a d -> gc_asked (map ser_Rrset (option_list a)) (option_list d) = Some (n, added_values a).
Proof.
  intros (Ha & Hd & Hne & Hl). destruct a as [r|]; cbn [option_list map gc_asked added_values].
  - destruct (Ha r eq_refl) as [Hn _]. rewrite rrdatas_ser. unfold ser_Rrset. cbn. by rewrite Hn.
  - destruct d as [j|]; [|by destruct Hne]. cbn [option_list]. destruct (Hd j eq_refl) as [_ (m & Hm & Hlow)]. cbn [gc_asked]. rewrite Hm. cbn. by rewrite Hlow, Hl.
Qed.

Lemma gc_server_change m u q hd b z n a d (w : GcState * Z) :
  m = POST -> u = url_of gc_demo (changes_path (X := ref_ext) gc_demo z) ->
  b = Some (ser_ChangeRequest (option_list a) (option_list d)) -> changes_set n a d ->
  let '(r, w') := gc_server _ (HttpSend (mkRequest m u q hd b)) w in
    (same gc_recs w w' \/ set_to gc_recs (z, n) (added_values a) w w') /\
    forall resp c, r = Ok resp -> is_success (Ext := ref_ext) (status resp) = true -> response_json de_Change resp = Ok c ->
      set_to gc_recs (z, n) (added_values a) w w' /\
      gc_change_of w' (z, ch_id c) = Some ((z, n), added_values a) /\
      (ch_status c = "done"%string -> gc_applied w' (z, ch_id c)).
Proof.
  intros -> -> -> Hset. destruct w as [s t]. unfold gc_server, clocked_by. cbn [fst snd].
  change (url_of gc_demo (changes_path (X := ref_ext) gc_demo z)) with
    ("https://gc.test/v1/projects/p/managedZones/" +:+ encode_path (X := ref_ext) z +:+ "/" +:+ "changes").
  rewrite gc_http_zone. case_decide as Hz; [|split; [by left|]; by intros resp c [= <-]]. subst z.
  change ("changes" =? "changes")%string with true. cbv iota beta.
  unfold gc_demo_post, ser_ChangeRequest. rewrite (gc_asked_set n a d Hset).
  case_decide as Heq; [|split; [by left|]; by intros resp c [= <-]].
  set (id := fresh (dom (gs_changes s))).
  assert (set_to gc_recs ("zone-1"%string, n) (added_values a) (s, t)
    (mkGc (put n (added_values a) (gs_sets s)) (<[id := ((n, added_values a), false)]> (gs_changes s)), t)) as Hs.
  { split.
    { unfold gc_recs. cbn [fst snd gs_sets]. rewrite decide_True by done. unfold put. by rewrite decide_True. }
    intros [z' n'] Hne. unfold gc_recs. cbn [fst snd].
    case_decide; [|done]. cbn. unfold put. rewrite decide_False; [done|]. intros ->. by subst. }
  split; [by right|]. intros resp c [= <-] _. intros [= <-]. split; [exact Hs|]. split; [|done].
  unfold gc_change_of. cbn [fst snd ch_id gs_changes]. rewrite decide_True by done. by rewrite lookup_insert_eq.
Qed.

Lemma gc_server_zones :
  exists pages, listed pages None gc_account /\
    forall req w resp t b,
      fst (gc_server _ (HttpSend req) w) = Ok resp -> method req = GET ->
      url req = url_of gc_demo (zones_path (X := ref_ext) gc_demo) ->
      query req = match t with Some t => [("pageToken"%string, t)] | None => [] end ->
      is_success (Ext := ref_ext) (status resp) = true -> response_json de_ManagedZones resp = Ok b ->
      pages t = (managed_zones b, next_page_token b).
Proof.
  exists gc_demo_page. split.
  - apply (next_page _ _ _ "2"); [done|done|]. eapply last_page; [done|by left].
  - intros [m u q hd b0] [s t0] resp t b Hr; cbn [method url query]. intros -> -> ->. revert Hr.
    unfold gc_server, clocked_by, gc_http. cbn [fst snd url query].
    change (url_of gc_demo (zones_path gc_demo) =? "https://gc.test/token")%string with false.
    change (url_of gc_demo (zones_path gc_demo) =? "https://gc.test/v1/projects/p/managedZones")%string with true.
    cbn [fst]. intros [= <-] _. destruct t as [t|]; by intros [= <-].
Qed.

Lemma gc_server_api : gc_api (X := ref_ext) gc_server gc_demo gc_account gc_recs gc_change_of gc_applied.
Proof.
  split.
  - apply gc_server_background.
  - apply gc_server_kept.
  - intros [m u q hd b] [s t]. cbn [url]. intros ->. done.
  - apply gc_server_zones.
  - intros [m u q hd b] [s t] resp z n l Hr; cbn [method url query]. intros -> -> ->. revert Hr.
    change (url_of gc_demo (rrsets_path (X := ref_ext) gc_demo z)) with
      ("https://gc.test/v1/projects/p/managedZones/" +:+ encode_path (X := ref_ext) z +:+ "/" +:+ "rrsets").
    unfold gc_server, clocked_by. cbn [fst snd]. rewrite gc_http_zone. unfold gc_recs. cbn [fst snd].
    case_decide; [|by intros [= <-]].
    change (gc_demo_get "rrsets" (rrset_query n) s) with
      (reply 200 (JObj [("rrsets"%string, JArr (gc_listing n (gs_sets s n)))]), s).
    intros [= <-] _. unfold response_json. cbn [resp_body reply]. rewrite ok_or_ok, gc_listing_read. intros [= <-].
    apply gc_listing_sets.
  - intros [m u q hd b] z n a d Hm Hu Hb Hset w. by apply (gc_server_change m u q hd b z n a d w).
  - intros [m u q hd b] [s t] resp z id c; cbn [method url]. intros Hr -> ->. revert Hr.
    rewrite gc_change_url. unfold gc_server, clocked_by. cbn [fst snd].
    rewrite gc_http_zone. case_decide as Hz; [|by intros [= <-]]. subst z. unfold gc_demo_get.
    change (("changes/" +:+ encode_path (X := ref_ext) id =? "rrsets")%string) with false. cbv iota beta.
    rewrite strip_prefix_append. cbn [mbind option_bind]. rewrite (encode_decode (X := ref_ext)).
    destruct (gs_changes s !! id) as [[x bb]|] eqn:E; [|by intros [= <-]].
    intros [= <-] _ [= <-]. split; [done|]. intros _. split; [done|]. exists x. cbn. apply lookup_insert_eq.
Qed.

(** ** Properties *)

(** C27. Against a server that behaves as the Cloud DNS API documents, whatever
    requests fail, are retried or are carried out without an answer:
    [present] and [cleanup] change no TXT value but the one given, of the
    name given, in the configured zone or else in the public zone of the
    account with the longest name that holds it; [present] returns [Ok] only
    when the value is in the record set, [cleanup] only when it is not; either has then changed nothing, or
    the change that made the record set what it is has been applied. *)
Theorem google_contract `{X : Ext} `{!ExtSpec X} `{XG : GcExt} {W} (h : handler sysE W)
    (p : GoogleCloudDnsProvider) account recs change_of applied f v w :
  gc_api h p account recs change_of applied ->
  (let '(r, w') := run h (present p f v) w in
   touches recs (gc_keys p account f)
     (change_call recs change_of applied (added (view recs (map unquote) (fun k => k)))) v w r w') /\
  (let '(r, w') := run h (cleanup p f v) w in
   touches recs (gc_keys p account f)
     (change_call recs change_of applied (removed (view recs (map unquote) (fun k => k)))) v w r w').
Proof.
  intros Hapi. split.
  - exact (gc_present h p account recs change_of applied Hapi f v w).
  - exact (gc_cleanup h p account recs change_of applied Hapi f v w).
Qed.

(** A value is added next to another one; the change is applied when it is
    polled, a second later. *)
Lemma google_contract_witness :
  (let '(r, w') := run gc_server (present (X := ref_ext) (XG := ref_gc) gc_demo "_acme-challenge.Example.com" "tok")
                     gc_demo_state in
   r = Ok tt /\ gs_sets (fst w') "_acme-challenge.example.com." = [quoted "other"; quoted "tok"] /\
   snd w' = from_secs 1) /\
  (let '(r, w') := run gc_server (cleanup (X := ref_ext) (XG := ref_gc) gc_demo "_acme-challenge.Example.com" "other")
                     gc_demo_state in
   touches gc_recs (gc_keys gc_demo gc_account "_acme-challenge.Example.com")
     (change_call gc_recs gc_change_of gc_applied (removed (view gc_recs (map unquote) (fun k => k)))) "other"
     gc_demo_state r w').
Proof.
  split; [vm_compute; split_and!; reflexivity|].
  exact (proj2 (google_contract (XG := ref_gc) gc_server gc_demo gc_account gc_recs gc_change_of gc_applied
    "_acme-challenge.Example.com" "other" gc_demo_state gc_server_api)).
Defined.

(** C28. Whatever the server answers, every request [present] sends is a read, a
    request for a token, or a change that follows a read of the TXT record set
    of the name in the same zone: it deletes the set exactly as that read
    answered it, nothing when there was none, and adds the same data with the
    new value, which was not in it, under the same TTL.  Those of [cleanup]
    likewise delete the set as it was read and keep the rest of its data and
    its TTL, or delete it when nothing is left. *)
Theorem google_changes_exact `{X : Ext} `{!ExtSpec X} `{XG : GcExt} {W} (h : handler sysE W)
    (p : GoogleCloudDnsProvider) f v w before req x after :
  (trace h (present p f v) w = before ++ Ev (HttpSend req) x :: after ->
   method req = GET \/ (exists assertion, req = token_request p assertion) \/ adds_exactly p f v before req) /\
  (trace h (cleanup p f v) w = before ++ Ev (HttpSend req) x :: after ->
   method req = GET \/ (exists assertion, req = token_request p assertion) \/ removes_exactly p f v before req).
Proof.
  split; intros Ht.
  - destruct (present_ordered p h f v w before req x after Ht) as [[?|?]|?]; auto.
  - destruct (cleanup_ordered p h f v w before req x after Ht) as [[?|?]|?]; auto.
Qed.

(** The change that takes the only value down, of a set read from the demo
    server. *)
Lemma google_changes_exact_witness :
  let req := change_request (X := ref_ext) gc_demo "zone-1"
    (Some (gc_set_json "_acme-challenge.example.com." [quoted "other"])) None "tok" in
  exists before x after,
  trace gc_server (cleanup (X := ref_ext) (XG := ref_gc) gc_demo "_acme-challenge.Example.com" "other") gc_demo_state
    = before ++ Ev (HttpSend req) x :: after /\
  (method req = GET \/ (exists assertion, req = token_request gc_demo assertion) \/
   removes_exactly (X := ref_ext) gc_demo "_acme-challenge.Example.com" "other" before req).
Proof.
  intros req.
  set (t := trace gc_server (cleanup (X := ref_ext) (XG := ref_gc) gc_demo "_acme-challenge.Example.com" "other") gc_demo_state).
  assert (t = firstn 32 t ++ Ev (HttpSend req) (Ok (reply 200 (ser_Change (fresh (∅ : gset string)) "pending"))) :: skipn 33 t) as Ht
    by (vm_compute; reflexivity).
  eexists _, _, _. split; [exact Ht|].
  exact (proj2 (google_changes_exact (X := ref_ext) (XG := ref_gc) gc_server gc_demo "_acme-challenge.Example.com" "other"
    gc_demo_state _ _ _ _) Ht).
Defined.
