(* ===== verification/Route53.v ===== *)
(** * The Route 53 provider (src/providers/route53.rs)

    Requests are signed with AWS Signature Version 4.  A record set is
    replaced or deleted by a change batch in XML, which is polled until it is
    in sync; throttled requests are sent again. *)

From stdpp Require Import sorting.
From S2P Require Import Prelude Rstr Errors Effects Sys Common Zone Provider Txt Polling.

(** ** Documents and other crates *)

Record HostedZone : Type := mkHostedZone {
  hz_id : string;
  hz_name : string;
  hz_private : option bool
}.

Record ResourceRecordSet : Type := mkResourceRecordSet {
  set_name : string;
  record_type : string;
  set_ttl : option Z;
  set_identifier : option string;
  resource_records : option (list string)
}.

Record ChangeInfo : Type := mkChangeInfo {
  ci_id : string;
  ci_status : string
}.

Record AwsError : Type := mkAwsError {
  aws_code : string;
  aws_message : option string
}.

(** What the code uses of a [url::Url]: its text, [path], [query], [host_str]
    and [port]. *)
Record Url : Type := mkUrl {
  url_text : string;
  url_path : string;
  url_query : option string;
  url_host : option string;
  url_port : option Z
}.

(** [url], [sha2], [hmac], [hex] and [quick_xml].  The decoders are
    [quick_xml::de::from_str] at the types this file derives [Deserialize] for:
    [ListHostedZonesByNameResponse], [ListResourceRecordSetsResponse],
    [ChangeResponse], [ErrorResponse] and [InvalidChangeBatch]. *)
Class R53Ext : Type := {
  parse_url : string -> result Url string;
  sha256 : string -> string;
  hmac_sha256 : string -> string -> string;
  hex_encode : string -> string;
  xml_escape : string -> string;
  xml_zones : string -> result (list HostedZone) string;
  xml_sets : string -> result (list ResourceRecordSet) string;
  xml_change : string -> result ChangeInfo string;
  xml_error : string -> result AwsError string;
  xml_invalid_batch : string -> result (list string) string
}.

Definition ROUTE53_API_BASE : string := "https://route53.amazonaws.com/2013-04-01".
Definition ENV_ACCESS_KEY_ID : string := "AWS_ACCESS_KEY_ID".
Definition ENV_SECRET_ACCESS_KEY : string := "AWS_SECRET_ACCESS_KEY".
Definition ENV_SESSION_TOKEN : string := "AWS_SESSION_TOKEN".
Definition SIGNING_REGION : string := "us-east-1".
Definition SIGNING_SERVICE : string := "route53".
Definition XML_NAMESPACE : string := "https://route53.amazonaws.com/doc/2013-04-01/".
Definition DEFAULT_TTL : Z := 60.
Definition ZONE_LOOKUP_MAX_ITEMS : string := "100".
Definition HTTP_TIMEOUT : Duration := from_secs 30.
Definition CONNECT_TIMEOUT : Duration := from_secs 5.
Definition CHANGE_POLL_INTERVAL : Duration := from_secs 2.
Definition CHANGE_TIMEOUT : Duration := from_secs 120.
Definition PROVIDER : string := "route53".
Definition AUTH_CODES : list string :=
  ["AccessDenied"; "AccessDeniedException"; "ExpiredToken"; "IncompleteSignature"; "InvalidClientTokenId";
   "MissingAuthenticationToken"; "SignatureDoesNotMatch"; "UnrecognizedClientException"]%string.
Definition THROTTLING_CODES : list string := ["Throttling"; "PriorRequestNotComplete"]%string.

(** [NON_ALPHANUMERIC] without the unreserved characters. *)
Definition SIGV4_ENCODE (c : ascii) : bool :=
  negb (is_ascii_alphanumeric c) && negb (existsb (Ascii.eqb c) ["-"; "_"; "."; "~"]%char).

Record Route53Config : Type := mkRoute53Config {
  access_key_id : string;
  secret_access_key : string;
  session_token : option string;
  api_base : string;
  hosted_zone_id : option string;
  ttl : Z;
  http_timeout : Duration
}.

(** [contains] of a slice of texts. *)
Definition one_of (l : list string) (s : string) : bool := existsb (fun x => (x =? s)%string) l.

Definition normalize_name (name : string) : string := to_ascii_lowercase (trim_end_matches dot name).

Definition normalize_id (id prefix : string) : option string :=
  let id := default id (strip_prefix prefix id) in
  if negb (is_empty id) && (len id <=? 64) && all_bytes is_ascii_alphanumeric id then Some id else None.

(** [fn unquote]. *)
Definition unquote (record : string) : string :=
  let trimmed := trim record in
  default trimmed (strip_prefix dquote trimmed ≫= strip_suffix dquote).

Record TxtSet : Type := mkTxtSet {
  ts_ttl : Z;
  ts_values : list string
}.

Definition ts_contains (s : TxtSet) (value : string) : bool :=
  existsb (fun v => (unquote v =? value)%string) (ts_values s).

(** ** Sorting, by the bytes of the texts *)

Fixpoint string_leb (s t : string) : bool :=
  match s, t with
  | EmptyString, _ => true
  | String _ _, EmptyString => false
  | String a s', String b t' =>
      (byte_of a <? byte_of b) || ((byte_of a =? byte_of b) && string_leb s' t')
  end.

Definition pair_leb (p q : string * string) : bool :=
  if (fst p =? fst q)%string then string_leb (snd p) (snd q) else string_leb (fst p) (fst q).

(** [Vec::sort]. *)
Fixpoint insert_sorted (x : string * string) (l : list (string * string)) : list (string * string) :=
  match l with
  | [] => [x]
  | y :: l' => if pair_leb x y then x :: l else y :: insert_sorted x l'
  end.

Definition sort_pairs (l : list (string * string)) : list (string * string) := foldr insert_sorted [] l.

(** [{:0w}] for a number. *)
Fixpoint zeros (n : nat) : string := match n with O => EmptyString | S n' => String "0" (zeros n') end.

Definition padded (width : nat) (n : Z) : string :=
  let digits := pretty (Z.abs n) in
  let sign := if n <? 0 then "-"%string else EmptyString in
  sign +:+ zeros (width - String.length sign - String.length digits) +:+ digits.

Section route53.
Context `{X : Ext} `{XR : R53Ext}.

(** ** Configuration *)

Definition config_new (access_key_id secret_access_key : string) : Route53Config :=
  mkRoute53Config access_key_id secret_access_key None ROUTE53_API_BASE None DEFAULT_TTL HTTP_TIMEOUT.

Definition with_session_token (c : Route53Config) (token : string) : Route53Config :=
  mkRoute53Config (access_key_id c) (secret_access_key c) (Some token) (api_base c) (hosted_zone_id c)
    (ttl c) (http_timeout c).

Definition with_api_base (c : Route53Config) (base : string) : dns_result Route53Config :=
  let! _ := validate_https_base base PROVIDER in
  Ok (mkRoute53Config (access_key_id c) (secret_access_key c) (session_token c) (trim_end_matches "/" base)
        (hosted_zone_id c) (ttl c) (http_timeout c)).

Definition with_hosted_zone_id (c : Route53Config) (id : string) : dns_result Route53Config :=
  let! id' := ok_or (normalize_id id "/hostedzone/") (Other ("invalid " +:+ PROVIDER +:+ " hosted zone id: " +:+ id)) in
  Ok (mkRoute53Config (access_key_id c) (secret_access_key c) (session_token c) (api_base c) (Some id')
        (ttl c) (http_timeout c)).

Definition with_ttl (c : Route53Config) (t : Z) : dns_result Route53Config :=
  let! t' := validate_ttl t in
  Ok (mkRoute53Config (access_key_id c) (secret_access_key c) (session_token c) (api_base c) (hosted_zone_id c)
        t' (http_timeout c)).

Definition with_timeout (c : Route53Config) (d : Duration) : Route53Config :=
  mkRoute53Config (access_key_id c) (secret_access_key c) (session_token c) (api_base c) (hosted_zone_id c)
    (ttl c) d.

Definition new (client : Duration -> Duration -> result unit ReqwestError) (c : Route53Config)
  : dns_result Route53Config :=
  let! _ := map_err Http (client (http_timeout c) CONNECT_TIMEOUT) in Ok c.

Definition from_env (client : Duration -> Duration -> result unit ReqwestError)
    (var : string -> option string) : dns_result Route53Config :=
  let! ak := ok_or (var ENV_ACCESS_KEY_ID) (MissingCredentials ENV_ACCESS_KEY_ID) in
  let! sk := ok_or (var ENV_SECRET_ACCESS_KEY) (MissingCredentials ENV_SECRET_ACCESS_KEY) in
  let c := config_new ak sk in
  let c :=
    match var ENV_SESSION_TOKEN with
    | Some token => if negb (is_empty token) then with_session_token c token else c
    | None => c
    end in
  new client c.

(** ** Signature Version 4 *)

Definition sigv4_encode (s : string) : string := utf8_percent_encode SIGV4_ENCODE s.

Definition amz_date_now : sys string :=
  let* now := call UtcNow in
  let '(year, month, day, hour, minute, second) := now in
  Ret (padded 4 year +:+ padded 2 month +:+ padded 2 day +:+ "T" +:+ padded 2 hour +:+ padded 2 minute
       +:+ padded 2 second +:+ "Z").

Definition canonical_query (params : list (string * string)) : string :=
  let encoded := sort_pairs (map (fun p => (sigv4_encode (fst p), sigv4_encode (snd p))) params) in
  join "&" (map (fun p => fst p +:+ "=" +:+ snd p) encoded).

Definition canonical_uri (url : Url) : string :=
  if is_empty (url_path url) then "/"
  else join "/" (map sigv4_encode (split "/" (url_path url))).

Definition host_header (url : Url) : string :=
  let host := default EmptyString (url_host url) in
  match url_port url with Some port => host +:+ ":" +:+ pretty port | None => host end.

Definition newline : string := String "010" EmptyString.

Definition canonical_headers (token : option string) (url : Url) (amz_date : string) : list (string * string) :=
  [("host", host_header url); ("x-amz-date", amz_date)]%string
  ++ match token with Some t => [("x-amz-security-token"%string, t)] | None => [] end.

Definition signed_headers (headers : list (string * string)) : string := join ";" (map fst headers).

Definition header_block (headers : list (string * string)) : string :=
  join EmptyString (map (fun h => fst h +:+ ":" +:+ trim (snd h) +:+ newline) headers).

Definition canonical_request (meth : string) (url : Url) (headers : list (string * string)) (payload : string) : string :=
  meth +:+ newline +:+ canonical_uri url +:+ newline +:+ default EmptyString (url_query url) +:+ newline
  +:+ header_block headers +:+ newline +:+ signed_headers headers +:+ newline +:+ hex_encode (sha256 payload).

Definition sign_v4 (access_key_id secret_access_key : string) (session_token : option string)
    (region service meth : string) (url : Url) (payload amz_date : string) : list (string * string) :=
  let date := take_bytes 8 amz_date in
  let headers := canonical_headers session_token url amz_date in
  let credential_scope := date +:+ "/" +:+ region +:+ "/" +:+ service +:+ "/aws4_request" in
  let string_to_sign := "AWS4-HMAC-SHA256" +:+ newline +:+ amz_date +:+ newline +:+ credential_scope +:+ newline
    +:+ hex_encode (sha256 (canonical_request meth url headers payload)) in
  let k_date := hmac_sha256 ("AWS4" +:+ secret_access_key) date in
  let k_region := hmac_sha256 k_date region in
  let k_service := hmac_sha256 k_region service in
  let k_signing := hmac_sha256 k_service "aws4_request" in
  let signature := hex_encode (hmac_sha256 k_signing string_to_sign) in
  [("x-amz-date"%string, amz_date)]
  ++ match session_token with Some t => [("x-amz-security-token"%string, t)] | None => [] end
  ++ [("authorization"%string, "AWS4-HMAC-SHA256 Credential=" +:+ access_key_id +:+ "/" +:+ credential_scope
        +:+ ", SignedHeaders=" +:+ signed_headers headers +:+ ", Signature=" +:+ signature)].

(** ** Requests *)

Definition method_str (m : Method) : string :=
  match m with
  | GET => "GET" | POST => "POST" | PUT => "PUT" | PATCH => "PATCH" | DELETE => "DELETE"
  end.

(** The request, with the text of a body that is not empty. *)
Definition signed_request (c : Route53Config) (m : Method) (url : Url) (payload amz_date : string) : Request :=
  let headers := sign_v4 (access_key_id c) (secret_access_key c) (session_token c) SIGNING_REGION SIGNING_SERVICE
                   (method_str m) url payload amz_date in
  if negb (is_empty payload)
  then mkRequest m (url_text url) [] (headers ++ [("content-type", "application/xml")]%string) (Some (JStr payload))
  else mkRequest m (url_text url) [] headers None.

(** [response.text().await?]. *)
Definition response_text (r : Response) : dns_result string :=
  match resp_body r with Some (raw, _) => Ok raw | None => Err (Http Decode) end.

Definition send_signed (c : Route53Config) (m : Method) (url : Url) (payload : string)
  : sys (dns_result (Z * string)) :=
  let* amz_date := amz_date_now in
  await? response := send (signed_request c m url payload amz_date) in
  try? text := response_text response in
  Ret (Ok (status response, text)).

Definition is_throttled (text : string) : bool :=
  match xml_error text with Ok err => one_of THROTTLING_CODES (aws_code err) | Err _ => false end.

(** The code and the message of an error document, if it is one. *)
Definition error_document (text : string) : option (string * string) :=
  match xml_error text with
  | Ok err => Some (aws_code err, default EmptyString (aws_message err))
  | Err _ =>
      match xml_invalid_batch text with
      | Ok messages => Some ("InvalidChangeBatch"%string, join "; " messages)
      | Err _ => None
      end
  end.

Definition map_error (meth path : string) (code : Z) (text : string) : DnsError :=
  let request := PROVIDER +:+ " " +:+ meth +:+ " " +:+ path in
  match error_document text with
  | None =>
      let text := truncate_error_body text in
      if code =? 403 then Auth (request +:+ " returned " +:+ status_text code +:+ ": " +:+ text)
      else if code =? 429 then Api (request +:+ " was rate limited (" +:+ status_text code +:+ "), retry later")
      else Api (request +:+ " returned " +:+ status_text code +:+ ": " +:+ text)
  | Some (aws, message) =>
      let message := truncate_error_body message in
      if one_of AUTH_CODES aws then Auth (request +:+ " refused credentials: " +:+ aws +:+ ": " +:+ message)
      else if one_of THROTTLING_CODES aws || (code =? 429) then
        Api (request +:+ " was rate limited (" +:+ aws +:+ "), retry later: " +:+ message)
      else if (aws =? "NoSuchHostedZone")%string then
        ZoneNotFound (PROVIDER +:+ " hosted zone (" +:+ message +:+ ")")
      else Api (request +:+ " returned " +:+ status_text code +:+ ": " +:+ aws +:+ ": " +:+ message)
  end.

(** The loop of [send], with [left = MAX_ATTEMPTS - attempt]. *)
Fixpoint send_attempts (c : Route53Config) (m : Method) (path : string) (url : Url) (payload : string) (left : nat)
  : sys (dns_result string) :=
  await? answer := send_signed c m url payload in
  let '(code, text) := answer in
  if is_success code then Ret (Ok text)
  else
    match left with
    | S left' =>
        if is_throttled text then
          let* _ := call (Sleep (retry_backoff (MAX_ATTEMPTS - Z.of_nat left))) in
          send_attempts c m path url payload left'
        else Ret (Err (map_error (method_str m) path code text))
    | O => Ret (Err (map_error (method_str m) path code text))
    end.

Definition raw_url (c : Route53Config) (path : string) (query : list (string * string)) : string :=
  let q := canonical_query query in
  api_base c +:+ path +:+ (if negb (is_empty q) then "?" +:+ q else EmptyString).

(** [fn send]. *)
Definition send_api (c : Route53Config) (m : Method) (path : string) (query : list (string * string))
    (body : option string) : sys (dns_result string) :=
  try? url := map_err (fun e => Other (PROVIDER +:+ " invalid request URL: " +:+ e)) (parse_url (raw_url c path query)) in
  send_attempts c m path url (default EmptyString body) (Z.to_nat (MAX_ATTEMPTS - 1)).

Definition parse_xml {A} (decoded : result A string) (meth path : string) : dns_result A :=
  map_err (fun e => Api (PROVIDER +:+ " " +:+ meth +:+ " " +:+ path +:+ " returned an unexpected body: " +:+ e)) decoded.

(** The public zones of a listing that have a name. *)
Definition public_zones (candidate : string) (zones : list HostedZone) : list HostedZone :=
  List.filter (fun z => negb (default false (hz_private z)))
    (List.filter (fun z => (normalize_name (hz_name z) =? candidate)%string) zones).

Definition find_public_zone (c : Route53Config) (candidate : string) : sys (dns_result (option string)) :=
  let path := "/hostedzonesbyname"%string in
  await? text := send_api c GET path [("dnsname", candidate); ("maxitems", ZONE_LOOKUP_MAX_ITEMS)]%string None in
  try? zones := parse_xml (xml_zones text) "GET" path in
  match public_zones candidate zones with
  | [] => Ret (Ok None)
  | [zone] =>
      match normalize_id (hz_id zone) "/hostedzone/" with
      | Some id => Ret (Ok (Some id))
      | None => Ret (Err (Api (PROVIDER +:+ " GET " +:+ path +:+ " returned an invalid hosted zone id")))
      end
  | _ => Ret (Err (Api (PROVIDER +:+ ": several public hosted zones are named " +:+ candidate
                        +:+ "; pick one with with_hosted_zone_id")))
  end.

(** The loop of [resolve_zone]; a zone has at least two labels. *)
Fixpoint zone_walk (c : Route53Config) (fqdn name : string) (labels : list string) : sys (dns_result string) :=
  match labels with
  | _ :: (_ :: _) as rest =>
      await? found := find_public_zone c (join "." labels) in
      match found with
      | Some id => let* _ := call (CachePut name id) in Ret (Ok id)
      | None => zone_walk c fqdn name rest
      end
  | _ => Ret (Err (ZoneNotFound fqdn))
  end.

Definition resolve_zone (c : Route53Config) (fqdn : string) : sys (dns_result string) :=
  match hosted_zone_id c with
  | Some id => Ret (Ok id)
  | None =>
      let name := normalize_name fqdn in
      let* cached := call (CacheGet name) in
      match cached with
      | Some id => Ret (Ok id)
      | None => zone_walk c fqdn name (split dot name)
      end
  end.

Definition rrset_path (zone_id : string) : string := "/hostedzone/" +:+ zone_id +:+ "/rrset".

Definition rrset_query (name : string) : list (string * string) :=
  [("name", name); ("type", "TXT"); ("maxitems", "1")]%string.

(** What the first set of a listing is, for a name. *)
Definition own_set (c : Route53Config) (name : string) (sets : list ResourceRecordSet) : dns_result (option TxtSet) :=
  match sets with
  | [] => Ok None
  | set :: _ =>
      if negb (normalize_name (set_name set) =? normalize_name name)%string
         || negb (record_type set =? "TXT")%string then Ok None
      else if decide (is_Some (set_identifier set)) then
        Err (Api (PROVIDER +:+ ": TXT record set " +:+ name +:+ " uses a routing policy, which is not supported"))
      else Ok (Some (mkTxtSet (default (ttl c) (set_ttl set)) (default [] (resource_records set))))
  end.

Definition fetch_rrset (c : Route53Config) (zone_id name : string) : sys (dns_result (option TxtSet)) :=
  await? text := send_api c GET (rrset_path zone_id) (rrset_query name) None in
  try? sets := parse_xml (xml_sets text) "GET" (rrset_path zone_id) in
  Ret (own_set c name sets).

(** *** Changes *)

(** The text of a change batch, with [quick_xml::escape::escape]. *)
Definition change_batch_xml (action name : string) (set : TxtSet) : string :=
  let records := join EmptyString
    (map (fun v => "<ResourceRecord><Value>" +:+ xml_escape v +:+ "</Value></ResourceRecord>") (ts_values set)) in
  "<?xml version=" +:+ dquote +:+ "1.0" +:+ dquote +:+ " encoding=" +:+ dquote +:+ "UTF-8" +:+ dquote +:+ "?>"
  +:+ "<ChangeResourceRecordSetsRequest xmlns=" +:+ dquote +:+ XML_NAMESPACE +:+ dquote +:+ ">"
  +:+ "<ChangeBatch><Changes><Change><Action>" +:+ action +:+ "</Action><ResourceRecordSet><Name>"
  +:+ xml_escape name +:+ "</Name><Type>TXT</Type><TTL>" +:+ pretty (ts_ttl set) +:+ "</TTL><ResourceRecords>"
  +:+ records +:+ "</ResourceRecords></ResourceRecordSet></Change></Changes></ChangeBatch>"
  +:+ "</ChangeResourceRecordSetsRequest>".

Definition settled (change : ChangeInfo) : option (dns_result unit) :=
  if (ci_status change =? "INSYNC")%string then Some (Ok tt) else None.

Definition late (change : ChangeInfo) : DnsError :=
  Api (PROVIDER +:+ " change " +:+ ci_id change +:+ " still " +:+ ci_status change
       +:+ " after " +:+ pretty (as_secs CHANGE_TIMEOUT) +:+ "s").

Definition fetch_change (c : Route53Config) (change_id : string) : sys (dns_result ChangeInfo) :=
  try? id := ok_or (normalize_id change_id "/change/") (Api (PROVIDER +:+ " returned an invalid change id")) in
  let path := "/change/" +:+ id in
  await? text := send_api c GET path [] None in
  try? change := parse_xml (xml_change text) "GET" path in
  Ret (Ok change).

Definition wait_for_change (c : Route53Config) (change : ChangeInfo) : sys (fueled unit) :=
  let* now := call Now in
  let deadline := now + CHANGE_TIMEOUT in
  wait_until settled late (fun change => lifted (fetch_change c (ci_id change))) CHANGE_POLL_INTERVAL
    (turns CHANGE_TIMEOUT CHANGE_POLL_INTERVAL) deadline change.

Definition change_path (zone_id : string) : string := "/hostedzone/" +:+ zone_id +:+ "/rrset/".

(** The request of [change_rrset], and its answer. *)
Definition post_change (c : Route53Config) (zone_id action name : string) (set : TxtSet)
  : sys (dns_result ChangeInfo) :=
  await? text := send_api c POST (change_path zone_id) [] (Some (change_batch_xml action name set)) in
  try? change := parse_xml (xml_change text) "POST" (change_path zone_id) in
  Ret (Ok change).

Definition change_rrset (c : Route53Config) (zone_id action name : string) (set : TxtSet) : sys (fueled unit) :=
  await? change := lifted (post_change c zone_id action name set) in
  wait_for_change c change.

(** ** Operations *)

Definition present_locked (c : Route53Config) (zone_id name value : string) : sys (fueled unit) :=
  await? existing := lifted (fetch_rrset c zone_id name) in
  match existing with
  | Some set =>
      if ts_contains set value then Ret (Ok tt)
      else change_rrset c zone_id "UPSERT" name (mkTxtSet (ts_ttl set) (ts_values set ++ [quoted value]))
  | None => change_rrset c zone_id "UPSERT" name (mkTxtSet (ttl c) [quoted value])
  end.

Definition present (c : Route53Config) (fqdn value : string) : sys (fueled unit) :=
  try? _ := lift (validate_fqdn fqdn) in
  try? _ := lift (validate_acme_value value) in
  await? zone_id := lifted (resolve_zone c fqdn) in
  let name := normalize_name fqdn +:+ "." in
  with_lock (zone_id +:+ "|" +:+ name) (present_locked c zone_id name value).

Definition cleanup_locked (c : Route53Config) (zone_id name value : string) : sys (fueled unit) :=
  await? existing := lifted (fetch_rrset c zone_id name) in
  match existing with
  | Some set =>
      if ts_contains set value then
        let remaining := List.filter (fun v => negb (unquote v =? value)%string) (ts_values set) in
        match remaining with
        | [] => change_rrset c zone_id "DELETE" name set
        | _ => change_rrset c zone_id "UPSERT" name (mkTxtSet (ts_ttl set) remaining)
        end
      else Ret (Ok tt)
  | None => Ret (Ok tt)
  end.

Definition cleanup (c : Route53Config) (fqdn value : string) : sys (fueled unit) :=
  try? _ := lift (validate_fqdn fqdn) in
  await? zone_id := lifted (resolve_zone c fqdn) in
  let name := normalize_name fqdn +:+ "." in
  with_lock (zone_id +:+ "|" +:+ name) (cleanup_locked c zone_id name value).
End route53.

(** ** The canonical query *)

Lemma byte_of_inj a b : byte_of a = byte_of b -> a = b.
Proof.
  unfold byte_of. intros E%N2Z.inj. rewrite <- (ascii_N_embedding a), <- (ascii_N_embedding b). by rewrite E.
Qed.

Lemma string_leb_total s t : string_leb s t = true \/ string_leb t s = true.
Proof.
  revert t. induction s as [|a s IH]; intros [|b t]; cbn; auto.
  destruct (Z.ltb_spec (byte_of a) (byte_of b)), (Z.ltb_spec (byte_of b) (byte_of a)),
    (Z.eqb_spec (byte_of a) (byte_of b)), (Z.eqb_spec (byte_of b) (byte_of a)); cbn; auto; lia.
Qed.

Lemma string_leb_antisym s t : string_leb s t = true -> string_leb t s = true -> s = t.
Proof.
  revert t. induction s as [|a s IH]; intros [|b t]; cbn; try done.
  destruct (Z.ltb_spec (byte_of a) (byte_of b)), (Z.ltb_spec (byte_of b) (byte_of a)),
    (Z.eqb_spec (byte_of a) (byte_of b)) as [E|], (Z.eqb_spec (byte_of b) (byte_of a)); cbn; try done; try lia.
  intros H1 H2. apply byte_of_inj in E as ->. f_equal. by apply IH.
Qed.

Lemma string_leb_trans s t u : string_leb s t = true -> string_leb t u = true -> string_leb s u = true.
Proof.
  revert t u. induction s as [|a s IH]; intros [|b t] [|c u]; cbn; try done.
  rewrite !orb_true_iff, !andb_true_iff, !Z.ltb_lt, !Z.eqb_eq.
  intros [?|[? ?]] [?|[? ?]]; [left; lia..|]. right. split; [lia|by eapply IH].
Qed.

Definition pair_le (p q : string * string) : Prop := pair_leb p q = true.

#[global] Instance pair_le_trans : Transitive pair_le.
Proof.
  intros [a x] [b y] [d z]. unfold pair_le, pair_leb. cbn [fst snd].
  destruct (String.eqb_spec a b) as [->|Hab], (String.eqb_spec b d) as [->|Hbd]; intros H1 H2.
  - by eapply string_leb_trans.
  - done.
  - by destruct (String.eqb_spec a d).
  - destruct (String.eqb_spec a d) as [->|]; [|by eapply string_leb_trans].
    exfalso. by apply Hab, string_leb_antisym.
Qed.

#[global] Instance pair_le_antisym : AntiSymm (=) pair_le.
Proof.
  intros [a x] [b y]. unfold pair_le, pair_leb. cbn [fst snd].
  destruct (String.eqb_spec a b) as [->|Hab]; [rewrite String.eqb_refl|destruct (String.eqb_spec b a) as [->|]; [done|]].
  - intros H1 H2. f_equal. by apply string_leb_antisym.
  - intros H1 H2. by destruct Hab; apply string_leb_antisym.
Qed.

Lemma pair_le_total p q : pair_le p q \/ pair_le q p.
Proof.
  destruct p as [a x], q as [b y]. unfold pair_le, pair_leb. cbn [fst snd].
  destruct (String.eqb_spec a b) as [->|Hab]; [rewrite String.eqb_refl|destruct (String.eqb_spec b a) as [->|]; [done|]];
    apply string_leb_total.
Qed.

Lemma insert_sorted_perm x l : insert_sorted x l ≡ₚ x :: l.
Proof.
  induction l as [|y l IH]; cbn; [done|]. destruct (pair_leb x y); [done|]. rewrite IH. apply Permutation_swap.
Qed.

Lemma sort_pairs_perm l : sort_pairs l ≡ₚ l.
Proof. induction l as [|x l IH]; cbn; [done|]. by rewrite insert_sorted_perm, IH. Qed.

Lemma insert_sorted_sorted x l : StronglySorted pair_le l -> StronglySorted pair_le (insert_sorted x l).
Proof.
  induction 1 as [|y l Hl IH Hy]; cbn; [repeat constructor|].
  destruct (pair_leb x y) eqn:E.
  - constructor; [by constructor|]. constructor; [done|]. eapply Forall_impl; [exact Hy|]. intros z Hz. by etrans.
  - constructor; [done|]. rewrite insert_sorted_perm. constructor; [|done].
    destruct (pair_le_total x y) as [Hx|Hx]; [|done]. unfold pair_le in Hx. by rewrite E in Hx.
Qed.

Lemma sort_pairs_sorted l : StronglySorted pair_le (sort_pairs l).
Proof. induction l as [|x l IH]; cbn; [constructor|by apply insert_sorted_sorted]. Qed.

Lemma sort_pairs_unique l l' : l ≡ₚ l' -> sort_pairs l = sort_pairs l'.
Proof.
  intros H. apply (StronglySorted_unique pair_le); [apply sort_pairs_sorted..|].
  by rewrite !sort_pairs_perm.
Qed.

(** Reading a query back: parameters separated by [&], each a key and a value
    separated by [=], percent-encoded. *)
Definition parse_param (s : string) : option (string * string) :=
  '(k, v) ← split_once "=" s; k' ← percent_decode k; v' ← percent_decode v; Some (k', v').

Definition parse_query (q : string) : option (list (string * string)) :=
  if is_empty q then Some [] else mapM parse_param (split "&" q).

Section query.
Context `{X : Ext} `{S : !ExtSpec X}.

Definition unreserved_byte (c : ascii) : bool := negb (SIGV4_ENCODE c) || Ascii.eqb c "%".

Lemma sigv4_bytes s : all_bytes unreserved_byte (sigv4_encode s) = true.
Proof.
  unfold sigv4_encode. rewrite percent_encode_spec. induction s as [|c s IH]; cbn [percent_bytes]; [done|].
  rewrite all_bytes_append, IH, andb_true_r. pose proof (byte_case (fun c =>
    all_bytes unreserved_byte (if (128 <=? byte_of c) || SIGV4_ENCODE c then percent c else String c EmptyString)))
    as Hb. apply Hb. vm_compute. reflexivity.
Qed.

Lemma sigv4_no_char c s : unreserved_byte c = false -> contains_char c (sigv4_encode s) = false.
Proof.
  intros Hc. pose proof (sigv4_bytes s) as Hs. induction (sigv4_encode s) as [|b t IH]; [done|].
  cbn in *. apply andb_true_iff in Hs as [Hb Ht]. rewrite IH by done.
  destruct (Ascii.eqb_spec b c) as [->|]; [congruence|done].
Qed.

Lemma sigv4_decode s : percent_decode (sigv4_encode s) = Some s.
Proof. unfold sigv4_encode. rewrite percent_encode_spec. by apply percent_bytes_decode. Qed.

Definition encoded_param (p : string * string) : string := sigv4_encode (fst p) +:+ "=" +:+ sigv4_encode (snd p).

Lemma encoded_param_no_amp p : contains_char "&" (encoded_param p) = false.
Proof. unfold encoded_param. by rewrite !contains_char_append, !sigv4_no_char. Qed.

Lemma parse_encoded_param p : parse_param (encoded_param p) = Some p.
Proof.
  unfold parse_param, encoded_param.
  rewrite (proj2 (split_once_spec "=" _ (sigv4_encode (fst p)) (sigv4_encode (snd p)))); [|by split; [|apply sigv4_no_char]].
  cbn [mbind option_bind]. rewrite !sigv4_decode. by destruct p.
Qed.

Lemma split_encoded l : l <> [] -> split "&" (join "&" (map encoded_param l)) = map encoded_param l.
Proof.
  induction l as [|p [|q l] IH]; intros Hl; [done| |].
  - cbn [map join]. apply split_no_sep, encoded_param_no_amp.
  - cbn [map]. rewrite join_cons by done. change ("&" +:+ ?s) with (String "&" s).
    rewrite split_append, split_no_sep by apply encoded_param_no_amp. cbn [map] in IH. by rewrite IH.
Qed.

Lemma encoded_param_not_empty p : is_empty (encoded_param p) = false.
Proof. unfold encoded_param. rewrite !is_empty_append. cbn. by rewrite andb_false_r. Qed.

Lemma parse_joined l : parse_query (join "&" (map encoded_param l)) = Some l.
Proof.
  destruct l as [|p l]; [done|]. unfold parse_query.
  assert (is_empty (join "&" (map encoded_param (p :: l))) = false) as ->.
  { destruct l as [|q l]; [apply encoded_param_not_empty|]. cbn [map]. rewrite join_cons by done.
    by rewrite is_empty_append, encoded_param_not_empty. }
  rewrite split_encoded by done. generalize (p :: l). clear p l. intros l.
  induction l as [|p l IH]; [done|]. cbn [map mapM]. rewrite parse_encoded_param, IH. done.
Qed.

(** The parameters of a query, in the order they are written. *)
Lemma canonical_query_params l :
  exists l', l' ≡ₚ l /\ StronglySorted pair_le (map (fun p => (sigv4_encode (fst p), sigv4_encode (snd p))) l') /\
    canonical_query l = join "&" (map encoded_param l').
Proof.
  unfold canonical_query. set (f := fun p : string * string => (sigv4_encode (fst p), sigv4_encode (snd p))).
  pose proof (sort_pairs_sorted (map f l)) as Hs.
  destruct (Permutation_map_inv f l (sort_pairs_perm (map f l))) as (l' & E & Hp).
  exists l'. rewrite <- E. split; [by symmetry|]. split; [done|]. rewrite E, map_map. done.
Qed.

Lemma canonical_query_perm l l' : l ≡ₚ l' -> canonical_query l = canonical_query l'.
Proof.
  intros H. unfold canonical_query. cbn zeta. do 2 f_equal. apply sort_pairs_unique. by rewrite H.
Qed.
End query.

(** ** The change batch *)

(** The five characters of XML, and their entities. *)
Definition entity (c : ascii) : option string :=
  if Ascii.eqb c "<" then Some "&lt;"%string
  else if Ascii.eqb c ">" then Some "&gt;"%string
  else if Ascii.eqb c "&" then Some "&amp;"%string
  else if Ascii.eqb c "'" then Some "&apos;"%string
  else if Ascii.eqb c quote then Some "&quot;"%string
  else None.

Fixpoint xml_bytes (s : string) : string :=
  match s with
  | EmptyString => EmptyString
  | String c s' => default (String c EmptyString) (entity c) +:+ xml_bytes s'
  end.

(** What [quick_xml] documents of [escape]. *)
Class R53ExtSpec (XR : R53Ext) : Prop := {
  xml_escape_spec : forall s, xml_escape s = xml_bytes s
}.

(** Reading a batch back. *)
Definition read_entity (s : string) : option (ascii * string) :=
  match strip_prefix "&lt;" s with Some r => Some ("<"%char, r) | None =>
  match strip_prefix "&gt;" s with Some r => Some (">"%char, r) | None =>
  match strip_prefix "&amp;" s with Some r => Some ("&"%char, r) | None =>
  match strip_prefix "&apos;" s with Some r => Some ("'"%char, r) | None =>
  match strip_prefix "&quot;" s with Some r => Some (quote, r) | None => None
  end end end end end.

Fixpoint xml_text (fuel : nat) (s : string) : string :=
  match fuel, s with
  | S fuel', String c s' =>
      match read_entity s with
      | Some (c', r) => String c' (xml_text fuel' r)
      | None => String c (xml_text fuel' s')
      end
  | _, _ => EmptyString
  end.

Definition unescape (s : string) : string := xml_text (String.length s) s.

(** The text up to the next tag, and what follows the tags [close]. *)
Definition element (close s : string) : option (string * string) :=
  '(t, r) ← split_once "<" s; r' ← strip_prefix close r; Some (t, r').

Fixpoint read_records (fuel : nat) (s : string) : option (list string) :=
  match fuel with
  | O => None
  | S fuel' =>
      match strip_prefix "<ResourceRecord><Value>" s with
      | Some r =>
          '(v, r') ← element "/Value></ResourceRecord>" r; l ← read_records fuel' r'; Some (unescape v :: l)
      | None =>
          if (s =? "</ResourceRecords></ResourceRecordSet></Change></Changes></ChangeBatch></ChangeResourceRecordSetsRequest>")%string
          then Some [] else None
      end
  end.

Definition batch_head : string :=
  "<?xml version=" +:+ dquote +:+ "1.0" +:+ dquote +:+ " encoding=" +:+ dquote +:+ "UTF-8" +:+ dquote +:+ "?>"
  +:+ "<ChangeResourceRecordSetsRequest xmlns=" +:+ dquote +:+ XML_NAMESPACE +:+ dquote +:+ ">"
  +:+ "<ChangeBatch><Changes><Change><Action>".

(** The action, the name, the TTL and the values. *)
Definition read_batch (text : string) : option (string * string * string * list string) :=
  r0 ← strip_prefix batch_head text;
  '(action, r1) ← element "/Action><ResourceRecordSet><Name>" r0;
  '(name, r2) ← element "/Name><Type>TXT</Type><TTL>" r1;
  '(t, r3) ← element "/TTL><ResourceRecords>" r2;
  values ← read_records (String.length r3) r3;
  Some (action, unescape name, t, values).

(** The cases of [entity]. *)
Ltac each_entity c tac :=
  unfold entity;
  destruct (Ascii.eqb_spec c "<") as [->|]; [tac|];
  destruct (Ascii.eqb_spec c ">") as [->|]; [tac|];
  destruct (Ascii.eqb_spec c "&") as [->|]; [tac|];
  destruct (Ascii.eqb_spec c "'") as [->|]; [tac|];
  destruct (Ascii.eqb_spec c quote) as [->|]; [tac|].

Lemma entity_text c : match entity c with Some e => exists e', e = String "&" e' | None => c <> "<"%char /\ c <> "&"%char end.
Proof.
  each_entity c ltac:(by eexists). by split.
Qed.

Lemma xml_bytes_no_lt s : contains_char "<" (xml_bytes s) = false.
Proof.
  induction s as [|c s IH]; [done|]. cbn [xml_bytes]. rewrite contains_char_append, IH, orb_false_r.
  each_entity c ltac:(done). cbn. by destruct (Ascii.eqb_spec c "<").
Qed.

Lemma read_entity_other c s : c <> "&"%char -> read_entity (String c s) = None.
Proof. intros Hc. unfold read_entity. cbn [strip_prefix]. by destruct (Ascii.eqb_spec "&" c) as [<-|]. Qed.

Lemma read_entity_escape c e s : entity c = Some e -> read_entity (e +:+ s) = Some (c, s).
Proof.
  each_entity c ltac:(intros [= <-]; reflexivity). done.
Qed.

Lemma xml_text_bytes s n : (String.length (xml_bytes s) <= n)%nat -> xml_text n (xml_bytes s) = s.
Proof.
  revert n. induction s as [|c s IH]; intros n Hn; [by destruct n|]. cbn [xml_bytes] in *.
  pose proof (entity_text c) as He. destruct (entity c) as [e|] eqn:E; cbn [default from_option id] in *; unfold id in *.
  - destruct He as [e' ->]. rewrite length_append in Hn. cbn in Hn.
    destruct n as [|n]; [lia|]. pose proof (read_entity_escape c _ (xml_bytes s) E) as Hr.
    change (String "&" e' +:+ xml_bytes s) with (String "&" (e' +:+ xml_bytes s)) in *. cbn [xml_text].
    rewrite Hr. f_equal. apply IH. lia.
  - destruct He as [_ Hc]. rewrite length_append in Hn. cbn in Hn. destruct n as [|n]; [lia|].
    change (String c EmptyString +:+ xml_bytes s) with (String c (xml_bytes s)). cbn [xml_text].
    rewrite read_entity_other by done. f_equal. apply IH. lia.
Qed.

Lemma unescape_bytes s : unescape (xml_bytes s) = s.
Proof. by apply xml_text_bytes. Qed.

Lemma element_spec close t r : contains_char "<" t = false -> element close (t +:+ String "<" (close +:+ r)) = Some (t, r).
Proof.
  intros Ht. unfold element. rewrite (proj2 (split_once_spec "<" _ t (close +:+ r))) by done.
  cbn [mbind option_bind]. by rewrite strip_prefix_append.
Qed.

Definition batch_tail : string :=
  "</ResourceRecords></ResourceRecordSet></Change></Changes></ChangeBatch></ChangeResourceRecordSetsRequest>".

Definition record_text (v : string) : string :=
  "<ResourceRecord><Value>" +:+ xml_bytes v +:+ "</Value></ResourceRecord>".

Lemma read_records_text l n :
  (length l < n)%nat -> read_records n (join EmptyString (map record_text l) +:+ batch_tail) = Some l.
Proof.
  revert n. induction l as [|v l IH]; intros [|n] Hn; cbn in Hn; [lia..| |lia|].
  - cbn [map join read_records]. reflexivity.
  - assert (join EmptyString (map record_text (v :: l)) = record_text v +:+ join EmptyString (map record_text l)) as ->.
    { destruct l as [|x l]; [cbn [map join]; by rewrite append_nil_r|]. cbn [map]. by rewrite join_cons. }
    cbn [read_records]. unfold record_text at 1. rewrite !append_assoc, strip_prefix_append.
    change ("</Value></ResourceRecord>" +:+ ?s) with (String "<" ("/Value></ResourceRecord>" +:+ s)).
    rewrite element_spec by apply xml_bytes_no_lt. cbn [mbind option_bind]. rewrite IH by lia.
    cbn [mbind option_bind]. by rewrite unescape_bytes.
Qed.

Lemma records_text_length l : (length l <= String.length (join EmptyString (map record_text l)))%nat.
Proof.
  assert (forall v, 1 <= String.length (record_text v))%nat as Hr by (intros v; cbn; lia).
  induction l as [|v [|x l] IH]; [done|apply Hr|].
  cbn [map]. rewrite join_cons by done. rewrite !length_append. specialize (Hr v).
  change (record_text x :: map record_text l) with (map record_text (x :: l)). cbn [length String.length] in *. lia.
Qed.

Lemma read_change_batch `{XR : R53Ext} `{!R53ExtSpec XR} action name set :
  contains_char "<" action = false ->
  read_batch (change_batch_xml action name set) = Some (action, name, pretty (ts_ttl set), ts_values set).
Proof.
  intros Ha.
  assert (change_batch_xml action name set =
    batch_head +:+ action +:+ String "<" ("/Action><ResourceRecordSet><Name>" +:+ xml_bytes name +:+
    String "<" ("/Name><Type>TXT</Type><TTL>" +:+ pretty (ts_ttl set) +:+
    String "<" ("/TTL><ResourceRecords>" +:+ join EmptyString (map record_text (ts_values set)) +:+ batch_tail)))) as ->.
  { unfold change_batch_xml, batch_head, batch_tail. rewrite xml_escape_spec, !append_assoc. cbn zeta.
    assert (map (fun v => "<ResourceRecord><Value>" +:+ xml_escape v +:+ "</Value></ResourceRecord>") (ts_values set)
            = map record_text (ts_values set)) as ->; [|done].
    apply map_ext. intros v. unfold record_text. by rewrite xml_escape_spec. }
  unfold read_batch. rewrite strip_prefix_append. cbn [mbind option_bind].
  rewrite element_spec by done. cbn [mbind option_bind].
  rewrite element_spec by apply xml_bytes_no_lt. cbn [mbind option_bind].
  rewrite element_spec by by apply pretty_no_char. cbn [mbind option_bind].
  rewrite read_records_text, unescape_bytes; [done|].
  rewrite length_append. pose proof (records_text_length (ts_values set)). cbn. lia.
Qed.

(** ** The Route 53 API

    [recs w (z, n)] are the values of the TXT record set of the name [n] in
    the hosted zone [z], as the API writes them; there are none when there is
    no such set. *)

Definition valid_id (id : string) : bool :=
  negb (is_empty id) && (len id <=? 64) && all_bytes is_ascii_alphanumeric id.

(** The key of a change, from the identifier of the API. *)
Definition change_key (id : string) : string := default id (strip_prefix "/change/" id).

Definition set_values (o : option TxtSet) : list string :=
  match o with Some s => ts_values s | None => [] end.

(** The values a batch leaves. *)
Definition batch_values (action : string) (set : TxtSet) : option (list string) :=
  if (action =? "UPSERT")%string then Some (ts_values set)
  else if (action =? "DELETE")%string then Some []
  else None.

Definition sent_to `{X : Ext} `{XR : R53Ext} (c : Route53Config) (path : string) (query : list (string * string))
    (req : Request) : Prop :=
  exists u, parse_url (raw_url c path query) = Ok u /\ url req = url_text u.

(** A set of a listing that is the TXT record set of the name [n]; names are
    the same up to case and a trailing dot. *)
Definition txt_of (n : string) (s : ResourceRecordSet) : Prop :=
  to_ascii_lowercase (trim_end_matches dot (set_name s)) = to_ascii_lowercase (trim_end_matches dot n) /\
  record_type s = "TXT"%string.

(** What a listing that starts at the TXT record set of [n] says of its data
    [l]: the first set is that one, unless there is none.  Nothing is said of
    the data of a set with a routing policy, which has an identifier. *)
Definition lists_data (n : string) (sets : list ResourceRecordSet) (l : list string) : Prop :=
  match sets with
  | [] => l = []
  | s :: _ =>
      (txt_of n s -> set_identifier s = None -> resource_records s = Some l \/ (resource_records s = None /\ l = [])) /\
      (~ txt_of n s -> l = [])
  end.

(** [names z] is the name of the public hosted zone [z].  The zone of a name is
    the one with the most of its labels. *)
Definition zone_key (id : string) : string := default id (strip_prefix "/hostedzone/" id).

Definition closest (names : string -> option string) (n z : string) : Prop :=
  exists pre post, split dot n = pre ++ post /\ names z = Some (join "." post) /\
    forall z' pre' post', split dot n = pre' ++ post' -> (length post < length post')%nat ->
      names z' <> Some (join "." post').

Definition is_public (z : HostedZone) : Prop := hz_private z <> Some true.
Definition zone_named (n : string) (z : HostedZone) : Prop :=
  to_ascii_lowercase (trim_end_matches dot (hz_name z)) = n.

Record r5_api `{X : Ext} `{XR : R53Ext} {W} (h : handler sysE W) (c : Route53Config) (names : string -> option string)
    (recs : W -> string * string -> list string)
    (change_of : W -> string -> option ((string * string) * list string)) (applied : W -> string -> Prop) : Prop := {
  r5_background : background h recs;
  r5_kept : changes_kept h change_of applied;
  (** The configured zone and those of the cache are identifiers. *)
  r5_zone_id : forall z, hosted_zone_id c = Some z -> valid_id z = true;
  r5_cache : forall n w z, fst (h _ (CacheGet n) w) = Some z -> valid_id z = true /\ closest names n z;
  (** The zones with the name asked for are listed, before others. *)
  r5_zones : forall req w resp text n zones,
    fst (h _ (HttpSend req) w) = Ok resp -> method req = GET ->
    sent_to c "/hostedzonesbyname" [("dnsname", n); ("maxitems", "100")]%string req ->
    is_success (status resp) = true -> response_text resp = Ok text -> xml_zones text = Ok zones ->
    (forall z m, z ∈ zones -> is_public z -> zone_named m z -> names (zone_key (hz_id z)) = Some m) /\
    (forall id, names id = Some n -> exists z, z ∈ zones /\ is_public z /\ zone_named n z);
  r5_list : forall req w resp text z n sets,
    fst (h _ (HttpSend req) w) = Ok resp -> method req = GET -> valid_id z = true ->
    sent_to c (rrset_path z) (rrset_query n) req -> is_success (status resp) = true ->
    response_text resp = Ok text -> xml_sets text = Ok sets ->
    lists_data n sets (recs w (z, n));
  r5_change : forall req z n action set l,
    method req = POST -> valid_id z = true -> sent_to c (change_path z) [] req ->
    body req = Some (JStr (change_batch_xml action n set)) -> batch_values action set = Some l ->
    forall w, let '(r, w') := h _ (HttpSend req) w in
      (same recs w w' \/ set_to recs (z, n) l w w') /\
      forall resp text ci, r = Ok resp -> is_success (status resp) = true -> response_text resp = Ok text ->
        xml_change text = Ok ci ->
        set_to recs (z, n) l w w' /\ change_of w' (change_key (ci_id ci)) = Some ((z, n), l) /\
        (ci_status ci = "INSYNC"%string -> applied w' (change_key (ci_id ci)));
  r5_poll : forall req w resp text id ci,
    fst (h _ (HttpSend req) w) = Ok resp -> method req = GET -> valid_id id = true ->
    sent_to c ("/change/" +:+ id) [] req -> is_success (status resp) = true ->
    response_text resp = Ok text -> xml_change text = Ok ci ->
    change_key (ci_id ci) = id /\
    (ci_status ci = "INSYNC"%string -> applied (snd (h _ (HttpSend req) w)) id)
}.

(** ** Correctness *)

Lemma normalize_id_valid raw prefix id :
  normalize_id raw prefix = Some id -> valid_id id = true /\ id = default raw (strip_prefix prefix raw).
Proof.
  unfold normalize_id, valid_id. set (i := default raw (strip_prefix prefix raw)).
  destruct (_ && _) eqn:E; [|done]. by intros [= <-].
Qed.

Section theory.
Context `{X : Ext} `{S : !ExtSpec X} `{XR : R53Ext} {W : Type} (h : handler sysE W) (c : Route53Config).
Context (names : string -> option string) (recs : W -> string * string -> list string).
Context (change_of : W -> string -> option ((string * string) * list string)).
Context (applied : W -> string -> Prop) (Hapi : r5_api h c names recs change_of applied).
Local Abbreviation quiet := (bg_quiet _ _ (r5_background _ _ _ _ _ _ Hapi)).
Local Abbreviation vals := (view recs (map unquote) (fun k => k)).

(** A request, under an invariant of every attempt. *)
Lemma wp_api (J : W -> Prop) m path q b (Q : dns_result string -> W -> Prop) w :
  (forall Y (e : sysE Y) v, is_request e = false -> J v -> J (snd (h Y e v))) -> J w ->
  (forall e v, J v -> Q (Err e) v) ->
  (forall req v, J v -> method req = m -> sent_to c path q req ->
     (forall t, b = Some t -> t <> EmptyString -> body req = Some (JStr t)) ->
     let '(r, v') := h _ (HttpSend req) v in
     J v' /\ forall resp text, r = Ok resp -> is_success (status resp) = true -> response_text resp = Ok text ->
       Q (Ok text) v') ->
  wp h (send_api c m path q b) Q w.
Proof.
  intros HJ Hw He Ho. apply wp_try_pure; [|intros e _; by apply He]. intros u Hu.
  assert (exists u0, parse_url (raw_url c path q) = Ok u0 /\ url_text u = url_text u0) as Hsent.
  { destruct (parse_url _) as [u0|e]; [|done]. cbn in Hu. injection Hu as ->. eauto. }
  clear Hu. generalize (Z.to_nat (MAX_ATTEMPTS - 1)). intros left. revert w Hw.
  induction left as [|left IH]; intros w Hw; cbn [send_attempts]; apply wp_try.
  all: apply wp_bind, wp_bind, wp_vis, wp_ret; pose proof (HJ _ UtcNow w eq_refl Hw) as H1;
    destruct (h _ UtcNow w) as [[[[[[yy mo] dd] hh] mi] ss] w1]; cbn [fst snd] in H1 |- *; apply wp_ret;
    apply wp_try; set (req := signed_request _ _ _ _ _);
    assert (method req = m /\ sent_to c path q req /\
      (forall t, b = Some t -> t <> EmptyString -> body req = Some (JStr t))) as (Hm & Hs & Hb)
      by (unfold req, signed_request; split_and!;
          [by destruct (is_empty _)
          |destruct Hsent as (u0 & ? & ?); exists u0; by destruct (is_empty _)
          |intros t -> Ht; cbn [default from_option id]; unfold id; by destruct t]);
    apply (wp_send h J); [done|intros v d Hv; by apply HJ|]; intros v Hv; specialize (Ho req v Hv Hm Hs Hb);
    destruct (h _ (HttpSend req) v) as [r v']; destruct Ho as [Hv' Ho]; (split; [|done]);
    destruct r as [resp|e]; cbn [map_err]; [|by apply He];
    apply wp_try_pure; [|intros e _; by apply He]; intros text Ht; apply wp_ret;
    destruct (is_success (status resp)) eqn:Es; [apply wp_ret; by apply (Ho resp)|].
  - by apply wp_ret, He.
  - destruct (is_throttled text); [|by apply wp_ret, He].
    apply wp_bind, wp_vis, wp_ret, IH. by apply HJ.
Qed.

(** A read. *)
Lemma wp_api_get (J : W -> Prop) path q (Q : dns_result string -> W -> Prop) w :
  (forall Y (e : sysE Y) v, is_request e = false -> J v -> J (snd (h Y e v))) ->
  (forall req v, method req = GET -> J v -> J (snd (h _ (HttpSend req) v))) -> J w ->
  (forall e v, J v -> Q (Err e) v) ->
  (forall req resp text v v', J v -> h _ (HttpSend req) v = (Ok resp, v') -> method req = GET -> sent_to c path q req ->
     is_success (status resp) = true -> response_text resp = Ok text -> J v' -> Q (Ok text) v') ->
  wp h (send_api c GET path q None) Q w.
Proof.
  intros HJ Hg Hw He Ho. apply (wp_api J); [done|done|done|]. intros req v Hv Hm Hs _.
  pose proof (Hg req v Hm Hv) as Hv'. destruct (h _ (HttpSend req) v) as [r v'] eqn:E. cbn [snd] in Hv'.
  split; [done|]. intros resp text -> Es Ht. by apply (Ho req resp text v v').
Qed.

Lemma same_quiet w Y (e : sysE Y) v : is_request e = false -> same recs w v -> same recs w (snd (h Y e v)).
Proof. intros He Hv. etrans; [exact Hv|by apply quiet]. Qed.

Lemma same_get w req v : method req = GET -> same recs w v -> same recs w (snd (h _ (HttpSend req) v)).
Proof. intros He Hv. etrans; [exact Hv|by apply (bg_get _ _ (r5_background _ _ _ _ _ _ Hapi))]. Qed.

Lemma own_set_data n sets l o : lists_data n sets l -> own_set c n sets = Ok o -> set_values o = l.
Proof.
  unfold lists_data, own_set. destruct sets as [|s rest]; [by intros -> [= <-]|]. intros [Hs Hn].
  destruct (negb _ || negb _) eqn:E.
  - intros [= <-]. symmetry. apply Hn. unfold txt_of. intros [H1 H2].
    apply orb_true_iff in E as [E|E]; apply negb_true_iff, String.eqb_neq in E; done.
  - apply orb_false_iff in E as [E1%negb_false_iff%String.eqb_eq E2%negb_false_iff%String.eqb_eq].
    case_decide as Hid; [done|]. intros [= <-]. cbn.
    destruct (Hs (conj E1 E2)) as [->|[-> ->]]; [by apply eq_None_not_Some|done..].
Qed.

Lemma r5_fetch z n w :
  valid_id z = true ->
  wp h (fetch_rrset c z n) (fun r w' => same recs w w' /\ forall o, r = Ok o -> set_values o = recs w (z, n)) w.
Proof.
  intros Hz. apply wp_try, (wp_api_get (same recs w)); [apply same_quiet|apply same_get|done|done|].
  intros req resp text v v' Hv Hr Hm Hs Es Ht Hv'. apply wp_try_pure; [|done]. intros sets Hsets.
  unfold parse_xml in Hsets. destruct (xml_sets text) as [l|] eqn:El; [|done]. injection Hsets as ->.
  apply wp_ret. split; [done|]. intros o Ho. rewrite <- (Hv (z, n)).
  eapply own_set_data; [|exact Ho]. by eapply (r5_list _ _ _ _ _ _ Hapi req v resp); [rewrite Hr|..].
Qed.

Section change.
Context (z n : string) (l : list string).

Definition tracked (w : W) (ci : ChangeInfo) (v : W) : Prop :=
  set_to recs (z, n) l w v /\ change_of v (change_key (ci_id ci)) = Some ((z, n), l) /\
  (ci_status ci = "INSYNC"%string -> applied v (change_key (ci_id ci))).

Lemma tracked_same w ci Y (e : sysE Y) v :
  same recs v (snd (h Y e v)) -> tracked w ci v -> tracked w ci (snd (h Y e v)).
Proof.
  intros He (Hs & Hc & Ha). split_and!.
  - by rewrite <- He.
  - by apply (kept_change _ _ _ (r5_kept _ _ _ _ _ _ Hapi)).
  - intros Hd. by apply (kept_applied _ _ _ (r5_kept _ _ _ _ _ _ Hapi)), Ha.
Qed.

Lemma r5_fetch_change w ci v :
  tracked w ci v ->
  wp h (fetch_change c (ci_id ci)) (fun r v' =>
    match r with Ok ci' => tracked w ci' v' | Err _ => set_to recs (z, n) l w v' end) v.
Proof.
  intros Hv. apply wp_try_pure; [|intros e _; apply Hv]. intros id Hid%ok_or_ok.
  apply normalize_id_valid in Hid as [Hvalid Hid]. fold (change_key (ci_id ci)) in Hid. cbn zeta.
  apply wp_try, (wp_api_get (tracked w ci)).
  - intros Y e y He Hy. by apply tracked_same; [apply quiet|].
  - intros req y Hm Hy. by apply tracked_same; [apply (bg_get _ _ (r5_background _ _ _ _ _ _ Hapi))|].
  - done.
  - intros e y Hy. apply Hy.
  - intros req resp text y y' Hy Hr Hm Hs Es Ht Hy'. apply wp_try_pure; [|intros e _; apply Hy'].
    intros ci' Hci. unfold parse_xml in Hci. destruct (xml_change text) as [x|] eqn:Ex; [|done]. injection Hci as ->.
    apply wp_ret. assert (fst (h _ (HttpSend req) y) = Ok resp) as Hr' by by rewrite Hr.
    destruct (r5_poll _ _ _ _ _ _ Hapi req y resp text id ci' Hr' Hm Hvalid Hs Es Ht Ex) as [Ei Hd].
    destruct Hy' as (H1 & H2 & _). split_and!; [done|by rewrite Ei, Hid|]. rewrite Ei. intros Hst.
    specialize (Hd Hst). by rewrite Hr in Hd.
Qed.

Lemma r5_wait w ci v :
  tracked w ci v ->
  wp h (wait_for_change c ci) (fun r v' => set_to recs (z, n) l w v' /\
    (r = Ok tt -> applied_set recs change_of applied (z, n) v')) v.
Proof.
  intros Hv. apply wp_bind, wp_vis, wp_ret. cbn zeta. apply (wp_wait_until h (tracked w)).
  - intros Y e y a He Hy. by apply tracked_same; [apply quiet|].
  - intros a y r (H1 & H2 & H3) Ha. split; [done|]. intros Hr. exists (change_key (ci_id a)).
    unfold settled in Ha. destruct (String.eqb_spec (ci_status a) "INSYNC") as [Ed|]; [|done].
    split; [|by apply H3]. by rewrite (proj1 H1).
  - intros a y o (H1 & _). by split.
  - intros a y Hy. apply wp_lifted. eapply wp_mono; [by apply (r5_fetch_change w)|]. intros [a'|e] y' H; [done|by split].
  - by apply tracked_same; [apply quiet|].
Qed.

Lemma batch_not_empty action set : change_batch_xml action n set <> EmptyString.
Proof. done. Qed.

Lemma r5_change_rrset action set w :
  valid_id z = true -> batch_values action set = Some l ->
  wp h (change_rrset c z action n set) (fun r w' =>
    (same recs w w' \/ set_to recs (z, n) l w w') /\
    (r = Ok tt -> set_to recs (z, n) l w w' /\ applied_set recs change_of applied (z, n) w')) w.
Proof.
  intros Hz Hl. apply wp_try, wp_lifted, wp_try.
  apply (wp_api (fun v => same recs w v \/ set_to recs (z, n) l w v)).
  - intros Y e v He Hv. pose proof (quiet Y e v He) as Hs.
    destruct Hv as [Hv|Hv]; [left; by etrans|right; by rewrite <- Hs].
  - by left.
  - intros e v Hv. by split.
  - intros req v Hv Hm Hs Hb. specialize (Hb _ eq_refl (batch_not_empty action set)).
    pose proof (r5_change _ _ _ _ _ _ Hapi req z n action set l Hm Hz Hs Hb Hl v) as Hc.
    destruct (h _ (HttpSend req) v) as [r v']. destruct Hc as [Hd Ho].
    assert (forall u, set_to recs (z, n) l v u -> set_to recs (z, n) l w u) as Htr.
    { intros u Hu. destruct Hv as [Hv|Hv]; [by rewrite Hv|by eapply set_to_trans]. }
    split.
    { destruct Hd as [Hd|Hd]; [|right; by apply Htr].
      destruct Hv as [Hv|Hv]; [left; by etrans|right; by rewrite <- Hd]. }
    intros resp text -> Es Ht. unfold ptry_pure, parse_xml.
    destruct (xml_change text) as [ci|e] eqn:Ec; cbn [map_err].
    + apply wp_ret. cbn [lift map_err]. destruct (Ho resp text ci eq_refl Es Ht Ec) as (H1 & H2 & H3).
      eapply wp_mono; [apply (r5_wait w ci v'); split_and!; [by apply Htr|done|done]|].
      intros r w3 [H4 H5]. split; [by right|]. intros Hr. split; [done|by apply H5].
    + apply wp_ret. split; [|done]. destruct Hd as [Hd|Hd]; [|right; by apply Htr].
      destruct Hv as [Hv|Hv]; [left; by etrans|right; by rewrite <- Hd].
Qed.
End change.

Lemma r5_unquote s : unquote s = Txt.unquote s.
Proof. reflexivity. Qed.

Lemma r5_unquote_quoted v : unquote (quoted v) = v.
Proof. by rewrite r5_unquote, unquote_quoted. Qed.

Lemma r5_lifted_fetch z n w :
  valid_id z = true ->
  wp h (lifted (fetch_rrset c z n)) (fun r w' => same recs w w' /\
    forall o, r = Ok o -> set_values o = recs w (z, n) /\ True) w.
Proof.
  intros Hz. apply wp_lifted. eapply wp_mono; [by apply r5_fetch|]. intros r w' [H Ho]. split; [done|].
  intros o Hr%lift_ok. split; [by apply Ho|done].
Qed.

(** What [present] and [cleanup] write in place of a set. *)
Definition upserted (z n : string) (o : option TxtSet) (l : list string) : sys (fueled unit) :=
  change_rrset c z "UPSERT" n (mkTxtSet match o with Some s => ts_ttl s | None => ttl c end l).

Definition rest_written (z n : string) (o : option TxtSet) (l : list string) : sys (fueled unit) :=
  match o, l with
  | Some s, [] => change_rrset c z "DELETE" n s
  | Some s, _ => change_rrset c z "UPSERT" n (mkTxtSet (ts_ttl s) l)
  | None, _ => Ret (Err Exhausted)
  end.

Lemma r5_present_locked z n v w :
  valid_id z = true ->
  wp h (present_locked c z n v) (fun r w' =>
    added vals (z, n) v w r w' /\ (r = Ok tt -> same recs w w' \/ applied_set recs change_of applied (z, n) w')) w.
Proof.
  intros Hz. eapply wp_ext; [|apply (wp_change_present h recs change_of applied unquote r5_unquote_quoted (z, n)
    (lifted (fetch_rrset c z n)) set_values (fun _ => True) (upserted z n)); [intros; by apply r5_lifted_fetch|]].
  - unfold present_locked, ts_contains, rr_present, ptry. rewrite !run_bind.
    destruct (run h (lifted (fetch_rrset c z n)) w) as [[[s|]|e] w1]; [|reflexivity..].
    cbn [set_values]. destruct (existsb _ (ts_values s)); reflexivity.
  - intros o l w0 _. by apply r5_change_rrset.
Qed.

Lemma filtered_values v l :
  (length (List.filter (fun x => negb (unquote x =? v)%string) l) =? length l)%nat =
  negb (existsb (fun x => (unquote x =? v)%string) l).
Proof. apply filter_length_existsb. Qed.

Lemma r5_cleanup_locked z n v w :
  valid_id z = true ->
  wp h (cleanup_locked c z n v) (fun r w' =>
    removed vals (z, n) v w r w' /\ (r = Ok tt -> same recs w w' \/ applied_set recs change_of applied (z, n) w')) w.
Proof.
  intros Hz. eapply wp_ext; [|apply (wp_change_cleanup h recs change_of applied unquote (z, n)
    (lifted (fetch_rrset c z n)) set_values (fun _ => True) (rest_written z n)); [intros; by apply r5_lifted_fetch|]].
  - unfold cleanup_locked, ts_contains, rr_cleanup, ptry. rewrite !run_bind.
    destruct (run h (lifted (fetch_rrset c z n)) w) as [[[s|]|e] w1]; [|reflexivity..].
    cbn [set_values]. cbn zeta. rewrite filtered_values. destruct (existsb _ (ts_values s)); cbn [negb]; [|reflexivity].
    unfold rest_written. destruct (List.filter _ _); reflexivity.
  - intros [s|] l w0 _; [|apply wp_ret; by split; [left|]].
    destruct l; by apply r5_change_rrset.
Qed.

Lemma public_zones_elem n z l : z ∈ public_zones n l <-> z ∈ l /\ is_public z /\ zone_named n z.
Proof.
  unfold public_zones, is_public, zone_named. rewrite !filter_elem, String.eqb_eq. unfold normalize_name.
  assert (negb (default false (hz_private z)) = true <-> hz_private z <> Some true) as ->; [|tauto].
  by destruct (hz_private z) as [[]|].
Qed.

Lemma r5_find_public_zone n w :
  wp h (find_public_zone c n) (fun r w' => same recs w w' /\
    (forall z, r = Ok (Some z) -> valid_id z = true /\ names z = Some n) /\
    (r = Ok None -> forall z, names z <> Some n)) w.
Proof.
  cbn zeta. apply wp_try, (wp_api_get (same recs w)); [apply same_quiet|apply same_get|done|done|].
  intros req resp text v v' _ Hr Hm Hs Es Ht Hv'. apply wp_try_pure; [|done]. intros zones Hz.
  unfold parse_xml in Hz. destruct (xml_zones text) as [l|] eqn:El; [|done]. injection Hz as ->.
  assert (fst (h _ (HttpSend req) v) = Ok resp) as Hr' by by rewrite Hr.
  destruct (r5_zones _ _ _ _ _ _ Hapi req v resp text n zones Hr' Hm Hs Es Ht El) as [Hnames Hall].
  destruct (public_zones n zones) as [|z0 [|z1 rest]] eqn:E.
  - apply wp_ret. split_and!; [done|done|]. intros _ z (z' & Hz' & Hp)%Hall.
    assert (z' ∈ public_zones n zones) as Hin by by apply public_zones_elem. rewrite E in Hin. by apply elem_of_nil in Hin.
  - assert (z0 ∈ public_zones n zones) as (H1 & H2 & H3)%public_zones_elem by (rewrite E; by left).
    destruct (normalize_id (hz_id z0) "/hostedzone/") as [id|] eqn:Ei; apply wp_ret; [|done].
    split_and!; [done| |done]. intros z [= <-]. apply normalize_id_valid in Ei as [Hid ->]. split; [done|].
    by apply (Hnames z0).
  - by apply wp_ret.
Qed.

Lemma r5_zone_walk f n pre labels w :
  split dot n = pre ++ labels ->
  (forall z pre' post', split dot n = pre' ++ post' -> (length labels < length post')%nat ->
     names z <> Some (join "." post')) ->
  wp h (zone_walk c f n labels) (fun r w' => same recs w w' /\
    forall z, r = Ok z -> valid_id z = true /\ closest names n z) w.
Proof.
  revert pre w. induction labels as [|x [|y rest] IH]; intros pre w Hn Hno; [by apply wp_ret..|].
  cbn [zone_walk]. apply wp_try. eapply wp_mono; [apply r5_find_public_zone|].
  intros [[id|]|e] w1 (H1 & Hid & Hnone); [| |done].
  - apply wp_bind, wp_vis, wp_ret, wp_ret. split; [etrans; [exact H1|by apply quiet]|].
    intros z [= <-]. destruct (Hid id eq_refl) as [Hv Hname]. split; [done|].
    exists pre, (x :: y :: rest). split_and!; [done|done|]. exact Hno.
  - eapply wp_mono; [apply (IH (pre ++ [x]))|].
    + by rewrite <- app_assoc.
    + intros z pre' post' Hs Hlen. destruct (decide (length post' = length (x :: y :: rest))) as [Heq|Hne].
      * assert (post' = x :: y :: rest) as -> by (rewrite Hn in Hs; apply app_inj_2 in Hs as [_ ->]; done).
        by apply Hnone.
      * apply (Hno z pre' post' Hs). cbn [length] in *. lia.
    + intros r w2 [H2 Hz]. split; [by rewrite H1|done].
Qed.

(** The record set of a call: that of the name, in the configured zone, or in
    the closest public one. *)
Definition r5_keys (f : string) (k : string * string) : Prop :=
  snd k = normalize_name f +:+ "." /\ valid_id (fst k) = true /\
  match hosted_zone_id c with
  | Some z => z = fst k
  | None => closest names (normalize_name f) (fst k)
  end.

Lemma r5_resolve f w :
  wp h (resolve_zone c f) (fun r w' => same recs w w' /\
    forall z, r = Ok z -> r5_keys f (z, normalize_name f +:+ ".")) w.
Proof.
  unfold resolve_zone, r5_keys. cbn [fst snd]. destruct (hosted_zone_id c) as [z0|] eqn:E.
  - apply wp_ret. split; [done|]. intros z [= <-]. split_and!; [done| |done]. by apply (r5_zone_id _ _ _ _ _ _ Hapi).
  - cbn zeta. apply wp_bind, wp_vis, wp_ret.
    pose proof (quiet _ (CacheGet (normalize_name f)) w eq_refl) as Hq.
    pose proof (r5_cache _ _ _ _ _ _ Hapi (normalize_name f) w) as Hcache.
    destruct (h _ (CacheGet _) w) as [[z|] w1]; cbn [fst snd] in *.
    + apply wp_ret. split; [done|]. intros z' [= <-]. by destruct (Hcache z eq_refl).
    + eapply wp_mono; [apply (r5_zone_walk f (normalize_name f) [])|].
      * done.
      * intros z pre' post' Hs Hl. rewrite Hs, length_app in Hl. lia.
      * intros r w2 [H2 Hz]. split; [by rewrite Hq|]. intros z Hr. by destruct (Hz z Hr).
Qed.

Lemma r5_lifted_resolve f w :
  wp h (lifted (resolve_zone c f)) (fun r w' => same recs w w' /\
    forall z, r = Ok z -> r5_keys f (z, normalize_name f +:+ ".")) w.
Proof.
  apply wp_lifted. eapply wp_mono; [apply r5_resolve|]. intros r w' [H Hz]. split; [done|].
  intros z Hr%lift_ok. by apply Hz.
Qed.

Lemma r5_present f v w :
  wp h (present c f v) (fun r w' => touches recs (r5_keys f) (change_call recs change_of applied (added vals)) v w r w') w.
Proof.
  do 2 (apply wp_try_pure; [intros ? _|by intros; left]).
  apply (wp_change_call h recs change_of applied (r5_kept _ _ _ _ _ _ Hapi) (r5_background _ _ _ _ _ _ Hapi)
    (added vals) (r5_keys f) (fun z => (z, normalize_name f +:+ ".")) (lifted (resolve_zone c f))
    (fun z => z +:+ "|" +:+ normalize_name f +:+ ".")
    (fun z => present_locked c z (normalize_name f +:+ ".") v));
    [|apply r5_lifted_resolve|intros z w0 (_ & Hz & _); by apply r5_present_locked].
  intros k r w1 w2 w3 w4 H12 H34. by apply added_proper; [symmetry; apply same_view|done|symmetry; apply same_view].
Qed.

Lemma r5_cleanup f v w :
  wp h (cleanup c f v) (fun r w' => touches recs (r5_keys f) (change_call recs change_of applied (removed vals)) v w r w') w.
Proof.
  apply wp_try_pure; [intros ? _|by intros; left].
  apply (wp_change_call h recs change_of applied (r5_kept _ _ _ _ _ _ Hapi) (r5_background _ _ _ _ _ _ Hapi)
    (removed vals) (r5_keys f) (fun z => (z, normalize_name f +:+ ".")) (lifted (resolve_zone c f))
    (fun z => z +:+ "|" +:+ normalize_name f +:+ ".")
    (fun z => cleanup_locked c z (normalize_name f +:+ ".") v));
    [|apply r5_lifted_resolve|intros z w0 (_ & Hz & _); by apply r5_cleanup_locked].
  intros k r w1 w2 w3 w4 H12 H34. by apply removed_proper; [symmetry; apply same_view|done|symmetry; apply same_view].
Qed.
End theory.

(** ** Termination *)

Section termination.
Context `{X : Ext} `{XR : R53Ext} {W : Type} (h : handler sysE W) (clock : W -> Z) (Hc : steady_clock h clock).
Context (c : Route53Config).

Lemma change_rrset_returns z action n set w : wp h (change_rrset c z action n set) (fun r _ => returns r) w.
Proof.
  apply (wp_ends_try h clock Hc). intros ci w1 _. apply (waiting_ends h clock Hc); [|done..].
  intros ci' w2. apply (wp_lifted_ends h clock Hc).
Qed.

Lemma r5_present_returns f v w : wp h (present c f v) (fun r _ => returns r) w.
Proof.
  do 2 (apply (wp_ends_pure h _); intros _). apply (wp_ends_try h clock Hc _). intros z w1 _. cbn zeta.
  apply wp_with_lock. apply (wp_ends_try h clock Hc _). intros [s|] w2 _; [|apply change_rrset_returns].
  destruct (ts_contains s v); [by apply wp_ret|apply change_rrset_returns].
Qed.

Lemma r5_cleanup_returns f v w : wp h (cleanup c f v) (fun r _ => returns r) w.
Proof.
  apply (wp_ends_pure h _); intros _. apply (wp_ends_try h clock Hc _). intros z w1 _. cbn zeta.
  apply wp_with_lock. apply (wp_ends_try h clock Hc _). intros [s|] w2 _; [|by apply wp_ret]. cbn zeta.
  destruct (ts_contains s v); [|by apply wp_ret]. destruct (List.filter _ _); apply change_rrset_returns.
Qed.
End termination.

(** ** A server, with the hosted zone [Z1]

    A listing goes on with the address of another name; the zones are listed
    with a private one of the same name.

    Its documents are written with the texts of a batch; a change is in sync
    once it was asked about. *)

Definition sets_of_text (text : string) : result (list ResourceRecordSet) string :=
  if is_empty text then Ok [mkResourceRecordSet "www.example.net." "A" (Some 300) None (Some ["192.0.2.1"%string])]
  else
    match read_batch text with
    | Some (_, n, _, l) => Ok [mkResourceRecordSet n "TXT" (Some 60) None (Some l)]
    | None => Err "not a listing"%string
    end.

Definition change_of_text (text : string) : result ChangeInfo string :=
  match split_once "|" text with
  | Some (id, st) => Ok (mkChangeInfo id st)
  | None => Err "not a change"%string
  end.

Definition ref_url (s : string) : Url :=
  let '(host, rest) := default (s, EmptyString) (strip_prefix "https://" s ≫= split_once "/") in
  match split_once "?" rest with
  | Some (path, q) => mkUrl s ("/" +:+ path) (Some q) (Some host) None
  | None => mkUrl s ("/" +:+ rest) None (Some host) None
  end.

Definition r5_zone_list : list HostedZone :=
  [mkHostedZone "/hostedzone/Z0" "example.com." (Some true); mkHostedZone "/hostedzone/Z1" "Example.com." (Some false);
   mkHostedZone "/hostedzone/Z2" "example.net." None].

Definition r5_names (z : string) : option string :=
  if (z =? "Z1")%string then Some "example.com"%string
  else if (z =? "Z2")%string then Some "example.net"%string else None.

Definition ref_r53 : R53Ext := {|
  parse_url := fun s => Ok (ref_url s);
  sha256 := fun s => s;
  hmac_sha256 := fun k s => k +:+ s;
  hex_encode := fun s => s;
  xml_escape := xml_bytes;
  xml_zones := fun _ => Ok r5_zone_list;
  xml_sets := sets_of_text;
  xml_change := change_of_text;
  xml_error := fun _ => Err EmptyString;
  xml_invalid_batch := fun _ => Err EmptyString
|}.

#[export] Instance ref_r53_spec : R53ExtSpec ref_r53.
Proof. by split. Qed.

Definition r5_demo : Route53Config :=
  mkRoute53Config "AK" "secret" None "https://r5.test/v" None 60 HTTP_TIMEOUT.

Record R5State : Type := mkR5 {
  r5_sets : string -> list string;
  r5_changes : gmap string ((string * list string) * bool)
}.

(** An identifier longer than those in use. *)
Fixpoint letters (n : nat) : string := match n with O => EmptyString | S n' => String "C" (letters n') end.

Definition longest (m : gmap string ((string * list string) * bool)) : nat :=
  foldr Nat.max 0%nat (map String.length (elements (dom m : gset string))).

Definition new_id (m : gmap string ((string * list string) * bool)) : string := letters (S (longest m)).

Definition listing_text (n : string) (l : list string) : string :=
  match l with [] => EmptyString | _ => change_batch_xml (XR := ref_r53) "LIST" n (mkTxtSet 60 l) end.

Definition text_reply (code : Z) (text : string) : Response := mkResponse code [] (Some (text, None)).

Definition listed_name (u : string) : option string :=
  r ← strip_prefix "https://r5.test/v/hostedzone/Z1/rrset?maxitems=1&name=" u;
  e ← strip_suffix "&type=TXT" r; percent_decode e.

Definition r5_http_get (u : string) (s : R5State) : Response * R5State :=
  match listed_name u with
  | Some n => (text_reply 200 (listing_text n (r5_sets s n)), s)
  | None =>
      match strip_prefix "https://r5.test/v/change/" u with
      | Some id =>
          match r5_changes s !! id with
          | Some (ch, _) =>
              (text_reply 200 ("/change/" +:+ id +:+ "|INSYNC"), mkR5 (r5_sets s) (<[id := (ch, true)]> (r5_changes s)))
          | None => (reply_empty 404, s)
          end
      | None =>
          match strip_prefix "https://r5.test/v/hostedzonesbyname?" u with
          | Some _ => (text_reply 200 EmptyString, s)
          | None => (reply_empty 404, s)
          end
      end
  end.

Definition r5_http_post (text : string) (s : R5State) : Response * R5State :=
  match read_batch text with
  | Some (action, n, t, l) =>
      match batch_values action (mkTxtSet 0 l) with
      | Some l' =>
          if (action =? "UPSERT")%string || bool_decide (r5_sets s n = l) then
            let id := new_id (r5_changes s) in
            (text_reply 200 ("/change/" +:+ id +:+ "|PENDING"),
             mkR5 (put n l' (r5_sets s)) (<[id := ((n, l'), false)]> (r5_changes s)))
          else (reply_empty 400, s)
      | None => (reply_empty 400, s)
      end
  | None => (reply_empty 400, s)
  end.

Definition r5_http (req : Request) (s : R5State) : result Response ReqwestError * R5State :=
  match method req with
  | GET => let '(r, s') := r5_http_get (url req) s in (Ok r, s')
  | POST =>
      if (url req =? "https://r5.test/v/hostedzone/Z1/rrset/")%string then
        match body req with
        | Some (JStr text) => let '(r, s') := r5_http_post text s in (Ok r, s')
        | _ => (Ok (reply_empty 400), s)
        end
      else (Ok (reply_empty 404), s)
  | _ => (Ok (reply_empty 405), s)
  end.

Definition r5_server : handler sysE (R5State * Z) := clocked_by r5_http.

Definition r5_demo_state : R5State * Z :=
  (mkR5 (only "_acme-challenge.example.com."%string [quoted "other"]) ∅, 0).

Example r5_demo_run :
  let '(r, w') := run r5_server (present (X := ref_ext) (XR := ref_r53) r5_demo "_acme-challenge.Example.com" "tok") r5_demo_state in
  r = Ok tt /\ r5_sets (fst w') "_acme-challenge.example.com." = [quoted "other"; quoted "tok"] /\ snd w' = from_secs 2.
Proof. vm_compute. split_and!; reflexivity. Qed.

Definition r5_recs (w : R5State * Z) (k : string * string) : list string :=
  if decide (fst k = "Z1"%string) then r5_sets (fst w) (snd k) else [].

Definition r5_change_of (w : R5State * Z) (id : string) : option ((string * string) * list string) :=
  (fun c => (("Z1"%string, fst (fst c)), snd (fst c))) <$> r5_changes (fst w) !! id.

Definition r5_applied (w : R5State * Z) (id : string) : Prop := exists c, r5_changes (fst w) !! id = Some (c, true).

(** *** Identifiers *)

Lemma letters_length n : String.length (letters n) = n.
Proof. induction n as [|n IH]; cbn; [done|]. by rewrite IH. Qed.

Lemma letters_no_char c n : c <> "C"%char -> contains_char c (letters n) = false.
Proof.
  intros Hc. induction n as [|n IH]; [done|]. cbn [letters contains_char]. rewrite IH, orb_false_r.
  by destruct (Ascii.eqb_spec "C" c) as [<-|].
Qed.

Lemma longest_spec m id : is_Some (m !! id) -> (String.length id <= longest m)%nat.
Proof.
  intros Hid%elem_of_dom%elem_of_elements. unfold longest. induction Hid as [x l|x y l Hx IH]; cbn; lia.
Qed.

Lemma new_id_fresh m : m !! new_id m = None.
Proof.
  destruct (m !! new_id m) as [x|] eqn:E; [|done]. exfalso.
  pose proof (longest_spec m (new_id m) (mk_is_Some _ _ E)) as H. unfold new_id in H. rewrite letters_length in H. lia.
Qed.

Lemma valid_id_no_char c id : is_ascii_alphanumeric c = false -> valid_id id = true -> contains_char c id = false.
Proof.
  intros Hc H. unfold valid_id in H. apply andb_true_iff in H as [_ H].
  induction id as [|x id IH]; [done|]. cbn in *. apply andb_true_iff in H as [Hx H]. rewrite IH by done.
  destruct (Ascii.eqb_spec x c) as [->|]; [congruence|done].
Qed.

Lemma change_text id st :
  contains_char "|" id = false -> change_of_text ("/change/" +:+ id +:+ "|" +:+ st) = Ok (mkChangeInfo ("/change/" +:+ id) st).
Proof.
  intros Hid. unfold change_of_text. rewrite (proj2 (split_once_spec "|" _ ("/change/" +:+ id) st)); [done|].
  split; [by rewrite append_assoc|]. by rewrite contains_char_append, Hid.
Qed.

Lemma change_key_path id : change_key ("/change/" +:+ id) = id.
Proof. unfold change_key. by rewrite strip_prefix_append. Qed.

(** *** What the server keeps *)

Lemma r5_http_get_sets u s : r5_sets (snd (r5_http_get u s)) = r5_sets s.
Proof. unfold r5_http_get. repeat case_match; done. Qed.

Lemma r5_http_changes req s id c b :
  r5_changes s !! id = Some (c, b) ->
  exists b', r5_changes (snd (r5_http req s)) !! id = Some (c, b') /\ (b = true -> b' = true).
Proof.
  intros Hid. assert (exists b', r5_changes s !! id = Some (c, b') /\ (b = true -> b' = true)) as Hsame by eauto.
  unfold r5_http. destruct (method req); try done.
  - unfold r5_http_get. destruct (listed_name _); [done|].
    destruct (strip_prefix "https://r5.test/v/change/" (url req)) as [id'|].
    2: { destruct (strip_prefix "https://r5.test/v/hostedzonesbyname?" (url req)); exact Hsame. }
    destruct (r5_changes s !! id') as [[c' b']|] eqn:E; [|done]. cbn.
    destruct (decide (id' = id)) as [->|Hne]; [|by rewrite lookup_insert_ne].
    rewrite lookup_insert_eq. rewrite Hid in E. injection E as -> ->. eauto.
  - destruct (_ =? _)%string; [|done]. destruct (body req) as [[]|]; try done.
    unfold r5_http_post. destruct (read_batch _) as [[[[a n] t] l]|]; [|done].
    destruct (batch_values _ _); [|done]. destruct (_ || _); [|done]. cbn.
    rewrite lookup_insert_ne; [done|]. intros E.
    assert (r5_changes s !! id = None); [rewrite <- E; apply new_id_fresh|congruence].
Qed.

Lemma r5_server_snd Y (e : sysE Y) w :
  fst (snd (r5_server Y e w)) = fst w \/
  exists req, fst (snd (r5_server Y e w)) = snd (r5_http req (fst w)).
Proof.
  destruct w as [s t]. destruct e; try (left; reflexivity). right. exists r. unfold r5_server, clocked_by.
  cbn [fst snd]. by destruct (r5_http r s).
Qed.

Lemma r5_server_kept : changes_kept r5_server r5_change_of r5_applied.
Proof.
  split; intros Y e w id.
  - intros x. unfold r5_change_of. destruct (r5_changes (fst w) !! id) as [[c b]|] eqn:E; [|done]. intros [= <-].
    destruct (r5_server_snd Y e w) as [->|[req ->]]; [by rewrite E|].
    destruct (r5_http_changes req (fst w) id c b E) as (b' & -> & _). done.
  - intros [c Hc]. unfold r5_applied. destruct (r5_server_snd Y e w) as [->|[req ->]]; [eauto|].
    destruct (r5_http_changes req (fst w) id c true Hc) as (b' & Hb & Hb'). rewrite Hb' in Hb by done. eauto.
Qed.

Lemma r5_server_background : background r5_server r5_recs.
Proof.
  split.
  - by intros Y e [s t] He; destruct e.
  - intros req [s t] Hm k. unfold r5_recs, r5_server, clocked_by, r5_http. cbn [fst snd]. rewrite Hm.
    pose proof (r5_http_get_sets (url req) s) as Hg. destruct (r5_http_get _ s) as [r s']. cbn in *. by rewrite Hg.
Qed.

(** *** What the server answers *)

Lemma rrset_canonical n :
  canonical_query (X := ref_ext) (rrset_query n) = "maxitems=1&name=" +:+ sigv4_encode (X := ref_ext) n +:+ "&type=TXT".
Proof. reflexivity. Qed.

Lemma rrset_url z n :
  raw_url (X := ref_ext) r5_demo (rrset_path z) (rrset_query n) =
  "https://r5.test/v/hostedzone/" +:+ z +:+ "/rrset?maxitems=1&name=" +:+ sigv4_encode (X := ref_ext) n +:+ "&type=TXT".
Proof. unfold raw_url, rrset_path. rewrite rrset_canonical. by rewrite !append_assoc. Qed.

Lemma listed_name_url z n :
  valid_id z = true ->
  listed_name (raw_url (X := ref_ext) r5_demo (rrset_path z) (rrset_query n)) =
  if decide (z = "Z1"%string) then Some n else None.
Proof.
  intros Hz. rewrite rrset_url. unfold listed_name. case_decide as Ez.
  - subst z. change ("https://r5.test/v/hostedzone/" +:+ "Z1" +:+ "/rrset?maxitems=1&name=" +:+ ?s) with
      ("https://r5.test/v/hostedzone/Z1/rrset?maxitems=1&name=" +:+ s).
    rewrite strip_prefix_append. cbn [mbind option_bind]. rewrite strip_suffix_append. cbn [mbind option_bind].
    by rewrite (sigv4_decode (X := ref_ext)).
  - destruct (strip_prefix _ _) as [r|] eqn:E; [|done]. apply strip_prefix_spec in E.
    change ("https://r5.test/v/hostedzone/Z1/rrset?maxitems=1&name=" +:+ r) with
      ("https://r5.test/v/hostedzone/" +:+ "Z1" +:+ String "/" ("rrset?maxitems=1&name=" +:+ r)) in E.
    apply append_inj_l in E. change ("/rrset?maxitems=1&name=" +:+ ?s) with (String "/" ("rrset?maxitems=1&name=" +:+ s)) in E.
    apply slash_inj in E as [E _]; [done|by apply valid_id_no_char|done].
Qed.

Lemma sent_url path q req : sent_to (X := ref_ext) (XR := ref_r53) r5_demo path q req ->
  url req = raw_url (X := ref_ext) r5_demo path q.
Proof.
  intros (u & [= <-] & ->). unfold ref_url. destruct (default _ _) as [host rest].
  by destruct (split_once "?" rest) as [[path' q']|].
Qed.

Lemma sets_of_listing n l :
  exists sets, sets_of_text (listing_text n l) = Ok sets /\ lists_data n sets l.
Proof.
  unfold sets_of_text, listing_text. destruct l as [|x l]; [eexists; split; [done|]; by split; [intros [_ ?]|]|].
  change (is_empty (change_batch_xml _ _ _)) with false. cbv iota.
  rewrite (read_change_batch (XR := ref_r53)) by done. eexists. split; [done|]. split; [by left|].
  intros Hn. destruct Hn. done.
Qed.

Lemma change_url z :
  valid_id z = true ->
  (raw_url (X := ref_ext) r5_demo (change_path z) [] =? "https://r5.test/v/hostedzone/Z1/rrset/")%string =
  bool_decide (z = "Z1"%string).
Proof.
  intros Hz. unfold raw_url, change_path. change (canonical_query []) with EmptyString. cbn [negb is_empty].
  rewrite append_nil_r. change (api_base r5_demo) with "https://r5.test/v"%string.
  change ("https://r5.test/v" +:+ "/hostedzone/" +:+ ?s) with ("https://r5.test/v/hostedzone/" +:+ s).
  case_bool_decide as Ez; [by subst|]. apply String.eqb_neq. intros E.
  apply (append_inj_l "https://r5.test/v/hostedzone/" (z +:+ "/rrset/") ("Z1" +:+ String "/" "rrset/")) in E.
  change ("/rrset/")%string with (String "/" "rrset/") in E.
  apply slash_inj in E as [E _]; [done|by apply valid_id_no_char|done].
Qed.

(** What a batch does. *)
Lemma r5_post_batch action n set l s :
  batch_values action set = Some l -> contains_char "<" action = false ->
  r5_http_post (change_batch_xml (XR := ref_r53) action n set) s =
  if (action =? "UPSERT")%string || bool_decide (r5_sets s n = ts_values set) then
    let id := new_id (r5_changes s) in
    (text_reply 200 ("/change/" +:+ id +:+ "|PENDING"),
     mkR5 (put n l (r5_sets s)) (<[id := ((n, l), false)]> (r5_changes s)))
  else (reply_empty 400, s).
Proof.
  intros Hl Ha. unfold r5_http_post. rewrite (read_change_batch (XR := ref_r53)) by done.
  assert (batch_values action (mkTxtSet 0 (ts_values set)) = Some l) as ->; [|done].
  by unfold batch_values in *; cbn [ts_values].
Qed.

Lemma batch_action action set l : batch_values action set = Some l -> contains_char "<" action = false.
Proof.
  unfold batch_values. destruct (String.eqb_spec action "UPSERT") as [->|]; [done|].
  by destruct (String.eqb_spec action "DELETE") as [->|].
Qed.

Lemma r5_put_set s t n l m :
  set_to r5_recs ("Z1"%string, n) l (s, t) (mkR5 (put n l (r5_sets s)) m, t).
Proof.
  split.
  - unfold r5_recs. cbn [fst snd r5_sets]. rewrite decide_True by done. unfold put. by rewrite decide_True.
  - intros [z' n'] Hne. unfold r5_recs. cbn [fst snd]. case_decide; [|done]. cbn. unfold put.
    rewrite decide_False; [done|]. intros ->. by subst.
Qed.

Lemma r5_server_change req z n action set l w :
  method req = POST -> valid_id z = true ->
  sent_to (X := ref_ext) (XR := ref_r53) r5_demo (change_path z) [] req ->
  body req = Some (JStr (change_batch_xml (XR := ref_r53) action n set)) -> batch_values action set = Some l ->
  let '(r, w') := r5_server _ (HttpSend req) w in
    (same r5_recs w w' \/ set_to r5_recs (z, n) l w w') /\
    forall resp text ci, r = Ok resp -> is_success (Ext := ref_ext) (status resp) = true ->
      response_text resp = Ok text -> change_of_text text = Ok ci ->
      set_to r5_recs (z, n) l w w' /\ r5_change_of w' (change_key (ci_id ci)) = Some ((z, n), l) /\
      (ci_status ci = "INSYNC"%string -> r5_applied w' (change_key (ci_id ci))).
Proof.
  intros Hm Hz Hs%sent_url Hb Hl. destruct w as [s t]. unfold r5_server, clocked_by, r5_http. cbn [fst snd].
  rewrite Hm, Hs, change_url, Hb by done. case_bool_decide as Ez; [|split; [by left|]; by intros resp text ci [= <-]].
  subst z. rewrite (r5_post_batch action n set l s Hl (batch_action _ _ _ Hl)).
  destruct (_ || _); [|split; [by left|]; by intros resp text ci [= <-]]. cbn zeta.
  pose proof (r5_put_set s t n l (<[new_id (r5_changes s) := ((n, l), false)]> (r5_changes s))) as Hset.
  split; [by right|]. intros resp text ci Hr _ Ht.
  assert (text = "/change/" +:+ new_id (r5_changes s) +:+ "|" +:+ "PENDING") as ->
    by (injection Hr as <-; by injection Ht as <-).
  rewrite change_text by by apply letters_no_char. intros Hci. apply (inj Ok) in Hci as <-. cbn [ci_id ci_status]. rewrite change_key_path. split; [exact Hset|]. split; [|done].
  unfold r5_change_of. cbn [fst r5_changes]. by rewrite lookup_insert_eq.
Qed.

Lemma r5_server_poll req w resp text id ci :
  fst (r5_server _ (HttpSend req) w) = Ok resp -> method req = GET -> valid_id id = true ->
  sent_to (X := ref_ext) (XR := ref_r53) r5_demo ("/change/" +:+ id) [] req ->
  is_success (Ext := ref_ext) (status resp) = true -> response_text resp = Ok text -> change_of_text text = Ok ci ->
  change_key (ci_id ci) = id /\
  (ci_status ci = "INSYNC"%string -> r5_applied (snd (r5_server _ (HttpSend req) w)) id).
Proof.
  destruct w as [s t]. intros Hr Hm Hid Hs%sent_url. revert Hr.
  unfold r5_server, clocked_by, r5_http. cbn [fst snd]. rewrite Hm.
  assert (url req = "https://r5.test/v/change/" +:+ id) as ->.
  { rewrite Hs. unfold raw_url. change (canonical_query []) with EmptyString. cbn [negb is_empty].
    by rewrite append_nil_r. }
  unfold r5_http_get. change (listed_name ("https://r5.test/v/change/" +:+ id)) with (@None string). cbv iota beta.
  rewrite strip_prefix_append. destruct (r5_changes s !! id) as [[c b]|] eqn:E; [|by intros [= <-]].
  intros Hr _ Ht.
  assert (text = "/change/" +:+ id +:+ "|" +:+ "INSYNC") as -> by (injection Hr as <-; by injection Ht as <-).
  rewrite change_text by by apply valid_id_no_char. intros Hci. apply (inj Ok) in Hci as <-. cbn [ci_id].
  split; [apply change_key_path|]. intros _. exists c. cbn. apply lookup_insert_eq.
Qed.

Lemma r5_server_list req w resp text z n sets :
  fst (r5_server _ (HttpSend req) w) = Ok resp -> method req = GET -> valid_id z = true ->
  sent_to (X := ref_ext) (XR := ref_r53) r5_demo (rrset_path z) (rrset_query n) req ->
  is_success (Ext := ref_ext) (status resp) = true -> response_text resp = Ok text ->
  sets_of_text text = Ok sets -> lists_data n sets (r5_recs w (z, n)).
Proof.
  destruct w as [s t]. intros Hr Hm Hz Hs%sent_url. revert Hr.
  unfold r5_server, clocked_by, r5_http. cbn [fst snd]. rewrite Hm. unfold r5_http_get. rewrite Hs.
  rewrite listed_name_url by done. unfold r5_recs. cbn [fst snd]. case_decide as Ez.
  - intros [= <-] _ [= <-] Hsets. destruct (sets_of_listing n (r5_sets s n)) as (sets' & E & Hl).
    rewrite E in Hsets. by injection Hsets as <-.
  - rewrite rrset_url. change (strip_prefix "https://r5.test/v/change/" ("https://r5.test/v/hostedzone/" +:+ ?x)) with (@None string).
    by intros [= <-].
Qed.

Lemma r5_server_zones (text : string) n zones :
  xml_zones (R53Ext := ref_r53) text = Ok zones ->
  (forall z m, z ∈ zones -> is_public z -> zone_named m z -> r5_names (zone_key (hz_id z)) = Some m) /\
  (forall id, r5_names id = Some n -> exists z, z ∈ zones /\ is_public z /\ zone_named n z).
Proof.
  intros [= <-]. split.
  - intros z m [->|[->|[->|[]%elem_of_nil]%elem_of_cons]%elem_of_cons]%elem_of_cons Hp <-; [by destruct Hp|done..].
  - intros id. unfold r5_names. repeat case_match; [| |done]; intros [= <-].
    + exists (mkHostedZone "/hostedzone/Z1" "Example.com." (Some false)). split_and!; [right; by left|done..].
    + exists (mkHostedZone "/hostedzone/Z2" "example.net." None). split_and!; [do 2 right; by left|done..].
Qed.

Lemma r5_server_api :
  r5_api (X := ref_ext) (XR := ref_r53) r5_server r5_demo r5_names r5_recs r5_change_of r5_applied.
Proof.
  split.
  - apply r5_server_background.
  - apply r5_server_kept.
  - done.
  - done.
  - intros req w resp text n zones _ _ _ _ _. apply r5_server_zones.
  - apply r5_server_list.
  - intros. by apply (r5_server_change _ _ _ action set).
  - apply r5_server_poll.
Qed.

(** ** Properties *)



(** C30. The texts that are sent, and signed, read back to what they were made
    from, whatever bytes it holds: the query to its parameters, which are written
    in the order of their encoded bytes, so that it does not depend on the order
    they are given in; and the batch of a change to its action, its name, its TTL
    and every value, in order, so that no value can add an element, or a record,
    to it. *)
Theorem route53_texts_roundtrip `{X : Ext} `{!ExtSpec X} `{XR : R53Ext} `{!R53ExtSpec XR} :
  (forall params, exists written, parse_query (canonical_query params) = Some written /\ written ≡ₚ params /\
     StronglySorted pair_le (map (fun p => (sigv4_encode (fst p), sigv4_encode (snd p))) written)) /\
  (forall params other, other ≡ₚ params -> canonical_query other = canonical_query params) /\
  (forall action name set, action = "UPSERT"%string \/ action = "DELETE"%string ->
     read_batch (change_batch_xml action name set) = Some (action, name, pretty (ts_ttl set), ts_values set)).
Proof.
  split_and!.
  - intros params. destruct (canonical_query_params params) as (l & Hp & Hs & ->). exists l. by rewrite parse_joined.
  - intros params other. apply canonical_query_perm.
  - intros action name set Ha. apply read_change_batch. by destruct Ha as [->| ->].
Qed.

Lemma route53_texts_roundtrip_witness :
  let set := mkTxtSet 60 [quoted "a</Value>&"; EmptyString] in
  canonical_query (X := ref_ext) [("b", "x&y=z"); ("a", "/")]%string = "a=%2F&b=x%26y%3Dz"%string /\
  canonical_query (X := ref_ext) [("a", "/"); ("b", "x&y=z")]%string =
  canonical_query (X := ref_ext) [("b", "x&y=z"); ("a", "/")]%string /\
  read_batch (change_batch_xml (XR := ref_r53) "UPSERT" "x." set) = Some ("UPSERT", "x.", "60", ts_values set)%string.
Proof.
  destruct (route53_texts_roundtrip (X := ref_ext) (XR := ref_r53)) as (_ & Hq & Hb).
  split; [reflexivity|]. split; [apply Hq, Permutation_swap|]. apply Hb. by left.
Defined.
