(* ===== verification/Waits.v ===== *)
(** * The calls that wait for a change end

    Hetzner, Google Cloud DNS and Route 53 poll a change until it is settled.
    This file states, for the three of them, that they do not poll forever,
    and when the code of Google Cloud DNS panics instead of returning. *)

From S2P Require Import Prelude Rstr Errors Effects Sys Common Txt Polling Hetzner GoogleCloudDns Route53.

(** How a run ends. *)
Lemma run_returns {W A} (h : handler sysE W) (p : sys (fueled A)) w :
  wp h p (fun r _ => returns r) w -> exists r, fst (run h p w) = lift r.
Proof. intros H. apply returns_lift. unfold wp in H. by destruct (run h p w). Qed.

Lemma run_ends {W A} (h : handler sysE W) (p : sys (fueled A)) w :
  wp h p (fun r _ => ends (fun s => s = Panicked) r) w ->
  (exists r, fst (run h p w) = lift r) \/ fst (run h p w) = Err Panicked.
Proof.
  unfold wp. destruct (run h p w) as [[a|s] w']; intros H; [left; by exists (Ok a)|].
  destruct (H s eq_refl) as [[e ->]| ->]; [left; by exists (Err e)|by right].
Qed.

(** C35. When the clock advances by at least the length of each pause, polling a
    change ends: whatever the server answers, [present] and [cleanup] of
    Hetzner and Route 53 return, with a result of the crate, before the turns
    allotted to the loop are used up; those of Google Cloud DNS return, or
    panic, and they panic only after a token response whose lifetime, less a
    minute, takes the clock past the largest [Instant]. *)
Theorem polling_terminates `{X : Ext} `{!ExtSpec X} `{XG : GcExt} `{XR : R53Ext} {W} (h : handler sysE W) clock
    (hetzner : HetznerConfig) (google : GoogleCloudDnsProvider) (route53 : Route53Config) f v w
    (Hc : steady_clock h clock) :
  let returns_or_overflows (p : sys (fueled unit)) :=
    (exists r, fst (run h p w) = lift r) \/ (fst (run h p w) = Err Panicked /\ overflowed google (trace h p w)) in
  ((exists r, fst (run h (Hetzner.present hetzner f v) w) = lift r) /\
   (exists r, fst (run h (Hetzner.cleanup hetzner f v) w) = lift r)) /\
  (returns_or_overflows (GoogleCloudDns.present google f v) /\
   returns_or_overflows (GoogleCloudDns.cleanup google f v)) /\
  ((exists r, fst (run h (Route53.present route53 f v) w) = lift r) /\
   (exists r, fst (run h (Route53.cleanup route53 f v) w) = lift r)).
Proof.
  intros returns_or_overflows. split_and!.
  - apply run_returns, (hz_present_returns h clock Hc).
  - apply run_returns, (hz_cleanup_returns h clock Hc).
  - destruct (run_ends h _ _ (gc_present_ends h clock Hc google f v w)) as [Hr|Hp]; [by left|right].
    split; [done|]. apply excused_run; [apply present_excused|done].
  - destruct (run_ends h _ _ (gc_cleanup_ends h clock Hc google f v w)) as [Hr|Hp]; [by left|right].
    split; [done|]. apply excused_run; [apply cleanup_excused|done].
  - apply run_returns, (r5_present_returns h clock Hc).
  - apply run_returns, (r5_cleanup_returns h clock Hc).
Qed.

(** With a server that never applies a change, the call of Route 53 fails two
    minutes later; with one that gives a token the longest lifetime a [u64] can
    hold, the call of Google Cloud DNS panics. *)
Definition stuck_http (req : Request) (w : unit) : result Response ReqwestError * unit :=
  (Ok (if (url req =? "https://gc.test/token")%string
       then reply 200 (JObj [("access_token", JStr "tok"); ("expires_in", JNum (2 ^ 64 - 1))]%string)
       else
         text_reply 200 match method req with
                        | POST => "/change/C1|PENDING"
                        | _ => if (url req =? "https://r5.test/v/change/C1")%string then "/change/C1|PENDING" else EmptyString
                        end), w).

Lemma polling_terminates_witness :
  let name := "_acme-challenge.example.com"%string in
  let r53 := Route53.present (X := ref_ext) (XR := ref_r53) r5_demo name "tok" in
  let gc := GoogleCloudDns.present (X := ref_ext) (XG := ref_gc) gc_demo name "tok" in
  snd (run (clocked_by stuck_http) r53 (tt, 0)) = (tt, from_secs 120) /\
  (exists r, fst (run (clocked_by stuck_http) r53 (tt, 0)) = lift r) /\
  fst (run (clocked_by stuck_http) gc (tt, 0)) = Err Panicked /\
  overflowed (X := ref_ext) gc_demo (trace (clocked_by stuck_http) gc (tt, 0)).
Proof.
  intros name r53 gc.
  destruct (polling_terminates (X := ref_ext) (XG := ref_gc) (XR := ref_r53) (clocked_by stuck_http) snd
    hz_demo gc_demo r5_demo name "tok" (tt, 0) (clocked_steady stuck_http)) as (_ & [Hg _] & Hr & _).
  assert (fst (run (clocked_by stuck_http) gc (tt, 0)) = Err Panicked) as Hp by (vm_compute; reflexivity).
  split; [vm_compute; reflexivity|]. split; [exact Hr|]. split; [exact Hp|].
  destruct Hg as [[r Hg]|[_ Ho]]; [|exact Ho]. fold gc in Hg. rewrite Hp in Hg. by destruct r.
Defined.
