(* ===== verification/Rfc2136.v ===== *)
(** * The RFC 2136 provider (src/providers/rfc2136.rs)

    A TXT value is added or deleted by a dynamic update, signed with TSIG and
    sent to the primary name server over TCP; the answer is checked against
    the request and its signature. *)

From S2P Require Import Prelude Rstr Errors Effects Sys Common Zone Provider Txt Polling Jobs.

(** ** DNS messages *)

Inductive TsigAlgorithm : Type := HmacSha256 | HmacSha384 | HmacSha512.

(** What the code tells apart of the types of [hickory_proto]. *)
Inductive MessageType : Type := MQuery | MResponse.
Inductive OpCode : Type := Update | OtherOp (n : Z).
Inductive ResponseCode : Type := NoError | NotAuth | Refused | OtherCode (n : Z).
Inductive TsigError : Type := BadSig | BadKey | BadTime | OtherTsig (n : Z).

#[export] Instance message_type_eq : EqDecision MessageType.
Proof. solve_decision. Defined.
#[export] Instance op_code_eq : EqDecision OpCode.
Proof. solve_decision. Defined.
#[export] Instance response_code_eq : EqDecision ResponseCode.
Proof. solve_decision. Defined.

(** The fields that are read of a [Message] that was received; the TSIG record
    by its error. *)
Record Answer : Type := mkAnswer {
  ans_id : Z;
  message_type : MessageType;
  op_code : OpCode;
  response_code : ResponseCode;
  signature : option (option TsigError)
}.

(** A [RecordSet] of one TXT record: its name, its TTL and its texts. *)
Record TxtRrset (N : Type) : Type := mkTxtRrset {
  rs_name : N;
  rs_ttl : Z;
  rs_texts : list string
}.
Arguments mkTxtRrset {N} rs_name rs_ttl rs_texts.
Arguments rs_name {N} t.
Arguments rs_ttl {N} t.
Arguments rs_texts {N} t.

(** ** Other crates *)
Class DnsExt : Type := {
  (** [str::parse] at [SocketAddr], as the text of its address and its port,
      and at [IpAddr], as its text; [{:?}] of a text and of a [Duration]. *)
  parse_socket_addr : string -> option SocketAddr;
  parse_ip : string -> option string;
  debug_text : string -> string;
  debug_duration : Duration -> string;
  (** [data_encoding::BASE64.decode]. *)
  base64_decode : string -> option string;
  (** [hickory_proto]: [Name::from_ascii], [set_fqdn], [zone_of] and [Display]. *)
  Name : Type;
  from_ascii : string -> result Name string;
  set_fqdn : bool -> Name -> Name;
  zone_of : Name -> Name -> bool;
  name_text : Name -> string;
  (** [append] and [delete_by_rdata], with the random identifier they draw. *)
  Message : Type;
  message_id : Message -> Z;
  append : Z -> TxtRrset Name -> Name -> bool -> bool -> Message;
  delete_by_rdata : Z -> TxtRrset Name -> Name -> bool -> Message;
  (** [TSigner::new], [Message::finalize] and [TSigVerifier::verify]. *)
  TSigner : Type;
  TSigVerifier : Type;
  tsigner_new : string -> TsigAlgorithm -> Name -> Z -> result TSigner string;
  finalize : Message -> TSigner -> Z -> result (Message * option TSigVerifier) string;
  verify : TSigVerifier -> string -> result unit string;
  (** [Message::to_vec] and [Message::from_vec]; [Display] of a [ResponseCode]. *)
  to_vec : Message -> result string string;
  from_vec : string -> result Answer string;
  rcode_text : ResponseCode -> string
}.

Definition ENV_NAMESERVER : string := "RFC2136_NAMESERVER".
Definition ENV_TSIG_KEY : string := "RFC2136_TSIG_KEY".
Definition ENV_TSIG_SECRET : string := "RFC2136_TSIG_SECRET".
Definition ENV_TSIG_ALGORITHM : string := "RFC2136_TSIG_ALGORITHM".
Definition DEFAULT_PORT : Z := 53.
Definition DEFAULT_TTL : Z := 60.
Definition DEFAULT_TIMEOUT : Duration := from_secs 10.
Definition TSIG_FUDGE : Z := 300.
Definition PROVIDER : string := "rfc2136".

Definition as_str (a : TsigAlgorithm) : string :=
  match a with
  | HmacSha256 => "hmac-sha256"
  | HmacSha384 => "hmac-sha384"
  | HmacSha512 => "hmac-sha512"
  end.

Definition default_algorithm : TsigAlgorithm := HmacSha256.

(** [TsigAlgorithm::from_str]. *)
Definition from_str (s : string) : dns_result TsigAlgorithm :=
  let name := to_ascii_lowercase (trim_end_matches dot (trim s)) in
  if (name =? "hmac-sha256")%string then Ok HmacSha256
  else if (name =? "hmac-sha384")%string then Ok HmacSha384
  else if (name =? "hmac-sha512")%string then Ok HmacSha512
  else if existsb (String.eqb name) ["hmac-md5"; "hmac-md5.sig-alg.reg.int"; "hmac-sha1"; "hmac-sha224"]%string then
    Err (Other ("unsupported TSIG algorithm " +:+ s +:+ ": use hmac-sha256, hmac-sha384 or hmac-sha512"))
  else Err (Other ("unknown TSIG algorithm " +:+ s)).

Record Rfc2136Config : Type := mkRfc2136Config {
  cfg_nameserver : string;
  cfg_key_name : string;
  secret : string;
  algorithm : TsigAlgorithm;
  zone_override : option string;
  ttl : Z;
  timeout : Duration
}.

Record Nameserver : Type := mkNameserver {
  host : string;
  port : Z
}.

(** [Display] of a [Nameserver]. *)
Definition nameserver_text (n : Nameserver) : string :=
  if contains_char ":" (host n) then "[" +:+ host n +:+ "]:" +:+ pretty (port n)
  else host n +:+ ":" +:+ pretty (port n).

(** [str::parse] at [u16]. *)
Definition parse_u16 (s : string) : option Z := n ← parse_u64 s; if n <? 2 ^ 16 then Some n else None.

(** [u16::to_be_bytes], and [u16::from_be_bytes] of the two bytes read. *)
Definition to_be_bytes (n : Z) : string := bytes [n / 256; n mod 256].
Definition from_be_bytes (s : string) : Z :=
  match s with String a (String b _) => 256 * byte_of a + byte_of b | _ => 0 end.

Section rfc2136.
Context `{XD : DnsExt}.

(** ** Configuration *)

Definition config_new (nameserver key_name secret : string) : Rfc2136Config :=
  mkRfc2136Config nameserver key_name secret default_algorithm None DEFAULT_TTL DEFAULT_TIMEOUT.

Definition with_algorithm (c : Rfc2136Config) (a : TsigAlgorithm) : Rfc2136Config :=
  mkRfc2136Config (cfg_nameserver c) (cfg_key_name c) (secret c) a (zone_override c) (ttl c) (timeout c).

Definition with_zone (c : Rfc2136Config) (zone : string) : dns_result Rfc2136Config :=
  let! _ := validate_zone zone in
  Ok (mkRfc2136Config (cfg_nameserver c) (cfg_key_name c) (secret c) (algorithm c) (Some zone) (ttl c) (timeout c)).

Definition with_ttl (c : Rfc2136Config) (t : Z) : dns_result Rfc2136Config :=
  let! t' := validate_ttl t in
  Ok (mkRfc2136Config (cfg_nameserver c) (cfg_key_name c) (secret c) (algorithm c) (zone_override c) t' (timeout c)).

Definition with_timeout (c : Rfc2136Config) (d : Duration) : Rfc2136Config :=
  mkRfc2136Config (cfg_nameserver c) (cfg_key_name c) (secret c) (algorithm c) (zone_override c) (ttl c) d.

Definition parse_nameserver (raw : string) : dns_result Nameserver :=
  let raw := trim raw in
  let invalid := Other ("invalid " +:+ PROVIDER +:+ " nameserver: " +:+ debug_text raw) in
  match parse_socket_addr raw with
  | Some (ip, p) => if p =? 0 then Err invalid else Ok (mkNameserver ip p)
  | None =>
      let unbracketed := default raw (strip_prefix "[" raw ≫= strip_suffix "]") in
      match parse_ip unbracketed with
      | Some ip => Ok (mkNameserver ip DEFAULT_PORT)
      | None =>
          let! found :=
            match rsplit_once ":" raw with
            | Some (h, p) => let! p' := ok_or (parse_u16 p) invalid in Ok (h, p')
            | None => Ok (raw, DEFAULT_PORT)
            end in
          let '(h, p) := found in
          if (p =? 0) || contains_char ":" h || negb (is_ok (validate_fqdn h)) then Err invalid
          else Ok (mkNameserver (trim_end_matches dot h) p)
      end
  end.

Definition parse_name (raw what : string) : dns_result Name :=
  let! _ := validate_fqdn raw in
  let! name := map_err (fun e => Other ("invalid " +:+ what +:+ " " +:+ debug_text raw +:+ ": " +:+ e)) (from_ascii raw) in
  Ok (set_fqdn true name).

Definition decode_secret (secret : string) : dns_result string :=
  let! key := ok_or (base64_decode (trim secret)) (Other (PROVIDER +:+ " TSIG secret is not valid base64")) in
  if is_empty key then Err (Other (PROVIDER +:+ " TSIG secret is empty")) else Ok key.

Record Rfc2136Provider : Type := mkRfc2136Provider {
  config : Rfc2136Config;
  nameserver : Nameserver;
  key_name : Name
}.

Definition new (c : Rfc2136Config) : dns_result Rfc2136Provider :=
  let! ns := parse_nameserver (cfg_nameserver c) in
  let! key := parse_name (cfg_key_name c) "TSIG key name" in
  let! _ := decode_secret (secret c) in
  Ok (mkRfc2136Provider c ns key).

Definition from_env (var : string -> option string) : dns_result Rfc2136Provider :=
  let! ns := ok_or (var ENV_NAMESERVER) (MissingCredentials ENV_NAMESERVER) in
  let! key := ok_or (var ENV_TSIG_KEY) (MissingCredentials ENV_TSIG_KEY) in
  let! sec := ok_or (var ENV_TSIG_SECRET) (MissingCredentials ENV_TSIG_SECRET) in
  let c := config_new ns key sec in
  let! c :=
    match var ENV_TSIG_ALGORITHM with
    | Some a => let! a' := from_str a in Ok (with_algorithm c a')
    | None => Ok c
    end in
  new c.

(** ** Updates *)

Definition txt_rrset (fqdn : Name) (value : string) (ttl : Z) : TxtRrset Name := mkTxtRrset fqdn ttl [value].

Definition build_present_message (zone fqdn : Name) (value : string) (ttl : Z) : sys Message :=
  let* id := call RandomU16 in
  Ret (append id (txt_rrset fqdn value ttl) zone false false).

Definition build_cleanup_message (zone fqdn : Name) (value : string) : sys Message :=
  let* id := call RandomU16 in
  Ret (delete_by_rdata id (txt_rrset fqdn value 0) zone false).

Definition rcode_error (rcode : ResponseCode) (tsig_error : option TsigError) (unverified : option string)
    (nameserver : Nameserver) : DnsError :=
  let detail :=
    match tsig_error with
    | Some BadSig => " (TSIG: bad signature, check the secret and algorithm)"
    | Some BadKey => " (TSIG: unknown key, check the key name and algorithm)"
    | Some BadTime => " (TSIG: clock skew too large between client and server)"
    | Some _ => " (TSIG error)"
    | None => EmptyString
    end%string in
  let unverified :=
    match unverified with
    | Some reason => " (" +:+ reason +:+ ", not authenticated)"
    | None => EmptyString
    end in
  let message := PROVIDER +:+ " update rejected by " +:+ nameserver_text nameserver +:+ ": " +:+ rcode_text rcode
                 +:+ detail +:+ unverified in
  match rcode with
  | NotAuth | Refused => Auth message
  | _ => Api message
  end.

Definition check_response (request_id : Z) (bytes : string) (verifier : TSigVerifier) (nameserver : Nameserver)
  : dns_result unit :=
  let! response := map_err (fun e => Api (PROVIDER +:+ " malformed response from " +:+ nameserver_text nameserver
                                         +:+ ": " +:+ e)) (from_vec bytes) in
  if negb (ans_id response =? request_id) || bool_decide (message_type response <> MResponse)
     || bool_decide (op_code response <> Update) then
    Err (Api (PROVIDER +:+ " unexpected response from " +:+ nameserver_text nameserver +:+ ": not an answer to our update"))
  else
    let rcode := response_code response in
    if bool_decide (rcode <> NoError) then
      let tsig_error := mjoin (signature response) in
      let unverifiable_by_design :=
        bool_decide (rcode = NotAuth) &&
        match tsig_error with Some (BadKey | BadSig | BadTime) => true | _ => false end in
      let unverified :=
        if unverifiable_by_design || is_ok (verify verifier bytes) then None
        else
          match signature response with
          | None => Some "unsigned response"%string
          | Some _ => Some "TSIG verification failed"%string
          end in
      Err (rcode_error rcode tsig_error unverified nameserver)
    else
      let! _ := map_err (fun e => Auth (PROVIDER +:+ " response from " +:+ nameserver_text nameserver
                                       +:+ " failed TSIG verification: " +:+ e)) (verify verifier bytes) in
      Ok tt.

Definition unix_now : sys (dns_result Z) :=
  let* now := call SystemTimeNow in
  Ret (ok_or now (Other "system clock is before the Unix epoch")).

Definition signer (p : Rfc2136Provider) : dns_result TSigner :=
  let! key := decode_secret (secret (config p)) in
  map_err (fun e => Other (PROVIDER +:+ " TSIG signer: " +:+ e))
    (tsigner_new key (algorithm (config p)) (key_name p) TSIG_FUDGE).

Definition resolve_zone (p : Rfc2136Provider) (fqdn : string) : sys (dns_result string) :=
  match zone_override (config p) with
  | Some z => Ret (Ok z)
  | None =>
      await? zone := find_zone fqdn in
      try? _ := validate_fqdn zone in
      Ret (Ok zone)
  end.

Definition names (p : Rfc2136Provider) (fqdn : string) : sys (dns_result (Name * Name)) :=
  await? z := resolve_zone p fqdn in
  try? zone := parse_name z "zone" in
  try? name := parse_name fqdn "fqdn" in
  if negb (zone_of zone name) then
    Ret (Err (Other ("fqdn " +:+ fqdn +:+ " is not within zone " +:+ name_text zone)))
  else Ret (Ok (zone, name)).

(** ** The exchange *)

(** A message with its length, in two bytes, before it. *)
Definition framed (request : string) : string := to_be_bytes (len request) +:+ request.

(** The error of an operation on the stream; [None] when the time allotted to
    the exchange has elapsed. *)
Definition io {A} (p : Rfc2136Provider) (r : result A IoFailure) : result A (option DnsError) :=
  map_err (fun e =>
    match e with
    | IoError msg => Some (Api (PROVIDER +:+ " exchange with " +:+ nameserver_text (nameserver p) +:+ ": " +:+ msg))
    | Elapsed => None
    end) r.

Definition stream {A} (p : Rfc2136Provider) (e : sysE (result A IoFailure)) : sys (result A (option DnsError)) :=
  let* r := call e in Ret (io p r).

Definition exchange (p : Rfc2136Provider) (request : string) : sys (result string (option DnsError)) :=
  if 2 ^ 16 <=? len request then Ret (Err (Some (Other (PROVIDER +:+ " update message too large"))))
  else
    await? _ := stream p (TcpConnect (host (nameserver p)) (port (nameserver p))) in
    await? _ := stream p (TcpWriteAll (framed request)) in
    await? length := stream p (TcpReadExact 2) in
    stream p (TcpReadExact (from_be_bytes length)).

(** [tokio::time::timeout] around the exchange. *)
Definition exchanged (p : Rfc2136Provider) (request : string) : sys (dns_result string) :=
  let* r := exchange p request in
  Ret (map_err (fun e =>
    match e with
    | Some e => e
    | None => Api (PROVIDER +:+ " update to " +:+ nameserver_text (nameserver p) +:+ " timed out after "
                   +:+ debug_duration (timeout (config p)))
    end) r).

Definition send_update (p : Rfc2136Provider) (message : Message) : sys (dns_result unit) :=
  try? s := signer p in
  await? now := unix_now in
  try? signed := map_err (fun e => Other (PROVIDER +:+ " signing update: " +:+ e)) (finalize message s now) in
  let '(message, v) := signed in
  try? verifier := ok_or v (Other (PROVIDER +:+ " signing update: no verifier")) in
  try? request := map_err (fun e => Other (PROVIDER +:+ " encoding update: " +:+ e)) (to_vec message) in
  await? response := exchanged p request in
  Ret (check_response (message_id message) response verifier (nameserver p)).

(** ** Operations *)

Definition present (p : Rfc2136Provider) (fqdn value : string) : sys (dns_result unit) :=
  try? _ := validate_fqdn fqdn in
  try? _ := validate_acme_value value in
  await? found := names p fqdn in
  let '(zone, name) := found in
  let* message := build_present_message zone name value (ttl (config p)) in
  send_update p message.

Definition cleanup (p : Rfc2136Provider) (fqdn value : string) : sys (dns_result unit) :=
  try? _ := validate_fqdn fqdn in
  await? found := names p fqdn in
  let '(zone, name) := found in
  let* message := build_cleanup_message zone name value in
  send_update p message.
End rfc2136.

(** The names [from_str] accepts, and nothing else. *)
Lemma tsig_names s a : from_str s = Ok a <-> to_ascii_lowercase (trim_end_matches dot (trim s)) = as_str a.
Proof.
  unfold from_str. set (n := to_ascii_lowercase _). clearbody n. cbn zeta.
  destruct (String.eqb_spec n "hmac-sha256") as [->|H1]; [by destruct a|].
  destruct (String.eqb_spec n "hmac-sha384") as [->|H2]; [by destruct a|].
  destruct (String.eqb_spec n "hmac-sha512") as [->|H3]; [by destruct a|].
  split; [by destruct (existsb _ _)|]. intros ->. by destruct a.
Qed.

Lemma tsig_name_roundtrip a : from_str (as_str a) = Ok a.
Proof. apply tsig_names. by destruct a; vm_compute. Qed.

(** ** The exchange, whatever is answered *)

Lemma byte_of_byte n : 0 <= n < 256 -> byte_of (byte n) = n.
Proof. intros Hn. unfold byte_of, byte. rewrite N_ascii_embedding by lia. lia. Qed.

(** Reading a framed message back. *)
Definition unframe (s : string) : option string :=
  match s with
  | String _ (String _ r) => if len r =? from_be_bytes s then Some r else None
  | _ => None
  end.

Lemma from_to_be n s : 0 <= n < 2 ^ 16 -> from_be_bytes (to_be_bytes n +:+ s) = n.
Proof.
  intros Hn. unfold to_be_bytes, bytes. cbn [foldr from_be_bytes fmap list_fmap]. cbn.
  pose proof (Z.div_mod n 256 ltac:(lia)). pose proof (Z.mod_pos_bound n 256 ltac:(lia)).
  rewrite !byte_of_byte; lia.
Qed.

Lemma unframe_framed b : len b < 2 ^ 16 -> unframe (framed b) = Some b.
Proof.
  intros Hb. assert (0 <= len b) by (unfold len; lia). pose proof (from_to_be (len b) b ltac:(lia)) as E.
  unfold unframe, framed. unfold to_be_bytes, bytes in *. cbn in *. rewrite E. by rewrite Z.eqb_refl.
Qed.

Section theory.
Context `{XD : DnsExt}.

(** The answer [bytes] says that the update of the identifier [id] was carried
    out, with a signature that verifies. *)
Definition accepted (id : Z) (verifier : TSigVerifier) (bytes : string) : Prop :=
  exists a, from_vec bytes = Ok a /\ ans_id a = id /\ message_type a = MResponse /\ op_code a = Update /\
    response_code a = NoError /\ verify verifier bytes = Ok tt.

Lemma check_response_ok id bytes verifier ns :
  check_response id bytes verifier ns = Ok tt <-> accepted id verifier bytes.
Proof.
  unfold check_response, accepted. destruct (from_vec bytes) as [a|e]; cbn [map_err rbind]; [|naive_solver].
  destruct (Z.eqb_spec (ans_id a) id); cbn [negb orb]; [|naive_solver].
  do 3 (case_bool_decide; cbn [orb]; [naive_solver|]).
  destruct (verify verifier bytes) as [[]|err] eqn:Ev; cbn [map_err rbind]; [|naive_solver].
  split; [|done]. intros _. exists a. split_and!; first [done|by apply dec_stable].
Qed.

(** The update that adds, or deletes, the value [v] of the name [f]. *)
Definition update_for (k : ActionKind) (p : Rfc2136Provider) (f v : string) (m : Message) : Prop :=
  exists id zone name, parse_name f "fqdn" = Ok name /\ zone_of zone name = true /\
    m = match k with
        | AddRecords => append id (txt_rrset name v (ttl (config p))) zone false false
        | RemoveRecords => delete_by_rdata id (txt_rrset name v 0) zone false
        end.

(** [b] is the request for the update [m], signed with the key of the
    provider; [m'] and [verifier] are the signed message and the verifier of its
    answer. *)
Definition signed (p : Rfc2136Provider) (m m' : Message) (verifier : TSigVerifier) (b : string) : Prop :=
  exists s now, signer p = Ok s /\ finalize m s now = Ok (m', Some verifier) /\ to_vec m' = Ok b.

Lemma signed_steps p m m' verifier b s now (g g' : string -> DnsError) :
  signer p = Ok s -> map_err g (finalize m s now) = Ok (m', Some verifier) -> map_err g' (to_vec m') = Ok b ->
  signed p m m' verifier b.
Proof.
  intros Hs Hf Hb. exists s, now. destruct (finalize m s now) as [[? ?]|]; [|done]. injection Hf as -> ->.
  destruct (to_vec m'); [|done]. by injection Hb as ->.
Qed.

(** The four events of an exchange that was answered. *)
Definition exchange_events (p : Rfc2136Provider) (b length bytes : string) : list (event sysE) :=
  [Ev (TcpConnect (host (nameserver p)) (port (nameserver p))) (Ok tt); Ev (TcpWriteAll (framed b)) (Ok tt);
   Ev (TcpReadExact 2) (Ok length); Ev (TcpReadExact (from_be_bytes length)) (Ok bytes)].

Definition quiet {Y} (e : sysE Y) : Prop := is_request e = false.
Definition quiet_event (ev : event sysE) : Prop := match ev with @Ev _ Y e _ => quiet e end.

Context {W : Type} (h : handler sysE W).

Lemma exchange_trace p b w bytes w' :
  run h (exchanged p b) w = (Ok bytes, w') ->
  len b < 2 ^ 16 /\ exists length, trace h (exchanged p b) w = exchange_events p b length bytes.
Proof.
  unfold exchanged, exchange, exchange_events. destruct (Z.leb_spec (2 ^ 16) (len b)); [done|].
  intros Hr. split; [done|]. revert Hr. cbn.
  destruct (h _ (TcpConnect _ _) w) as [[[]|e1] w1]; cbn; [|done].
  destruct (h _ (TcpWriteAll _) w1) as [[[]|e2] w2]; cbn; [|done].
  destruct (h _ (TcpReadExact 2) w2) as [[length|e3] w3]; cbn; [|done].
  destruct (h _ (TcpReadExact _) w3) as [[r|e4] w4]; cbn; [|done].
  intros [= -> ->]. by exists length.
Qed.

Lemma send_update_trace p m w w' :
  run h (send_update p m) w = (Ok tt, w') ->
  exists pre m' verifier b length bytes,
    trace h (send_update p m) w = pre ++ exchange_events p b length bytes /\
    Forall quiet_event pre /\
    signed p m m' verifier b /\ len b < 2 ^ 16 /\ accepted (message_id m') verifier bytes.
Proof.
  unfold send_update. destruct (signer p) as [s|] eqn:Es; [|done]. cbn.
  destruct (h _ SystemTimeNow w) as [[now|] w1]; cbn; [|done].
  destruct (finalize m s now) as [[m' [verifier|]]|] eqn:Ef; cbn; [|done..].
  destruct (to_vec m') as [b|] eqn:Eb; cbn [map_err ptry_pure]; [|done].
  unfold ptry. rewrite run_bind, trace_bind. destruct (run h (exchanged p b) w1) as [[bytes|e] w2] eqn:Er; [|done].
  destruct (exchange_trace _ _ _ _ _ Er) as [Hb [length ->]]. cbn [run trace]. intros [= Hc ->].
  apply check_response_ok in Hc. exists [Ev SystemTimeNow (Some now)], m', verifier, b, length, bytes.
  split_and!; [by rewrite app_nil_r|by repeat constructor| |done|done]. by exists s, now.
Qed.
(** What [present] and [cleanup] have in common. *)
Definition build (k : ActionKind) (p : Rfc2136Provider) (zone name : Name) (v : string) : sys Message :=
  match k with
  | AddRecords => build_present_message zone name v (ttl (config p))
  | RemoveRecords => build_cleanup_message zone name v
  end.

Definition updates (k : ActionKind) (p : Rfc2136Provider) (f v : string) : sys (dns_result unit) :=
  await? found := names p f in
  let '(zone, name) := found in
  let* message := build k p zone name v in
  send_update p message.

Definition call_of (k : ActionKind) (p : Rfc2136Provider) (f v : string) : sys (dns_result unit) :=
  match k with AddRecords => present p f v | RemoveRecords => cleanup p f v end.

(** A call fails at once, or the name is valid and it makes its update. *)
Lemma call_updates k p f v :
  (exists e, call_of k p f v = Ret (Err e)) \/ (valid_name f /\ call_of k p f v = updates k p f v).
Proof.
  assert (forall u, validate_fqdn f = Ok u -> valid_name f) as Hf by (intros u; apply validate_fqdn_unit).
  destruct k; cbn [call_of]; unfold present, cleanup; destruct (validate_fqdn f) as [u|e]; cbn [ptry_pure]; eauto.
  destruct (validate_acme_value v) as [u'|e]; cbn [ptry_pure]; eauto.
Qed.

Lemma quietly_emits {A} (q : sys A) : quietly q -> emits (@quiet) q (fun _ => True).
Proof. induction q as [a|Y e c IH]; cbn; [done|]. intros [He Hk]. split; [done|]. intros y. by apply IH. Qed.

Definition named (f : string) (r : dns_result (Name * Name)) : Prop :=
  forall zn, r = Ok zn -> parse_name f "fqdn" = Ok (snd zn) /\ zone_of (fst zn) (snd zn) = true.

Lemma resolve_quiet p f : emits (@quiet) (resolve_zone p f) (fun _ => True).
Proof.
  unfold resolve_zone. destruct (zone_override (config p)); [done|].
  apply emits_seq; [apply quietly_emits, find_zone_quietly| |done]. intros z. by destruct (validate_fqdn z).
Qed.

Lemma found_names z f : emits (@quiet)
  (try? zone := parse_name z "zone" in
   try? name := parse_name f "fqdn" in
   if negb (zone_of zone name) then
     Ret (Err (Other ("fqdn " +:+ f +:+ " is not within zone " +:+ name_text zone)))
   else Ret (Ok (zone, name))) (named f).
Proof.
  apply emits_try_pure; [intros zone _|by intros e zn]. apply emits_try_pure; [intros name Hn|by intros e zn].
  destruct (zone_of zone name) eqn:Ez; cbn; [|by intros zn]. by intros zn [= <-].
Qed.

Lemma names_quiet p f : emits (@quiet) (names p f) (named f).
Proof. apply emits_seq; [apply resolve_quiet|intros z; apply found_names|by intros e zn]. Qed.

Lemma build_quiet k p f v zone name :
  parse_name f "fqdn" = Ok name -> zone_of zone name = true ->
  emits (@quiet) (build k p zone name v) (update_for k p f v).
Proof. intros Hn Hz. destruct k; cbn; (split; [done|]); intros id; by exists id, zone, name. Qed.

(** The trace of a call that succeeds. *)
Lemma updates_trace k p f v w w' :
  run h (updates k p f v) w = (Ok tt, w') ->
  exists pre m m' verifier b length bytes,
    trace h (updates k p f v) w = pre ++ exchange_events p b length bytes /\
    Forall quiet_event pre /\ update_for k p f v m /\ signed p m m' verifier b /\ len b < 2 ^ 16 /\
    accepted (message_id m') verifier bytes.
Proof.
  unfold updates, ptry. rewrite run_bind, trace_bind.
  destruct (emits_run _ h _ _ w (names_quiet p f)) as [Hn Hpre].
  destruct (run h (names p f) w) as [[[zone name]|e] w1]; [|done]. cbn [fst] in Hn.
  destruct (Hn _ eq_refl) as [Hname Hzone]. cbn [fst snd] in *. rewrite run_bind, trace_bind.
  destruct (emits_run _ h _ _ w1 (build_quiet k p f v zone name Hname Hzone)) as [Hm Hpre'].
  destruct (run h (build k p zone name v) w1) as [m w2]. cbn [fst] in Hm. intros Hr.
  destruct (send_update_trace _ _ _ _ Hr) as (pre & m' & verifier & b & length & bytes & -> & Hq & Hs & Hb & Ha).
  exists (trace h (names p f) w ++ trace h (build k p zone name v) w1 ++ pre), m, m', verifier, b, length, bytes.
  split_and!; [by rewrite <- !app_assoc| |done..]. by rewrite !Forall_app.
Qed.

(** Whatever is answered, what is sent is the update, signed, and to the name
    server of the provider. *)
Definition sends_update (k : ActionKind) (p : Rfc2136Provider) (f v : string) {Y} (e : sysE Y) : Prop :=
  match e with
  | TcpConnect ht pt => ht = host (nameserver p) /\ pt = port (nameserver p)
  | TcpWriteAll s => exists m m' verifier b,
      update_for k p f v m /\ signed p m m' verifier b /\ len b < 2 ^ 16 /\ s = framed b
  | HttpSend _ => False
  | _ => True
  end.

Lemma quiet_sends k p f v Y (e : sysE Y) : quiet e -> sends_update k p f v e.
Proof. by destruct e. Qed.

Lemma updates_sends k p f v : emits (@sends_update k p f v) (updates k p f v) (fun _ => True).
Proof.
  apply (emits_try _ _ _ _ (fun zn => parse_name f "fqdn" = Ok (snd zn) /\ zone_of (fst zn) (snd zn) = true)); [|intros [zone name] [Hn Hz]|done].
  { eapply emits_impl; [apply quiet_sends|]. apply names_quiet. }
  apply emits_bind. eapply emits_mono; [eapply emits_impl; [apply quiet_sends|by apply build_quiet]|].
  intros m Hm. apply emits_try_pure; [intros s Hs|done]. apply emits_seq; [by split; [|intros []]| |done].
  intros now. apply emits_try_pure; [intros [m' ver] Hf|done]. apply emits_try_pure; [intros verifier Hv|done].
  apply emits_try_pure; [intros b Hb|done]. apply emits_seq; [|done|done].
  apply ok_or_ok in Hv as ->. pose proof (signed_steps p m m' verifier b s now _ _ Hs Hf Hb) as Hsigned.
  unfold exchanged, exchange. destruct (Z.leb_spec (2 ^ 16) (len b)); [done|].
  cbn. split; [done|]. intros [[]|e]; cbn; [|done].
  split; [by exists m, m', verifier, b|]. intros [[]|e]; cbn; [|done]. split; [done|]. by intros [l|e]; cbn.
Qed.
End theory.

(** ** The name server

    It carries out the updates it is sent at a time of its own ([Jobs]); record
    sets are given by their canonical name, [set_of n] that of [n].  [conn w] is
    the action asked for on the connection, and the request it was asked by. *)

Definition update_of `{XD : DnsExt} (k : ActionKind) (name : Name) (v : string) (m : Message) : Prop :=
  match k with
  | AddRecords => exists id t zone, m = append id (txt_rrset name v t) zone false false
  | RemoveRecords => exists id zone, m = delete_by_rdata id (txt_rrset name v 0) zone false
  end.

Definition is_write {Y} (e : sysE Y) : bool := match e with TcpWriteAll _ => true | _ => false end.

Record r2_api `{XD : DnsExt} {W} (h : handler sysE W) (p : Rfc2136Provider) (abs : W -> JobState)
    (conn : W -> option (Z * string)) (set_of : Name -> string) : Prop := {
  (** Names are the same whatever their case. *)
  r2_names : forall f what n, parse_name f what = Ok n -> set_of n = canon f;
  r2_drift : forall Y (e : sysE Y) w, is_write e = false -> drifts (abs w) (abs (snd (h Y e w)));
  (** A request may be taken up or not; it is handed over when it was
      written. *)
  r2_write : forall k name v m m' verifier b w, update_of k name v m -> signed p m m' verifier b -> len b < 2 ^ 16 ->
    let '(r, w') := h _ (TcpWriteAll (framed b)) w in
    exists s s', drifts (abs w) s /\ drifts s' (abs w') /\
      (s' = s \/ exists id, js_jobs s !! id = None /\ s' = start id (set_of name) v k s) /\
      (r = Ok tt -> exists id, js_jobs s !! id = None /\ s' = start id (set_of name) v k s /\ conn w' = Some (id, b));
  r2_conn : forall n w, conn (snd (h _ (TcpReadExact n) w)) = conn w;
  (** The server signs the answer to a request only (RFC 8945), and answers
      without an error when it has carried it out (RFC 2136, section 3.8). *)
  r2_answer : forall n w bytes id b m m' verifier,
    fst (h _ (TcpReadExact n) w) = Ok bytes -> conn w = Some (id, b) -> signed p m m' verifier b ->
    accepted (message_id m') verifier bytes ->
    exists j, js_jobs (abs (snd (h _ (TcpReadExact n) w))) !! id = Some j /\ job_status j = Succeeded
}.

Section contract.
Context `{XD : DnsExt} {W : Type} (h : handler sysE W) (p : Rfc2136Provider).
Context (abs : W -> JobState) (conn : W -> option (Z * string)) (set_of : Name -> string).
Context (Hapi : r2_api h p abs conn set_of).

Definition r2_values (w : W) (n : string) : list string := js_vals (abs w) n.

(** The outcome of a call made while nothing was under way: it failed and the
    server is as it was; or its update concerned its value only, and has been
    carried out, and nothing is under way, if the call succeeded; otherwise the
    update is all the server may still have to do. *)
Definition r2_outcome (k : ActionKind) (f v : string) (w : W) (r : dns_result unit) (w' : W) : Prop :=
  (abs w' = abs w /\ is_ok r = false) \/
  (valid_name f /\ frame r2_values (canon f) v w w' /\
   (r = Ok tt -> effect k v (r2_values w' (canon f)) /\ idle (abs w')) /\
   forall id j, js_jobs (abs w') !! id = Some j -> job_status j = Running -> j = mkJob (canon f) v k Running).

Lemma asked_outcome k f v w w' id (r : dns_result unit) :
  valid_name f -> idle (abs w) -> js_jobs (abs w) !! id = None -> drifts (start id (canon f) v k (abs w)) (abs w') ->
  (r = Ok tt -> exists j, js_jobs (abs w') !! id = Some j /\ job_status j = Succeeded) ->
  r2_outcome k f v w r w'.
Proof.
  intros Hf Hi Hid Hd Hr. right. destruct (one_job _ _ _ _ _ _ Hi Hid Hd) as (st & Hj & Hv).
  split; [done|]. split_and!.
  - intros n x Hne. unfold r2_values. rewrite Hv. destruct st; [done| |done]. unfold carry_out, put.
    cbn [job_set job_value job_kind]. case_decide; [|done]. subst. rewrite elem_of_new_values. destruct k; naive_solver.
  - intros Hok. destruct (Hr Hok) as (j & Hj' & Hs). rewrite Hj, lookup_insert_eq in Hj'. injection Hj' as <-.
    cbn in Hs. subst st. split.
    + unfold r2_values. rewrite Hv. unfold carry_out, put. cbn [job_set job_value job_kind]. rewrite decide_True by done.
      destruct k; cbn [effect]; rewrite elem_of_new_values; naive_solver.
    + intros id' j. rewrite Hj, lookup_insert_Some. intros [[<- <-]|[_ Ho]]; [done|by apply Hi in Ho].
  - intros id' j. rewrite Hj, lookup_insert_Some. intros [[<- <-]|[_ Ho]] Hrun; [by cbn in Hrun; subst|by apply Hi in Ho].
Qed.
Lemma wp_stream {A} (e : sysE (result A IoFailure)) (Q : result A (option DnsError) -> W -> Prop) w :
  (let '(r, w') := h _ e w in Q (io p r) w') -> wp h (stream p e) Q w.
Proof. intros H. apply wp_bind, wp_vis, wp_ret, wp_ret. by destruct (h _ e w). Qed.

(** The exchange of a request: the server was not asked, or was asked once,
    and an answer that is accepted is one to the action. *)
Definition asked (k : ActionKind) (u v : string) (s0 : JobState) (m' : Message) (verifier : TSigVerifier)
    (r : dns_result string) (w' : W) : Prop :=
  (abs w' = s0 /\ is_ok r = false) \/
  exists id, js_jobs s0 !! id = None /\ drifts (start id u v k s0) (abs w') /\
    forall bytes, r = Ok bytes -> accepted (message_id m') verifier bytes ->
      exists j, js_jobs (abs w') !! id = Some j /\ job_status j = Succeeded.

Lemma r2_exchange k name v m m' verifier b w :
  idle (abs w) -> update_of k name v m -> signed p m m' verifier b ->
  wp h (exchanged p b) (asked k (set_of name) v (abs w) m' verifier) w.
Proof.
  intros Hi Hu Hs. apply wp_bind. unfold exchange.
  destruct (Z.leb_spec (2 ^ 16) (len b)) as [|Hb]; [by apply wp_ret, wp_ret; left|].
  apply wp_try, wp_stream. set (e1 := TcpConnect _ _).
  pose proof (idle_drifts _ _ Hi (r2_drift _ _ _ _ _ Hapi _ e1 w eq_refl)) as E1.
  destruct (h _ e1 w) as [[[]|err1] w1]; cbn [io map_err snd] in *; [|by apply wp_ret; left].
  apply wp_try, wp_stream. pose proof (r2_write _ _ _ _ _ Hapi k name v m m' verifier b w1 Hu Hs Hb) as Hw.
  destruct (h _ (TcpWriteAll _) w1) as [r2 w2]. destruct Hw as (s & s' & D1 & D2 & Hd & Hok).
  rewrite E1 in D1. apply (idle_drifts _ _ Hi) in D1 as ->. destruct r2 as [[]|err2]; cbn [io map_err].
  2: { apply wp_ret. destruct Hd as [->|(id & Hid & ->)]; [left; split; [by apply idle_drifts|done]|].
       right. by exists id. }
  destruct (Hok eq_refl) as (id & Hid & -> & Hconn). clear Hd Hok.
  apply wp_try, wp_stream. set (e3 := TcpReadExact 2).
  pose proof (r2_drift _ _ _ _ _ Hapi _ e3 w2 eq_refl) as D3. pose proof (r2_conn _ _ _ _ _ Hapi 2 w2) as C3.
  fold e3 in C3. destruct (h _ e3 w2) as [[l|err3] w3]; cbn [io map_err snd] in *.
  2: { apply wp_ret. right. exists id. split_and!; [done|by etrans|done]. }
  apply wp_stream. set (e4 := TcpReadExact (from_be_bytes l)).
  pose proof (r2_drift _ _ _ _ _ Hapi _ e4 w3 eq_refl) as D4.
  pose proof (r2_answer _ _ _ _ _ Hapi (from_be_bytes l) w3) as A4. fold e4 in A4.
  destruct (h _ e4 w3) as [r4 w4]; cbn [fst snd] in *. apply wp_ret. right. exists id.
  split_and!; [done|by repeat (etrans; [eassumption|])|]. intros bytes Hr Ha.
  destruct r4 as [bs|err4]; [|by destruct err4]. injection Hr as ->.
  apply (A4 bytes id b m m' verifier); [done|congruence|done|done].
Qed.

Lemma r2_send k f name v m w w0 :
  valid_name f -> idle (abs w0) -> abs w = abs w0 -> parse_name f "fqdn" = Ok name -> update_of k name v m ->
  wp h (send_update p m) (fun r w' => r2_outcome k f v w0 r w') w.
Proof.
  intros Hf Hi E0 Hn Hu. apply wp_try_pure; [intros s Hs|intros e _; by left]. apply wp_try, wp_bind, wp_vis, wp_ret.
  rewrite <- E0 in Hi. pose proof (idle_drifts _ _ Hi (r2_drift _ _ _ _ _ Hapi _ SystemTimeNow w eq_refl)) as E1.
  destruct (h _ SystemTimeNow w) as [[now|] w1]; cbn [fst snd ok_or] in *; apply wp_ret; [|left; by rewrite E1].
  apply wp_try_pure; [intros [m' ver] Hfin|intros e _; left; by rewrite E1].
  apply wp_try_pure; [intros verifier ->%ok_or_ok|intros e _; left; by rewrite E1].
  apply wp_try_pure; [intros b Hb|intros e _; left; by rewrite E1].
  pose proof (signed_steps p m m' verifier b s now _ _ Hs Hfin Hb) as Hsigned.
  apply wp_try. eapply wp_mono; [apply (r2_exchange k name v m m' verifier b); [by rewrite E1|done|done]|].
  rewrite E1, E0, (r2_names _ _ _ _ _ Hapi _ _ _ Hn). rewrite E0 in Hi.
  intros [bytes|e] w2 [[E2 Hno]|(id & Hid & D & Ha)]; [done| |by left|by apply (asked_outcome k f v w0 w2 id)].
  apply wp_ret. apply (asked_outcome k f v w0 w2 id); [done|done|done|done|].
  intros Hc%check_response_ok. by apply (Ha bytes).
Qed.

Lemma r2_quiet {A} (q : sys A) (Q : A -> Prop) w :
  idle (abs w) -> emits (@quiet) q Q -> wp h q (fun a w' => Q a /\ abs w' = abs w) w.
Proof.
  intros Hi Hq. apply (wp_emits _ h (fun v => abs v = abs w) q Q w Hq); [|done].
  intros Y e v He Hv. rewrite <- Hv. apply idle_drifts; [by rewrite Hv|].
  apply (r2_drift _ _ _ _ _ Hapi). by destruct e.
Qed.

Lemma r2_call k f v w : idle (abs w) -> wp h (call_of k p f v) (fun r w' => r2_outcome k f v w r w') w.
Proof.
  intros Hi. destruct (call_updates k p f v) as [[e ->]|[Hf ->]]; [by apply wp_ret; left|].
  apply wp_try. eapply wp_mono; [apply (r2_quiet _ _ _ Hi (names_quiet p f))|].
  intros [[zone name]|e] w1 [Hn E1]; [|by left]. destruct (Hn _ eq_refl) as [Hname Hzone]. cbn [fst snd] in *.
  apply wp_bind. eapply wp_mono; [eapply r2_quiet; [by rewrite E1|by apply build_quiet]|].
  intros m w2 [(id & z' & n' & Hn' & _ & Hm) E2]. rewrite Hname in Hn'. injection Hn' as <-.
  eapply (r2_send k f name); [done|done|congruence|done|]. destruct k; cbn [update_of]; eauto.
Qed.
End contract.

(** ** A server that carries out an update when it is asked for the answer

    Requests are written with their fields encoded as path segments; the answer
    to a request is the request, behind one letter. *)

Record DemoMessage : Type := mkDemoMessage {
  dm_id : Z;
  dm_kind : ActionKind;
  dm_name : string;
  dm_value : string
}.

Definition demo_text (m : DemoMessage) : string :=
  to_be_bytes (dm_id m mod 2 ^ 16) +:+ (match dm_kind m with AddRecords => "+" | RemoveRecords => "-" end) +:+
  encode_path (X := ref_ext) (dm_name m) +:+ "/" +:+ encode_path (X := ref_ext) (dm_value m).

Definition read_demo (s : string) : option (ActionKind * string * string) :=
  match s with
  | String _ (String _ (String c rest)) =>
      '(n, v) ← split_once "/" rest; n' ← percent_decode n; v' ← percent_decode v;
      Some (if Ascii.eqb c "+" then AddRecords else RemoveRecords, n', v')
  | _ => None
  end.

Definition demo_answer (s : string) : result Answer string :=
  match strip_prefix "A" s with
  | Some t => Ok (mkAnswer (from_be_bytes t) MResponse Update NoError (Some None))
  | None => Err "malformed"%string
  end.

Definition ref_dns : DnsExt := {|
  parse_socket_addr := fun _ => None;
  parse_ip := fun _ => None;
  debug_text := fun s => s;
  debug_duration := fun _ => "10s"%string;
  base64_decode := Some;
  Name := string;
  from_ascii := fun s => Ok (canon s);
  set_fqdn := fun _ n => n;
  zone_of := fun z n => is_ok (relative_name n z);
  name_text := fun n => n;
  Message := DemoMessage;
  message_id := fun m => dm_id m mod 2 ^ 16;
  append := fun id r _ _ _ => mkDemoMessage id AddRecords (rs_name r) (join EmptyString (rs_texts r));
  delete_by_rdata := fun id r _ _ => mkDemoMessage id RemoveRecords (rs_name r) (join EmptyString (rs_texts r));
  TSigner := string;
  TSigVerifier := string;
  tsigner_new := fun key _ _ _ => Ok key;
  finalize := fun m _ _ => Ok (m, Some (demo_text m));
  verify := fun v s => if (s =? "A" +:+ v)%string then Ok tt else Err "bad signature"%string;
  to_vec := fun m => Ok (demo_text m);
  from_vec := demo_answer;
  rcode_text := fun _ => EmptyString
|}.

Definition r2_demo : Rfc2136Provider (XD := ref_dns) :=
  @mkRfc2136Provider ref_dns (mkRfc2136Config "ns.example.com" "key" "secret" HmacSha256 (Some "example.com"%string) 60 DEFAULT_TIMEOUT)
    (mkNameserver "ns.example.com" 53) "key"%string.

Record R2Server : Type := mkR2 {
  sv_jobs : JobState;
  sv_conn : option (Z * string)
}.

Definition r2_take (s : string) (w : R2Server) : R2Server :=
  match unframe s with
  | Some b =>
      match read_demo b with
      | Some (k, n, v) =>
          let id := fresh (dom (js_jobs (sv_jobs w)) : gset Z) in
          mkR2 (start id n v k (sv_jobs w)) (Some (id, b))
      | None => w
      end
  | None => w
  end.

Definition not_failed (j : Job) : bool := match job_status j with Failed => false | _ => true end.

Definition r2_reply (n : Z) (w : R2Server) : result string IoFailure * R2Server :=
  match sv_conn w with
  | Some (id, b) =>
      match js_jobs (sv_jobs w) !! id with
      | Some j =>
          if not_failed j then
            let answer := "A" +:+ b in
            (Ok (if n =? 2 then to_be_bytes (len answer) else answer), mkR2 (settle_job id j (sv_jobs w)) (sv_conn w))
          else (Err (IoError "closed"), w)
      | None => (Err (IoError "closed"), w)
      end
  | None => (Err (IoError "closed"), w)
  end.

Definition r2_server : handler sysE R2Server := fun Y e w =>
  match e in sysE Y return Y * R2Server with
  | TcpConnect _ _ => (Ok tt, w)
  | TcpWriteAll s => (Ok tt, r2_take s w)
  | TcpReadExact n => r2_reply n w
  | RandomU16 => (7, w)
  | SystemTimeNow => (Some 0, w)
  | e => (fst (clocked_by (fun _ u => (Ok (reply_empty 404), u)) _ e (tt, 0)), w)
  end.

Definition r2_demo_state : R2Server := mkR2 (mkJobs (only "_acme-challenge.example.com"%string ["other"%string]) ∅) None.

Example r2_demo_run :
  let '(r, w') := run r2_server (present (XD := ref_dns) r2_demo "_acme-challenge.Example.com" "tok") r2_demo_state in
  r = Ok tt /\ js_vals (sv_jobs w') "_acme-challenge.example.com" = ["other"; "tok"]%string.
Proof. vm_compute. split; reflexivity. Qed.

Lemma read_demo_text m : read_demo (demo_text m) = Some (dm_kind m, dm_name m, dm_value m).
Proof.
  unfold demo_text, to_be_bytes, bytes. cbn -[encode_path Z.modulo Z.div].
  destruct (dm_kind m); cbn -[encode_path Z.modulo Z.div split_once percent_decode].
  all: rewrite (proj2 (split_once_spec "/" _ (encode_path (X := ref_ext) (dm_name m)) (encode_path (X := ref_ext) (dm_value m))))
    by (split; [done|apply encode_path_no_slash]).
  all: cbn [mbind option_bind]; by rewrite !(encode_decode (X := ref_ext)).
Qed.

Lemma demo_signed m m' verifier b :
  signed (XD := ref_dns) r2_demo m m' verifier b -> b = demo_text m.
Proof. intros (s & now & _ & [= <- <-] & [= <-]). done. Qed.

Lemma demo_update k name v m :
  update_of (XD := ref_dns) k name v m -> dm_kind m = k /\ dm_name m = name /\ dm_value m = v.
Proof. destruct k; [intros (id & t & zone & ->)|intros (id & zone & ->)]; done. Qed.

Lemma r2_take_update k name v m m' verifier b w :
  update_of (XD := ref_dns) k name v m -> signed (XD := ref_dns) r2_demo m m' verifier b -> len b < 2 ^ 16 ->
  exists id, js_jobs (sv_jobs w) !! id = None /\
    r2_take (framed b) w = mkR2 (start id name v k (sv_jobs w)) (Some (id, b)).
Proof.
  intros (<- & <- & <-)%demo_update ->%demo_signed Hb. exists (fresh (dom (js_jobs (sv_jobs w)) : gset Z)). split.
  - apply not_elem_of_dom, is_fresh.
  - unfold r2_take. by rewrite unframe_framed, read_demo_text by done.
Qed.

Lemma r2_reply_spec n w :
  drifts (sv_jobs w) (sv_jobs (snd (r2_reply n w))) /\ sv_conn (snd (r2_reply n w)) = sv_conn w /\
  forall bytes id b, fst (r2_reply n w) = Ok bytes -> sv_conn w = Some (id, b) ->
    exists j, js_jobs (sv_jobs (snd (r2_reply n w))) !! id = Some j /\ job_status j = Succeeded.
Proof.
  unfold r2_reply. destruct (sv_conn w) as [[id b]|] eqn:Ec; [|by split_and!].
  destruct (js_jobs (sv_jobs w) !! id) as [j|] eqn:Ej; [|by split_and!].
  destruct (not_failed j) eqn:Ef; [|by split_and!]. cbn [fst snd sv_conn sv_jobs].
  split_and!; [by apply settle_job_drifts|done|]. intros bytes id' b' _ [= <- <-].
  unfold settle_job, not_failed in *. destruct (job_status j) eqn:Es; [|by exists j|done].
  eexists. split; [apply lookup_insert_eq|done].
Qed.

Lemma r2_server_api : r2_api (XD := ref_dns) r2_server r2_demo sv_jobs sv_conn (fun n => n).
Proof.
  split.
  - intros f what n. unfold parse_name. destruct (validate_fqdn f); [|done]. by intros [= <-].
  - intros Y e w He. destruct e; try reflexivity; [done|]. apply r2_reply_spec.
  - intros k name v m m' verifier b w Hu Hs Hb. unfold r2_server.
    destruct (r2_take_update k name v m m' verifier b w Hu Hs Hb) as (id & Hid & ->).
    exists (sv_jobs w), (start id name v k (sv_jobs w)). split_and!; [reflexivity|reflexivity|eauto|eauto].
  - intros n w. apply r2_reply_spec.
  - intros n w bytes id b m m' verifier Hr Hc _ _. by eapply r2_reply_spec.
Qed.

(** ** Properties *)

(** C31. Against a name server that behaves as RFC 2136 and RFC 8945 say, and
    carries out updates whenever it likes: a call made while no update is under
    way changes no TXT value but the one given, of the name given; [present]
    returns [Ok] only when the value is there, and [cleanup] only when it is
    gone, and then nothing is under way; and if the call fails or times out,
    what the server may still do later is only the update it was sent. *)
Theorem rfc2136_contract `{XD : DnsExt} {W} (h : handler sysE W) (p : Rfc2136Provider) abs conn set_of f v w :
  r2_api h p abs conn set_of -> idle (abs w) ->
  (let '(r, w') := run h (present p f v) w in r2_outcome abs AddRecords f v w r w') /\
  (let '(r, w') := run h (cleanup p f v) w in r2_outcome abs RemoveRecords f v w r w').
Proof.
  intros Hapi Hi. split.
  - exact (r2_call h p abs conn set_of Hapi AddRecords f v w Hi).
  - exact (r2_call h p abs conn set_of Hapi RemoveRecords f v w Hi).
Qed.

Lemma rfc2136_contract_witness :
  (let '(r, w') := run r2_server (present (XD := ref_dns) r2_demo "_acme-challenge.Example.com" "tok") r2_demo_state in
   r = Ok tt /\ js_vals (sv_jobs w') "_acme-challenge.example.com" = ["other"; "tok"]%string) /\
  (let '(r, w') := run r2_server (cleanup (XD := ref_dns) r2_demo "_acme-challenge.Example.com" "other") r2_demo_state in
   r2_outcome sv_jobs RemoveRecords "_acme-challenge.Example.com" "other" r2_demo_state r w').
Proof.
  split; [vm_compute; split; reflexivity|].
  refine (proj2 (rfc2136_contract (XD := ref_dns) r2_server r2_demo sv_jobs sv_conn (fun n => n)
    "_acme-challenge.Example.com" "other" r2_demo_state r2_server_api _)).
  intros id j Hj. by apply (lookup_empty_Some id j) in Hj.
Defined.

(** C32. Whatever is answered, by the name server or by anyone else on the
    network: every connection [present] and [cleanup] make is to the configured
    name server, and all they write to it is the update for the value given,
    signed with the configured key, framed so that it is read back; and they
    return [Ok] only if it was written, and the last message read answers it, by
    its identifier and operation, without an error and with a TSIG signature
    that verifies against the request. *)
Theorem rfc2136_authenticated `{XD : DnsExt} {W} (h : handler sysE W) (p : Rfc2136Provider) k f v w :
  (forall Y (e : sysE Y) y, Ev e y ∈ trace h (call_of k p f v) w -> sends_update k p f v e) /\
  (fst (run h (call_of k p f v) w) = Ok tt ->
   exists pre m m' verifier b length bytes,
     trace h (call_of k p f v) w = pre ++ exchange_events p b length bytes /\
     Forall quiet_event pre /\ update_for k p f v m /\ signed p m m' verifier b /\
     unframe (framed b) = Some b /\ accepted (message_id m') verifier bytes).
Proof.
  destruct (call_updates k p f v) as [[e ->]|[_ ->]].
  - split; [|done]. by intros Y e' y ?%elem_of_nil.
  - split; [intros Y e y Hin; by apply (emits_trace _ h _ _ w _ e y (updates_sends k p f v))|].
    intros Hr. destruct (run h (updates k p f v) w) as [r w'] eqn:Er. cbn [fst] in Hr. subst r.
    destruct (updates_trace h k p f v w w' Er) as (pre & m & m' & ver & b & l & bytes & Ht & Hq & Hu & Hs & Hb & Ha).
    exists pre, m, m', ver, b, l, bytes. split_and!; [done..|by apply unframe_framed|done].
Qed.

Lemma rfc2136_authenticated_witness :
  exists pre m m' verifier b length bytes,
    trace r2_server (call_of (XD := ref_dns) AddRecords r2_demo "_acme-challenge.Example.com" "tok") r2_demo_state =
    pre ++ exchange_events (XD := ref_dns) r2_demo b length bytes /\
    Forall quiet_event pre /\ update_for (XD := ref_dns) AddRecords r2_demo "_acme-challenge.Example.com" "tok" m /\
    signed (XD := ref_dns) r2_demo m m' verifier b /\ unframe (framed b) = Some b /\
    accepted (XD := ref_dns) (message_id m') verifier bytes.
Proof.
  apply (proj2 (rfc2136_authenticated (XD := ref_dns) r2_server r2_demo AddRecords "_acme-challenge.Example.com" "tok"
    r2_demo_state)). vm_compute. reflexivity.
Defined.
