(* ===== verification/Testing.v ===== *)
(** * In-memory test doubles (src/testing.rs)

    [MockDnsProvider] and [MockChallengeResponder] keep what is presented in
    a list shared by their clones. *)

From S2P Require Import Prelude Rstr Errors Sys Provider.

(** The state the clones of a mock share, and its configuration. *)
Record MockDnsProvider : Type := mkMock {
  records : list (string * string);
  fail_present : bool
}.

Definition mock_new : MockDnsProvider := mkMock [] false.
Definition mock_failing : MockDnsProvider := mkMock [] true.

Definition present_records (m : MockDnsProvider) : list (string * string) := records m.

Definition has_record (fqdn value : string) (m : MockDnsProvider) : bool :=
  existsb (fun r => (fst r =? fqdn)%string && (snd r =? value)%string) (records m).

Definition mock_present (fqdn value : string) (m : MockDnsProvider) : dns_result unit * MockDnsProvider :=
  if fail_present m then (Err (Api ("mock present failure for " +:+ fqdn)), m)
  else (Ok tt, mkMock (records m ++ [(fqdn, value)]) (fail_present m)).

Definition mock_cleanup (fqdn value : string) (m : MockDnsProvider) : dns_result unit * MockDnsProvider :=
  (Ok tt, mkMock (List.filter (fun r => negb ((fst r =? fqdn)%string && (snd r =? value)%string)) (records m))
            (fail_present m)).

Definition mock_timing : PropagationTiming := mkTiming (from_secs 1) 10000000.

Definition mock_provider : DnsProvider MockDnsProvider :=
  mkProvider mock_present mock_cleanup mock_timing.

(** [(domain, cert_der, key_der)]. *)
Definition Presentation : Type := (string * list Z * list Z)%type.

Record MockChallengeResponder : Type := mkResponder {
  presented : list Presentation;
  fail_present_cert : bool
}.

Definition responder_new : MockChallengeResponder := mkResponder [] false.
Definition responder_failing : MockChallengeResponder := mkResponder [] true.

Definition presented_domains (m : MockChallengeResponder) : list string :=
  map (fun '(d, _, _) => d) (presented m).

Definition is_presenting (domain : string) (m : MockChallengeResponder) : bool :=
  existsb (fun '(d, _, _) => (d =? domain)%string) (presented m).

Definition responder_present (domain : string) (cert_der key_der : list Z)
    (m : MockChallengeResponder) : dns_result unit * MockChallengeResponder :=
  if fail_present_cert m then (Err (Other ("mock present failure for " +:+ domain)), m)
  else (Ok tt, mkResponder (presented m ++ [(domain, cert_der, key_der)]) (fail_present_cert m)).

Definition responder_cleanup (domain : string) (m : MockChallengeResponder)
  : dns_result unit * MockChallengeResponder :=
  (Ok tt, mkResponder (List.filter (fun '(d, _, _) => negb (d =? domain)%string) (presented m))
            (fail_present_cert m)).

(** ** Theory *)

Definition mock_serves (m : MockDnsProvider) (name value : string) : Prop :=
  (name, value) ∈ records m.

Lemma record_eqb (r : string * string) n v :
  (fst r =? n)%string && (snd r =? v)%string = true <-> r = (n, v).
Proof.
  destruct r as [a b]. cbn. rewrite andb_true_iff, !String.eqb_eq. naive_solver.
Qed.

Lemma has_record_serves m n v : has_record n v m = true <-> mock_serves m n v.
Proof.
  unfold has_record, mock_serves. rewrite existsb_elem. setoid_rewrite record_eqb.
  split; [by intros (r & Hr & ->)|eauto].
Qed.

Lemma mock_cleanup_records m n v r :
  r ∈ records (snd (mock_cleanup n v m)) <-> r ∈ records m /\ r <> (n, v).
Proof.
  cbn. rewrite filter_elem, negb_true_iff, <- not_true_iff_false, record_eqb. done.
Qed.

(** The mock keeps the contract of [DnsProvider], name by name. *)
#[export] Instance mock_laws :
  ProviderLaws mock_provider (fun f => f) mock_serves (fun _ => True).
Proof.
  constructor; try done; unfold mock_serves; cbn.
  - intros f v w w' _. unfold mock_present. destruct (fail_present w); [done|].
    intros [= <-]. cbn. set_solver.
  - intros f v w n u _ Hne. unfold mock_present. destruct (fail_present w); [done|].
    cbn. set_solver.
  - intros f v w w' _ [= <-]. pose proof (mock_cleanup_records w f v (f, v)). naive_solver.
  - intros f v w n u _ Hne. pose proof (mock_cleanup_records w f v (n, u)). naive_solver.
Qed.
