(* ===== verification/Propagation.v ===== *)
(** * Waiting for a record to be visible (src/dns/propagation.rs)

    The targets of the poll are the authoritative nameservers of the zone, or
    one resolver over the fallback addresses; the loop asks the targets that
    have not confirmed yet, until none is left or the timeout has elapsed.

    The loop has no bound of its own: it is given as many turns as its fuel,
    and [None] means that they were used up.  [poll_returns] shows how many
    are enough when the clock advances. *)

From stdpp Require Import sorting.
From S2P Require Import Prelude Rstr Errors Effects Sys Common Zone Provider.

Definition DEFAULT_RESOLVERS : list string := ["1.1.1.1:53"; "8.8.8.8:53"].

(** ** The loop *)

Section poll.
Context {E : Type -> Type} {T : Type}.
Context (now : prog E Z) (sleep : Duration -> prog E unit) (check : T -> prog E bool).
Context (fqdn : string) (tm : PropagationTiming).

(** [for target in pending { if !check(&target).await { still_pending.push(target) } }]. *)
Fixpoint poll_pass (pending : list T) : prog E (list T) :=
  match pending with
  | [] => Ret []
  | target :: rest =>
      let* ok := check target in
      let* still_pending := poll_pass rest in
      Ret (if (ok : bool) then still_pending else target :: still_pending)
  end.

Fixpoint poll_loop (fuel : nat) (start : Z) (pending : list T) : prog E (option (dns_result unit)) :=
  match fuel with
  | O => Ret None
  | S fuel' =>
      let* pending := poll_pass pending in
      match pending with
      | [] => Ret (Some (Ok tt))
      | _ :: _ =>
          let* t := now in
          if timeout tm <=? Z.max 0 (t - start) then
            Ret (Some (Err (PropagationTimeout fqdn (as_secs (timeout tm)))))
          else
            let* _ := sleep (interval tm) in
            poll_loop fuel' start pending
      end
  end.

Definition poll_until_all_confirm (fuel : nat) (targets : list T) : prog E (option (dns_result unit)) :=
  let* start := now in poll_loop fuel start targets.

End poll.

(** ** Targets and checks *)

(** One TXT character string equal to the expected value.  A string that is
    not UTF-8 differs from every [&str], so bytes are compared. *)
Definition serves_value (r : ResolverId) (fqdn expected : string) : sys bool :=
  let* response := call (Lookup r fqdn TXT) in
  Ret (match response with
       | Err _ => false
       | Ok answers =>
           existsb (fun d => match d with
                             | RTxt txt_data => existsb (fun s => (s =? expected)%string) txt_data
                             | _ => false
                             end) answers
       end).

(** [Vec::dedup]: consecutive repetitions removed. *)
Fixpoint dedup (l : list string) : list string :=
  match l with
  | x :: (y :: _) as l' => if (x =? y)%string then dedup l' else x :: dedup l'
  | _ => l
  end.

Definition build_resolver (addrs : list SocketAddr) : sys (dns_result ResolverId) :=
  let* r := call (DirectResolverBuild addrs) in
  Ret (match r with
       | Ok _ => Ok (Direct addrs)
       | Err e => Err (Resolver ("resolver build: " +:+ e))
       end).

(** The nameservers whose names resolve, one resolver for each. *)
Fixpoint resolve_nameservers (names : list string) : sys (dns_result (list ResolverId)) :=
  match names with
  | [] => Ret (Ok [])
  | name :: rest =>
      let* lookup := call (LookupIp System name) in
      match lookup with
      | Err _ => resolve_nameservers rest
      | Ok ips =>
          let addrs := map (fun ip => (ip, 53)) ips in
          match addrs with
          | [] => resolve_nameservers rest
          | _ :: _ =>
              await? r := build_resolver addrs in
              await? rs := resolve_nameservers rest in
              Ret (Ok (r :: rs))
          end
      end
  end.

Definition ns_names (answers : list RData) : list string :=
  dedup (merge_sort String.le
           (omap (fun d => match d with
                           | RNs name => Some (to_ascii_lowercase name)
                           | _ => None
                           end) answers)).

Definition authoritative_nameservers (fqdn : string) : sys (dns_result (list ResolverId)) :=
  await? zone := find_zone fqdn in
  let* built := call SystemResolverBuild in
  match built with
  | Err (ReadConf e) => Ret (Err (Resolver ("system resolver init: " +:+ e)))
  | Err (BuildFail e) => Ret (Err (Resolver ("system resolver build: " +:+ e)))
  | Ok _ =>
      let* ns_response := call (Lookup System zone NS) in
      match ns_response with
      | Err e => Ret (Err (Resolver ("NS lookup for " +:+ zone +:+ ": " +:+ e)))
      | Ok answers =>
          await? nameservers := resolve_nameservers (ns_names answers) in
          match nameservers with
          | [] => Ret (Err (Resolver ("no authoritative NS found for zone " +:+ zone)))
          | _ :: _ => Ret (Ok nameservers)
          end
      end
  end.

Section wait.
(** [str::parse::<SocketAddr>], with the text of its error. *)
Context (parse_socket_addr : string -> result SocketAddr string).

Fixpoint parse_resolvers (resolvers : list string) : dns_result (list SocketAddr) :=
  match resolvers with
  | [] => Ok []
  | addr :: rest =>
      let! a := map_err (fun e => Resolver ("invalid resolver address " +:+ addr +:+ ": " +:+ e))
                  (parse_socket_addr addr) in
      let! l := parse_resolvers rest in
      Ok (a :: l)
  end.

(** The resolvers to ask. *)
Definition poll_targets (fqdn : string) (fallback_resolvers : list string)
  : sys (dns_result (list ResolverId)) :=
  let* found := authoritative_nameservers fqdn in
  match found with
  | Ok nameservers => Ret (Ok nameservers)
  | Err _ =>
      try? addrs := parse_resolvers fallback_resolvers in
      await? r := build_resolver addrs in
      Ret (Ok [r])
  end.

Definition wait_for_propagation (fuel : nat) (fqdn expected : string)
    (fallback_resolvers : list string) (tm : PropagationTiming) : sys (option (dns_result unit)) :=
  let fqdn_trimmed := trim_end_matches dot fqdn in
  let* targets := poll_targets fqdn_trimmed fallback_resolvers in
  match targets with
  | Err e => Ret (Some (Err e))
  | Ok targets =>
      poll_until_all_confirm (call Now) (fun d => call (Sleep d))
        (fun r => serves_value r fqdn_trimmed expected) fqdn tm fuel targets
  end.
End wait.

(** ** Theory of the loop

    The loop on its own, with the check of a target as one event. *)

Inductive pollE (T : Type) : Type -> Type :=
| PNow : pollE T Z
| PSleep (d : Duration) : pollE T unit
| PCheck (t : T) : pollE T bool.
Arguments PNow {T}.
Arguments PSleep {T} d.
Arguments PCheck {T} t.

Definition poll {T} (fqdn : string) (tm : PropagationTiming) (fuel : nat) (targets : list T)
  : prog (pollE T) (option (dns_result unit)) :=
  poll_until_all_confirm (call PNow) (fun d => call (PSleep d)) (fun t => call (PCheck t))
    fqdn tm fuel targets.

(** The checks of a trace, with their answers. *)
Definition checks {T} (t : list (event (pollE T))) : list (T * bool) :=
  omap (fun ev => match ev with
                  | @Ev _ Y e x =>
                      match e in pollE _ Z return Z -> option (T * bool) with
                      | PCheck t => fun x => Some (t, x)
                      | _ => fun _ => None
                      end x
                  end) t.

Lemma checks_app {T} (t u : list (event (pollE T))) : checks (t ++ u) = checks t ++ checks u.
Proof. apply omap_app. Qed.

Section poll_theory.
Context {T W : Type} (h : handler (pollE T) W) (fqdn : string) (tm : PropagationTiming).

Abbreviation pass := (poll_pass (fun t => call (@PCheck T t))).
Abbreviation loop :=
  (poll_loop (call PNow) (fun d => call (PSleep d)) (fun t => call (@PCheck T t)) fqdn tm).

(** Unconfirmed targets of a list of checks. *)
Definition unconfirmed (l : list (T * bool)) : list T :=
  map fst (List.filter (fun p => negb (snd p)) l).

(** A pass checks every pending target once, in order, and keeps those that
    did not confirm. *)
Lemma pass_checks pending w :
  map fst (checks (trace h (pass pending) w)) = pending /\
  fst (run h (pass pending) w) = unconfirmed (checks (trace h (pass pending) w)).
Proof.
  revert w. induction pending as [|t pending IH]; intros w; [done|].
  cbn [poll_pass]. rewrite trace_call, run_call.
  destruct (h _ (PCheck t) w) as [ok w1] eqn:E1. rewrite trace_bind, run_bind.
  destruct (IH w1) as [IH1 IH2]. destruct (run h (pass pending) w1) as [still w2] eqn:Er.
  cbn [fst] in IH2. cbn [trace run fst]. rewrite app_nil_r.
  change (checks (Ev (PCheck t) ok :: ?u)) with ((t, ok) :: checks u).
  split; [cbn; by f_equal|]. unfold unconfirmed in *. destruct ok; cbn; by rewrite IH2.
Qed.

Lemma unconfirmed_sub l t : t ∈ unconfirmed l -> t ∈ map fst l.
Proof.
  unfold unconfirmed. rewrite !list_elem_of_In, !in_map_iff. intros (p & <- & Hp).
  apply filter_In in Hp as [Hp _]. eauto.
Qed.

Lemma unconfirmed_spec l t : t ∈ unconfirmed l <-> (t, false) ∈ l.
Proof.
  unfold unconfirmed. rewrite !list_elem_of_In, in_map_iff. split.
  - intros ([t' b] & <- & [Hp Hb]%filter_In). cbn in *. by destruct b.
  - intros Hp. exists (t, false). split; [done|]. by apply filter_In.
Qed.

(** Only pending targets are checked. *)
Lemma loop_checks_pending fuel start pending w t b :
  (t, b) ∈ checks (trace h (loop fuel start pending) w) -> t ∈ pending.
Proof.
  revert pending w. induction fuel as [|fuel IH]; intros pending w; cbn [poll_loop].
  { by intros ?%elem_of_nil. }
  rewrite trace_bind. pose proof (pass_checks pending w) as [H1 H2].
  destruct (run h (pass pending) w) as [left w1]. cbn in H2.
  rewrite checks_app. intros [Hp|Hl]%elem_of_app.
  { rewrite <- H1. apply list_elem_of_fmap. exists (t, b). done. }
  assert (t ∈ left) as Ht; [|rewrite H2 in Ht; apply unconfirmed_sub in Ht; by rewrite H1 in Ht].
  destruct left as [|x left]; [by apply elem_of_nil in Hl|]. revert Hl.
  rewrite trace_call. destruct (h _ PNow w1) as [now w2].
  destruct (_ <=? _); [by intros ?%elem_of_nil|].
  rewrite trace_call. destruct (h _ (PSleep _) w2) as [[] w3]. apply IH.
Qed.

(** No target is checked again after it has confirmed. *)
Definition asked_until_confirmed (cs : list (T * bool)) : Prop :=
  forall pre t post, cs = pre ++ (t, true) :: post -> t ∉ map fst post.

Lemma asked_app cs1 rest :
  NoDup (map fst cs1) -> (forall t b, (t, true) ∈ cs1 -> (t, b) ∉ rest) ->
  asked_until_confirmed rest -> asked_until_confirmed (cs1 ++ rest).
Proof.
  intros Hnd Hrest Hno. induction cs1 as [|[x b] cs1 IH]; [exact Hno|].
  cbn in Hnd. apply NoDup_cons in Hnd as [Hx Hnd].
  intros [|p pre] t post E; cbn in E.
  - injection E as -> -> <-. rewrite map_app, elem_of_app. intros [Ht|Ht]; [done|].
    apply list_elem_of_fmap in Ht as ([y b'] & -> & Hy). apply (Hrest y b'); [left|done].
  - injection E as _ E. eapply IH; [done| |exact E]. intros y b' Hy. apply Hrest. by right.
Qed.

(** In a pass over distinct targets, one that confirmed is not left over. *)
Lemma confirmed_not_left cs t :
  NoDup (map fst cs) -> (t, true) ∈ cs -> t ∉ unconfirmed cs.
Proof.
  rewrite unconfirmed_spec. induction cs as [|[x b] cs IH]; cbn; [by intros _ ?%elem_of_nil|].
  intros [Hx Hnd]%NoDup_cons Ht Hf.
  assert (forall b', (x, b') ∈ cs -> False) as Hx'
    by (intros b' Hb; apply Hx, list_elem_of_fmap; by exists (x, b')).
  apply elem_of_cons in Ht as [[= <- <-]|Ht], Hf as [Hf|Hf]; simplify_eq; eauto.
  by apply IH.
Qed.

Lemma unconfirmed_nodup cs : NoDup (map fst cs) -> NoDup (unconfirmed cs).
Proof.
  unfold unconfirmed. induction cs as [|[x b] cs IH]; cbn; [done|].
  intros [Hx Hnd]%NoDup_cons. destruct b; cbn; [by apply IH|]. constructor; [|by apply IH].
  intros H. apply Hx. by apply unconfirmed_sub in H.
Qed.

(** What a complete run of the loop asked and answered. *)
Lemma loop_spec fuel start pending w :
  (fst (run h (loop fuel start pending) w) = Some (Ok tt) ->
   forall t, t ∈ pending -> (t, true) ∈ checks (trace h (loop fuel start pending) w)) /\
  (NoDup pending -> asked_until_confirmed (checks (trace h (loop fuel start pending) w))).
Proof.
  revert pending w. induction fuel as [|fuel IH]; intros pending w; cbn [poll_loop].
  { split; [done|]. intros _ [] ? ?; done. }
  rewrite trace_bind, run_bind, checks_app. pose proof (pass_checks pending w) as [H1 H2].
  set (cs1 := checks (trace h (pass pending) w)) in *.
  destruct (run h (pass pending) w) as [left w1]. cbn in H2.
  match goal with |- context [run h ?p w1] => set (next := p) end.
  assert ((forall t b, (t, b) ∈ checks (trace h next w1) -> t ∈ left) /\
          (fst (run h next w1) = Some (Ok tt) -> forall t, t ∈ left -> (t, true) ∈ checks (trace h next w1)) /\
          (NoDup left -> asked_until_confirmed (checks (trace h next w1)))) as (Hin & Hok & Hno).
  { unfold next. destruct left as [|x left'].
    { split; [by intros t b ?%elem_of_nil|]. split; [by intros _ t ?%elem_of_nil|].
      intros _ [] ? ?; done. }
    rewrite trace_call, run_call. destruct (h _ PNow w1) as [now w2].
    destruct (_ <=? _).
    { split; [by intros t b ?%elem_of_nil|]. split; [done|]. intros _ [] ? ?; done. }
    rewrite trace_call, run_call. destruct (h _ (PSleep _) w2) as [[] w3].
    split; [|apply IH]. intros t b. apply (loop_checks_pending fuel start _ w3 t b). }
  subst left. split.
  - intros Hr t Ht. rewrite <- H1 in Ht. apply list_elem_of_fmap in Ht as ([t' b] & -> & Hb).
    apply elem_of_app. destruct b; [by left|right]. apply Hok; [exact Hr|]. by apply unconfirmed_spec.
  - intros Hnd. rewrite <- H1 in Hnd. apply asked_app; [done| |by apply Hno, unconfirmed_nodup].
    intros t b Ht Hb. apply Hin in Hb. by apply confirmed_not_left in Ht.
Qed.

(** A time-out is reported only when the timeout has elapsed, and a target
    still has not confirmed. *)
Lemma loop_timeout fuel start pending w e :
  fst (run h (loop fuel start pending) w) = Some (Err e) ->
  e = PropagationTimeout fqdn (as_secs (timeout tm)) /\
  exists t, (t, false) ∈ checks (trace h (loop fuel start pending) w).
Proof.
  revert pending w. induction fuel as [|fuel IH]; intros pending w; cbn [poll_loop]; [done|].
  rewrite trace_bind, run_bind, checks_app. pose proof (pass_checks pending w) as [H1 H2].
  destruct (run h (pass pending) w) as [left w1]. cbn in H2.
  destruct left as [|x left']; [done|]. rewrite trace_call, run_call.
  destruct (h _ PNow w1) as [now w2]. destruct (_ <=? _).
  - intros [= <-]. split; [done|]. exists x. apply elem_of_app. left.
    apply unconfirmed_spec. rewrite <- H2. left.
  - rewrite trace_call, run_call. destruct (h _ (PSleep _) w2) as [[] w3].
    intros Hr. apply IH in Hr as [He [t Ht]]. split; [done|]. exists t. apply elem_of_app. by right.
Qed.

(** A clock that never goes back, and advances by the length of a pause. *)
Record clock_ok (clock : W -> Z) : Prop := {
  clock_now : forall w, h _ PNow w = (clock w, w);
  clock_sleep : forall d w, clock w + d <= clock (snd (h _ (PSleep d) w));
  clock_check : forall t w, clock w <= clock (snd (h _ (PCheck t) w))
}.

Lemma pass_clock clock pending w :
  clock_ok clock -> clock w <= clock (snd (run h (pass pending) w)).
Proof.
  intros Hc. revert w. induction pending as [|t pending IH]; intros w; cbn [poll_pass]; [cbn; lia|].
  rewrite run_call. pose proof (clock_check clock Hc t w). destruct (h _ (PCheck t) w) as [ok w1].
  rewrite run_bind. specialize (IH w1). destruct (run h (pass pending) w1) as [? w2].
  cbn in *. lia.
Qed.

Lemma loop_terminates clock fuel start pending w :
  clock_ok clock -> 0 < interval tm -> start <= clock w ->
  timeout tm - (clock w - start) <= (Z.of_nat fuel - 1) * interval tm ->
  (0 < fuel)%nat ->
  fst (run h (loop fuel start pending) w) <> None.
Proof.
  intros Hc Hi. revert pending w. induction fuel as [|fuel IH]; intros pending w Hs Hf Hp; [lia|].
  cbn [poll_loop]. rewrite run_bind. pose proof (pass_clock clock pending w Hc) as Hcl.
  destruct (run h (pass pending) w) as [left w1]. cbn in Hcl.
  destruct left as [|x left']; [done|]. rewrite run_call, (clock_now clock Hc).
  destruct (Z.leb_spec (timeout tm) (Z.max 0 (clock w1 - start))); [done|].
  rewrite run_call. pose proof (clock_sleep clock Hc (interval tm) w1) as Hsl.
  destruct (h _ (PSleep _) w1) as [[] w2]. cbn in Hsl.
  destruct fuel as [|fuel]; [lia|]. apply IH; nia.
Qed.

(** Targets that confirm whenever they are asked from a date on, and answer in
    a bounded time. *)
Record prompt (clock : W -> Z) (targets : list T) (date cost : Z) : Prop := {
  prompt_confirms : forall t w, t ∈ targets -> date <= clock w -> fst (h _ (PCheck t) w) = true;
  prompt_cost : forall t w, clock (snd (h _ (PCheck t) w)) <= clock w + cost
}.

Lemma pass_cost clock targets date cost pending w :
  prompt clock targets date cost -> clock (snd (run h (pass pending) w)) <= clock w + Z.of_nat (length pending) * cost.
Proof.
  intros Hp. revert w. induction pending as [|t pending IH]; intros w; cbn [poll_pass]; [cbn; lia|].
  rewrite run_call. pose proof (prompt_cost _ _ _ _ Hp t w). destruct (h _ (PCheck t) w) as [ok w1].
  rewrite run_bind. specialize (IH w1). destruct (run h (pass pending) w1) as [? w2]. cbn [run snd length] in *. lia.
Qed.

(** A pass that leaves a target has asked it before the date. *)
Lemma pass_early clock targets date cost pending w :
  clock_ok clock -> prompt clock targets date cost -> 0 <= cost -> pending ⊆ targets ->
  let '(rest, w') := run h (pass pending) w in
  rest ⊆ targets /\ (length rest <= length pending)%nat /\
  (rest <> [] -> clock w < date /\ clock w' < date + Z.of_nat (length pending) * cost).
Proof.
  intros Hc Hp Hcost. revert w. induction pending as [|t pending IH]; intros w Hsub; cbn [poll_pass]; [by cbn|].
  rewrite run_call. pose proof (prompt_confirms _ _ _ _ Hp t w ltac:(set_solver)) as Hok. pose proof (prompt_cost _ _ _ _ Hp t w) as H1.
  pose proof (clock_check clock Hc t w) as H0. destruct (h _ (PCheck t) w) as [ok w1]. cbn [fst snd] in *.
  rewrite run_bind. pose proof (pass_cost clock targets date cost pending w1 Hp) as H2. specialize (IH w1 ltac:(set_solver)).
  destruct (run h (pass pending) w1) as [rest w2]. cbn [run snd length] in *. destruct IH as (Hsub' & Hl & Hleft).
  destruct ok; cbn [length].
  - split; [done|]. split; [lia|]. intros Hne. destruct (Hleft Hne). lia.
  - split; [set_solver|]. split; [lia|]. intros _. destruct (Z.le_gt_cases date (clock w)) as [Hd|]; [by apply Hok in Hd|]. lia.
Qed.

Lemma loop_succeeds clock targets date cost n fuel start pending w e :
  clock_ok clock -> prompt clock targets date cost -> 0 <= cost -> pending ⊆ targets -> start <= clock w -> (length pending <= n)%nat ->
  0 <= interval tm -> date + Z.of_nat n * cost <= start + timeout tm ->
  fst (run h (loop fuel start pending) w) <> Some (Err e).
Proof.
  intros Hc Hp Hcost. revert pending w. induction fuel as [|fuel IH]; intros pending w Hsub Hs Hn Hi Hd; [done|].
  cbn [poll_loop]. rewrite run_bind. pose proof (pass_clock clock pending w Hc) as Hcl.
  pose proof (pass_early clock targets date cost pending w Hc Hp Hcost Hsub) as He.
  destruct (run h (pass pending) w) as [left w1]. cbn [snd] in Hcl. destruct He as (Hsub' & Hl & He).
  destruct left as [|x left']; [done|]. destruct (He ltac:(done)) as [H0 H1].
  rewrite run_call, (clock_now clock Hc). destruct (Z.leb_spec (timeout tm) (Z.max 0 (clock w1 - start))); [nia|].
  rewrite run_call. pose proof (clock_sleep clock Hc (interval tm) w1) as Hsl.
  destruct (h _ (PSleep _) w1) as [[] w2]. cbn [snd] in Hsl. apply IH; [done|lia|lia|done|done].
Qed.
End poll_theory.

(** ** Properties *)

(** C38. The poll reports success only if every target confirmed, and a target
    that has confirmed is never asked again; it reports a timeout only with a
    target that did not confirm. *)
Theorem poll_confirms_all {T W} (h : handler (pollE T) W) fqdn tm fuel targets w :
  let cs := checks (trace h (poll fqdn tm fuel targets) w) in
  let r := fst (run h (poll fqdn tm fuel targets) w) in
  (r = Some (Ok tt) -> forall t, t ∈ targets -> (t, true) ∈ cs) /\
  (NoDup targets -> forall pre t post, cs = pre ++ (t, true) :: post -> t ∉ map fst post) /\
  (forall e, r = Some (Err e) ->
     e = PropagationTimeout fqdn (as_secs (timeout tm)) /\ exists t, (t, false) ∈ cs).
Proof.
  cbn zeta. unfold poll, poll_until_all_confirm. rewrite trace_call, run_call.
  destruct (h _ PNow w) as [start w1].
  change (checks (Ev PNow start :: ?t)) with (checks t).
  destruct (loop_spec h fqdn tm fuel start targets w1) as [H1 H2].
  split; [exact H1|]. split; [exact H2|]. intros e. apply loop_timeout.
Qed.

(** Fuel for a poll: one turn per interval of the timeout, and two. *)
Definition poll_fuel (tm : PropagationTiming) : nat :=
  Z.to_nat (timeout tm / interval tm + 2).

Lemma poll_ends {T W} (h : handler (pollE T) W) clock fqdn tm targets w :
  clock_ok h clock -> 0 < interval tm -> 0 <= timeout tm ->
  exists r, fst (run h (poll fqdn tm (poll_fuel tm) targets) w) = Some r.
Proof.
  intros Hc Hi Ht. unfold poll, poll_until_all_confirm. rewrite run_call, (clock_now h clock Hc).
  pose proof (Z.div_mod (timeout tm) (interval tm) ltac:(lia)).
  pose proof (Z.mod_pos_bound (timeout tm) (interval tm) Hi).
  assert (0 <= timeout tm / interval tm) by (apply Z.div_pos; lia).
  pose proof (loop_terminates h fqdn tm clock (poll_fuel tm) (clock w) targets w Hc Hi) as Hl.
  destruct (fst _) as [r|] eqn:E; [eauto|]. exfalso. apply Hl; [lia| |unfold poll_fuel; lia|done].
  unfold poll_fuel. rewrite Z2Nat.id by lia. nia.
Qed.

(** C39. When the clock advances by at least the length of each pause, the
    poll ends: after at most one turn per interval of its timeout, and two
    more, it has returned.  When, besides, every target confirms whenever it is
    asked from some date on, and that date leaves, before the timeout, the time
    to ask every target once, the poll succeeds: it does not give up early, nor
    skip the last turn. *)
Theorem poll_returns {T W} (h : handler (pollE T) W) clock fqdn tm targets w
    (Hc : clock_ok h clock) (Hi : 0 < interval tm) (Ht : 0 <= timeout tm) :
  (exists r, fst (run h (poll fqdn tm (poll_fuel tm) targets) w) = Some r) /\
  (forall date cost, prompt h clock targets date cost -> 0 <= cost ->
     date + Z.of_nat (length targets) * cost <= clock w + timeout tm ->
     fst (run h (poll fqdn tm (poll_fuel tm) targets) w) = Some (Ok tt)).
Proof.
  destruct (poll_ends h clock fqdn tm targets w Hc Hi Ht) as [r Hr]. split; [eauto|].
  intros date cost Hp Hcost Hd. rewrite Hr. destruct r as [[]|e]; [done|]. exfalso. revert Hr.
  unfold poll, poll_until_all_confirm. rewrite run_call, (clock_now h clock Hc).
  apply (loop_succeeds h fqdn tm clock targets date cost (length targets)); [done|done|done|done|lia|done|lia|done].
Qed.

(** A clock, and targets that confirm once it shows their date. *)
Definition demo_poll : handler (pollE (string * Z)) Z := fun X e w =>
  match e in pollE _ X return X * Z with
  | PNow => (w, w)
  | PSleep d => (tt, w + d)
  | PCheck t => (snd t <=? w, w)
  end.

Definition demo_timing : PropagationTiming := mkTiming (from_secs 60) (from_secs 1).

Lemma poll_confirms_all_witness :
  fst (run demo_poll (poll "_acme-challenge.example.com" demo_timing (poll_fuel demo_timing)
         [("ns1", 0); ("ns2", from_secs 2)]) 0) = Some (Ok tt) /\
  checks (trace demo_poll (poll "_acme-challenge.example.com" demo_timing (poll_fuel demo_timing)
         [("ns1", 0); ("ns2", from_secs 2)]) 0)
    = [(("ns1", 0), true); (("ns2", from_secs 2), false); (("ns2", from_secs 2), false);
       (("ns2", from_secs 2), true)] /\
  (("ns2", from_secs 2), true) ∈
    checks (trace demo_poll (poll "_acme-challenge.example.com" demo_timing (poll_fuel demo_timing)
         [("ns1", 0); ("ns2", from_secs 2)]) 0).
Proof.
  split; [by vm_compute|]. split; [by vm_compute|].
  apply (poll_confirms_all demo_poll "_acme-challenge.example.com" demo_timing (poll_fuel demo_timing)
           [("ns1", 0); ("ns2", from_secs 2)] 0); [by vm_compute|right; left].
Defined.

(** A target that confirms five seconds after the start, which is the timeout. *)
Lemma poll_returns_witness :
  fst (run demo_poll (poll "_acme-challenge.example.com" (mkTiming (from_secs 5) (from_secs 2))
         (poll_fuel (mkTiming (from_secs 5) (from_secs 2))) [("ns2", from_secs 5)]) 0) = Some (Ok tt).
Proof.
  refine (proj2 (poll_returns demo_poll (fun w => w) "_acme-challenge.example.com" (mkTiming (from_secs 5) (from_secs 2))
    [("ns2", from_secs 5)] 0 _ _ _) (from_secs 5) 0 _ _ _); [|by vm_compute|by vm_compute| |by vm_compute|by vm_compute].
  - constructor; cbn; intros; [done|lia|lia].
  - split; cbn; [|intros; lia]. intros t w ->%list_elem_of_singleton. cbn. intros Hd. by apply Z.leb_le.
Defined.
