(* ===== verification/Cleanup.v ===== *)
(** * The cleanup guard (src/cleanup.rs)

    A solver keeps in a [CleanupGuard] what it has put in place and must take
    down.  The guard is a list shared with the solver's future: [run] takes
    its items down one by one and removes an item only once its cleanup has
    completed; [Drop] takes down what is left when the future is dropped.

    [guardE] adds the guard to the events of a solver, and [guard_handler] its
    list to the state of their environment. *)

From S2P Require Import Prelude Errors Effects.

Inductive guardE (T : Type) (E : Type -> Type) : Type -> Type :=
| Env (X : Type) (e : E X) : guardE T E X
| Push (item : T) : guardE T E unit
| Pending : guardE T E (list T)
| RemoveFirst : guardE T E unit.
Arguments Env {T E X} e.
Arguments Push {T E} item.
Arguments Pending {T E}.
Arguments RemoveFirst {T E}.

Section guard.
Context {T : Type} {E : Type -> Type}.

Definition guard_handler {W} (h : handler E W) : handler (guardE T E) (W * list T) :=
  fun X e '(w, pending) =>
    match e in guardE _ _ X return X * (W * list T) with
    | Env e => let '(x, w') := h _ e w in (x, (w', pending))
    | Push item => (tt, (w, pending ++ [item]))
    | Pending => (pending, (w, pending))
    | RemoveFirst => (tt, (w, tl pending))
    end.

(** A program of the environment, which does not see the guard. *)
Fixpoint lift {A} (p : prog E A) : prog (guardE T E) A :=
  match p with
  | Ret a => Ret a
  | Vis e k => Vis (Env e) (fun x => lift (k x))
  end.

Definition env {X} (e : E X) : prog (guardE T E) X := call (Env e).

(** [CleanupGuard::push] and [CleanupGuard::pending]. *)
Definition push (item : T) : prog (guardE T E) unit := call (Push item).
Definition pending : prog (guardE T E) (list T) := call Pending.

Context (cleanup : T -> prog E unit).

(** [while let Some(item) = self.pending.first().cloned()]: one turn per
    pending item. *)
Fixpoint guard_run_loop (turns : nat) : prog (guardE T E) unit :=
  match turns with
  | O => Ret tt
  | S turns' =>
      let* items := pending in
      match items with
      | [] => Ret tt
      | item :: _ =>
          let* _ := lift (cleanup item) in
          let* _ := call RemoveFirst in
          guard_run_loop turns'
      end
  end.

Definition guard_run : prog (guardE T E) unit :=
  let* items := pending in guard_run_loop (length items).

(** The task [Drop] spawns: [for item in pending { cleanup(item).await; }]. *)
Fixpoint cleanup_all (items : list T) : prog E unit :=
  match items with
  | [] => Ret tt
  | item :: rest => let* _ := cleanup item in cleanup_all rest
  end.

(** [Drop]: nothing to do, no runtime to do it on, or a task spawned. *)
Definition guard_drop (has_runtime : bool) (items : list T) : option (prog E unit) :=
  match items with
  | [] => None
  | _ :: _ => if has_runtime then Some (cleanup_all items) else None
  end.

(** ** Theory *)

Context {W : Type} (h : handler E W).

Lemma run_lift {A} (p : prog E A) w l :
  run (guard_handler h) (lift p) (w, l) = (fst (run h p w), (snd (run h p w), l)).
Proof.
  revert w. induction p as [a|X e k IH]; intros w; cbn; [done|].
  destruct (h X e w) as [x w']. apply IH.
Qed.

(** A prefix of a lifted program leaves the guard as it is. *)
Lemma run_for_lift_guard {A} n (p : prog E A) w l :
  snd (fst (run_for n (guard_handler h) (lift p) (w, l))) = l.
Proof.
  revert n w. induction p as [a|X e k IH]; intros [|n] w; cbn; try done.
  destruct (h X e w) as [x w']. specialize (IH x n w').
  by destruct (run_for n (guard_handler h) (lift (k x)) (w', l)).
Qed.

(** [guard_run] is [cleanup_all] of the pending items, and empties the guard. *)
Lemma guard_loop_all l w :
  run (guard_handler h) (guard_run_loop (length l)) (w, l) = (tt, (snd (run h (cleanup_all l) w), [])).
Proof.
  revert w. induction l as [|item l IH]; intros w; cbn [guard_run_loop length cleanup_all]; [done|].
  unfold pending. rewrite run_call. cbn [guard_handler]. rewrite run_bind, run_lift, run_call.
  cbn [guard_handler tl]. rewrite IH, run_bind. by destruct (run h (cleanup item) w).
Qed.
(** The events of the environment in a run with the guard. *)
Definition env_event (ev : event (guardE T E)) : option (event E) :=
  match ev with @Ev _ Y e x =>
    match e in guardE _ _ Y return Y -> option (event E) with
    | Env e => fun x => Some (Ev e x)
    | _ => fun _ => None
    end x
  end.

Lemma trace_lift {A} (p : prog E A) w l :
  omap env_event (trace (guard_handler h) (lift p) (w, l)) = trace h p w.
Proof.
  revert w. induction p as [a|X e k IH]; intros w; cbn; [done|].
  destruct (h X e w) as [x w']. cbn. f_equal. apply IH.
Qed.

Lemma guard_loop_trace l w :
  omap env_event (trace (guard_handler h) (guard_run_loop (length l)) (w, l)) =
  trace h (cleanup_all l) w.
Proof.
  revert w. induction l as [|item l IH]; intros w; cbn [guard_run_loop length cleanup_all]; [done|].
  unfold pending. rewrite trace_call. cbn [guard_handler].
  rewrite trace_bind, run_lift, trace_call. cbn [guard_handler tl]. cbn [omap list_omap env_event].
  rewrite omap_app, trace_lift, trace_bind. f_equal. cbn.
  destruct (run h (cleanup item) w) as [[] w']. apply IH.
Qed.

Lemma run_guard_run l w :
  run (guard_handler h) guard_run (w, l) = (tt, (snd (run h (cleanup_all l) w), [])).
Proof. unfold guard_run, pending. rewrite run_call. cbn [guard_handler]. apply guard_loop_all. Qed.

Lemma trace_guard_run l w :
  omap env_event (trace (guard_handler h) guard_run (w, l)) = trace h (cleanup_all l) w.
Proof. unfold guard_run, pending. rewrite trace_call. cbn. apply guard_loop_trace. Qed.
End guard.

(** ** Stopping a run of the guard

    What has been taken down when the run is stopped, at the level of whole
    cleanups: one event per cleanup. *)

Inductive cleanE (T : Type) : Type -> Type :=
| Clean (item : T) : cleanE T unit.
Arguments Clean {T} item.

Definition cleaned {T} (t : list (event (guardE T (cleanE T)))) : list T :=
  omap (fun ev => match ev with
                  | @Ev _ Y e x =>
                      match e with
                      | @Env _ _ Z c => match c with Clean item => Some item end
                      | _ => None
                      end
                  end) t.

Lemma cleaned_app {T} (t u : list (event (guardE T (cleanE T)))) :
  cleaned (t ++ u) = cleaned t ++ cleaned u.
Proof. apply omap_app. Qed.

Section stop.
Context {T W : Type} (h : handler (cleanE T) W).

Abbreviation clean := (fun item : T => call (Clean item)).

(** The items that are gone were cleaned up, in order; at most the first of
    those kept was cleaned up too. *)
Definition stopped_at (l kept : list T) (t : list (event (guardE T (cleanE T)))) : Prop :=
  exists gone, l = gone ++ kept /\
    (cleaned t = gone \/ exists item rest, kept = item :: rest /\ cleaned t = gone ++ [item]).

Lemma loop_stopped n l w :
  let '((_, kept), t) := run_for n (guard_handler h) (guard_run_loop clean (length l)) (w, l) in
  stopped_at l kept t.
Proof.
  revert n w. induction l as [|item l IH]; intros n w.
  { destruct n; cbn; exists []; eauto. }
  destruct n as [|n]; [cbn; exists []; eauto|].
  destruct n as [|n]; [cbn; exists []; eauto|]. cbn. destruct (h unit (Clean item) w) as [[] w'].
  destruct n as [|n]; [cbn; exists []; split; [done|right; eauto]|]. cbn.
  specialize (IH n w'). destruct (run_for n _ _ _) as [[w2 kept] t].
  destruct IH as (gone & -> & Hc). exists (item :: gone).
  split; [done|]. destruct Hc as [Hc|(i & rest & -> & Hc)]; cbn; [left; by f_equal|].
  right. exists i, rest. split; [done|]. by f_equal.
Qed.

(** The cleanups of the task spawned by [Drop]. *)
Definition cleans (t : list (event (cleanE T))) : list T :=
  omap (fun ev => match ev with @Ev _ Y e x => match e with Clean item => Some item end end) t.

Lemma cleanup_all_cleans l w : cleans (trace h (cleanup_all clean l) w) = l.
Proof.
  revert w. induction l as [|item l IH]; intros w; cbn [cleanup_all]; [done|].
  rewrite trace_call. destruct (h _ (Clean item) w) as [[] w']. cbn. f_equal. apply IH.
Qed.

Definition dropped (items : list T) (w : W) : list T :=
  match guard_drop clean true items with
  | Some task => cleans (trace h task w)
  | None => []
  end.

Lemma dropped_all items w : dropped items w = items.
Proof. unfold dropped. destruct items; [done|]. apply cleanup_all_cleans. Qed.
End stop.

(** ** Properties *)

(** However many steps [run] has made when its future is dropped, and a
    runtime is there, every item of the guard is cleaned up at least once and
    in order: the items gone from the guard by [run], the others by the task
    [Drop] spawns; only the item whose cleanup was under way may be cleaned
    up by both. *)
Theorem guard_survives_cancellation {T W} (h : handler (cleanE T) W) n (l : list T) w :
  let '((w', kept), t) :=
    run_for n (guard_handler h) (guard_run (fun item => call (Clean item))) (w, l) in
  exists gone, l = gone ++ kept /\ dropped h kept w' = kept /\
    (cleaned t = gone \/ exists item rest, kept = item :: rest /\ cleaned t = gone ++ [item]).
Proof.
  unfold guard_run. destruct n as [|n].
  { cbn. exists []. rewrite dropped_all. eauto. }
  cbn. pose proof (loop_stopped h n l w) as H.
  destruct (run_for n _ _ _) as [[w' kept] t]. destruct H as (gone & H1 & H2).
  exists gone. rewrite dropped_all. done.
Qed.

(** A [run] that is not interrupted cleans up every item, in order, and
    leaves the guard empty, so that dropping it does nothing. *)
Theorem guard_run_empties {T E W} (h : handler E W) (cleanup : T -> prog E unit) l w :
  run (guard_handler h) (guard_run cleanup) (w, l) = (tt, (snd (run h (cleanup_all cleanup l) w), [])) /\
  (forall rt, guard_drop cleanup rt (snd (snd (run (guard_handler h) (guard_run cleanup) (w, l)))) = None).
Proof.
  split; [apply run_guard_run|]. by rewrite run_guard_run.
Qed.
