(* ===== verification/Solver.v ===== *)
(** * The DNS-01 solver (src/solver.rs, [Dns01Solver])

    The solver presents the record of every pending challenge, waits until
    they are visible, tells the ACME server to validate, finalizes the order,
    and takes every record down again, on every path.

    It runs over the events below: the calls to the [ChallengeDriver] and to
    the [DnsProvider], the propagation wait (in [Propagation]), the fixed
    delay that replaces it, and the hook for failed cleanups; what it has
    placed is in the guard of [Cleanup].  The loop over the driver's
    challenges has no bound of its own and is given fuel; [None] means that
    it was used up. *)

From S2P Require Import Prelude Rstr Errors Effects Sys Provider Testing Propagation Cleanup.

Record Dns01Challenge : Type := mkChallenge {
  ch_domain : string;
  ch_fqdn : string;
  dns_value : string;
  token : nat
}.

Record PlacedRecord : Type := mkPlaced {
  pr_fqdn : string;
  pr_value : string
}.

#[global] Instance placed_record_eq_dec : EqDecision PlacedRecord.
Proof. solve_decision. Defined.

(** ** Configuration *)

(** [provider_timing] is the [timing] of the provider, [hook] whether
    [on_cleanup_error] was called. *)
Record Dns01Solver : Type := mkSolver {
  provider_timing : PropagationTiming;
  fallback_resolvers : list string;
  solver_timing : option PropagationTiming;
  skip_propagation : option Duration;
  hook : bool
}.

Definition solver_new (provider_timing : PropagationTiming) : Dns01Solver :=
  mkSolver provider_timing DEFAULT_RESOLVERS None None false.

Definition with_resolvers (s : Dns01Solver) (resolvers : list string) : Dns01Solver :=
  mkSolver (provider_timing s) resolvers (solver_timing s) (skip_propagation s) (hook s).

(** [self.timing.get_or_insert_with(PropagationTiming::default).timeout = timeout]. *)
Definition with_timeout (s : Dns01Solver) (t : Duration) : Dns01Solver :=
  let tm := default default_timing (solver_timing s) in
  mkSolver (provider_timing s) (fallback_resolvers s) (Some (mkTiming t (interval tm)))
    (skip_propagation s) (hook s).

Definition with_interval (s : Dns01Solver) (i : Duration) : Dns01Solver :=
  let tm := default default_timing (solver_timing s) in
  mkSolver (provider_timing s) (fallback_resolvers s) (Some (mkTiming (timeout tm) i))
    (skip_propagation s) (hook s).

Definition skip_propagation_check (s : Dns01Solver) (delay : Duration) : Dns01Solver :=
  mkSolver (provider_timing s) (fallback_resolvers s) (solver_timing s) (Some delay) (hook s).

Definition on_cleanup_error (s : Dns01Solver) : Dns01Solver :=
  mkSolver (provider_timing s) (fallback_resolvers s) (solver_timing s) (skip_propagation s) true.

(** [self.timing.unwrap_or_else(|| self.provider.timing())]. *)
Definition effective_timing (s : Dns01Solver) : PropagationTiming :=
  default (provider_timing s) (solver_timing s).

(** ** Events *)

Inductive solveE : Type -> Type :=
| NextDns01 : solveE (option (dns_result Dns01Challenge))
| SetReady (tokens : list nat) : solveE (dns_result unit)
| Finalize : solveE (dns_result (string * string))
| Present (fqdn value : string) : solveE (dns_result unit)
| CleanupRecord (fqdn value : string) : solveE (dns_result unit)
| WaitPropagation (fqdn value : string) (resolvers : list string) (tm : PropagationTiming)
  : solveE (dns_result unit)
| Delay (d : Duration) : solveE unit
| Hook (fqdn : string) (e : DnsError) : solveE unit.

Abbreviation solver A := (prog (guardE PlacedRecord solveE) A).

(** ** The solver *)

(** The closure given to [CleanupGuard::new]. *)
Definition cleanup_record (s : Dns01Solver) (r : PlacedRecord) : prog solveE unit :=
  let* res := call (CleanupRecord (pr_fqdn r) (pr_value r)) in
  match res with
  | Ok _ => Ret tt
  | Err e => if hook s then call (Hook (pr_fqdn r) e) else Ret tt
  end.

(** [while let Some(result) = driver.next_dns01().await]. *)
Fixpoint present_challenges (fuel : nat) (tokens : list nat) : solver (option (dns_result (list nat))) :=
  match fuel with
  | O => Ret None
  | S fuel' =>
      let* next := env NextDns01 in
      match next with
      | None => Ret (Some (Ok tokens))
      | Some (Err e) => Ret (Some (Err e))
      | Some (Ok challenge) =>
          let* _ := push (mkPlaced (ch_fqdn challenge) (dns_value challenge)) in
          let* presented := env (Present (ch_fqdn challenge) (dns_value challenge)) in
          match presented with
          | Err e => Ret (Some (Err e))
          | Ok _ => present_challenges fuel' (tokens ++ [token challenge])
          end
      end
  end.

(** [for record in placed.pending() { wait_for_propagation(...).await?; }]. *)
Fixpoint wait_all (s : Dns01Solver) (records : list PlacedRecord) : solver (dns_result unit) :=
  match records with
  | [] => Ret (Ok tt)
  | r :: rest =>
      await? _ := env (WaitPropagation (pr_fqdn r) (pr_value r) (fallback_resolvers s) (effective_timing s)) in
      wait_all s rest
  end.

Definition await_visible (s : Dns01Solver) : solver (dns_result unit) :=
  match skip_propagation s with
  | Some delay => let* _ := env (Delay delay) in Ret (Ok tt)
  | None => let* records := pending in wait_all s records
  end.

Definition present_then_ready (s : Dns01Solver) (fuel : nat) : solver (option (dns_result unit)) :=
  let* placed := present_challenges fuel [] in
  match placed with
  | None => Ret None
  | Some (Err e) => Ret (Some (Err e))
  | Some (Ok tokens) =>
      let* visible := await_visible s in
      match visible with
      | Err e => Ret (Some (Err e))
      | Ok _ => let* r := env (SetReady tokens) in Ret (Some r)
      end
  end.

Definition solve_with_driver (s : Dns01Solver) (fuel : nat)
  : solver (option (dns_result (string * string))) :=
  let* ready := present_then_ready s fuel in
  match ready with
  | None => Ret None
  | Some ready =>
      let* outcome :=
        match ready with
        | Ok _ => env Finalize
        | Err e => Ret (Err e)
        end in
      let* _ := guard_run (cleanup_record s) in
      Ret (Some outcome)
  end.

(** ** The protocol of the solver

    What has happened so far, from the events and their answers. *)

Record ghost : Type := mkGhost {
  got : list Dns01Challenge;          (* challenges the driver yielded *)
  exhausted : bool;                   (* the driver has no more *)
  presented : list PlacedRecord;      (* [present] called *)
  placed : list PlacedRecord;         (* [present] succeeded *)
  waited : list PlacedRecord;         (* seen by the propagation wait *)
  delays : list Duration;
  ready : option (dns_result unit);   (* answer of [set_ready] *)
  final : option (dns_result (string * string));
  guard : list PlacedRecord;          (* pending in the guard *)
  cleaned_up : list PlacedRecord;     (* [cleanup] answered *)
  failure : option DnsError           (* the error that stopped the solver *)
}.

Definition ghost0 : ghost := mkGhost [] false [] [] [] [] None None [] [] None.

Definition rec_of (c : Dns01Challenge) : PlacedRecord := mkPlaced (ch_fqdn c) (dns_value c).

(** The error answered, if one was. *)
Definition err_or {A} (x : dns_result A) (o : option DnsError) : option DnsError :=
  match x with Ok _ => o | Err e => Some e end.

Definition env_update X (e : solveE X) : X -> ghost -> ghost :=
  match e in solveE X return X -> ghost -> ghost with
  | NextDns01 => fun x g =>
      match x with
      | None => mkGhost (got g) true (presented g) (placed g) (waited g) (delays g) (ready g) (final g) (guard g) (cleaned_up g) (failure g)
      | Some (Ok c) => mkGhost (got g ++ [c]) (exhausted g) (presented g) (placed g) (waited g) (delays g) (ready g) (final g) (guard g) (cleaned_up g) (failure g)
      | Some (Err err) => mkGhost (got g) (exhausted g) (presented g) (placed g) (waited g) (delays g) (ready g) (final g) (guard g) (cleaned_up g) (Some err)
      end
  | Present f v => fun x g =>
      mkGhost (got g) (exhausted g) (presented g ++ [mkPlaced f v])
        (if is_ok x then placed g ++ [mkPlaced f v] else placed g)
        (waited g) (delays g) (ready g) (final g) (guard g) (cleaned_up g) (err_or x (failure g))
  | WaitPropagation f v _ _ => fun x g =>
      mkGhost (got g) (exhausted g) (presented g) (placed g)
        (if is_ok x then waited g ++ [mkPlaced f v] else waited g)
        (delays g) (ready g) (final g) (guard g) (cleaned_up g) (err_or x (failure g))
  | Delay d => fun _ g =>
      mkGhost (got g) (exhausted g) (presented g) (placed g) (waited g) (delays g ++ [d]) (ready g) (final g) (guard g) (cleaned_up g) (failure g)
  | SetReady _ => fun x g =>
      mkGhost (got g) (exhausted g) (presented g) (placed g) (waited g) (delays g) (Some x) (final g) (guard g) (cleaned_up g) (err_or x (failure g))
  | Finalize => fun x g =>
      mkGhost (got g) (exhausted g) (presented g) (placed g) (waited g) (delays g) (ready g) (Some x) (guard g) (cleaned_up g) (err_or x (failure g))
  | CleanupRecord f v => fun _ g =>
      mkGhost (got g) (exhausted g) (presented g) (placed g) (waited g) (delays g) (ready g) (final g) (guard g) (cleaned_up g ++ [mkPlaced f v]) (failure g)
  | Hook _ _ => fun _ g => g
  end.

Definition solver_update X (e : guardE PlacedRecord solveE X) : X -> ghost -> ghost :=
  match e in guardE _ _ X return X -> ghost -> ghost with
  | Env e => env_update _ e
  | Push r => fun _ g =>
      mkGhost (got g) (exhausted g) (presented g) (placed g) (waited g) (delays g) (ready g) (final g) (guard g ++ [r]) (cleaned_up g) (failure g)
  | Pending => fun _ g => g
  | RemoveFirst => fun _ g =>
      mkGhost (got g) (exhausted g) (presented g) (placed g) (waited g) (delays g) (ready g) (final g) (tl (guard g)) (cleaned_up g) (failure g)
  end.

(** Which events are allowed. *)
Definition env_allowed (s : Dns01Solver) X (e : solveE X) (g : ghost) : Prop :=
  match e with
  (* a record is in the guard before it is presented *)
  | Present f v => mkPlaced f v ∈ guard g /\ ready g = None
  (* validation is asked for once, when the driver has no more challenge,
     every record was presented and seen (or the fixed delay has elapsed) *)
  | SetReady ts =>
      ready g = None /\ exhausted g = true /\ ts = map token (got g) /\
      placed g = map rec_of (got g) /\
      match skip_propagation s with
      | Some d => delays g = [d]
      | None => waited g = map rec_of (got g)
      end /\
      (* nothing has failed, and nothing was taken down *)
      failure g = None /\ cleaned_up g = []
  (* only a validated order is finalized *)
  | Finalize => ready g = Some (Ok tt)
  | _ => True
  end.

Definition solver_allowed (s : Dns01Solver) X (e : guardE PlacedRecord solveE X) (g : ghost) : Prop :=
  match e with
  | Env e => env_allowed s _ e g
  (* a record leaves the guard only when its cleanup has been answered *)
  | RemoveFirst => exists r rest, guard g = r :: rest /\ r ∈ cleaned_up g
  | _ => True
  end.

Definition solver_ans X (e : guardE PlacedRecord solveE X) (g : ghost) : X -> Prop :=
  match e in guardE _ _ X return X -> Prop with
  | Pending => fun x => x = guard g
  | _ => fun _ => True
  end.

Abbreviation obeys s := (follows solver_update (solver_allowed s) solver_ans).

(** Between two challenges: everything yielded is placed and in the guard. *)
Definition placing (g : ghost) : Prop :=
  placed g = map rec_of (got g) /\ presented g = map rec_of (got g) /\
  guard g = map rec_of (got g) /\ waited g = [] /\ delays g = [] /\
  ready g = None /\ final g = None /\ cleaned_up g = [] /\ failure g = None.

(** Before the teardown: what was presented is in the guard, and [f] is the
    error there was. *)
Definition guarded (f : option DnsError) (g : ghost) : Prop :=
  guard g = presented g /\ final g = None /\ cleaned_up g = [] /\ failure g = f.

Lemma placing_guarded g : placing g -> guarded None g.
Proof. intros (? & H1 & H2 & ? & ? & ? & ? & ? & ?). unfold guarded. by rewrite H1, H2. Qed.

Lemma present_challenges_obeys s fuel tokens g :
  placing g -> exhausted g = false -> tokens = map token (got g) ->
  obeys s (present_challenges fuel tokens) (fun r g' =>
    match r with
    | None => True
    | Some (Ok ts) => placing g' /\ exhausted g' = true /\ ts = map token (got g')
    | Some (Err e) => guarded (Some e) g' /\ ready g' = None
    end) g.
Proof.
  revert tokens g. induction fuel as [|fuel IH]; intros tokens g Hp He Ht; [done|].
  cbn [present_challenges]. apply follows_call; [done|]. intros [[c|e]|] _; cbn; [| |done].
  - destruct Hp as (H1 & H2 & H3 & H4 & H5 & H6 & H7 & H8 & H9).
    split; [done|]. intros [] _. split; [split; [cbn; set_solver|done]|].
    intros [[]|e] _; cbn.
    + apply IH; [|done|cbn; by rewrite Ht, map_app].
      unfold placing; cbn; rewrite H1, H2, H3, !map_app; done.
    + unfold guarded; cbn. by rewrite H2, H3.
  - destruct (placing_guarded g Hp) as (G1 & G2 & G3 & G4). by split; [|apply Hp].
Qed.

Lemma wait_all_obeys s records g done_ :
  ready g = None -> guarded None g -> waited g = done_ ->
  obeys s (wait_all s records) (fun r g' =>
    guarded (err_or r None) g' /\ ready g' = None /\ got g' = got g /\
    exhausted g' = exhausted g /\ placed g' = placed g /\
    (r = Ok tt -> waited g' = done_ ++ records)) g.
Proof.
  revert g done_. induction records as [|r records IH]; intros g done_ Hr Hg Hw.
  { cbn. rewrite app_nil_r. done. }
  cbn [wait_all]. unfold ptry. apply follows_call; [done|].
  destruct Hg as (G1 & G2 & G3 & G4). intros [[]|e] _; cbn; [|done].
  eapply follows_mono; [|apply (IH _ (done_ ++ [r])); cbn].
  - intros a g' (H1 & H2 & H3 & H4 & H5 & H6). cbn in *. rewrite <- app_assoc in H6. done.
  - done.
  - done.
  - by rewrite Hw; destruct r.
Qed.

Lemma await_visible_obeys s g :
  placing g ->
  obeys s (await_visible s) (fun r g' =>
    guarded (err_or r None) g' /\ ready g' = None /\ got g' = got g /\
    exhausted g' = exhausted g /\ placed g' = placed g /\
    (r = Ok tt -> match skip_propagation s with
                  | Some d => delays g' = [d]
                  | None => waited g' = map rec_of (got g)
                  end)) g.
Proof.
  intros Hp. pose proof (placing_guarded g Hp) as Hg.
  destruct Hp as (H1 & H2 & H3 & H4 & H5 & H6 & H7 & H8 & H9). unfold await_visible.
  destruct (skip_propagation s) as [d|].
  - apply follows_call; [done|]. intros [] _. cbn. by rewrite H5.
  - apply follows_call; [done|]. intros x ->. cbn. rewrite H3.
    eapply follows_mono; [|apply (wait_all_obeys s _ g []); done]. naive_solver.
Qed.

Lemma present_then_ready_obeys s fuel :
  obeys s (present_then_ready s fuel) (fun r g' =>
    match r with
    | None => True
    | Some r => guarded (err_or r None) g' /\ (r = Ok tt -> ready g' = Some (Ok tt))
    end) ghost0.
Proof.
  unfold present_then_ready. apply follows_bind. eapply follows_mono;
    [|by apply present_challenges_obeys].
  intros [[ts|e]|] g; [|naive_solver|done]. intros (Hp & He & Ht).
  apply follows_bind. eapply follows_mono; [|by apply await_visible_obeys].
  intros [[]|e] g' (Hg & Hr & Hgot & Hex & Hpl & Hvis); [|naive_solver].
  apply follows_call.
  - cbn. specialize (Hvis eq_refl). rewrite Hr, Hex, Hgot, Hpl, Ht.
    destruct Hg as (_ & _ & ? & ?). split_and!; try done. by apply Hp.
  - destruct Hg as (G1 & G2 & G3 & G4). intros r _. cbn. split; [|by intros ->].
    unfold guarded; cbn. rewrite G4. done.
Qed.

Definition with_cleaned (g : ghost) (r : PlacedRecord) : ghost :=
  env_update _ (CleanupRecord (pr_fqdn r) (pr_value r)) (Ok tt) g.

Lemma cleanup_record_obeys s r g (Q : unit -> ghost -> Prop) :
  Q tt (with_cleaned g r) -> obeys s (lift (cleanup_record s r)) Q g.
Proof.
  intros HQ. unfold cleanup_record. cbn. split; [done|]. intros [[]|e] _; cbn; [done|].
  destruct (hook s); cbn; [split; [done|]; intros [] _|]; exact HQ.
Qed.

Lemma guard_loop_obeys s g done_ :
  cleaned_up g = done_ ->
  obeys s (guard_run_loop (cleanup_record s) (length (guard g))) (fun _ g' =>
    guard g' = [] /\ cleaned_up g' = done_ ++ guard g /\ presented g' = presented g /\
    final g' = final g /\ failure g' = failure g) g.
Proof.
  remember (guard g) as l eqn:Hl. revert g done_ Hl. induction l as [|r l IH]; intros g done_ Hl Hd.
  { cbn. by rewrite app_nil_r. }
  cbn [length guard_run_loop]. apply follows_call; [done|]. intros x ->. cbn [solver_update].
  rewrite <- Hl. apply follows_bind, cleanup_record_obeys, follows_call.
  { cbn. exists r, l. split; [done|]. destruct r. set_solver. }
  intros [] _. eapply follows_mono; [|apply (IH _ (done_ ++ [r])); cbn].
  - cbn. intros _ g2 (E1 & E2 & E3 & E4 & E5). rewrite <- app_assoc in E2. cbn in *.
    split_and!; congruence.
  - by rewrite <- Hl.
  - rewrite Hd. by destruct r.
Qed.

Lemma guard_run_obeys s g :
  cleaned_up g = [] ->
  obeys s (guard_run (cleanup_record s)) (fun _ g' =>
    guard g' = [] /\ cleaned_up g' = guard g /\ presented g' = presented g /\
    final g' = final g /\ failure g' = failure g) g.
Proof.
  intros Hc. unfold guard_run. apply follows_call; [done|]. intros x ->. cbn [solver_update].
  by apply (guard_loop_obeys s g []).
Qed.

(** When the solver returns: the guard is empty, what was presented was
    cleaned up, a certificate is the one the order was finalized with, and an
    error the one that stopped the solver. *)
Definition solved (r : option (dns_result (string * string))) (g : ghost) : Prop :=
  match r with
  | None => True
  | Some o =>
      guard g = [] /\ cleaned_up g = presented g /\
      (forall c, o = Ok c <-> final g = Some (Ok c)) /\
      (forall e, o = Err e <-> failure g = Some e)
  end.

Lemma solve_obeys s fuel : obeys s (solve_with_driver s fuel) solved ghost0.
Proof.
  unfold solve_with_driver. apply follows_bind. eapply follows_mono; [|apply present_then_ready_obeys].
  intros [[[]|e]|] g; [| |done]; intros [(Hg & Hf & Hc & Herr) Hr].
  - apply follows_bind, follows_call; [cbn; by apply Hr|]. intros o _. cbn [follows env].
    apply follows_bind. eapply follows_mono; [|by apply guard_run_obeys].
    cbn. intros _ g' (H1 & H2 & H3 & H4 & H5). rewrite H2, H3, H4, H5, Hg, Herr.
    split_and!; try done; [naive_solver|]. destruct o; naive_solver.
  - cbn [pbind]. apply follows_bind. eapply follows_mono; [|by apply guard_run_obeys].
    cbn. intros _ g' (H1 & H2 & H3 & H4 & H5). rewrite H2, H3, H4, H5, Hg, Hf, Herr. naive_solver.
Qed.

(** ** Runs of the solver *)

Section runs.
Context {W : Type} (h : handler solveE W).

(** The protocol's view of the guard is the guard. *)
Definition guard_is (w : W * list PlacedRecord) (g : ghost) : Prop := guard g = snd w.

Lemma solver_answers s : answers solver_update (solver_allowed s) solver_ans (guard_handler h) guard_is.
Proof.
  intros X e [w l] g _ Hg. unfold guard_is in *. cbn in Hg. destruct e as [Y e|r| |]; cbn.
  - destruct (h Y e w) as [x w'] eqn:E. cbn. split; [done|].
    rewrite <- Hg. destruct e; try done. by destruct x as [[]|].
  - by rewrite Hg.
  - by rewrite Hg.
  - by rewrite Hg.
Qed.

Lemma solver_runs s fuel w :
  let t := trace (guard_handler h) (solve_with_driver s fuel) (w, []) in
  let r := run (guard_handler h) (solve_with_driver s fuel) (w, []) in
  solved (fst r) (ghost_of solver_update t ghost0) /\
  guard_is (snd r) (ghost_of solver_update t ghost0).
Proof.
  cbn zeta. by apply (follows_run _ _ _ _ guard_is _ _ _ _ (solver_answers s) (solve_obeys s fuel)).
Qed.

(** Records asked of the provider, taken down, and failures to do so. *)
Definition env_presents (ev : event solveE) : option PlacedRecord :=
  match ev with @Ev _ Y e x => match e with Present f v => Some (mkPlaced f v) | _ => None end end.
Definition env_cleanups (ev : event solveE) : option PlacedRecord :=
  match ev with @Ev _ Y e x => match e with CleanupRecord f v => Some (mkPlaced f v) | _ => None end end.

(** Failed cleanups, and the calls of the hook. *)
Definition env_failures (ev : event solveE) : option (string * DnsError) :=
  match ev with @Ev _ Y e x =>
    match e in solveE Y return Y -> option (string * DnsError) with
    | CleanupRecord f _ => fun x => match x with Err err => Some (f, err) | Ok _ => None end
    | _ => fun _ => None
    end x
  end.
Definition env_hooks (ev : event solveE) : option (string * DnsError) :=
  match ev with @Ev _ Y e x => match e with Hook f err => Some (f, err) | _ => None end end.

Definition presents (t : list (event (guardE PlacedRecord solveE))) : list PlacedRecord :=
  omap env_presents (omap env_event t).
Definition cleanups (t : list (event (guardE PlacedRecord solveE))) : list PlacedRecord :=
  omap env_cleanups (omap env_event t).

(** The challenges the driver yielded. *)
Definition env_yields (ev : event solveE) : option Dns01Challenge :=
  match ev with @Ev _ Y e x =>
    match e in solveE Y return Y -> option Dns01Challenge with
    | NextDns01 => fun x => match x with Some (Ok c) => Some c | _ => None end
    | _ => fun _ => None
    end x
  end.
Definition yielded (t : list (event (guardE PlacedRecord solveE))) : list Dns01Challenge :=
  omap env_yields (omap env_event t).

Lemma ghost_yielded t g : got (ghost_of solver_update t g) = got g ++ yielded t.
Proof.
  revert g. induction t as [|[X e x] t IH]; intros g; cbn; [by rewrite app_nil_r|].
  unfold ghost_of in *. rewrite IH. destruct e as [Y e| | |]; try done.
  destruct e; try done. destruct x as [[]|]; try done. cbn. by rewrite <- app_assoc.
Qed.

Lemma ghost_presents t g :
  presented (ghost_of solver_update t g) = presented g ++ presents t.
Proof.
  revert g. induction t as [|[X e x] t IH]; intros g; cbn; [by rewrite app_nil_r|].
  unfold ghost_of in *. rewrite IH. destruct e as [Y e| | |]; try done.
  destruct e; try done.
  - by destruct x as [[]|].
  - cbn. by rewrite <- app_assoc.
Qed.

Lemma ghost_cleanups t g :
  cleaned_up (ghost_of solver_update t g) = cleaned_up g ++ cleanups t.
Proof.
  revert g. induction t as [|[X e x] t IH]; intros g; cbn; [by rewrite app_nil_r|].
  unfold ghost_of in *. rewrite IH. destruct e as [Y e| | |]; try done.
  destruct e; try done.
  - by destruct x as [[]|].
  - cbn. by rewrite <- app_assoc.
Qed.

Lemma cleanup_record_cleanups s r w :
  omap env_cleanups (trace h (cleanup_record s r) w) = [r].
Proof.
  unfold cleanup_record. rewrite trace_call. destruct (h _ _ w) as [[[]|e] w']; cbn; [by destruct r|].
  destruct (hook s); cbn; [destruct (h unit _ w')|]; by destruct r.
Qed.

Lemma cleanup_all_records s l w :
  omap env_cleanups (trace h (cleanup_all (cleanup_record s) l) w) = l.
Proof.
  revert w. induction l as [|r l IH]; intros w; [done|]. cbn [cleanup_all].
  rewrite trace_bind, omap_app, cleanup_record_cleanups.
  destruct (run h (cleanup_record s r) w) as [[] w']. change ([r] ++ ?l) with (r :: l).
  f_equal. apply IH.
Qed.

(** The teardown of a run that returns: it starts from a guard that holds
    every record presented. *)
Lemma solve_split s fuel w o w' l' :
  run (guard_handler h) (solve_with_driver s fuel) (w, []) = (Some o, (w', l')) ->
  exists w1 l1 t1,
    (w1 = fst (snd (run (guard_handler h) (present_then_ready s fuel) (w, []))) \/
     w1 = snd (h _ Finalize (fst (snd (run (guard_handler h) (present_then_ready s fuel) (w, [])))))) /\
    w' = snd (run h (cleanup_all (cleanup_record s) l1) w1) /\
    omap env_event (trace (guard_handler h) (solve_with_driver s fuel) (w, [])) =
      t1 ++ trace h (cleanup_all (cleanup_record s) l1) w1 /\
    l1 = presents (trace (guard_handler h) (solve_with_driver s fuel) (w, [])).
Proof.
  intros Hrun.
  destruct (solver_runs s fuel w) as [Hs _]. rewrite Hrun in Hs. cbn [fst solved] in Hs.
  destruct Hs as (_ & Hcl & _ & _). rewrite ghost_presents, ghost_cleanups in Hcl. cbn in Hcl.
  destruct (follows_run _ _ _ _ guard_is _ _ (w, []) _ (solver_answers s)
              (present_then_ready_obeys s fuel) eq_refl) as (_ & Hq & Hg).
  revert Hrun Hcl Hq Hg. unfold solve_with_driver, presents, cleanups. rewrite run_bind, trace_bind.
  set (tp := trace _ (present_then_ready s fuel) _).
  destruct (run _ (present_then_ready s fuel) _) as [r [w1 l1]]. cbn [fst snd].
  intros Hrun Hcl Hq Hg. destruct r as [r|]; [|done]. destruct Hq as [(Hgp & _ & Hc & _) _].
  unfold guard_is in Hg. cbn in Hg. rewrite Hgp in Hg. clear Hgp.
  rewrite ghost_cleanups in Hc. rewrite ghost_presents in Hg. cbn in Hc, Hg.
  destruct r as [u|e].
  - revert Hrun Hcl. unfold env. rewrite run_call, trace_call. cbn [guard_handler].
    destruct (h _ Finalize w1) as [fin w2].
    rewrite run_bind, trace_bind, run_guard_run. cbn [run trace]. rewrite app_nil_r.
    intros [= _ <- _]. rewrite omap_app. cbn [omap list_omap env_event].
    rewrite trace_guard_run. intros Hcl. exists w2, l1, (omap env_event tp ++ [Ev Finalize fin]).
    split_and!; [by right|done|by rewrite <- app_assoc|].
    unfold presents, cleanups in *. rewrite omap_app, Hc in Hcl.
    cbn [omap list_omap env_cleanups app] in Hcl. rewrite cleanup_all_records in Hcl. exact Hcl.
  - revert Hrun Hcl. cbn [pbind]. rewrite run_bind, trace_bind, run_guard_run. cbn [run trace].
    rewrite app_nil_r. intros [= _ <- _]. rewrite omap_app, trace_guard_run. intros Hcl.
    exists w1, l1, (omap env_event tp). split_and!; [by left|done|done|].
    unfold cleanups in *. rewrite omap_app, Hc, cleanup_all_records in Hcl. exact Hcl.
Qed.

(** What was presented is in the guard or was cleaned up. *)
Definition accounted (g : ghost) : Prop :=
  forall r, r ∈ presented g -> r ∈ guard g \/ r ∈ cleaned_up g.

Lemma accounted_step s X (e : guardE PlacedRecord solveE X) x g :
  accounted g -> solver_allowed s X e g -> accounted (solver_update X e x g).
Proof.
  intros Ha He r. specialize (Ha r). destruct e as [Y e|item| |]; cbn in *; try set_solver.
  - destruct e; cbn in *; try set_solver. by destruct x as [[]|].
  - destruct He as (r' & rest & Hg & Hr'). rewrite Hg in *. set_solver.
Qed.

(** The records the task spawned on drop takes down. *)
Definition drop_cleanups (s : Dns01Solver) (kept : list PlacedRecord) (w : W) : list PlacedRecord :=
  match guard_drop (cleanup_record s) true kept with
  | Some task => omap env_cleanups (trace h task w)
  | None => []
  end.

Lemma drop_cleanups_all s kept w : drop_cleanups s kept w = kept.
Proof. unfold drop_cleanups. destruct kept; [done|]. apply cleanup_all_records. Qed.
End runs.

(** ** Against the contract of the provider *)

Section contract.
Context {W : Type} (h : handler solveE W) (p : DnsProvider W).
Context (name_of : string -> string) (serves : W -> string -> string -> Prop) (inv : W -> Prop).
Context `{L : !ProviderLaws p name_of serves inv}.

(** An environment whose TXT records are those of the provider [p]: nothing
    else of the solver's calls changes them. *)
Definition touches_records X (e : solveE X) : bool :=
  match e with Present _ _ | CleanupRecord _ _ => true | _ => false end.

Record serves_through : Prop := {
  st_present : forall f v w, h _ (Present f v) w = present p f v w;
  st_cleanup : forall f v w, h _ (CleanupRecord f v) w = cleanup p f v w;
  st_inv : forall X (e : solveE X) w, touches_records X e = false -> inv w -> inv (snd (h X e w));
  st_frame : forall X (e : solveE X) w n u, touches_records X e = false -> inv w ->
    (serves (snd (h X e w)) n u <-> serves w n u)
}.
Context (Hst : serves_through).

Lemma env_inv X (e : solveE X) w : inv w -> inv (snd (h X e w)).
Proof.
  intros Hw. destruct (touches_records X e) eqn:E; [|by apply st_inv].
  destruct e; try done.
  - rewrite st_present by done. by apply present_inv.
  - rewrite st_cleanup by done. by apply cleanup_inv.
Qed.

(** The name and value of a record. *)
Definition served_as (r : PlacedRecord) : string * string := (name_of (pr_fqdn r), pr_value r).

Lemma env_frame X (e : solveE X) w n u :
  inv w ->
  (forall r, env_presents (Ev e (fst (h X e w))) = Some r \/ env_cleanups (Ev e (fst (h X e w))) = Some r ->
     served_as r <> (n, u)) ->
  (serves (snd (h X e w)) n u <-> serves w n u).
Proof.
  intros Hw Hr. destruct (touches_records X e) eqn:E; [|by apply st_frame].
  destruct e; try done.
  - rewrite st_present by done. apply present_frame; [done|].
    intros Heq. apply (Hr (mkPlaced fqdn value)); [by left|done].
  - rewrite st_cleanup by done. apply cleanup_frame; [done|].
    intros Heq. apply (Hr (mkPlaced fqdn value)); [by right|done].
Qed.

(** A run changes no value but those it presents and cleans up. *)
Lemma run_frame {A} (q : solver A) w l n u :
  inv w ->
  (forall r, r ∈ presents (trace (guard_handler h) q (w, l)) \/
             r ∈ cleanups (trace (guard_handler h) q (w, l)) -> served_as r <> (n, u)) ->
  let w' := fst (snd (run (guard_handler h) q (w, l))) in
  inv w' /\ (serves w' n u <-> serves w n u).
Proof.
  cbn zeta. revert w l. induction q as [a|X e k IH]; intros w l Hw; [done|].
  destruct e as [Y e|item| |]; cbn.
  2-4: by intros Hr; apply IH.
  destruct (h Y e w) as [x w'] eqn:E. intros Hr.
  assert (inv w') as Hw' by (pose proof (env_inv Y e w Hw) as H; by rewrite E in H).
  destruct (IH x w' l Hw') as [H1 H2].
  { intros r Hin. apply Hr. unfold presents, cleanups in *. cbn.
    destruct (match e with Present f v => _ | _ => _ end), (match e with CleanupRecord f v => _ | _ => _ end);
      set_solver. }
  split; [done|]. rewrite H2. pose proof (env_frame Y e w n u Hw) as Hf. rewrite E in Hf.
  apply Hf. cbn [fst]. intros r [H|H]; apply Hr; [left|right]; unfold presents, cleanups; cbn in *; rewrite H; left.
Qed.
(** The teardown removes every record it is given, when no cleanup fails. *)
Lemma cleanup_record_run s r w :
  snd (run h (cleanup_record s r) w) = snd (cleanup p (pr_fqdn r) (pr_value r) w) \/
  exists e, fst (cleanup p (pr_fqdn r) (pr_value r) w) = Err e /\
    (pr_fqdn r, e) ∈ omap env_failures (trace h (cleanup_record s r) w).
Proof.
  unfold cleanup_record. rewrite trace_call, run_call. rewrite (st_cleanup Hst).
  destruct (cleanup p _ _ w) as [[[]|e] w']; cbn; [by left|]. right. exists e. split; [done|left].
Qed.

Lemma cleanup_all_removes s l w :
  inv w -> omap env_failures (trace h (cleanup_all (cleanup_record s) l) w) = [] ->
  let w' := snd (run h (cleanup_all (cleanup_record s) l) w) in
  inv w' /\
  (forall r, r ∈ l -> ~ serves w' (name_of (pr_fqdn r)) (pr_value r)) /\
  (forall n u, ~ serves w n u -> (forall r, r ∈ l -> served_as r <> (n, u)) -> ~ serves w' n u).
Proof.
  cbn zeta. revert w. induction l as [|r l IH]; intros w Hw.
  { intros _. split; [done|]. split; [set_solver|done]. }
  cbn [cleanup_all]. rewrite trace_bind, run_bind, omap_app. intros [Hf1 Hf2]%app_eq_nil.
  destruct (run h (cleanup_record s r) w) as [[] w1] eqn:E1.
  destruct (cleanup_record_run s r w) as [Hs|(e & _ & Hin)]; [|rewrite Hf1 in Hin; set_solver].
  rewrite E1 in Hs. cbn in Hs. subst w1.
  set (w1 := snd (cleanup p (pr_fqdn r) (pr_value r) w)) in *.
  assert (inv w1) as Hw1 by (by apply cleanup_inv).
  assert (~ serves w1 (name_of (pr_fqdn r)) (pr_value r)) as Hgone.
  { destruct (cleanup p (pr_fqdn r) (pr_value r) w) as [[[]|e] w2] eqn:Ec; [by apply (cleanup_removes (p := p) (inv := inv) _ _ w); [|exact Ec]|].
    exfalso. revert Hf1. unfold cleanup_record. rewrite trace_call, (st_cleanup Hst), Ec. done. }
  destruct (IH w1 Hw1 Hf2) as (H1 & H2 & H3). split_and!; [done| |].
  - intros r' [->|Hr']%elem_of_cons; [|by apply H2].
    destruct (decide (Exists (fun r' => served_as r' = served_as r) l)) as [Hex|Hnex].
    + apply Exists_exists in Hex as (r' & Hin & Heq). unfold served_as in Heq. injection Heq as <- <-.
      by apply H2.
    + apply H3; [done|]. intros r' Hin Heq. apply Hnex, Exists_exists. by exists r'.
  - intros n u Hn Hne. apply H3; [|set_solver].
    intros Hs. apply Hn. eapply (cleanup_frame (p := p) (pr_fqdn r) (pr_value r)); [done| |exact Hs].
    intros Heq. apply (Hne r); [left|done].
Qed.
Lemma guard_run_inv {A} (q : solver A) w l :
  inv w -> inv (fst (snd (run (guard_handler h) q (w, l)))).
Proof.
  revert w l. induction q as [a|X e k IH]; intros w l Hw; [done|].
  destruct e as [Y e|item| |]; cbn.
  2-4: by apply IH.
  pose proof (env_inv Y e w Hw). destruct (h Y e w). by apply IH.
Qed.

Lemma solve_removes s fuel w o w' l' r :
  inv w ->
  run (guard_handler h) (solve_with_driver s fuel) (w, []) = (Some o, (w', l')) ->
  omap env_failures (omap env_event (trace (guard_handler h) (solve_with_driver s fuel) (w, []))) = [] ->
  r ∈ presents (trace (guard_handler h) (solve_with_driver s fuel) (w, [])) ->
  ~ serves w' (name_of (pr_fqdn r)) (pr_value r).
Proof.
  intros Hw Hrun Hf Hr. destruct (solve_split h _ _ _ _ _ _ Hrun) as (w1 & l1 & t1 & Hw1 & -> & Ht & Hl).
  rewrite Ht, omap_app in Hf. apply app_eq_nil in Hf as [_ Hf]. rewrite <- Hl in Hr.
  assert (inv w1) as Hi.
  { pose proof (guard_run_inv (present_then_ready s fuel) w [] Hw).
    destruct Hw1 as [->| ->]; [done|by apply env_inv]. }
  destruct (cleanup_all_removes s l1 w1 Hi Hf) as (_ & H & _). by apply H.
Qed.
End contract.

(** ** Termination

    The loop of [present_challenges] ends when the driver runs out of
    challenges; [left w] bounds how many it still has. *)

Section termination.
Context {W : Type} (h : handler solveE W) (left : W -> nat).

Record driver_finite : Prop := {
  df_next : forall w c w', h _ NextDns01 w = (Some (Ok c), w') -> (left w' < left w)%nat;
  df_present : forall f v w, (left (snd (h _ (Present f v) w)) <= left w)%nat
}.

Lemma present_challenges_returns (Hd : driver_finite) fuel tokens w l :
  (left w < fuel)%nat ->
  is_Some (fst (run (guard_handler h) (present_challenges fuel tokens) (w, l))).
Proof.
  revert tokens w l. induction fuel as [|fuel IH]; intros tokens w l Hf; [lia|]. cbn.
  destruct (h _ NextDns01 w) as [[[c|e]|] w1] eqn:E1; cbn; [|done..].
  apply (df_next Hd) in E1. pose proof (df_present Hd (ch_fqdn c) (dns_value c) w1) as Hp.
  destruct (h _ (Present _ _) w1) as [[[]|e] w2]; cbn in *; [|done]. apply IH. lia.
Qed.

Lemma solve_returns (Hd : driver_finite) s fuel w l :
  (left w < fuel)%nat ->
  is_Some (fst (run (guard_handler h) (solve_with_driver s fuel) (w, l))).
Proof.
  intros Hf. unfold solve_with_driver, present_then_ready. rewrite !run_bind.
  pose proof (present_challenges_returns Hd fuel [] w l Hf) as Hp.
  destruct (run _ (present_challenges fuel []) _) as [o w1]. destruct Hp as [o' Ho]. cbn in Ho. subst o.
  assert (forall (q : solver (option (dns_result unit))) w2,
    is_Some (fst (run (guard_handler h) q w2)) ->
    is_Some (fst (let '(a, w') := run (guard_handler h) q w2 in
      run (guard_handler h) match a with
      | None => Ret None
      | Some ready =>
          let* outcome := match ready with Ok _ => env Finalize | Err e => Ret (Err e) end in
          let* _ := guard_run (cleanup_record s) in Ret (Some outcome)
      end w'))) as Hrest.
  { intros q w2 [r Hr]. destruct (run _ q w2) as [a w3]. cbn in Hr. subst a.
    rewrite run_bind. destruct (run _ _ w3) as [o w4]. rewrite run_bind. by destruct (run _ _ w4). }
  apply Hrest. destruct o' as [ts|e]; [|done]. rewrite run_bind.
  destruct (run _ (await_visible s) _) as [[[]|e] w2]; [|done]. rewrite run_bind.
  by destruct (run _ _ w2).
Qed.
End termination.

(** ** A scripted environment: the mock provider, and a driver that yields
    the challenges of a list *)

Abbreviation script := (MockDnsProvider * list Dns01Challenge)%type.

Definition scripted : handler solveE script :=
  fun X e '(m, cs) =>
    match e in solveE X return X * script with
    | NextDns01 => match cs with [] => (None, (m, [])) | c :: cs' => (Some (Ok c), (m, cs')) end
    | SetReady _ => (Ok tt, (m, cs))
    | Finalize => (Ok ("cert"%string, "key"%string), (m, cs))
    | Present f v => present (beside mock_provider) f v (m, cs)
    | CleanupRecord f v => cleanup (beside mock_provider) f v (m, cs)
    | WaitPropagation _ _ _ _ => (Ok tt, (m, cs))
    | Delay _ => (tt, (m, cs))
    | Hook _ _ => (tt, (m, cs))
    end.

Lemma scripted_serves :
  serves_through scripted (beside mock_provider) (fun w => mock_serves (fst w)) (fun _ => True).
Proof.
  constructor; try done.
intros X e [m cs] n u He _. destruct e; try done. by destruct cs.
Qed.

Definition two_challenges : list Dns01Challenge :=
  [mkChallenge "a.example" "_acme-challenge.a.example" "v1" 0;
   mkChallenge "b.example" "_acme-challenge.b.example" "v2" 1].

Definition script0 : script := (mkMock [("_acme-challenge.a.example"%string, "other"%string)] false, two_challenges).

(** With a provider that keeps its contract, a solve whose cleanups did not fail
    leaves what was served before, less what it presented. *)
Lemma solve_traceless {W} (h : handler solveE W) (p : DnsProvider W) name_of serves inv
    `{L : !ProviderLaws p name_of serves inv} s fuel w o w' l :
  serves_through h p serves inv -> inv w ->
  run (guard_handler h) (solve_with_driver s fuel) (w, []) = (Some o, (w', l)) ->
  let t := trace (guard_handler h) (solve_with_driver s fuel) (w, []) in
  omap env_failures (omap env_event t) = [] ->
  forall n u, serves w' n u <->
    serves w n u /\ forall r, r ∈ presents t -> served_as name_of r <> (n, u).
Proof.
  intros Hst Hw Hrun. cbn zeta. intros Hf n u.
  set (t := trace _ _ _) in *.
  assert (cleanups t = presents t) as Hc.
  { destruct (solver_runs h s fuel w) as [Hs _]. rewrite Hrun in Hs. destruct Hs as (_ & H2 & _).
    by rewrite ghost_presents, ghost_cleanups in H2. }
  destruct (decide (Exists (fun r => served_as name_of r = (n, u)) (presents t))) as [Hex|Hnex].
  - apply Exists_exists in Hex as (r & Hin & Heq).
    pose proof (solve_removes h p name_of serves inv Hst _ _ _ _ _ _ _ Hw Hrun Hf Hin) as Hgone.
    unfold served_as in Heq. injection Heq as <- <-. split; [done|]. intros [_ Hall].
    by destruct (Hall r Hin).
  - assert (forall r, r ∈ presents t -> served_as name_of r <> (n, u)) as Hne.
    { intros r Hin Heq. apply Hnex, Exists_exists. by exists r. }
    destruct (run_frame h p name_of serves inv Hst (solve_with_driver s fuel) w [] n u Hw) as [_ H].
    { fold t. rewrite Hc. intros r [Hin|Hin]; by apply Hne. }
    rewrite Hrun in H. cbn in H. naive_solver.
Qed.

(** ** Properties *)

(** C1. Whatever the driver, the provider, the resolvers and the clock answer,
    and however far the solver has run: a record is presented only when it is
    in the cleanup guard; the ACME server is asked to validate only once, when
    the driver has no more challenge, every record was presented with success
    and each was seen by the propagation wait (or the fixed delay has
    elapsed), and with the tokens of exactly those challenges in order; the
    order is finalized only when that request succeeded; and a record leaves
    the guard only when its cleanup has been answered. *)
Theorem solver_protocol {W} (h : handler solveE W) s fuel n w :
  respects solver_update (solver_allowed s)
    (snd (run_for n (guard_handler h) (solve_with_driver s fuel) (w, []))) ghost0.
Proof.
  by apply (follows_run_for _ _ _ _ guard_is _ _ _ _ _ (solver_answers h s) (solve_obeys s fuel)).
Qed.

(** C2. A solve that returns has called [cleanup] for every record it called
    [present] for, in the same order, and left nothing in the guard; it
    returns a certificate exactly when the driver's [finalize] gave it, and
    otherwise the error that stopped it: failed cleanups never change the
    outcome. *)
Theorem solve_outcome {W} (h : handler solveE W) s fuel w o w' l :
  run (guard_handler h) (solve_with_driver s fuel) (w, []) = (Some o, (w', l)) ->
  let t := trace (guard_handler h) (solve_with_driver s fuel) (w, []) in
  let g := ghost_of solver_update t ghost0 in
  l = [] /\ cleanups t = presents t /\
  (forall c, o = Ok c <-> final g = Some (Ok c)) /\
  (forall e, o = Err e <-> failure g = Some e).
Proof.
  intros Hrun. cbn zeta. destruct (solver_runs h s fuel w) as [Hs Hg]. rewrite Hrun in Hs, Hg.
  destruct Hs as (H1 & H2 & H3 & H4). rewrite ghost_presents, ghost_cleanups in H2.
  unfold guard_is in Hg. cbn in Hg. rewrite H1 in Hg. done.
Qed.

Lemma solve_outcome_witness :
  exists o w' l, run (guard_handler scripted) (solve_with_driver (solver_new mock_timing) 3) (script0, [])
    = (Some o, (w', l)) /\ l = [] /\ o = Ok ("cert"%string, "key"%string).
Proof.
  eexists _, _, _. split; [vm_compute; reflexivity|]. split; [|reflexivity].
  refine (proj1 (solve_outcome scripted (solver_new mock_timing) 3 script0 _ _ _ _)).
  vm_compute. reflexivity.
Defined.

(** C3. If the future of a solve is dropped after any number of steps and a
    runtime is there, every record for which [present] was called, with
    success, with failure or without an answer, is given to [cleanup]: by the
    solver before the drop, or by the task the guard spawns. *)
Theorem solve_cancelled {W} (h : handler solveE W) s fuel n w :
  let '((w', kept), t) := run_for n (guard_handler h) (solve_with_driver s fuel) (w, []) in
  forall r, r ∈ presents t -> r ∈ cleanups t \/ r ∈ drop_cleanups h s kept w'.
Proof.
  destruct (follows_run_for _ _ _ _ guard_is n _ _ (w, []) ghost0 (solver_answers h s)
              (solve_obeys s fuel) eq_refl) as [Hr Hg].
  destruct (run_for n _ _ _) as [[w' kept] t]. cbn in *. intros r Hin.
  pose proof (respects_invariant _ _ accounted t ghost0 (accounted_step s) Hr) as Ha.
  rewrite drop_cleanups_all. unfold guard_is in Hg. cbn in Hg. rewrite <- Hg.
  specialize (Ha ltac:(unfold accounted; cbn; set_solver) r).
  rewrite ghost_presents, ghost_cleanups in Ha. destruct (Ha Hin); [by right|by left].
Qed.

(** C40. Every failed cleanup, of the solver's teardown or of the task spawned
    on drop, is given to the hook with the record's name and the error, in
    order, and nothing else is; without a hook, nothing is. *)
Theorem cleanup_errors_reported {W} (h : handler solveE W) s l w :
  let report t := omap env_hooks t = if hook s then omap env_failures t else [] in
  report (omap env_event (trace (guard_handler h) (guard_run (cleanup_record s)) (w, l))) /\
  forall task, guard_drop (cleanup_record s) true l = Some task -> report (trace h task w).
Proof.
  cbn zeta. rewrite trace_guard_run.
  assert (forall w, omap env_hooks (trace h (cleanup_all (cleanup_record s) l) w) =
    if hook s then omap env_failures (trace h (cleanup_all (cleanup_record s) l) w) else []) as H.
  { clear w. induction l as [|r l IH]; intros w; [by destruct (hook s)|].
    cbn [cleanup_all]. rewrite trace_bind, !omap_app.
    assert (omap env_hooks (trace h (cleanup_record s r) w) =
      if hook s then omap env_failures (trace h (cleanup_record s r) w) else []) as ->.
    { unfold cleanup_record. rewrite trace_call. destruct (h _ _ w) as [[[]|e] w'].
      - cbn. by destruct (hook s).
      - destruct (hook s) eqn:Hh; cbn; [by destruct (h unit _ w')|done]. }
    destruct (run h (cleanup_record s r) w) as [[] w']. rewrite IH. by destruct (hook s). }
  split; [apply H|]. intros task. destruct l; [done|]. intros [= <-]. apply H.
Qed.

(** The timing a solve uses is the provider's until [with_timeout] or
    [with_interval] is called; then the field that was not given is the
    default one, not the provider's. *)
Theorem timing_override (tm : PropagationTiming) (d : Duration) :
  effective_timing (solver_new tm) = tm /\
  effective_timing (with_timeout (solver_new tm) d) = mkTiming d (interval default_timing) /\
  effective_timing (with_interval (solver_new tm) d) = mkTiming (timeout default_timing) d /\
  (forall s d', effective_timing (with_interval (with_timeout s d) d') = mkTiming d d').
Proof. done. Qed.
