(* ===== verification/Acme.v ===== *)
(** * The ACME order, as the crate sees it

    [instant_acme] talks to the ACME server.  What it answers is the
    environment's: an authorization is known by the status, the identifier
    and the challenge handles the crate reads of it, an error by its text.
    The crate tells two statuses of an authorization, one of an order and one
    kind of identifier apart from the others, which it only prints with
    [{:?}]; their constructor [..Other] holds that text. *)

From S2P Require Import Prelude Rstr Errors Effects.

Inductive AuthorizationStatus : Type :=
| AuthPending
| AuthValid
| AuthOther (debug : string).

Inductive OrderStatus : Type :=
| OrderReady
| OrderOther (debug : string).

Inductive Identifier : Type :=
| IdDns (domain : string)
| IdOther (debug : string).

Inductive ChallengeType : Type := Dns01 | TlsAlpn01.

(** A challenge handle: its URL, [key_authorization().dns_value()] and
    [key_authorization().digest()]. *)
Record ChallengeHandle : Type := mkHandle {
  h_url : string;
  h_dns_value : string;
  h_digest : list Z
}.

Record Authorization : Type := mkAuthorization {
  az_status : AuthorizationStatus;
  az_identifier : Identifier;
  az_challenge : ChallengeType -> option ChallengeHandle
}.

(** [order.authorizations()] starts a pass over the authorizations, and
    [.next().await] continues it; [ChallengeReady] is [set_ready] of the
    handle with that URL. *)
Inductive acmeE : Type -> Type :=
| Authorizations : acmeE unit
| NextAuthz : acmeE (option (result Authorization string))
| ChallengeReady (url : string) : acmeE (result unit string)
| PollReady : acmeE (result OrderStatus string)
| OrderFinalize : acmeE (result string string)
| PollCertificate : acmeE (result string string).

(** [.map_err(|e| DnsError::Acme(e.to_string()))]. *)
Definition acme_err {A} (r : result A string) : dns_result A :=
  match r with Ok a => Ok a | Err e => Err (Acme e) end.

Definition disappeared (url : string) : DnsError :=
  Other ("challenge " +:+ url +:+ " disappeared from order").

(** The challenges a run tells the server are ready, with the answers. *)
Definition readied_of (ev : event acmeE) : option (string * result unit string) :=
  match ev with @Ev _ Y e x =>
    match e in acmeE Y return Y -> option (string * result unit string) with
    | ChallengeReady url => fun x => Some (url, x)
    | _ => fun _ => None
    end x
  end.

Definition readied (t : list (event acmeE)) : list (string * result unit string) :=
  omap readied_of t.

(** ** Passes that end

    The order has finitely many authorizations: [left] bounds how many the
    pass under way still has, and [most] how many a new one has. *)
Record passes_end {W} (ha : handler acmeE W) (left : W -> nat) (most : nat) : Prop := {
  pe_start : forall w, (left (snd (ha _ Authorizations w)) <= most)%nat;
  pe_next : forall w, is_Some (fst (ha _ NextAuthz w)) -> (left (snd (ha _ NextAuthz w)) < left w)%nat;
  pe_ready : forall u w, (left (snd (ha _ (ChallengeReady u) w)) <= left w)%nat
}.

(** ** An order on paper: its authorizations are [azs]; the state holds those
    the pass under way has not read, and the challenges told ready. *)
Record paper : Type := mkPaper {
  p_left : list (result Authorization string);
  p_ready : list string
}.

Definition paper_order (azs : list (result Authorization string)) : handler acmeE paper := fun X e w =>
  match e in acmeE X return X * paper with
  | Authorizations => (tt, mkPaper azs (p_ready w))
  | NextAuthz =>
      match p_left w with
      | [] => (None, w)
      | a :: rest => (Some a, mkPaper rest (p_ready w))
      end
  | ChallengeReady u => (Ok tt, mkPaper (p_left w) (p_ready w ++ [u]))
  | PollReady => (Ok OrderReady, w)
  | OrderFinalize => (Ok "key"%string, w)
  | PollCertificate => (Ok "chain"%string, w)
  end.

Lemma paper_ends azs : passes_end (paper_order azs) (fun w => length (p_left w)) (length azs).
Proof.
  constructor; [done| |done]. intros [l r]. cbn. destruct l; cbn; [by intros []|lia].
Qed.
