(* ===== verification/Driver.v ===== *)
(** * The driver over an ACME order (src/solver.rs, [InstantAcmeDriver])

    The driver reads every authorization of the order once to collect the
    pending DNS-01 challenges, which it then yields one by one, and once more
    to set them all ready.  The token of a challenge is its index in
    [challenge_urls].

    The loops over the authorizations are given fuel, one unit per
    authorization and one for the end; [None] means that it was used up. *)

From S2P Require Import Prelude Rstr Errors Effects Sys Provider Testing Propagation Cleanup Solver Acme.

Record InstantAcmeDriver : Type := mkDriver {
  queue : option (list (dns_result Dns01Challenge));
  challenge_urls : list string
}.

Definition driver_new : InstantAcmeDriver := mkDriver None [].

(** [urls] is the [&mut self.challenge_urls] given to the function, and comes
    back with its answer. *)
Definition pending_challenge (r : result Authorization string) (urls : list string)
  : dns_result (option Dns01Challenge) * list string :=
  match acme_err r with
  | Err e => (Err e, urls)
  | Ok authz =>
      match az_status authz with
      | AuthValid => (Ok None, urls)
      | AuthOther other => (Err (ChallengeInvalid other), urls)
      | AuthPending =>
          match az_identifier authz with
          | IdOther other => (Err (Other ("unsupported identifier type: " +:+ other)), urls)
          | IdDns domain =>
              match az_challenge authz Dns01 with
              | None => (Err (NoDns01Challenge domain), urls)
              | Some challenge =>
                  (Ok (Some (mkChallenge domain ("_acme-challenge." +:+ domain)
                               (h_dns_value challenge) (length urls))),
                   urls ++ [h_url challenge])
              end
          end
      end
  end.

Fixpoint collect_loop (fuel : nat) (q : list (dns_result Dns01Challenge)) (urls : list string)
  : prog acmeE (option (list (dns_result Dns01Challenge) * list string)) :=
  match fuel with
  | O => Ret None
  | S fuel' =>
      let* next := call NextAuthz in
      match next with
      | None => Ret (Some (q, urls))
      | Some result =>
          match pending_challenge result urls with
          | (Ok (Some challenge), urls') => collect_loop fuel' (q ++ [Ok challenge]) urls'
          | (Ok None, urls') => collect_loop fuel' q urls'
          | (Err e, urls') => Ret (Some (q ++ [Err e], urls'))
          end
      end
  end.

Definition collect (fuel : nat) (d : InstantAcmeDriver)
  : prog acmeE (option (list (dns_result Dns01Challenge) * list string)) :=
  let* _ := call Authorizations in collect_loop fuel [] (challenge_urls d).

(** [VecDeque::pop_front]. *)
Definition pop_front (q : list (dns_result Dns01Challenge)) (urls : list string)
  : option (dns_result Dns01Challenge) * InstantAcmeDriver :=
  (head q, mkDriver (Some (tail q)) urls).

Definition next_dns01 (fuel : nat) (d : InstantAcmeDriver)
  : prog acmeE (option (option (dns_result Dns01Challenge) * InstantAcmeDriver)) :=
  match queue d with
  | Some q => Ret (Some (pop_front q (challenge_urls d)))
  | None =>
      let* collected := collect fuel d in
      match collected with
      | None => Ret None
      | Some (q, urls) => Ret (Some (pop_front q urls))
      end
  end.

(** The URL of every token, [ok_or_else(..)?] when there is none. *)
Fixpoint targets_of (urls : list string) (tokens : list nat) : dns_result (list string) :=
  match tokens with
  | [] => Ok []
  | token :: rest =>
      match urls !! token with
      | None => Err (Other ("invalid challenge token " +:+ pretty token))
      | Some url =>
          match targets_of urls rest with
          | Ok targets => Ok (url :: targets)
          | Err e => Err e
          end
      end
  end.

(** [targets.iter().position(|url| *url == challenge.url)]. *)
Fixpoint position (url : string) (targets : list string) : option nat :=
  match targets with
  | [] => None
  | u :: rest => if (u =? url)%string then Some O else S <$> position url rest
  end.

(** [Vec::swap_remove]: the last element takes the place of the one removed. *)
Definition swap_remove (pos : nat) (l : list string) : list string :=
  match last l with
  | None => l
  | Some z => take (length l - 1) (<[pos := z]> l)
  end.

Fixpoint set_ready_loop (fuel : nat) (targets : list string) : prog acmeE (option (dns_result unit)) :=
  match fuel with
  | O => Ret None
  | S fuel' =>
      let* next := call NextAuthz in
      match next with
      | None =>
          Ret (Some match targets with
                    | [] => Ok tt
                    | url :: _ => Err (disappeared url)
                    end)
      | Some (Err e) => Ret (Some (Err (Acme e)))
      | Some (Ok authz) =>
          match az_challenge authz Dns01 with
          | None => set_ready_loop fuel' targets
          | Some challenge =>
              match position (h_url challenge) targets with
              | None => set_ready_loop fuel' targets
              | Some pos =>
                  let* r := call (ChallengeReady (h_url challenge)) in
                  match r with
                  | Err e => Ret (Some (Err (Acme e)))
                  | Ok _ => set_ready_loop fuel' (swap_remove pos targets)
                  end
              end
          end
      end
  end.

Definition set_ready (fuel : nat) (d : InstantAcmeDriver) (tokens : list nat)
  : prog acmeE (option (dns_result unit)) :=
  match targets_of (challenge_urls d) tokens with
  | Err e => Ret (Some (Err e))
  | Ok targets => let* _ := call Authorizations in set_ready_loop fuel targets
  end.

Definition finalize : prog acmeE (dns_result (string * string)) :=
  let* polled := call PollReady in
  try? status := acme_err polled in
  match status with
  | OrderOther other => Ret (Err (UnexpectedOrderStatus other))
  | OrderReady =>
      let* key := call OrderFinalize in
      try? private_key_pem := acme_err key in
      let* cert := call PollCertificate in
      try? cert_chain_pem := acme_err cert in
      Ret (Ok (cert_chain_pem, private_key_pem))
  end.

(** ** The driver under the solver

    [solve_and_finalize] gives the solver this driver.  Of the solver's
    calls, the three of the driver run on the order [ha], with the driver's
    state beside the order's; the others go to [he].  An error takes the
    place of the answer of a loop out of fuel. *)

Definition out_of_fuel : DnsError := Other "fuel".

Section driver.
Context {A W : Type} (ha : handler acmeE A) (he : handler solveE W) (fuel : nat).

Abbreviation world := (A * InstantAcmeDriver * W)%type.

Definition driver_handler : handler solveE world := fun X e '(a, d, w) =>
  match e in solveE X return (W -> X * W) -> X * world with
  | NextDns01 => fun _ =>
      match run ha (next_dns01 fuel d) a with
      | (Some (next, d'), a') => (next, (a', d', w))
      | (None, a') => (Some (Err out_of_fuel), (a', d, w))
      end
  | SetReady tokens => fun _ =>
      let '(r, a') := run ha (set_ready fuel d tokens) a in
      (default (Err out_of_fuel) r, (a', d, w))
  | Finalize => fun _ => let '(r, a') := run ha finalize a in (r, (a', d, w))
  | _ => fun k => let '(x, w') := k w in (x, (a, d, w'))
  end (he X e).

(** [Dns01Solver::solve_and_finalize]. *)
Definition solve_and_finalize (s : Dns01Solver) (turns : nat) (a : A) (w : W)
  : option (dns_result (string * string)) * (world * list PlacedRecord) :=
  run (guard_handler driver_handler) (solve_with_driver s turns) ((a, driver_new, w), []).
End driver.

(** ** The targets of [set_ready] *)

Lemma position_lookup u l pos : position u l = Some pos -> l !! pos = Some u.
Proof.
  revert pos. induction l as [|v l IH]; intros pos; cbn; [done|].
  destruct (String.eqb_spec v u) as [->|]; [by intros [= <-]|].
  intros (p & Hp & ->)%fmap_Some. by apply IH.
Qed.

Lemma swap_remove_perm pos l u : l !! pos = Some u -> u :: swap_remove pos l ≡ₚ l.
Proof.
  intros Hl. destruct l as [|z l' _] using rev_ind; [done|].
  unfold swap_remove. rewrite last_snoc, length_app. cbn [length].
  rewrite Nat.add_sub. apply lookup_app_Some in Hl as [Hl|[Hge Hl]].
  - rewrite insert_app_l by by eapply lookup_lt_Some.
    rewrite take_app_length' by by rewrite length_insert.
    rewrite insert_take_drop by by eapply lookup_lt_Some.
    rewrite <- (take_drop_middle l' pos u Hl) at 3. solve_Permutation.
  - apply list_lookup_singleton_Some in Hl as [Hp ->].
    rewrite insert_app_r_alt by done. rewrite take_app_length.
    by rewrite <- Permutation_cons_append.
Qed.

(** The targets of tokens that are all known, and of tokens of which the first
    that is not comes after [known]. *)
Lemma targets_of_known urls tokens targets :
  Forall2 (fun token url => urls !! token = Some url) tokens targets -> targets_of urls tokens = Ok targets.
Proof. induction 1 as [|token url tokens targets Hu _ IH]; cbn; [done|]. by rewrite Hu, IH. Qed.

Lemma targets_of_unknown urls known token rest :
  (forall k, k ∈ known -> (k < length urls)%nat) -> (length urls <= token)%nat ->
  targets_of urls (known ++ token :: rest) = Err (Other ("invalid challenge token " +:+ pretty token)).
Proof.
  intros Hk Ht%lookup_ge_None. induction known as [|k known IH]; cbn; [by rewrite Ht|].
  destruct (lookup_lt_is_Some_2 urls k) as [u ->]; [apply Hk; left|].
  rewrite IH; [done|]. intros k' Hk'. apply Hk. by right.
Qed.

(** Against any order: what is told ready is among the targets, once each,
    and what is left when the pass is over makes it an error. *)
Definition ready_outcome (targets : list string) (ready : list (string * result unit string))
    (r : option (dns_result unit)) : Prop :=
  exists rest, map fst ready ++ rest ≡ₚ targets /\
    match r with
    | None => True
    | Some (Ok _) => rest = [] /\ Forall (fun x => snd x = Ok tt) ready
    | Some (Err e) => (exists m, e = Acme m) \/ (exists u, e = disappeared u /\ u ∈ rest)
    end.

Lemma ready_outcome_cons u targets targets' ready r :
  u :: targets' ≡ₚ targets -> ready_outcome targets' ready r ->
  ready_outcome targets ((u, Ok tt) :: ready) r.
Proof.
  intros Hp (rest & Hr & Hq). exists rest. split; [by rewrite <- Hp, <- Hr|].
  destruct r as [[]|]; naive_solver.
Qed.

Lemma set_ready_loop_outcome {W} (ha : handler acmeE W) fuel targets a :
  ready_outcome targets (readied (trace ha (set_ready_loop fuel targets) a))
    (fst (run ha (set_ready_loop fuel targets) a)).
Proof.
  revert targets a. induction fuel as [|fuel IH]; intros targets a; [by exists targets|].
  cbn [set_ready_loop]. rewrite trace_call, run_call.
  destruct (ha _ NextAuthz a) as [[[az|e]|] a1]; cbn [readied omap list_omap readied_of].
  - destruct (az_challenge az Dns01) as [ch|]; [|apply IH].
    destruct (position _ _) as [pos|] eqn:Hpos; [|apply IH].
    rewrite trace_call, run_call. apply position_lookup, swap_remove_perm in Hpos.
    destruct (ha _ (ChallengeReady _) a1) as [[[]|e] a2]; cbn [readied omap list_omap readied_of].
    + eapply ready_outcome_cons; [exact Hpos|apply IH].
    + eexists. split; [exact Hpos|]. cbn. eauto.
  - exists targets. cbn. eauto.
  - exists targets. split; [done|]. destruct targets as [|u l]; cbn; [done|].
    right. exists u. split; [done|left].
Qed.

(** ** What the driver yields *)

(** The pass under way reads exactly these authorizations. *)
Fixpoint reads {W} (ha : handler acmeE W) (azs : list (result Authorization string)) (a : W) : Prop :=
  match azs with
  | [] => fst (ha _ NextAuthz a) = None
  | r :: rest => fst (ha _ NextAuthz a) = Some r /\ reads ha rest (snd (ha _ NextAuthz a))
  end.

(** What an authorization asks for: nothing when it is valid already, the
    challenge of a domain, or an error. *)
Definition wants (r : result Authorization string) : option (dns_result (string * ChallengeHandle)) :=
  match r with
  | Err e => Some (Err (Acme e))
  | Ok az =>
      match az_status az, az_identifier az with
      | AuthValid, _ => None
      | AuthOther st, _ => Some (Err (ChallengeInvalid st))
      | AuthPending, IdOther i => Some (Err (Other ("unsupported identifier type: " +:+ i)))
      | AuthPending, IdDns domain =>
          Some match az_challenge az Dns01 with
               | None => Err (NoDns01Challenge domain)
               | Some ch => Ok (domain, ch)
               end
      end
  end.

(** The wanted challenges up to the first error, and that error. *)
Fixpoint until_error (l : list (dns_result (string * ChallengeHandle)))
  : list (string * ChallengeHandle) * option DnsError :=
  match l with
  | [] => ([], None)
  | Err e :: _ => ([], Some e)
  | Ok c :: rest => let '(cs, e) := until_error rest in (c :: cs, e)
  end.

Definition challenge_at (n : nat) (i : nat) (c : string * ChallengeHandle) : dns_result Dns01Challenge :=
  Ok (mkChallenge (fst c) ("_acme-challenge." +:+ fst c) (h_dns_value (snd c)) (n + i)).

(** The queue of an order, with tokens from [n] on. *)
Definition queue_of (n : nat) (azs : list (result Authorization string)) : list (dns_result Dns01Challenge) :=
  let '(cs, e) := until_error (omap wants azs) in
  imap (challenge_at n) cs ++ match e with Some e => [Err e] | None => [] end.

Definition urls_of (azs : list (result Authorization string)) : list string :=
  map (fun c => h_url (snd c)) (fst (until_error (omap wants azs))).

Lemma queue_of_cons n r azs :
  queue_of n (r :: azs) =
    match wants r with
    | None => queue_of n azs
    | Some (Err e) => [Err e]
    | Some (Ok c) => challenge_at n 0 c :: queue_of (S n) azs
    end.
Proof.
  unfold queue_of. cbn. destruct (wants r) as [[c|e]|]; cbn; try done.
  destruct (until_error _) as [cs e]. cbn. f_equal. f_equal. apply imap_ext.
  intros i x _. unfold challenge_at. cbn. do 3 f_equal. lia.
Qed.

Lemma urls_of_cons r azs :
  urls_of (r :: azs) =
    match wants r with
    | None => urls_of azs
    | Some (Err e) => []
    | Some (Ok c) => h_url (snd c) :: urls_of azs
    end.
Proof.
  unfold urls_of. cbn. destruct (wants r) as [[c|e]|]; cbn; try done. by destruct (until_error _).
Qed.

Lemma pending_challenge_wants r urls :
  pending_challenge r urls =
    match wants r with
    | None => (Ok None, urls)
    | Some (Err e) => (Err e, urls)
    | Some (Ok c) =>
        (Ok (Some (mkChallenge (fst c) ("_acme-challenge." +:+ fst c) (h_dns_value (snd c)) (length urls))),
         urls ++ [h_url (snd c)])
    end.
Proof.
  unfold pending_challenge, wants, acme_err. destruct r as [az|e]; [|done].
  destruct (az_status az), (az_identifier az); try done. by destruct (az_challenge az Dns01).
Qed.

Lemma collect_loop_reads {W} (ha : handler acmeE W) azs fuel q urls a :
  reads ha azs a -> (length azs < fuel)%nat ->
  fst (run ha (collect_loop fuel q urls) a) = Some (q ++ queue_of (length urls) azs, urls ++ urls_of azs).
Proof.
  revert fuel q urls a. induction azs as [|r azs IH]; intros fuel q urls a Hr Hf;
    (destruct fuel as [|fuel]; [cbn in Hf; lia|]); cbn [collect_loop]; rewrite run_call.
  - cbn in Hr. destruct (ha _ NextAuthz a) as [n a1]. cbn in Hr. subst n. cbn. by rewrite !app_nil_r.
  - destruct Hr as [Hn Hr]. destruct (ha _ NextAuthz a) as [n a1]. cbn in Hn, Hr. subst n.
    rewrite pending_challenge_wants, queue_of_cons, urls_of_cons. cbn in Hf.
    destruct (wants r) as [[c|e]|]; [| |apply IH; [done|lia]].
    + rewrite IH by (done || lia). rewrite length_app, Nat.add_1_r, <- !app_assoc.
      unfold challenge_at. by rewrite Nat.add_0_r.
    + cbn. by rewrite app_nil_r.
Qed.

Lemma next_dns01_reads {W} (ha : handler acmeE W) azs fuel a :
  reads ha azs (snd (ha _ Authorizations a)) -> (length azs < fuel)%nat ->
  fst (run ha (next_dns01 fuel driver_new) a) = Some (pop_front (queue_of 0 azs) (urls_of azs)).
Proof.
  intros Hr Hf. unfold next_dns01, collect. cbn [queue driver_new challenge_urls]. rewrite run_bind, run_call.
  destruct (ha _ Authorizations a) as [u a1].
  pose proof (collect_loop_reads ha azs fuel [] [] a1 Hr Hf) as Hc.
  destruct (run ha (collect_loop fuel [] []) a1) as [o a2]. cbn [fst] in Hc. by subst o.
Qed.

(** [k] calls of [next_dns01] in a row, and their answers. *)
Fixpoint calls (fuel k : nat) (d : InstantAcmeDriver)
  : prog acmeE (option (list (option (dns_result Dns01Challenge)) * InstantAcmeDriver)) :=
  match k with
  | O => Ret (Some ([], d))
  | S k' =>
      let* first := next_dns01 fuel d in
      match first with
      | None => Ret None
      | Some (x, d') =>
          let* others := calls fuel k' d' in
          Ret match others with None => None | Some (xs, d'') => Some (x :: xs, d'') end
      end
  end.

(** The answers of [k] calls to an iterator over [q]. *)
Definition drained (k : nat) (q : list (dns_result Dns01Challenge)) : list (option (dns_result Dns01Challenge)) :=
  map (fun i => q !! i) (seq 0 k).

Lemma drained_S k q : drained (S k) q = head q :: drained k (tail q).
Proof.
  unfold drained. cbn [seq map]. f_equal; [by destruct q|]. rewrite <- seq_shift, map_map.
  apply map_ext. intros i. by destruct q.
Qed.

Lemma calls_queue {W} (ha : handler acmeE W) fuel k q urls a :
  run ha (calls fuel k (mkDriver (Some q) urls)) a =
    (Some (drained k q, mkDriver (Some (drop k q)) urls), a).
Proof.
  revert q. induction k as [|k IH]; intros q; [done|].
  cbn [calls next_dns01 queue pop_front pbind]. rewrite run_bind, IH, drained_S. cbn.
  destruct q; cbn; [by rewrite drop_nil|done].
Qed.

(** ** Fuel: one unit per authorization, and one *)

Section fuel.
Context {W : Type} (ha : handler acmeE W) (left : W -> nat) (most : nat).
Context (Hpe : passes_end ha left most).

(** A loop that has ended with some fuel ends the same way with more. *)
Lemma collect_loop_more fuel q urls : grows ha (collect_loop fuel q urls) (collect_loop (S fuel) q urls).
Proof.
  revert q urls. induction fuel as [|fuel IH]; intros q urls a x a' H; [done|]. revert H.
  cbn [collect_loop]. rewrite !run_call. destruct (ha _ NextAuthz a) as [[r|] a1]; [|done].
  destruct (pending_challenge r urls) as [[[c|]|e] urls']; [apply IH|apply IH|done].
Qed.

Lemma set_ready_loop_more fuel targets : grows ha (set_ready_loop fuel targets) (set_ready_loop (S fuel) targets).
Proof.
  revert targets. induction fuel as [|fuel IH]; intros targets a x a' H; [done|]. revert H.
  cbn [set_ready_loop]. rewrite !run_call. destruct (ha _ NextAuthz a) as [[[az|e]|] a1]; try done.
  destruct (az_challenge az Dns01) as [ch|]; [|apply IH].
  destruct (position _ _) as [pos|]; [|apply IH]. rewrite !run_call.
  destruct (ha _ (ChallengeReady _) a1) as [[[]|e] a2]; [apply IH|done].
Qed.

(** With more fuel than authorizations left it does end, and has queued at
    most as many answers. *)
Lemma collect_loop_ends fuel q urls a :
  (left a < fuel)%nat ->
  exists q' urls' a', run ha (collect_loop fuel q urls) a = (Some (q', urls'), a') /\
    (length q' <= length q + left a)%nat.
Proof.
  revert q urls a. induction fuel as [|fuel IH]; intros q urls a Hn; [lia|].
  cbn [collect_loop]. rewrite run_call. pose proof (pe_next _ _ _ Hpe a) as Hp.
  destruct (ha _ NextAuthz a) as [[r|] a1]; cbn in Hp; [|eexists _, _, _; split; [done|lia]].
  specialize (Hp ltac:(eauto)). destruct (pending_challenge r urls) as [[[c|]|e] urls2].
  - destruct (IH (q ++ [Ok c]) urls2 a1) as (q' & urls' & a' & Hr & Hl); [lia|].
    rewrite length_app in Hl. cbn in Hl. eexists _, _, _. split; [exact Hr|lia].
  - destruct (IH q urls2 a1) as (q' & urls' & a' & Hr & Hl); [lia|]. eexists _, _, _. split; [exact Hr|lia].
  - eexists _, _, _. split; [done|]. rewrite length_app. cbn. lia.
Qed.

Lemma set_ready_loop_ends fuel targets a :
  (left a < fuel)%nat -> exists r a', run ha (set_ready_loop fuel targets) a = (Some r, a').
Proof.
  revert targets a. induction fuel as [|fuel IH]; intros targets a Hn; [lia|].
  cbn [set_ready_loop]. rewrite run_call. pose proof (pe_next _ _ _ Hpe a) as Hp.
  destruct (ha _ NextAuthz a) as [[[az|e]|] a1]; cbn in Hp; [|by eauto..].
  specialize (Hp ltac:(eauto)).
  destruct (az_challenge az Dns01) as [ch|]; [|apply IH; lia].
  destruct (position _ _) as [pos|]; [|apply IH; lia]. rewrite run_call.
  pose proof (pe_ready _ _ _ Hpe (h_url ch) a1) as Hrd.
  destruct (ha _ (ChallengeReady _) a1) as [[[]|e] a2]; cbn in Hrd; [apply IH; lia|by eauto].
Qed.

(** How many answers a driver may still give. *)
Definition answers_left (d : InstantAcmeDriver) : nat :=
  match queue d with Some q => length q | None => S most end.

Lemma next_dns01_ends d a :
  exists x d' a', (forall fuel, (most < fuel)%nat -> run ha (next_dns01 fuel d) a = (Some (x, d'), a')) /\
    (answers_left d' + length (option_list x) <= answers_left d)%nat.
Proof.
  unfold next_dns01. destruct (queue d) as [q|] eqn:Eq.
  - eexists _, _, a. split; [done|]. unfold answers_left. rewrite Eq. destruct q; cbn; lia.
  - pose proof (pe_start _ _ _ Hpe a) as Hs. unfold collect.
    destruct (ha _ Authorizations a) as [u a1] eqn:E. cbn in Hs.
    destruct (collect_loop_ends (S most) [] (challenge_urls d) a1) as (q & urls & a' & Hr & Hl); [lia|].
    exists (head q), (mkDriver (Some (tail q)) urls), a'. split; [|unfold answers_left; rewrite Eq; destruct q; cbn in *; lia].
    intros fuel Hf. rewrite run_bind, run_call, E.
    by rewrite (grows_le ha _ (fun n => collect_loop_more n _ _) _ _ _ _ _ Hf Hr).
Qed.

Lemma set_ready_ends d tokens a :
  exists r a', forall fuel, (most < fuel)%nat -> run ha (set_ready fuel d tokens) a = (Some r, a').
Proof.
  unfold set_ready. destruct (targets_of _ _) as [targets|e]; [|by eexists _, _].
  pose proof (pe_start _ _ _ Hpe a) as Hs. destruct (ha _ Authorizations a) as [u a1] eqn:E. cbn in Hs.
  destruct (set_ready_loop_ends (S most) targets a1) as (r & a' & Hr); [lia|]. exists r, a'.
  intros fuel Hf. rewrite run_call, E. by eapply (grows_le ha _ (fun n => set_ready_loop_more n _)).
Qed.
End fuel.

(** ** The solver with this driver *)

Section turns.
Context {W : Type} (h : handler solveE W) (s : Dns01Solver).

Lemma present_challenges_more fuel tokens :
  grows (guard_handler h) (present_challenges fuel tokens) (present_challenges (S fuel) tokens).
Proof.
  revert tokens. induction fuel as [|fuel IH]; intros tokens [w l] x w' H; [done|]. revert H.
  cbn [present_challenges]. unfold env, push. rewrite !run_call. cbn [guard_handler].
  destruct (h _ NextDns01 w) as [[[c|e]|] w1]; try done. rewrite !run_call. cbn [guard_handler].
  rewrite !run_call. cbn [guard_handler].
  destruct (h _ (Present _ _) w1) as [[[]|e] w2]; [apply IH|done].
Qed.

Lemma solve_more fuel : grows (guard_handler h) (solve_with_driver s fuel) (solve_with_driver s (S fuel)).
Proof.
  intros v x v' H. revert H. unfold solve_with_driver, present_then_ready. rewrite !run_bind.
  destruct (run _ (present_challenges fuel []) v) as [[o|] v1] eqn:E; [|done].
  by rewrite (present_challenges_more _ _ _ _ _ E).
Qed.
End turns.

Section driven.
Context {A W : Type} (ha : handler acmeE A) (he : handler solveE W) (left : A -> nat) (most : nat).
Context (Hpe : passes_end ha left most).

(** With enough fuel the answers do not depend on it. *)
Lemma driver_handler_fuel fuel :
  (most < fuel)%nat -> forall X (e : solveE X) v,
  driver_handler ha he fuel X e v = driver_handler ha he (S most) X e v.
Proof.
  intros Hf X e [[a d] w]. destruct e; try done; cbn.
  - destruct (next_dns01_ends ha left most Hpe d a) as (x & d' & a' & Hr & _).
    by rewrite !Hr by lia.
  - destruct (set_ready_ends ha left most Hpe d tokens a) as (r & a' & Hr). by rewrite !Hr by lia.
Qed.

(** The driver has finitely many challenges, as the solver needs. *)
Lemma driver_is_finite fuel :
  (most < fuel)%nat ->
  driver_finite (driver_handler ha he fuel) (fun '(_, d, _) => answers_left most d).
Proof.
  intros Hf. constructor.
  - intros [[a d] w] c [[a1 d1] w1]. cbn.
    destruct (next_dns01_ends ha left most Hpe d a) as (x & d' & a' & Hr & Hl).
    rewrite Hr by lia. intros [= -> <- <- <-]. cbn in Hl. lia.
  - intros f v [[a d] w]. cbn. by destruct (he _ (Present f v) w).
Qed.

Lemma driven_returns s a w :
  exists o v, run (guard_handler (driver_handler ha he (S most))) (solve_with_driver s (S (S most)))
                ((a, driver_new, w), []) = (Some o, v).
Proof.
  destruct (solve_returns _ _ (driver_is_finite (S most) ltac:(lia)) s (S (S most)) (a, driver_new, w) [])
    as [o Ho]; [unfold answers_left; cbn; lia|].
  destruct (run _ _ _) as [r v]. cbn in Ho. subst r. eauto.
Qed.
(** More fuel changes nothing. *)
Lemma enough_fuel s fuel turns a w o v :
  (most < fuel)%nat -> (S most < turns)%nat ->
  run (guard_handler (driver_handler ha he (S most))) (solve_with_driver s (S (S most))) ((a, driver_new, w), []) = (Some o, v) ->
  solve_and_finalize ha he fuel s turns a w = (Some o, v).
Proof.
  intros Hf Ht Hr. unfold solve_and_finalize. rewrite <- (grows_le _ _ (solve_more _ s) _ turns _ _ _ Ht Hr).
  apply run_ext. intros X e [u l]. destruct e; cbn; [|done..]. by rewrite (driver_handler_fuel fuel Hf).
Qed.
End driven.

(** ** Tokens *)

Section tokens.
Context {A W : Type} (ha : handler acmeE A) (he : handler solveE W) (fuel : nat).

Definition oks (q : list (dns_result Dns01Challenge)) : list Dns01Challenge :=
  omap (fun r => match r with Ok c => Some c | Err _ => None end) q.

(** The tokens of the challenges yielded and queued are the indices of
    [challenge_urls], in order. *)
Definition tokens_ok (v : (A * InstantAcmeDriver * W) * list PlacedRecord) (g : ghost) : Prop :=
  let '((_, d, _), l) := v in
  guard g = l /\
  (exhausted g = true -> queue d = Some []) /\
  match queue d with
  | None => got g = [] /\ challenge_urls d = []
  | Some q => map token (got g ++ oks q) = seq 0 (length (challenge_urls d))
  end.

Lemma collect_loop_tokens n q urls a :
  map token (oks q) = seq 0 (length urls) ->
  match fst (run ha (collect_loop n q urls) a) with
  | Some (q', urls') => map token (oks q') = seq 0 (length urls')
  | None => True
  end.
Proof.
  revert q urls a. induction n as [|n IH]; intros q urls a Hq; [done|].
  cbn [collect_loop]. rewrite run_call. destruct (ha _ NextAuthz a) as [[r|] a1]; [|done].
  rewrite pending_challenge_wants. unfold oks in *. destruct (wants r) as [[c|e]|]; [| |by apply IH].
  - apply IH. rewrite omap_app, map_app, Hq, length_app, Nat.add_1_r, seq_S. done.
  - cbn. by rewrite omap_app, app_nil_r.
Qed.

Lemma pop_tokens q (urls : list string) gs :
  map token (gs ++ oks q) = seq 0 (length urls) ->
  map token (match head q with Some (Ok c) => gs ++ [c] | _ => gs end ++ oks (tail q)) = seq 0 (length urls).
Proof. intros <-. destruct q as [|[c|e] q]; cbn; [done| |done]. by rewrite <- app_assoc. Qed.

Lemma next_tokens d a v g :
  tokens_ok ((a, d, v), guard g) g ->
  let '(x, (a', d', v')) := driver_handler ha he fuel _ NextDns01 (a, d, v) in
  tokens_ok ((a', d', v'), guard g) (env_update _ NextDns01 x g).
Proof.
  intros (Hg & Hx & Hq). cbn. unfold next_dns01. destruct (queue d) as [q|] eqn:Eq.
  - cbn. apply pop_tokens in Hq. destruct q as [|[c|e] q]; cbn in *; (split; [done|]); (split; [|done]);
      [done| |]; intros H; by specialize (Hx H).
  - destruct Hq as [Hq Hu]. unfold collect. rewrite run_bind, run_call.
    destruct (ha _ Authorizations a) as [u a1].
    pose proof (collect_loop_tokens fuel [] (challenge_urls d) a1) as Hc. rewrite Hu in *.
    destruct (run ha (collect_loop fuel [] []) a1) as [[[q urls]|] a2]; cbn in *.
    + specialize (Hc eq_refl). pose proof (pop_tokens q urls [] Hc) as Hp.
      destruct q as [|[c|e] q]; cbn in *; rewrite Hq; (split; [done|]); (split; [|done]);
        [done| |]; intros H; by specialize (Hx H).
    + rewrite Eq, Hq. by split_and!.
Qed.

Lemma driver_answers s :
  answers solver_update (solver_allowed s) solver_ans (guard_handler (driver_handler ha he fuel)) tokens_ok.
Proof.
  intros X e [[[a d] w] l] g _ Hok. pose proof Hok as (<- & Hx & Hq).
  destruct e as [Y e|r| |]; cbn [guard_handler solver_ans solver_update]; [|by split_and!..].
  destruct e; cbn [driver_handler].
  - pose proof (next_tokens d a w g Hok) as H. cbn in *.
    destruct (run ha (next_dns01 fuel d) a) as [[[x d']|] a']; (split; [done|]); [|exact H].
    destruct x as [[]|]; exact H.
  - destruct (run ha (set_ready fuel d tokens) a) as [r a']. by split_and!.
  - destruct (run ha finalize a) as [r a']. by split_and!.
  - by destruct (he _ (Present fqdn value) w).
  - by destruct (he _ (CleanupRecord fqdn value) w).
  - by destruct (he _ (WaitPropagation fqdn value resolvers tm) w).
  - by destruct (he _ (Delay d0) w).
  - by destruct (he _ (Hook fqdn e) w).
Qed.

Lemma targets_of_app l urls :
  targets_of (l ++ urls) (seq (length l) (length urls)) = Ok urls.
Proof.
  revert l. induction urls as [|u urls IH]; intros l; [done|]. cbn [length seq targets_of].
  rewrite list_lookup_middle by done. specialize (IH (l ++ [u])).
  rewrite length_app, Nat.add_1_r, <- app_assoc in IH. cbn in IH. by rewrite IH.
Qed.
End tokens.

(** ** Properties *)

(** C7. Against an order whose authorizations are read as [azs], calls of
    [next_dns01] yield, in order, the DNS-01 challenge of every pending
    authorization, with its record name, its value and as token its index,
    skip those that are valid already, and after the first authorization that
    cannot be used yield its error and nothing more; and the URL kept for
    each token is the URL of its challenge. *)
Theorem driver_yields {W} (ha : handler acmeE W) azs fuel k a :
  reads ha azs (snd (ha _ Authorizations a)) -> (length azs < fuel)%nat ->
  fst (run ha (calls fuel (S k) driver_new) a) =
    Some (drained (S k) (queue_of 0 azs), mkDriver (Some (drop (S k) (queue_of 0 azs))) (urls_of azs)).
Proof.
  intros Hr Hf. cbn [calls]. rewrite run_bind.
  pose proof (next_dns01_reads ha azs fuel a Hr Hf) as Hn.
  destruct (run ha (next_dns01 fuel driver_new) a) as [o a2]. cbn [fst] in Hn. subst o.
  unfold pop_front. rewrite run_bind, calls_queue. cbn [run fst]. rewrite drained_S.
  destruct (queue_of 0 azs); cbn; [by rewrite drop_nil|done].
Qed.

Definition offers (domain url value : string) : Authorization :=
  mkAuthorization AuthPending (IdDns domain)
    (fun t => match t with Dns01 => Some (mkHandle url value []) | TlsAlpn01 => None end).

Definition three_authz : list (result Authorization string) :=
  [Ok (offers "a.example" "https://acme/1" "v1");
   Ok (mkAuthorization AuthValid (IdDns "b.example") (fun _ => None));
   Ok (offers "c.example" "https://acme/3" "v3")].

Lemma driver_yields_witness :
  fst (run (paper_order three_authz) (calls 4 3 driver_new) (mkPaper [] [])) =
    Some (drained 3 (queue_of 0 three_authz), mkDriver (Some []) (urls_of three_authz)) /\
  drained 3 (queue_of 0 three_authz) =
    [Some (Ok (mkChallenge "a.example" "_acme-challenge.a.example" "v1" 0));
     Some (Ok (mkChallenge "c.example" "_acme-challenge.c.example" "v3" 1)); None].
Proof.
  split; [|by vm_compute].
  apply (driver_yields (paper_order three_authz) three_authz 4 2 (mkPaper [] [])); [done|cbn; lia].
Defined.

(** C8. Whatever the order answers: when every token is the index of a
    collected URL, [set_ready] tells the server ready only these URLs, each once
    at most per token; it returns [Ok] only when all of them were told and
    accepted, and otherwise an error of the server, or the error that a URL it
    was to tell and did not has disappeared.  When a token is not an index, it
    fails with the first such token and sends no request. *)
Theorem set_ready_exact {W} (ha : handler acmeE W) fuel d tokens a :
  let t := trace ha (set_ready fuel d tokens) a in
  let r := fst (run ha (set_ready fuel d tokens) a) in
  (forall targets, Forall2 (fun token url => challenge_urls d !! token = Some url) tokens targets ->
     ready_outcome targets (readied t) r) /\
  (forall known token rest, tokens = known ++ token :: rest ->
     (forall k, k ∈ known -> (k < length (challenge_urls d))%nat) -> (length (challenge_urls d) <= token)%nat ->
     t = [] /\ r = Some (Err (Other ("invalid challenge token " +:+ pretty token)))).
Proof.
  cbn zeta. unfold set_ready. split.
  - intros targets Ht. rewrite (targets_of_known _ _ _ Ht).
    rewrite trace_call, run_call. destruct (ha _ Authorizations a) as [u a1].
    apply set_ready_loop_outcome.
  - intros known token rest -> Hk Ht. by rewrite targets_of_unknown.
Qed.

(** Two known tokens, and one that is not. *)
Lemma set_ready_exact_witness :
  let d := mkDriver (Some []) ["https://acme/1"; "https://acme/3"]%string in
  readied (trace (paper_order three_authz) (set_ready 4 d [1; 0]%nat) (mkPaper [] []))
    = [("https://acme/1", Ok tt); ("https://acme/3", Ok tt)]%string /\
  ready_outcome ["https://acme/3"; "https://acme/1"]%string
    (readied (trace (paper_order three_authz) (set_ready 4 d [1; 0]%nat) (mkPaper [] [])))
    (fst (run (paper_order three_authz) (set_ready 4 d [1; 0]%nat) (mkPaper [] []))) /\
  trace (paper_order three_authz) (set_ready 4 d [1; 2]%nat) (mkPaper [] []) = [].
Proof.
  cbn zeta. split; [vm_compute; reflexivity|]. split.
  - apply (proj1 (set_ready_exact (paper_order three_authz) 4
      (mkDriver (Some []) ["https://acme/1"; "https://acme/3"]%string) [1; 0]%nat (mkPaper [] []))).
    repeat constructor.
  - apply (proj2 (set_ready_exact (paper_order three_authz) 4
      (mkDriver (Some []) ["https://acme/1"; "https://acme/3"]%string) [1; 2]%nat (mkPaper [] [])) [1]%nat 2%nat []).
    + reflexivity.
    + intros k ->%list_elem_of_singleton. cbn. lia.
    + cbn. lia.
Defined.

(** C6. When the solver asks the driver to set its challenges ready, the
    driver has yielded all it collected, and the tokens it is given stand for
    exactly the URLs it collected, in order: no token is unknown, and no
    collected challenge is forgotten. *)
Theorem solver_sets_all_ready {A W} (ha : handler acmeE A) (he : handler solveE W) fuel s turns a w
    n pre tokens x post :
  let p := solve_with_driver s turns in
  let h := guard_handler (driver_handler ha he fuel) in
  snd (run_for n h p ((a, driver_new, w), [])) = pre ++ Ev (Env (SetReady tokens)) x :: post ->
  let '((_, d, _), _) := fst (run_for (length pre) h p ((a, driver_new, w), [])) in
  queue d = Some [] /\ targets_of (challenge_urls d) tokens = Ok (challenge_urls d).
Proof.
  intros p h Ht. assert (tokens_ok ((a, driver_new, w), []) ghost0) as H0 by done.
  pose proof (follows_run_for _ _ _ _ _ n _ _ _ _ (driver_answers ha he fuel s) (solve_obeys s turns) H0) as [Hr _].
  pose proof (follows_run_for _ _ _ _ _ (length pre) _ _ _ _ (driver_answers ha he fuel s)
    (solve_obeys s turns) H0) as [_ Hok].
  fold p h in Hr, Hok. rewrite (run_for_prefix _ _ _ _ _ _ Ht) in Hok.
  destruct (fst (run_for (length pre) h p _)) as [[[a' d] w'] l].
  apply (Hr pre _ _ _ _) in Ht as (_ & Hex & Htok & _).
  destruct Hok as (_ & Hq & Hs). rewrite (Hq Hex) in Hs |- *. split; [done|].
  unfold oks in Hs. cbn in Hs. rewrite app_nil_r in Hs. rewrite Htok, Hs.
  exact (targets_of_app [] (challenge_urls d)).
Qed.

Definition demo_world : paper * InstantAcmeDriver * script :=
  (mkPaper [] [], driver_new, (mkMock [] false, [])).

Lemma solver_sets_all_ready_witness :
  exists pre x post,
    snd (run_for 20 (guard_handler (driver_handler (paper_order three_authz) scripted 4))
           (solve_with_driver (solver_new mock_timing) 5) (demo_world, []))
      = pre ++ Ev (Env (SetReady [0; 1]%nat)) x :: post /\
    let '((_, d, _), _) := fst (run_for (length pre) (guard_handler (driver_handler (paper_order three_authz) scripted 4))
           (solve_with_driver (solver_new mock_timing) 5) (demo_world, [])) in
    queue d = Some [] /\ targets_of (challenge_urls d) [0; 1]%nat = Ok (challenge_urls d).
Proof.
  set (t := snd (run_for 20 (guard_handler (driver_handler (paper_order three_authz) scripted 4))
           (solve_with_driver (solver_new mock_timing) 5) (demo_world, []))).
  exists (take 10 t), (Ok tt), (drop 11 t). assert (t = take 10 t ++ Ev (Env (SetReady [0; 1]%nat)) (Ok tt) :: drop 11 t) as Ht
    by (vm_compute; reflexivity).
  split; [exact Ht|].
  exact (solver_sets_all_ready (paper_order three_authz) scripted 4 (solver_new mock_timing) 5
           (mkPaper [] []) (mkMock [] false, []) 20 _ _ _ _ Ht).
Defined.
