(* ===== verification/Issue.v ===== *)
(** * Issuing a certificate

    [Dns01Solver::solve_and_finalize] with everything in place: the driver over
    an ACME order ([Driver]), a provider over an HTTP API, and the propagation
    wait over the DNS ([Propagation]).  The provider is any that keeps the
    contract of [DnsProvider] against the environment it runs in. *)

From S2P Require Import Prelude Rstr Errors Effects Sys Common Zone Provider Txt Polling Propagation Cleanup Solver Acme Driver.
From S2P Require Import Records Gandi Desec PowerDns DigitalOcean Infomaniak Porkbun Ovh.

(** A provider that runs in the environment [h]: what it serves changes by
    requests only. *)
Class Hosts {W} (h : handler sysE W) (p : DnsProvider W) (serves : W -> string -> string -> Prop) : Prop := {
  hosts_laws :: ProviderLaws p canon serves (fun _ => True);
  hosts_quiet : forall Y (e : sysE Y) w n u, is_request e = false -> serves (snd (h Y e w)) n u <-> serves w n u
}.

(** ** The propagation wait, over the DNS *)

Section wait.
Context (parse_socket_addr : string -> result SocketAddr string).

Lemma resolve_nameservers_quietly l : quietly (resolve_nameservers l).
Proof.
  induction l as [|n l IH]; cbn; [done|]. split; [done|]. intros [[|ip ips]|e]; cbn; [done| |done].
  split; [done|]. intros [u|e]; cbn; [|done]. apply quietly_bind; [done|]. by intros [rs|e].
Qed.

Lemma targets_quietly f rs : quietly (poll_targets parse_socket_addr f rs).
Proof.
  apply quietly_bind.
  - apply quietly_try; [apply find_zone_quietly|]. intros z. cbn. split; [done|].
    intros [u|[e|e]]; cbn; [|done..]. split; [done|]. intros [answers|e]; [|done].
    apply quietly_try; [apply resolve_nameservers_quietly|]. by intros [|r l].
  - intros [l|e]; [done|]. destruct (parse_resolvers parse_socket_addr rs); cbn; [|done].
    split; [done|]. by intros [u|e'].
Qed.

Lemma pass_quietly f v l : quietly (poll_pass (fun r => serves_value r f v) l).
Proof. induction l as [|r l IH]; cbn; [done|]. split; [done|]. intros x. by apply quietly_bind. Qed.

Lemma loop_quietly f v name tm fuel start l :
  quietly (poll_loop (call Now) (fun d => call (Sleep d)) (fun r => serves_value r f v) name tm fuel start l).
Proof.
  revert l. induction fuel as [|fuel IH]; intros l; cbn [poll_loop]; [done|].
  apply quietly_bind; [apply pass_quietly|]. intros [|r rest]; [done|]. cbn. split; [done|]. intros t.
  destruct (_ <=? _); cbn; [done|]. split; [done|]. intros _. apply IH.
Qed.

Lemma wait_quietly fuel f v rs tm : quietly (wait_for_propagation parse_socket_addr fuel f v rs tm).
Proof.
  apply quietly_bind; [apply targets_quietly|]. intros [l|e]; [|done]. cbn. split; [done|]. intros start.
  apply loop_quietly.
Qed.

(** It ends, within [poll_fuel] turns. *)
Context {W : Type} (h : handler sysE W) (clock : W -> Z) (Hc : steady_clock h clock).

Lemma loop_in_time f v name tm fuel start l w :
  0 < interval tm -> start <= clock w -> timeout tm - (clock w - start) <= (Z.of_nat fuel - 1) * interval tm ->
  (0 < fuel)%nat ->
  wp h (poll_loop (call Now) (fun d => call (Sleep d)) (fun r => serves_value r f v) name tm fuel start l)
    (fun r _ => r <> None) w.
Proof.
  intros Hi. revert l w. induction fuel as [|fuel IH]; intros l w Hs Hf Hp; [lia|]. cbn [poll_loop].
  apply wp_bind. eapply wp_mono; [apply (run_clock h clock Hc)|]. intros [|r rest] w1 H1; [by apply wp_ret|].
  apply wp_bind, wp_vis, wp_ret. pose proof (sc_now _ _ Hc w1) as Hn. pose proof (sc_mono _ _ Hc _ Now w1) as Hm.
  destruct (h _ Now w1) as [t w2]. cbn [fst snd] in *. subst t.
  destruct (Z.leb_spec (timeout tm) (Z.max 0 (clock w1 - start))); [by apply wp_ret|].
  apply wp_bind, wp_vis, wp_ret. pose proof (sc_sleep _ _ Hc (interval tm) w2) as Hsl.
  destruct fuel as [|fuel]; [lia|]. apply IH; nia.
Qed.

Lemma wait_ends f v rs tm w :
  0 < interval tm -> 0 <= timeout tm ->
  exists r, fst (run h (wait_for_propagation parse_socket_addr (poll_fuel tm) f v rs tm) w) = Some r.
Proof.
  intros Hi Ht.
  assert (wp h (wait_for_propagation parse_socket_addr (poll_fuel tm) f v rs tm) (fun r _ => r <> None) w) as H.
  { apply wp_bind. eapply wp_mono; [apply (run_clock h clock Hc)|]. intros [l|e] w1 _; [|by apply wp_ret].
    apply wp_bind, wp_vis, wp_ret. pose proof (sc_now _ _ Hc w1) as Hn. pose proof (sc_mono _ _ Hc _ Now w1) as Hm.
    destruct (h _ Now w1) as [t w2]. cbn [fst snd] in *. subst t.
    pose proof (Z.div_mod (timeout tm) (interval tm) ltac:(lia)).
    pose proof (Z.mod_pos_bound (timeout tm) (interval tm) Hi).
    assert (0 <= timeout tm / interval tm) by (apply Z.div_pos; lia).
    apply loop_in_time; [done|lia| |unfold poll_fuel; lia]. unfold poll_fuel. rewrite Z2Nat.id by lia. nia. }
  unfold wp in H. destruct (run h _ w) as [[r|] w']; [eauto|done].
Qed.
End wait.

(** ** The environment of the solver *)

(** The calls of [Dns01Solver] that are not the driver's, which takes the first
    three. *)
Definition issue_env {W} (parse_socket_addr : string -> result SocketAddr string) (h : handler sysE W)
    (p : DnsProvider W) : handler solveE W := fun Y e w =>
  match e in solveE Y return Y * W with
  | NextDns01 => (None, w)
  | SetReady _ => (Err out_of_fuel, w)
  | Finalize => (Err out_of_fuel, w)
  | Present f v => Provider.present p f v w
  | CleanupRecord f v => Provider.cleanup p f v w
  | WaitPropagation f v resolvers tm =>
      let '(r, w') := run h (wait_for_propagation parse_socket_addr (poll_fuel tm) f v resolvers tm) w in
      (default (Err out_of_fuel) r, w')
  | Delay d => h _ (Sleep d) w
  | Hook _ _ => (tt, w)
  end.

(** A provider whose state is the last part of a larger one. *)
Definition within {V W} (p : DnsProvider W) : DnsProvider (V * W) :=
  mkProvider (fun f u '(v, w) => let '(r, w') := Provider.present p f u w in (r, (v, w')))
             (fun f u '(v, w) => let '(r, w') := Provider.cleanup p f u w in (r, (v, w')))
             (timing p).

#[export] Instance within_laws {V W} (p : DnsProvider W) name_of serves
    `{L : !ProviderLaws p name_of serves (fun _ => True)} :
  ProviderLaws (within (V := V) p) name_of (fun w => serves (snd w)) (fun _ => True).
Proof.
  destruct L as [_ _ L3 L4 L5 L6]. constructor; try done; intros f v [x w]; cbn.
  - intros w' _. specialize (L3 f v w). destruct (Provider.present p f v w) as [r w2].
    intros [= -> <-]. cbn. by apply L3.
  - intros n u _ Hn. specialize (L4 f v w n u I Hn). by destruct (Provider.present p f v w).
  - intros w' _. specialize (L5 f v w). destruct (Provider.cleanup p f v w) as [r w2].
    intros [= -> <-]. cbn. by apply L5.
  - intros n u _ Hn. specialize (L6 f v w n u I Hn). by destruct (Provider.cleanup p f v w).
Qed.

Section issue.
Context {A W : Type} (ha : handler acmeE A) (h : handler sysE W) (p : DnsProvider W).
Context (serves : W -> string -> string -> Prop) `{H : !Hosts h p serves}.
Context (parse_socket_addr : string -> result SocketAddr string) (fuel : nat).
Local Abbreviation he := (issue_env parse_socket_addr h p).
Local Abbreviation hd := (driver_handler ha he fuel).
Local Abbreviation world := (A * InstantAcmeDriver * W)%type.

Lemma quiet_serves {B} (q : sys B) w n u : quietly q -> serves (snd (run h q w)) n u <-> serves w n u.
Proof.
  revert w. induction q as [b|Y e k IH]; intros w Hq; [done|]. destruct Hq as [He Hk]. cbn.
  pose proof (hosts_quiet Y e w n u He) as Hs. destruct (h Y e w) as [y w1]. cbn [snd] in Hs.
  etrans; [by apply IH|done].
Qed.

(** The calls that are not for the provider keep what is served. *)
Lemma env_serves Y (e : solveE Y) w n u :
  touches_records Y e = false -> serves (snd (he Y e w)) n u <-> serves w n u.
Proof.
  intros He. destruct e; try done; unfold issue_env.
  - pose proof (quiet_serves _ w n u (wait_quietly parse_socket_addr (poll_fuel tm) fqdn value resolvers tm)) as Hq.
    by destruct (run h _ w).
  - by apply hosts_quiet.
Qed.

Lemma driver_serves Y (e : solveE Y) (v : world) n u :
  touches_records Y e = false -> serves (snd (snd (hd Y e v))) n u <-> serves (snd v) n u.
Proof.
  intros He. destruct v as [[a d] w]. pose proof (env_serves Y e w n u He) as Hs.
  unfold driver_handler in *. destruct e; try done.
  - by destruct (run ha (next_dns01 fuel d) a) as [[[? ?]|] ?].
  - by destruct (run ha (set_ready fuel d tokens) a).
  - by destruct (run ha finalize a).
  - by destruct (he _ _ w).
  - by destruct (he _ _ w).
Qed.

Lemma issue_serves : serves_through hd (within p) (fun w : world => serves (snd w)) (fun _ => True).
Proof.
  constructor; [| |done|intros; by apply driver_serves].
  - by intros f v [[a d] w].
  - by intros f v [[a d] w].
Qed.

(** *** What is served when the challenges are set ready *)

(** Until something fails or is taken down, every record that was presented
    with success is served. *)
Definition placed_served (v : world * list PlacedRecord) (g : ghost) : Prop :=
  guard g = snd v /\
  (failure g = None -> cleaned_up g = [] ->
   forall r, r ∈ placed g -> serves (snd (fst v)) (canon (pr_fqdn r)) (pr_value r)).

Lemma present_served f u (v : world) r :
  fst (hd _ (Present f u) v) = Ok tt -> r = mkPlaced f u \/ serves (snd v) (canon (pr_fqdn r)) (pr_value r) ->
  serves (snd (snd (hd _ (Present f u) v))) (canon (pr_fqdn r)) (pr_value r).
Proof.
  destruct v as [[a d] w]. cbn [driver_handler issue_env].
  destruct H as [[_ _ L3 L4 _ _] _]. specialize (L3 f u w). specialize (L4 f u w).
  destruct (Provider.present p f u w) as [x w']. cbn [fst snd] in *. intros -> Hr. specialize (L3 w' I eq_refl).
  destruct (decide ((canon (pr_fqdn r), pr_value r) = (canon f, u))) as [[= -> ->]|Hne]; [done|].
  apply L4; [done|done|]. destruct Hr as [-> |Hr]; [done|exact Hr].
Qed.

Lemma served_answers s :
  answers solver_update (solver_allowed s) solver_ans (guard_handler hd) placed_served.
Proof.
  intros X e [v l] g _ [Hg Hs]. cbn [fst snd] in Hg. subst l.
  destruct e as [Y e|r| |]; cbn [guard_handler solver_ans solver_update]; [|by split_and!..].
  destruct (touches_records Y e) eqn:Et.
  - destruct e; try done.
    + pose proof (present_served fqdn value v) as Hp. destruct (hd _ (Present fqdn value) v) as [[[]|e] v'];
        cbn [fst snd] in *; (split; [done|]); (split; [done|]); cbn; [|done].
      intros Hf Hc r Hr. apply Hp; [done|]. apply elem_of_app in Hr as [Hr| ->%list_elem_of_singleton]; [|by left].
      right. by apply Hs.
    + destruct (hd _ (CleanupRecord fqdn value) v) as [x v'].
      split; [done|]. split; [done|]. cbn. intros _ Hc. by apply app_nil in Hc as [_ ?].
  - pose proof (driver_serves Y e v) as Hk. destruct (hd Y e v) as [x v'] eqn:Eh. cbn [fst snd] in *.
    split; [done|].
    assert (placed (env_update Y e x g) = placed g /\ guard (env_update Y e x g) = guard g /\
      cleaned_up (env_update Y e x g) = cleaned_up g /\
      (failure (env_update Y e x g) = None -> failure g = None)) as (Ep & Eg & Ec & Ef).
    { destruct e; try done; try (destruct x as [[]|]; done); destruct x; done. }
    split; [done|]. rewrite Ep, Ec. intros Hf Hc r Hr. apply Hk; [done|]. apply Hs; [by apply Ef|done|done].
Qed.

Lemma issue_served s turns a w n pre tokens x post :
  snd (run_for n (guard_handler hd) (solve_with_driver s turns) ((a, driver_new, w), []))
    = pre ++ Ev (Env (SetReady tokens)) x :: post ->
  let '((_, _, w'), _) :=
    fst (run_for (length pre) (guard_handler hd) (solve_with_driver s turns) ((a, driver_new, w), [])) in
  tokens = map Solver.token (yielded pre) /\
  forall c, c ∈ yielded pre -> serves w' (canon (ch_fqdn c)) (dns_value c).
Proof.
  intros Ht. assert (placed_served ((a, driver_new, w), []) ghost0) as H0 by (split; [done|by intros _ _ r ?%elem_of_nil]).
  pose proof (follows_run_for _ _ _ _ _ n _ _ _ _ (served_answers s) (solve_obeys s turns) H0) as [Hr _].
  pose proof (follows_run_for _ _ _ _ _ (length pre) _ _ _ _ (served_answers s) (solve_obeys s turns) H0) as [_ Hok].
  rewrite (run_for_prefix _ _ _ _ _ _ Ht) in Hok.
  destruct (fst (run_for (length pre) _ _ _)) as [[[a' d] w'] l].
  apply (Hr pre _ _ _ _) in Ht as (_ & _ & Htok & Hpl & _ & Hf & Hc). rewrite ghost_yielded in Htok, Hpl. cbn in Htok, Hpl.
  split; [done|]. intros c Hin. destruct Hok as [_ Hs].
  apply (Hs Hf Hc (rec_of c)). rewrite Hpl. by apply list_elem_of_fmap_2.
Qed.
End issue.

(** ** The providers *)

(** What a provider serves in a zone changes by requests only, when the values
    of the server do. *)
Lemma zone_hosts {W} (h : handler sysE W) (vals : W -> string * string -> list string) (p : DnsProvider W) z :
  (forall Y (e : sysE Y) w, is_request e = false -> same vals w (snd (h Y e w))) ->
  ProviderLaws p canon (serves_in vals z) (fun _ => True) -> Hosts h p (serves_in vals z).
Proof.
  intros Hq HL. split; [done|]. intros Y e w n u He. specialize (Hq Y e w He).
  split; intros (rn & -> & Hv); exists rn; (split; [done|]); [rewrite <- (Hq (z, rn))|rewrite (Hq (z, rn))]; done.
Qed.

Section providers.
Context `{X : Ext} `{S : !ExtSpec X} {W : Type} (h : handler sysE W) (z : string).

Lemma gandi_hosts c rrset :
  Gandi.gandi_api h rrset -> Gandi.zone_override c = Some z ->
  Hosts h (Gandi.gandi_provider h c) (serves_in (Gandi.txt_values rrset c) z).
Proof. intros Ha Hz. apply zone_hosts; [apply (Gandi.gandi_background h rrset Ha c)|by apply Gandi.gandi_laws]. Qed.

Lemma desec_hosts c rrset :
  Desec.desec_api h c rrset -> Desec.zone_override c = Some z ->
  Hosts h (Desec.desec_provider h c) (serves_in (Desec.txt_values c rrset) z).
Proof. intros Ha Hz. apply zone_hosts; [apply (Desec.desec_background h c rrset Ha)|by apply Desec.desec_laws]. Qed.

Lemma pdns_hosts c rrset :
  PowerDns.pdns_api h rrset -> PowerDns.zone_override c = Some z ->
  Hosts h (PowerDns.pdns_provider h c) (serves_in (PowerDns.txt_values c rrset) z).
Proof. intros Ha Hz. apply zone_hosts; [apply (PowerDns.pdns_background h c rrset Ha)|by apply PowerDns.pdns_laws]. Qed.

Lemma do_hosts c recs order :
  DigitalOcean.do_api h c recs order -> DigitalOcean.zone_override c = Some z ->
  Hosts h (DigitalOcean.do_provider h c) (serves_in (DigitalOcean.txt_values recs) z).
Proof.
  intros Ha Hz. apply zone_hosts; [apply (DigitalOcean.do_background_values h c recs order Ha)|].
  by eapply DigitalOcean.do_laws.
Qed.

Lemma ik_hosts c recs paged :
  Infomaniak.ik_api h c recs paged -> Infomaniak.zone_override c = Some z ->
  Hosts h (Infomaniak.ik_provider h c) (serves_in (Infomaniak.txt_values recs) z).
Proof.
  intros Ha Hz. apply zone_hosts; [apply (Infomaniak.ik_background_values h c recs paged Ha)|].
  by eapply Infomaniak.ik_laws.
Qed.

Lemma pb_hosts body_error c recs :
  Porkbun.pb_api h c recs -> Porkbun.zone_override c = Some z ->
  Hosts h (Porkbun.pb_provider body_error h c) (serves_in (Porkbun.txt_values recs) (trim_end_matches dot z)).
Proof.
  intros Ha Hz. apply zone_hosts; [apply (Porkbun.pb_background_values h c recs Ha)|by apply Porkbun.pb_laws].
Qed.

Lemma ov_hosts `{XO : OvhExt} `{!OvhExtSpec XO} c zones :
  Ovh.ovh_api h c zones -> Ovh.zone_override c = Some z ->
  Hosts h (Ovh.ov_provider h c) (serves_in (record_values (Ovh.records zones) Ovh.ov_decode) z).
Proof.
  intros Ha Hz. apply zone_hosts; [|by eapply Ovh.ov_laws]. intros Y e w He.
  by apply same_record_values, Ovh.records_sub, (bg_quiet _ _ (Ovh.ov_background _ _ _ Ha)).
Qed.
End providers.

(** ** A Gandi account, with a clock *)

Definition gandi_clocked : handler sysE (store * Z) := clocked_by Gandi.gandi_http.

Lemma gandi_clocked_api : Gandi.gandi_api (X := ref_ext) gandi_clocked (fun w => stored (fst w)).
Proof.
  destruct Gandi.gandi_server_api as [[Hq Hg] H1 H2 H3].
  assert (forall req w, gandi_clocked _ (HttpSend req) w =
    (fst (Gandi.gandi_server _ (HttpSend req) (fst w)), (snd (Gandi.gandi_server _ (HttpSend req) (fst w)), snd w))) as E.
  { intros req [s t]. cbn. by destruct (Gandi.gandi_http req s). }
  split.
  - split; [by intros Y e w He; destruct e|]. intros req w Hm k. rewrite E. cbn [fst snd]. by apply Hg.
  - intros req w resp. rewrite E. cbn [fst snd]. apply H1.
  - intros req b Hm Hb w. specialize (H2 req b Hm Hb (fst w)). rewrite E.
    by destruct (Gandi.gandi_server _ _ (fst w)).
  - intros req Hm w. specialize (H3 req Hm (fst w)). rewrite E. by destruct (Gandi.gandi_server _ _ (fst w)).
Qed.

Lemma gandi_clocked_hosts :
  Hosts gandi_clocked (Gandi.gandi_provider (X := ref_ext) gandi_clocked Gandi.gandi_demo)
    (serves_in (Gandi.txt_values (X := ref_ext) (fun w => stored (fst w)) Gandi.gandi_demo) "example.com").
Proof. by apply gandi_hosts; [apply gandi_clocked_api|]. Qed.

Definition one_authz : list (result Authorization string) := [Ok (offers "example.com" "https://acme/1" "tok")].

(** The name has a value already. *)
Definition gandi_before : store * Z := (only Gandi.gandi_url [quoted "other"], 0).

Definition unwaited : Dns01Solver := skip_propagation_check (solver_new default_timing) 5000.

(** ** Properties *)

(** C5. However far a solve has run, whenever it tells the ACME server that
    challenges are ready, the provider serves the record of every challenge the
    driver has yielded, and the tokens it gives are theirs, in order. *)
Theorem issuance_served {A W} (ha : handler acmeE A) (h : handler sysE W) (p : DnsProvider W) serves
    `{!Hosts h p serves} parse_socket_addr fuel s turns a w n pre tokens x post :
  let hd := guard_handler (driver_handler ha (issue_env parse_socket_addr h p) fuel) in
  snd (run_for n hd (solve_with_driver s turns) ((a, driver_new, w), []))
    = pre ++ Ev (Env (SetReady tokens)) x :: post ->
  let '((_, _, w'), _) := fst (run_for (length pre) hd (solve_with_driver s turns) ((a, driver_new, w), [])) in
  tokens = map Solver.token (yielded pre) /\
  forall c, c ∈ yielded pre -> serves w' (canon (ch_fqdn c)) (dns_value c).
Proof. apply (issue_served ha h p serves). Qed.

(** C4. For an order with finitely many authorizations, a provider that keeps
    its contract and a clock that advances, [solve_and_finalize] returns, with
    any fuel above the number of authorizations and with the guard empty; each
    propagation wait ends; and if no removal was reported as failed, the
    provider serves what it served before, less what the solve presented. *)
Theorem issuance {A W} (ha : handler acmeE A) (h : handler sysE W) (p : DnsProvider W) serves
    `{!Hosts h p serves} parse_socket_addr left most clock s a w :
  passes_end ha left most -> steady_clock h clock ->
  0 < interval (effective_timing s) -> 0 <= timeout (effective_timing s) ->
  let he := issue_env parse_socket_addr h p in
  let t := trace (guard_handler (driver_handler ha he (S most))) (solve_with_driver s (S (S most)))
             ((a, driver_new, w), []) in
  exists o a' d' w',
    (forall fuel turns, (most < fuel)%nat -> (S most < turns)%nat ->
       solve_and_finalize ha he fuel s turns a w = (Some o, ((a', d', w'), []))) /\
    (forall f v w0, exists r, fst (run h (wait_for_propagation parse_socket_addr (poll_fuel (effective_timing s))
       f v (fallback_resolvers s) (effective_timing s)) w0) = Some r) /\
    (omap env_failures (omap env_event t) = [] ->
     forall n u, serves w' n u <-> serves w n u /\ forall r, r ∈ presents t -> served_as canon r <> (n, u)).
Proof.
  intros Hpe Hc Hi Ht he t. destruct (driven_returns ha he left most Hpe s a w) as (o & [[[a' d'] w'] l] & Hr).
  assert (l = []) as ->.
  { destruct (solver_runs (driver_handler ha he (S most)) s (S (S most)) (a, driver_new, w)) as [Hs Hg].
    rewrite Hr in Hs, Hg. destruct Hs as [Hs _]. unfold guard_is in Hg. by rewrite Hs in Hg. }
  exists o, a', d', w'. split_and!.
  - intros fuel turns Hf Htu. by apply (enough_fuel ha he left most Hpe).
  - intros f v w0. by apply (wait_ends _ h clock).
  - intros Hf. exact (solve_traceless _ (within p) canon _ (fun _ => True) s _ _ o _ _
      (issue_serves ha h p serves parse_socket_addr (S most)) I Hr Hf).
Qed.

(** The challenge of the order is yielded, and its record is served when it is
    set ready. *)
Lemma issuance_served_witness :
  let hd := guard_handler (driver_handler (paper_order one_authz) (issue_env (fun _ => Err EmptyString) gandi_clocked
              (Gandi.gandi_provider (X := ref_ext) gandi_clocked Gandi.gandi_demo)) 2) in
  let t := snd (run_for 20 hd (solve_with_driver unwaited 3) ((mkPaper [] [], driver_new, gandi_before), [])) in
  exists pre x post, t = pre ++ Ev (Env (SetReady [0%nat])) x :: post /\
    map ch_fqdn (yielded pre) = ["_acme-challenge.example.com"%string] /\
    let '((_, _, w'), _) :=
      fst (run_for (length pre) hd (solve_with_driver unwaited 3) ((mkPaper [] [], driver_new, gandi_before), [])) in
    [0%nat] = map Solver.token (yielded pre) /\
    forall c, c ∈ yielded pre ->
      serves_in (Gandi.txt_values (X := ref_ext) (fun w => stored (fst w)) Gandi.gandi_demo) "example.com"
        w' (canon (ch_fqdn c)) (dns_value c).
Proof.
  intros hd t. exists (take 5 t), (Ok tt), (drop 6 t).
  assert (t = take 5 t ++ Ev (Env (SetReady [0%nat])) (Ok tt) :: drop 6 t) as Ht by (vm_compute; reflexivity).
  split; [exact Ht|]. split; [vm_compute; reflexivity|].
  exact (issuance_served (paper_order one_authz) gandi_clocked _ _ (Hosts0 := gandi_clocked_hosts)
    (fun _ => Err EmptyString) 2 unwaited 3 (mkPaper [] []) gandi_before 20 _ _ _ _ Ht).
Defined.

(** The certificate is there, the value that was served before is still
    served, and the one of the challenge is not. *)
Lemma issuance_witness :
  exists a' d' w',
    solve_and_finalize (paper_order one_authz) (issue_env (fun _ => Err EmptyString) gandi_clocked
        (Gandi.gandi_provider (X := ref_ext) gandi_clocked Gandi.gandi_demo)) 2 unwaited 3 (mkPaper [] []) gandi_before
      = (Some (Ok ("chain", "key")%string), ((a', d', w'), [])) /\
    serves_in (Gandi.txt_values (X := ref_ext) (fun w => stored (fst w)) Gandi.gandi_demo) "example.com" w'
      "_acme-challenge.example.com" "other" /\
    ~ serves_in (Gandi.txt_values (X := ref_ext) (fun w => stored (fst w)) Gandi.gandi_demo) "example.com" w'
      "_acme-challenge.example.com" "tok".
Proof.
  destruct (issuance (paper_order one_authz) gandi_clocked _ _ (Hosts0 := gandi_clocked_hosts)
    (fun _ => Err EmptyString) _ 1 snd unwaited (mkPaper [] []) gandi_before (paper_ends one_authz)
    (clocked_steady Gandi.gandi_http) ltac:(vm_compute; reflexivity) ltac:(vm_compute; discriminate))
    as (o & a' & d' & w' & Hr & _ & Hs).
  specialize (Hr 2%nat 3%nat ltac:(lia) ltac:(lia)). specialize (Hs ltac:(vm_compute; reflexivity)).
  exists a', d', w'. split_and!.
  - pose proof (f_equal fst Hr) as Ho. vm_compute in Ho. injection Ho as <-. exact Hr.
  - apply Hs. split; [exists "_acme-challenge"%string; split; [done|]; vm_compute; left|].
    intros r Hin. vm_compute in Hin. apply elem_of_cons in Hin as [->|Hin%elem_of_nil]; done.
  - intros [_ Hn]%Hs. refine (Hn (mkPlaced "_acme-challenge.example.com" "tok") _ _); [|reflexivity].
    vm_compute. left.
Defined.
