(* ===== verification/Reach.v ===== *)
(** * Where the requests of the HTTP providers go

    Every request that [present] and [cleanup] hand to the HTTP client is for a
    URL under the API base of the configuration, which is the one of the source
    or has passed [validate_https_base].  Google Cloud DNS also asks its token
    URI for a token, and Route 53 asks for what [url] reads in the text under
    the base.  A request is one [send] of the client: where the client goes when
    the answer is a redirect is up to it, and not part of this. *)

From S2P Require Import Prelude Rstr Errors Effects Sys Common Zone Txt Polling.
From S2P Require Import Gandi Desec PowerDns DigitalOcean Cloudflare Bunny Scaleway Infomaniak Porkbun Ovh Hetzner.
From S2P Require Import GoogleCloudDns Route53.

(** Of the calls that reach a server, other than name lookups, a program makes
    HTTP requests only, for URLs that satisfy [U]. *)
Definition goes (U : string -> Prop) Y (e : sysE Y) : Prop :=
  match e with HttpSend req => U (url req) | _ => is_request e = false end.

Definition sends {A} (U : string -> Prop) (p : sys A) : Prop := emits (goes U) p (fun _ => True).

(** A URL under an API base. *)
Definition under (base u : string) : Prop := exists path, u = base +:+ "/" +:+ path.

(** Both calls of a provider. *)
Definition confined {A} (U : string -> Prop) (present cleanup : string -> string -> sys A) : Prop :=
  forall f v, sends U (present f v) /\ sends U (cleanup f v).

Create HintDb reach.

Section sends.
Context {U : string -> Prop}.

Lemma quietly_sends {A} (p : sys A) : quietly p -> sends U p.
Proof.
  induction p as [a|Y e k IH]; cbn; [done|]. intros [He Hk]. split; [by destruct e|]. intros y. by apply IH.
Qed.

Lemma find_zone_sends f : sends U (find_zone f).
Proof. apply quietly_sends, find_zone_quietly. Qed.

Lemma send_sends `{X : Ext} `{S : !ExtSpec X} req : U (url req) -> sends U (send req).
Proof. intros Hu. apply emits_send; [exact Hu|done|done]. Qed.

Lemma try_sends {A B F} (p : sys (result A F)) (k : A -> sys (result B F)) :
  sends U p -> (forall a, sends U (k a)) -> sends U (ptry p k).
Proof. intros. by apply emits_seq. Qed.

Lemma try_pure_sends {A B F} (r : result A F) (k : A -> sys (result B F)) :
  (forall a, sends U (k a)) -> sends U (ptry_pure r k).
Proof. intros Hk. apply emits_try_pure; [intros a _; apply Hk|done]. Qed.

Lemma bind_sends {A B} (p : sys A) (k : A -> sys B) :
  sends U p -> (forall a, sends U (k a)) -> sends U (pbind p k).
Proof. intros Hp Hk. apply emits_bind. eapply emits_mono; [exact Hp|]. intros a _. apply Hk. Qed.

Lemma lifted_sends {A} (p : sys (dns_result A)) : sends U p -> sends U (lifted p).
Proof. intros Hp. by apply bind_sends. Qed.

Lemma with_lock_sends {A} key (p : sys A) : sends U p -> sends U (with_lock key p).
Proof. intros Hp. apply bind_sends; [done|]. intros _. by apply bind_sends. Qed.

Lemma wait_until_sends {A} st lt (fetch : A -> sys (fueled A)) i fuel d a :
  (forall a, sends U (fetch a)) -> sends U (wait_until st lt fetch i fuel d a).
Proof. intros Hf. by apply wait_until_emits. Qed.

Lemma walked_zone_sends `{X : Ext} fetch o f : (forall s, sends U (fetch s)) -> sends U (walked_zone fetch o f).
Proof.
  intros Hf. unfold walked_zone. destruct o; [done|]. cbn zeta. apply bind_sends; [done|]. intros [z|]; [done|].
  generalize (to_ascii_lowercase (trim_end_matches dot f)). intros n. generalize (split dot n).
  intros l. induction l as [|x l IH]; [done|]. destruct l as [|y l]; [done|]. apply try_sends; [apply Hf|].
  intros [z|]; [|exact IH]. do 2 (apply try_pure_sends; intros _). by apply bind_sends.
Qed.
End sends.

(** The URL of a request, as the source writes it. *)
Ltac under_base := cbn [url]; first [eexists; reflexivity | rewrite append_assoc; eexists; reflexivity].

(** Takes a program apart, down to its requests. *)
Ltac reach_step :=
  lazymatch goal with
  | |- sends _ (Ret _) => exact I
  | |- sends _ (call _) => split; [reflexivity|done]
  | |- sends _ (send _) => apply send_sends
  | |- sends _ (lifted _) => apply lifted_sends
  | |- sends _ (ptry_pure _ _) => apply try_pure_sends; intros ?
  | |- sends _ (ptry _ _) => apply try_sends; [|intros ?]
  | |- sends _ (with_lock _ _) => apply with_lock_sends
  | |- sends _ (walked_zone _ _ _) => apply walked_zone_sends; intros ?
  | |- sends _ (pbind _ _) => apply bind_sends; [|intros ?]
  | |- sends _ (find_zone _) => apply find_zone_sends
  | |- sends _ (wait_until _ _ _ _ _ _ _) => apply wait_until_sends; intros ?
  | |- sends _ (match ?x with _ => _ end) => destruct x
  | |- sends _ (let _ := _ in _) => cbv zeta
  | |- sends _ _ => solve [eauto with reach]
  | |- under _ _ => under_base
  end.
Ltac reach := repeat reach_step.

Section providers.
Context `{X : Ext} `{S : !ExtSpec X}.

Lemma gandi_sends c f v :
  sends (under (Gandi.api_base c)) (Gandi.present c f v) /\ sends (under (Gandi.api_base c)) (Gandi.cleanup c f v).
Proof.
  unfold Gandi.present, Gandi.cleanup, Gandi.resolve_zone, Gandi.present_locked, Gandi.cleanup_locked,
    Gandi.fetch_existing, Gandi.put_values, Gandi.delete_record.
  split; reach.
Qed.

Lemma desec_sends c f v :
  sends (under (Desec.api_base c)) (Desec.present c f v) /\ sends (under (Desec.api_base c)) (Desec.cleanup c f v).
Proof.
  unfold Desec.present, Desec.cleanup, Desec.resolve_zone, Desec.fetch_domain, Desec.present_locked,
    Desec.cleanup_locked, Desec.fetch_existing, Desec.write_values.
  split; reach.
Qed.

Lemma pdns_sends c f v :
  sends (under (PowerDns.api_base c)) (PowerDns.present c f v) /\
  sends (under (PowerDns.api_base c)) (PowerDns.cleanup c f v).
Proof.
  unfold PowerDns.present, PowerDns.cleanup, PowerDns.resolve_zone, PowerDns.fetch_zone, PowerDns.present_locked,
    PowerDns.cleanup_locked, PowerDns.fetch_rrset, PowerDns.patch_rrset.
  split; reach.
Qed.

Lemma do_list_sends c z n left l : sends (under (DigitalOcean.api_base c)) (DigitalOcean.list_loop c z n left l).
Proof. revert l. induction left as [|left IH]; intros l; cbn [DigitalOcean.list_loop]; reach. Qed.

Lemma do_delete_sends c z v l : sends (under (DigitalOcean.api_base c)) (DigitalOcean.delete_matching c z v l).
Proof.
  induction l as [|r l IH]; cbn [DigitalOcean.delete_matching];
    unfold DigitalOcean.delete_record, DigitalOcean.record_item_url, DigitalOcean.records_url; reach.
Qed.
#[local] Hint Resolve do_list_sends do_delete_sends : reach.

Lemma do_sends c f v :
  sends (under (DigitalOcean.api_base c)) (DigitalOcean.present c f v) /\
  sends (under (DigitalOcean.api_base c)) (DigitalOcean.cleanup c f v).
Proof.
  unfold DigitalOcean.present, DigitalOcean.cleanup, DigitalOcean.resolve_zone, DigitalOcean.present_locked,
    DigitalOcean.list_matching_records, DigitalOcean.create_record.
  split; reach.
Qed.

Lemma cf_delete_sends c z v l : sends (under (Cloudflare.api_base c)) (Cloudflare.delete_matching c z v l).
Proof. induction l as [|r l IH]; cbn [Cloudflare.delete_matching]; unfold Cloudflare.delete_record; reach. Qed.
#[local] Hint Resolve cf_delete_sends : reach.

Lemma cf_sends dbg c f v :
  sends (under (Cloudflare.api_base c)) (Cloudflare.present dbg c f v) /\
  sends (under (Cloudflare.api_base c)) (Cloudflare.cleanup dbg c f v).
Proof.
  unfold Cloudflare.present, Cloudflare.cleanup, Cloudflare.resolve_zone_name, Cloudflare.resolve_zone_id,
    Cloudflare.list_matching_records, Cloudflare.create_record, Cloudflare.list_url, Cloudflare.records_url.
  split; reach.
Qed.

Lemma bunny_zones_sends c s left l : sends (under (Bunny.api_base c)) (Bunny.list_zones_loop c s left l).
Proof. revert l. induction left as [|left IH]; intros l; cbn [Bunny.list_zones_loop]; reach. Qed.

Lemma bunny_delete_sends c z v l : sends (under (Bunny.api_base c)) (Bunny.delete_matching c z v l).
Proof. induction l as [|r l IH]; cbn [Bunny.delete_matching]; unfold Bunny.delete_record; reach. Qed.
#[local] Hint Resolve bunny_zones_sends bunny_delete_sends : reach.

Lemma bunny_sends c f v :
  sends (under (Bunny.api_base c)) (Bunny.present c f v) /\ sends (under (Bunny.api_base c)) (Bunny.cleanup c f v).
Proof.
  unfold Bunny.present, Bunny.cleanup, Bunny.resolve_zone, Bunny.list_zones, Bunny.list_matching_records,
    Bunny.create_record.
  split; reach.
Qed.

Lemma scaleway_sends c f v :
  sends (under (Scaleway.api_base c)) (Scaleway.present c f v) /\
  sends (under (Scaleway.api_base c)) (Scaleway.cleanup c f v).
Proof.
  unfold Scaleway.present, Scaleway.cleanup, Scaleway.resolve_zone, Scaleway.present_locked,
    Scaleway.cleanup_locked, Scaleway.fetch_existing, Scaleway.apply_set, Scaleway.apply_delete.
  split; reach.
Qed.

Lemma ik_list_sends c z n left l : sends (under (Infomaniak.api_base c)) (Infomaniak.list_loop c z n left l).
Proof. revert l. induction left as [|left IH]; intros l; cbn [Infomaniak.list_loop]; reach. Qed.

Lemma ik_delete_sends c z v l : sends (under (Infomaniak.api_base c)) (Infomaniak.delete_matching c z v l).
Proof. induction l as [|r l IH]; cbn [Infomaniak.delete_matching]; unfold Infomaniak.delete_record; reach. Qed.
#[local] Hint Resolve ik_list_sends ik_delete_sends : reach.

Lemma ik_sends c f v :
  sends (under (Infomaniak.api_base c)) (Infomaniak.present c f v) /\
  sends (under (Infomaniak.api_base c)) (Infomaniak.cleanup c f v).
Proof.
  unfold Infomaniak.present, Infomaniak.cleanup, Infomaniak.resolve_zone, Infomaniak.fetch_zone,
    Infomaniak.present_locked, Infomaniak.cleanup_locked, Infomaniak.list_txt_records, Infomaniak.create_record.
  split; reach.
Qed.

Lemma pb_post_sends c path z fields :
  (exists rest, path = "/" +:+ rest) -> sends (under (Porkbun.api_base c)) (Porkbun.post c path z fields).
Proof. intros [rest ->]. unfold Porkbun.post. reach. Qed.

Lemma pb_delete_sends c z id : sends (under (Porkbun.api_base c)) (Porkbun.delete_record c z id).
Proof. unfold Porkbun.delete_record. apply bind_sends; [apply pb_post_sends; by eexists|]. intros ?. reach. Qed.
#[local] Hint Resolve pb_delete_sends : reach.

Lemma pb_each_sends c z l : sends (under (Porkbun.api_base c)) (Porkbun.delete_each c z l).
Proof. induction l as [|r l IH]; cbn [Porkbun.delete_each]; reach. Qed.

Lemma pb_fetch_sends dbg c z sub : sends (under (Porkbun.api_base c)) (Porkbun.fetch_existing dbg c z sub).
Proof.
  unfold Porkbun.fetch_existing. cbv zeta. apply bind_sends; [|intros ?; reach]. apply pb_post_sends.
  unfold Porkbun.retrieve_path. destruct (is_empty sub); by eexists.
Qed.

Lemma pb_create_sends c z sub v : sends (under (Porkbun.api_base c)) (Porkbun.create_record c z sub v).
Proof.
  unfold Porkbun.create_record, Porkbun.check_created. cbv zeta.
  apply bind_sends; [apply pb_post_sends; by eexists|intros ?; reach].
Qed.
#[local] Hint Resolve pb_each_sends pb_fetch_sends pb_create_sends : reach.

Lemma pb_sends dbg c f v :
  sends (under (Porkbun.api_base c)) (Porkbun.present dbg c f v) /\
  sends (under (Porkbun.api_base c)) (Porkbun.cleanup dbg c f v).
Proof.
  unfold Porkbun.present, Porkbun.cleanup, Porkbun.resolve_zone, Porkbun.present_locked, Porkbun.cleanup_locked.
  split; reach.
Qed.

Lemma hz_search_sends c f l : sends (under (Hetzner.api_base c)) (Hetzner.zone_search c f l).
Proof. induction l as [|z l IH]; cbn [Hetzner.zone_search]; unfold Hetzner.zone_exists; reach. Qed.
#[local] Hint Resolve hz_search_sends : reach.

Lemma hz_sends c f v :
  sends (under (Hetzner.api_base c)) (Hetzner.present c f v) /\
  sends (under (Hetzner.api_base c)) (Hetzner.cleanup c f v).
Proof.
  unfold Hetzner.present, Hetzner.cleanup, Hetzner.resolve_zone, Hetzner.present_locked, Hetzner.cleanup_locked,
    Hetzner.run_records_action, Hetzner.wait_for_action, Hetzner.fetch_action, Hetzner.fetch_existing.
  split; reach.
Qed.

(** OVH signs a request for the URL it goes to, and asks for the time. *)
Section ovh.
Context `{XO : OvhExt}.

Lemma ov_signed_sends U c m u text j : U u -> sends U (Ovh.send_signed c m u text j).
Proof.
  intros Hu. unfold Ovh.send_signed, Ovh.signed_request, Ovh.now_timestamp.
  apply emits_bind. cbn. split; [done|]. intros t. split; [done|]. intros o.
  apply send_sends. by destruct (negb (is_empty text)).
Qed.

Lemma ov_time_sends c : sends (under (Ovh.api_base c)) (Ovh.sync_time c).
Proof. unfold Ovh.sync_time, Ovh.now_timestamp. reach. Qed.

Lemma ov_list_sends c z sub : sends (under (Ovh.api_base c)) (Ovh.list_records c z sub).
Proof.
  unfold Ovh.list_records. apply try_sends; [|intros ?; reach]. apply ov_signed_sends.
  unfold Ovh.list_url, Ovh.record_list_url. under_base.
Qed.

Lemma ov_get_sends c z id : sends (under (Ovh.api_base c)) (Ovh.get_record c z id).
Proof. unfold Ovh.get_record. apply try_sends; [apply ov_signed_sends; under_base|intros ?; reach]. Qed.

Lemma ov_delete_sends c z id : sends (under (Ovh.api_base c)) (Ovh.delete_record c z id).
Proof. unfold Ovh.delete_record. apply try_sends; [apply ov_signed_sends; under_base|intros ?; reach]. Qed.

Lemma ov_create_sends c z sub v : sends (under (Ovh.api_base c)) (Ovh.create_record c z sub v).
Proof.
  unfold Ovh.create_record. cbv zeta. apply try_pure_sends. intros text.
  apply try_sends; [apply ov_signed_sends; under_base|intros ?; reach].
Qed.

Lemma ov_refresh_sends c z : sends (under (Ovh.api_base c)) (Ovh.refresh_zone c z).
Proof. unfold Ovh.refresh_zone. apply try_sends; [apply ov_signed_sends; under_base|intros ?; reach]. Qed.
#[local] Hint Resolve ov_time_sends ov_list_sends ov_get_sends ov_delete_sends ov_create_sends ov_refresh_sends : reach.

Lemma ov_has_sends c z v l : sends (under (Ovh.api_base c)) (Ovh.has_value c z v l).
Proof. induction l as [|r l IH]; cbn [Ovh.has_value]; reach. Qed.

Lemma ov_matching_sends c z v b l : sends (under (Ovh.api_base c)) (Ovh.delete_matching c z v b l).
Proof. revert b. induction l as [|r l IH]; intros b; cbn [Ovh.delete_matching]; reach. Qed.
#[local] Hint Resolve ov_has_sends ov_matching_sends : reach.

Lemma ov_sends c f v :
  sends (under (Ovh.api_base c)) (Ovh.present c f v) /\ sends (under (Ovh.api_base c)) (Ovh.cleanup c f v).
Proof.
  unfold Ovh.present, Ovh.cleanup, Ovh.resolve_zone, Ovh.present_locked, Ovh.cleanup_locked. split; reach.
Qed.
End ovh.

(** Google Cloud DNS asks its token URI for a token. *)
Section google.
Context `{XG : GcExt} (p : GoogleCloudDnsProvider).

Definition google_url (u : string) : Prop := under (GoogleCloudDns.api_base (config p)) u \/ u = token_uri (config p).

Lemma gc_token_sends : sends google_url (access_token p).
Proof. unfold access_token, exchange_token, signed_assertion, with_token. reach; by right. Qed.

Lemma gc_forget_sends code : sends google_url (forget_token_on_unauthorized code).
Proof. unfold forget_token_on_unauthorized, with_token. reach. Qed.
#[local] Hint Resolve gc_token_sends gc_forget_sends : reach.

Lemma gc_get_sends path q : (exists rest, path = "/" +:+ rest) -> sends google_url (get p path q).
Proof. intros [rest ->]. unfold get. reach. left. under_base. Qed.

Lemma gc_pages_sends f n best t : sends google_url (zone_pages p f n best t).
Proof.
  revert best t. induction n as [|n IH]; intros best t; cbn [zone_pages]; [done|]. cbv zeta.
  apply try_sends; [apply gc_get_sends; by eexists|intros ?; reach].
Qed.

Lemma gc_rrset_sends z n : sends google_url (GoogleCloudDns.fetch_rrset p z n).
Proof. apply try_sends; [apply gc_get_sends; by eexists|intros ?; reach]. Qed.

Lemma gc_apply_sends z d a : sends google_url (apply_change p z d a).
Proof.
  unfold apply_change, GoogleCloudDns.post_change, GoogleCloudDns.wait_for_change, GoogleCloudDns.fetch_change.
  reach; [left; under_base|]. apply gc_get_sends. by eexists.
Qed.
#[local] Hint Resolve gc_pages_sends gc_rrset_sends gc_apply_sends : reach.

Lemma gc_sends f v :
  sends google_url (GoogleCloudDns.present p f v) /\ sends google_url (GoogleCloudDns.cleanup p f v).
Proof.
  unfold GoogleCloudDns.present, GoogleCloudDns.cleanup, GoogleCloudDns.resolve_zone, GoogleCloudDns.present_locked,
    GoogleCloudDns.cleanup_locked. split; reach.
Qed.
End google.

(** Route 53 sends to the URL read in the text under the base. *)
Section route53.
Context `{XR : R53Ext} (c : Route53Config).

Definition route53_url (u : string) : Prop :=
  exists raw parsed, under (Route53.api_base c) raw /\ parse_url raw = Ok parsed /\ u = url_text parsed.

Lemma r5_attempts_sends m path parsed payload left :
  route53_url (url_text parsed) -> sends route53_url (send_attempts c m path parsed payload left).
Proof.
  intros Hu. assert (forall d, route53_url (url (Route53.signed_request c m parsed payload d))) as Hr.
  { intros d. unfold Route53.signed_request. by destruct (negb (is_empty payload)). }
  induction left as [|left IH]; cbn [send_attempts]; unfold Route53.send_signed, amz_date_now; reach; apply Hr.
Qed.

Lemma r5_api_sends m path q body : (exists rest, path = "/" +:+ rest) -> sends route53_url (send_api c m path q body).
Proof.
  intros [rest ->]. apply emits_try_pure; [|done]. intros parsed Hp. apply r5_attempts_sends.
  exists (raw_url c ("/" +:+ rest) q), parsed. split; [by eexists|]. split; [|done].
  by destruct (parse_url _); [injection Hp as ->|].
Qed.

Lemma r5_zone_sends cand : sends route53_url (find_public_zone c cand).
Proof. unfold find_public_zone. cbv zeta. apply try_sends; [apply r5_api_sends; by eexists|intros ?; reach]. Qed.
#[local] Hint Resolve r5_zone_sends : reach.

Lemma r5_walk_sends f n l : sends route53_url (Route53.zone_walk c f n l).
Proof.
  induction l as [|x l IH]; [done|]. destruct l as [|y l]; [done|]. apply try_sends; [reach|]. intros [id|]; [reach|exact IH].
Qed.

Lemma r5_rrset_sends z n : sends route53_url (Route53.fetch_rrset c z n).
Proof. apply try_sends; [apply r5_api_sends; by eexists|intros ?; reach]. Qed.

Lemma r5_change_sends z a n set : sends route53_url (change_rrset c z a n set).
Proof.
  unfold change_rrset, Route53.post_change, Route53.wait_for_change, Route53.fetch_change. apply try_sends.
  - apply lifted_sends, try_sends; [apply r5_api_sends; by eexists|intros ?; reach].
  - intros ?. apply bind_sends; [done|]. intros now. cbv zeta. apply wait_until_sends. intros ch.
    apply lifted_sends, try_pure_sends. intros id. cbv zeta. apply try_sends; [apply r5_api_sends; by eexists|intros ?; reach].
Qed.
#[local] Hint Resolve r5_walk_sends r5_rrset_sends r5_change_sends : reach.

Lemma r5_sends f v :
  sends route53_url (Route53.present c f v) /\ sends route53_url (Route53.cleanup c f v).
Proof.
  unfold Route53.present, Route53.cleanup, Route53.resolve_zone, Route53.present_locked, Route53.cleanup_locked.
  split; reach.
Qed.
End route53.
End providers.

(** ** Properties *)

(** C33. Whatever the answers, every request that [present] and [cleanup] of the
    thirteen HTTP providers hand to the HTTP client is for a URL under the API
    base of the configuration, whichever zone, name, value or identifier it is
    made of; Google Cloud DNS also asks its token URI, and Route 53 asks for the
    URL read in the text under the base.  The calls open no TCP connection of
    their own.  The redirects the client may follow, and the name lookups that
    find a zone, are not part of this. *)
Theorem requests_confined `{X : Ext} `{S : !ExtSpec X} `{XO : OvhExt} `{XG : GcExt} `{XR : R53Ext}
    (cf_debug : list CfError -> string) (pb_debug : Json -> string) :
  (forall c, confined (under (Gandi.api_base c)) (Gandi.present c) (Gandi.cleanup c)) /\
  (forall c, confined (under (Desec.api_base c)) (Desec.present c) (Desec.cleanup c)) /\
  (forall c, confined (under (PowerDns.api_base c)) (PowerDns.present c) (PowerDns.cleanup c)) /\
  (forall c, confined (under (DigitalOcean.api_base c)) (DigitalOcean.present c) (DigitalOcean.cleanup c)) /\
  (forall c, confined (under (Cloudflare.api_base c)) (Cloudflare.present cf_debug c) (Cloudflare.cleanup cf_debug c)) /\
  (forall c, confined (under (Bunny.api_base c)) (Bunny.present c) (Bunny.cleanup c)) /\
  (forall c, confined (under (Scaleway.api_base c)) (Scaleway.present c) (Scaleway.cleanup c)) /\
  (forall c, confined (under (Infomaniak.api_base c)) (Infomaniak.present c) (Infomaniak.cleanup c)) /\
  (forall c, confined (under (Porkbun.api_base c)) (Porkbun.present pb_debug c) (Porkbun.cleanup pb_debug c)) /\
  (forall c, confined (under (Ovh.api_base c)) (Ovh.present c) (Ovh.cleanup c)) /\
  (forall c, confined (under (Hetzner.api_base c)) (Hetzner.present c) (Hetzner.cleanup c)) /\
  (forall p, confined (google_url p) (GoogleCloudDns.present p) (GoogleCloudDns.cleanup p)) /\
  (forall c, confined (route53_url c) (Route53.present c) (Route53.cleanup c)).
Proof.
  split_and!; intros c f v;
    auto using gandi_sends, desec_sends, pdns_sends, do_sends, cf_sends, bunny_sends, scaleway_sends, ik_sends,
      pb_sends, ov_sends, hz_sends, gc_sends, r5_sends.
Qed.

(** The URLs of the requests of a run. *)
Definition sent_urls (t : list (event sysE)) : list string :=
  omap (fun ev => match ev with @Ev _ Y e _ => match e with HttpSend req => Some (url req) | _ => None end end) t.

Lemma requests_confined_witness :
  let t := trace Gandi.gandi_server (Gandi.present (X := ref_ext) Gandi.gandi_demo "_acme-challenge.example.com" "tok")
             (only Gandi.gandi_url ["other"%string]) in
  sent_urls t = [Gandi.gandi_url; Gandi.gandi_url] /\
  Forall (fun ev => match ev with @Ev _ Y e _ => goes (under "https://gandi.test") Y e end) t.
Proof.
  cbn zeta. split; [vm_compute; reflexivity|]. refine (proj2 (emits_run _ _ _ (fun _ => True) _ _)).
  exact (proj1 (proj1 (requests_confined (X := ref_ext) (XO := ref_ovh) (XG := ref_gc) (XR := ref_r53)
    (fun _ => EmptyString) (fun _ => EmptyString)) Gandi.gandi_demo "_acme-challenge.example.com"%string "tok"%string)).
Defined.
