(* ===== verification/Configs.v ===== *)
(** * The configurations of the HTTP providers

    A configuration is made by a constructor and changed by the [with_..]
    methods, which check what they are given.  Whatever the order of the calls,
    what comes out is well formed: the API base is the one of the source or a
    URL that uses [https], or [http] on the same machine; a configured zone is a
    domain name in lower case, of at least two labels, without a trailing dot;
    and the TTL is in the range the method checks, which is not always the one
    the API accepts: that of Porkbun starts at 0 and not at the minimum of the
    account, and that of Cloudflare at what only its Enterprise zones take. *)

From S2P Require Import Prelude Rstr Errors Effects Sys Common Zone Provider Txt.
From S2P Require Import Gandi Desec PowerDns DigitalOcean Cloudflare Bunny Scaleway Infomaniak Porkbun Ovh Hetzner.
From S2P Require Import GoogleCloudDns Route53.

(** ** Configurations made by a sequence of calls *)

Inductive built {C} (start : C -> Prop) (calls : C -> dns_result C -> Prop) : C -> Prop :=
| built_start c : start c -> built start calls c
| built_call c r c' : built start calls c -> calls c r -> r = Ok c' -> built start calls c'.

(** The methods most providers have. *)
Inductive usual {C} (with_api_base with_zone : C -> string -> dns_result C) (with_ttl : C -> Z -> dns_result C)
    (with_timeout : C -> Duration -> C) (c : C) : dns_result C -> Prop :=
| call_base b : usual with_api_base with_zone with_ttl with_timeout c (with_api_base c b)
| call_zone z : usual with_api_base with_zone with_ttl with_timeout c (with_zone c z)
| call_ttl t : usual with_api_base with_zone with_ttl with_timeout c (with_ttl c t)
| call_timeout d : usual with_api_base with_zone with_ttl with_timeout c (Ok (with_timeout c d)).

(** An invariant of the calls. *)
Lemma built_inv {C} (start : C -> Prop) calls (P : C -> Prop) c :
  (forall c, start c -> P c) -> (forall c r c', P c -> calls c r -> r = Ok c' -> P c') ->
  built start calls c -> P c.
Proof. intros Hs Hc H. induction H as [c H|c r c' _ IH Hr E]; [by apply Hs|by eapply Hc]. Qed.

(** ** What the checks ensure *)

Section forms.
Context `{X : Ext}.

(** A URL on which credentials may be sent. *)
Definition secure (u : string) : Prop :=
  exists scheme host, url_parse u = Some (scheme, host) /\
    (scheme = "https"%string \/
     scheme = "http"%string /\ exists h, host = Some h /\ h ∈ ["localhost"; "127.0.0.1"; "::1"]%string).

(** An API base: the default one, or a secure URL without its final slashes. *)
Definition base_form (default_base b : string) : Prop :=
  b = default_base \/ exists u, secure u /\ b = trim_end_matches "/" u.

Definition zone_form (z : string) : Prop := valid_name z /\ canon z = z /\ (2 <= length (split dot z))%nat.

Record well_formed (base_ok zone_ok : string -> Prop) (ttl_ok : Z -> Prop) (b : string) (z : option string) (t : Z)
  : Prop := {
  wf_base : base_ok b;
  wf_zone : forall n, z = Some n -> zone_ok n;
  wf_ttl : ttl_ok t
}.

(** The form of most of them, with the TTLs the method takes. *)
Definition usual_form (default_base : string) (lo hi : Z) : string -> option string -> Z -> Prop :=
  well_formed (base_form default_base) zone_form (fun t => lo <= t <= hi).

Lemma validate_https_base_secure b p u : validate_https_base b p = Ok u -> secure b.
Proof.
  unfold validate_https_base, secure. destruct (url_parse b) as [[scheme host]|]; cbn; [|done].
  intros H. exists scheme, host. split; [done|]. revert H.
  destruct (String.eqb_spec scheme "https") as [->|_]; [by left|]. cbn [orb].
  destruct (String.eqb_spec scheme "http") as [->|_]; [|done]. cbn [andb].
  destruct host as [h|]; [|done]. intros H. right. split; [done|]. exists h. split; [done|]. revert H.
  rewrite !elem_of_cons, <- !String.eqb_eq.
  by destruct (h =? "localhost")%string, (h =? "127.0.0.1")%string, (h =? "::1")%string; auto.
Qed.

Lemma validate_ttl_range_in t lo hi t' : validate_ttl_range t lo hi = Ok t' -> lo <= t' <= hi.
Proof.
  unfold validate_ttl_range. destruct (Z.leb_spec lo t), (Z.leb_spec t hi); cbn; try done. intros [= <-]. lia.
Qed.

Lemma contains_split c s : contains_char c s = true -> (2 <= length (split c s))%nat.
Proof.
  induction s as [|a s IH]; cbn; [done|]. destruct (Ascii.eqb a c); cbn.
  - intros _. pose proof (split_not_nil c s). destruct (split c s); [done|cbn; lia].
  - intros H%IH. destruct (split c s); cbn in *; lia.
Qed.

Lemma validate_zone_form z u : validate_zone z = Ok u -> zone_form (to_ascii_lowercase (trim_end_matches dot z)).
Proof.
  unfold validate_zone. destruct (validate_fqdn z) as [w|] eqn:E; [|done]. cbn [rbind].
  destruct (contains_char dot (trim_end_matches dot z)) eqn:Ec; [|done]. intros _.
  apply validate_fqdn_unit in E. split_and!.
  - apply valid_name_lower. unfold valid_name in *. by rewrite trim_end_idem.
  - unfold canon. by rewrite lower_trim_end, trim_end_idem, lower_idem.
  - rewrite lower_split, length_map by done. by apply contains_split.
Qed.
End forms.

(** Takes a call that succeeded apart into its checks. *)
Ltac head_of t := lazymatch t with ?f _ => head_of f | _ => t end.
Ltac checked :=
  repeat match goal with
  | E : Ok _ = Ok _ |- _ => fail 1
  | E : rbind _ _ = Ok _ |- _ => fail 1
  | E : ?call = Ok _ |- _ => let f := head_of call in unfold f in E
  end;
  repeat match goal with
  | E : rbind ?r _ = Ok _ |- _ => let V := fresh "V" in destruct r eqn:V; cbn [rbind] in E; [|discriminate E]
  | E : (if ?b then _ else _) = Ok _ |- _ => destruct b eqn:?; try discriminate E
  | E : Ok ?x = Ok ?y |- _ => apply (inj Ok) in E; subst y
  end.

(** What the checks of a call give, and what it leaves alone. *)
Ltac formed :=
  repeat match goal with
  | V : validate_https_base _ _ = Ok _ |- _ => apply validate_https_base_secure in V
  | V : validate_zone _ = Ok _ |- _ => apply validate_zone_form in V
  | V : validate_ttl _ = Ok _ |- _ => unfold validate_ttl, MAX_TTL in V
  | V : validate_ttl_range _ _ _ = Ok _ |- _ => apply validate_ttl_range_in in V
  | H : usual_form _ _ _ _ _ _ |- _ => destruct H
  | H : well_formed _ _ _ _ _ _ |- _ => destruct H
  end;
  split; cbn; try done; first [by left | by right; eauto | by eexists; split; [eassumption|] | by intros ? [= <-] | lia | idtac].

(** Induction on the calls that made a configuration. *)
Ltac by_calls c :=
  let H := fresh "H" in
  intros H; pattern c; eapply built_inv; [| |exact H]; clear c H;
  [intros ? H; cbn beta in H; repeat match goal with E : ex _ |- _ => destruct E end; subst; checked; formed|intros ? ? ? ? [] ?; checked; formed].

Section configs.
Context `{X : Ext}.

Definition gandi_config : GandiConfig -> Prop :=
  built (fun c => exists a, c = Gandi.config_new a)
    (usual Gandi.with_api_base Gandi.with_zone Gandi.with_ttl Gandi.with_timeout).

Lemma gandi_formed c :
  gandi_config c -> usual_form GANDI_API_BASE 300 2592000 (Gandi.api_base c) (Gandi.zone_override c) (Gandi.ttl c).
Proof. by_calls c. Qed.

Definition desec_config : DesecConfig -> Prop :=
  built (fun c => exists a, c = Desec.config_new a)
    (usual Desec.with_api_base Desec.with_zone Desec.with_ttl Desec.with_timeout).

Lemma desec_formed c :
  desec_config c -> usual_form DESEC_API_BASE 0 86400 (Desec.api_base c) (Desec.zone_override c) (Desec.ttl c).
Proof. by_calls c. Qed.

Definition digitalocean_config : DigitalOceanConfig -> Prop :=
  built (fun c => exists a, c = DigitalOcean.config_new a)
    (usual DigitalOcean.with_api_base DigitalOcean.with_zone DigitalOcean.with_ttl DigitalOcean.with_timeout).

Lemma digitalocean_formed c :
  digitalocean_config c -> usual_form DO_API_BASE 30 (2 ^ 31 - 1) (DigitalOcean.api_base c) (DigitalOcean.zone_override c) (DigitalOcean.ttl c).
Proof. by_calls c. Qed.

Definition bunny_config : BunnyConfig -> Prop :=
  built (fun c => exists a, c = Bunny.config_new a)
    (usual Bunny.with_api_base Bunny.with_zone Bunny.with_ttl Bunny.with_timeout).

Lemma bunny_formed c :
  bunny_config c -> usual_form BUNNY_API_BASE 0 (2 ^ 31 - 1) (Bunny.api_base c) (Bunny.zone_override c) (Bunny.ttl c).
Proof. by_calls c. Qed.

Definition scaleway_config : ScalewayConfig -> Prop :=
  built (fun c => exists a, c = Scaleway.config_new a)
    (usual Scaleway.with_api_base Scaleway.with_zone Scaleway.with_ttl Scaleway.with_timeout).

Lemma scaleway_formed c :
  scaleway_config c -> usual_form SCW_API_BASE 0 (2 ^ 31 - 1) (Scaleway.api_base c) (Scaleway.zone_override c) (Scaleway.ttl c).
Proof. by_calls c. Qed.

Definition infomaniak_config : InfomaniakConfig -> Prop :=
  built (fun c => exists a, c = Infomaniak.config_new a)
    (usual Infomaniak.with_api_base Infomaniak.with_zone Infomaniak.with_ttl Infomaniak.with_timeout).

Lemma infomaniak_formed c :
  infomaniak_config c -> usual_form INFOMANIAK_API_BASE 60 86400 (Infomaniak.api_base c) (Infomaniak.zone_override c) (Infomaniak.ttl c).
Proof. by_calls c. Qed.

Definition hetzner_config : HetznerConfig -> Prop :=
  built (fun c => exists a, c = Hetzner.config_new a)
    (usual Hetzner.with_api_base Hetzner.with_zone Hetzner.with_ttl Hetzner.with_timeout).

Lemma hetzner_formed c :
  hetzner_config c -> usual_form HETZNER_API_BASE 60 (2 ^ 31 - 1) (Hetzner.api_base c) (Hetzner.zone_override c) (Hetzner.ttl c).
Proof. by_calls c. Qed.

Definition porkbun_config : PorkbunConfig -> Prop :=
  built (fun c => exists a b, c = Porkbun.config_new a b)
    (usual Porkbun.with_api_base Porkbun.with_zone Porkbun.with_ttl Porkbun.with_timeout).

Lemma porkbun_formed c :
  porkbun_config c -> usual_form PORKBUN_API_BASE 0 (2 ^ 31 - 1) (Porkbun.api_base c) (Porkbun.zone_override c) (Porkbun.ttl c).
Proof. by_calls c. Qed.

Definition ovh_config : OvhConfig -> Prop :=
  built (fun c => exists k s u, c = Ovh.config_new k s u)
    (usual Ovh.with_api_base Ovh.with_zone Ovh.with_ttl Ovh.with_timeout).

Lemma ovh_formed c :
  ovh_config c -> usual_form OVH_EU_API_BASE 0 (2 ^ 31 - 1) (Ovh.api_base c) (Ovh.zone_override c) (Ovh.ttl c).
Proof. by_calls c. Qed.

(** Cloudflare keeps the identifier of the zone beside its name; a TTL of 1 is
    automatic. *)
Inductive cloudflare_call (c : CloudflareConfig) : dns_result CloudflareConfig -> Prop :=
| cf_base b : cloudflare_call c (Cloudflare.with_api_base c b)
| cf_zone z : cloudflare_call c (Cloudflare.with_zone c z)
| cf_zone_id z id : cloudflare_call c (with_zone_id c z id)
| cf_ttl t : cloudflare_call c (Cloudflare.with_ttl c t)
| cf_timeout d : cloudflare_call c (Ok (Cloudflare.with_timeout c d)).

Definition cloudflare_config : CloudflareConfig -> Prop :=
  built (fun c => exists t, c = Cloudflare.config_new t) cloudflare_call.

Lemma cloudflare_formed c :
  cloudflare_config c ->
  well_formed (base_form CF_API_BASE) zone_form (fun t => t = 1 \/ 30 <= t <= 86400)
    (Cloudflare.api_base c) (zo_name <$> Cloudflare.zone_override c) (Cloudflare.ttl c).
Proof. by_calls c. Qed.

(** PowerDNS is given the URL of the server, to which the path of the API is
    added unless it is there. *)
Inductive powerdns_call (c : PowerDnsConfig) : dns_result PowerDnsConfig -> Prop :=
| pdns_server id : powerdns_call c (with_server_id c id)
| pdns_zone z : powerdns_call c (PowerDns.with_zone c z)
| pdns_ttl t : powerdns_call c (PowerDns.with_ttl c t)
| pdns_timeout d : powerdns_call c (Ok (PowerDns.with_timeout c d)).

Definition powerdns_config : PowerDnsConfig -> Prop :=
  built (fun c => exists u k, PowerDns.config_new u k = Ok c) powerdns_call.

Definition powerdns_base (b : string) : Prop :=
  exists u, secure u /\ b = default (trim_end_matches "/" u) (strip_suffix API_PATH (trim_end_matches "/" u)) +:+ API_PATH.

Lemma powerdns_formed c :
  powerdns_config c ->
  well_formed powerdns_base zone_form (fun t => 0 <= t <= 2 ^ 31 - 1)
    (PowerDns.api_base c) (PowerDns.zone_override c) (PowerDns.ttl c).
Proof. by_calls c. Qed.
(** Route 53 is given the identifier of a hosted zone. *)
Inductive route53_call (c : Route53Config) : dns_result Route53Config -> Prop :=
| r5_session t : route53_call c (Ok (with_session_token c t))
| r5_base b : route53_call c (Route53.with_api_base c b)
| r5_zone_id id : route53_call c (with_hosted_zone_id c id)
| r5_ttl t : route53_call c (Route53.with_ttl c t)
| r5_timeout d : route53_call c (Ok (Route53.with_timeout c d)).

Definition route53_config : Route53Config -> Prop :=
  built (fun c => exists k s, c = Route53.config_new k s) route53_call.

Lemma route53_formed c :
  route53_config c ->
  well_formed (base_form ROUTE53_API_BASE) (fun id => valid_id id = true) (fun t => 0 <= t <= 2 ^ 31 - 1)
    (Route53.api_base c) (hosted_zone_id c) (Route53.ttl c).
Proof.
  by_calls c. intros ? [= <-].
  match goal with V : ok_or _ _ = Ok _ |- _ => rewrite ok_or_ok in V; by apply normalize_id_valid in V as [? _] end.
Qed.

(** Google Cloud DNS takes a service account key, whose token URI is checked as
    well. *)
Section google.
Context `{XG : GcExt}.

Inductive google_call (c : GoogleCloudDnsConfig) : dns_result GoogleCloudDnsConfig -> Prop :=
| gc_base b : google_call c (GoogleCloudDns.with_api_base c b)
| gc_token u : google_call c (with_token_uri c u)
| gc_project p : google_call c (with_project c p)
| gc_zone z : google_call c (with_managed_zone c z)
| gc_ttl t : google_call c (GoogleCloudDns.with_ttl c t)
| gc_timeout d : google_call c (Ok (GoogleCloudDns.with_timeout c d)).

Definition google_config : GoogleCloudDnsConfig -> Prop :=
  built (fun c => exists json, from_service_account_json json = Ok c) google_call.

Lemma google_formed c :
  google_config c ->
  well_formed (base_form GCDNS_API_BASE) (fun z => 1 <= len z <= 63) (fun t => 0 <= t <= 2 ^ 31 - 1)
    (GoogleCloudDns.api_base c) (managed_zone c) (GoogleCloudDns.ttl c).
Proof.
  by_calls c. intros ? [= <-]. match goal with E : is_empty ?z || _ = false |- _ => destruct z; [done|revert E] end.
  unfold len. cbn [is_empty orb String.length]. intros E%Z.ltb_ge. split; [lia|exact E].
Qed.

Lemma google_token_secure c : google_config c -> secure (token_uri c).
Proof.
  intros H. pattern c. eapply built_inv; [| |exact H]; clear c H.
  - intros c [json E]. checked; by eapply validate_https_base_secure.
  - intros c r c' H [] E; checked; first [done|by eapply validate_https_base_secure].
Qed.
End google.
End configs.

(** ** Properties *)

(** C34. Whatever is called on a configuration, in any order, what comes out is
    well formed: its API base is the one of the source or a checked URL; its
    zone is a domain name in the form the zones of a server are compared in, or
    for Route 53 an identifier of letters and digits, while of a managed zone of
    Google Cloud DNS only the length is checked; and its TTL is in the range
    given here, the one the method checks.  For Porkbun that range is any TTL,
    also below the minimum of the account, and for Cloudflare it includes the 30
    to 59 seconds that only its Enterprise zones take. *)
Theorem configurations_well_formed `{X : Ext} `{XG : GcExt} :
  (forall c, gandi_config c ->
     usual_form GANDI_API_BASE 300 2592000 (Gandi.api_base c) (Gandi.zone_override c) (Gandi.ttl c)) /\
  (forall c, desec_config c ->
     usual_form DESEC_API_BASE 0 86400 (Desec.api_base c) (Desec.zone_override c) (Desec.ttl c)) /\
  (forall c, digitalocean_config c ->
     usual_form DO_API_BASE 30 (2 ^ 31 - 1) (DigitalOcean.api_base c) (DigitalOcean.zone_override c) (DigitalOcean.ttl c)) /\
  (forall c, bunny_config c ->
     usual_form BUNNY_API_BASE 0 (2 ^ 31 - 1) (Bunny.api_base c) (Bunny.zone_override c) (Bunny.ttl c)) /\
  (forall c, scaleway_config c ->
     usual_form SCW_API_BASE 0 (2 ^ 31 - 1) (Scaleway.api_base c) (Scaleway.zone_override c) (Scaleway.ttl c)) /\
  (forall c, infomaniak_config c ->
     usual_form INFOMANIAK_API_BASE 60 86400 (Infomaniak.api_base c) (Infomaniak.zone_override c) (Infomaniak.ttl c)) /\
  (forall c, hetzner_config c ->
     usual_form HETZNER_API_BASE 60 (2 ^ 31 - 1) (Hetzner.api_base c) (Hetzner.zone_override c) (Hetzner.ttl c)) /\
  (forall c, porkbun_config c ->
     usual_form PORKBUN_API_BASE 0 (2 ^ 31 - 1) (Porkbun.api_base c) (Porkbun.zone_override c) (Porkbun.ttl c)) /\
  (forall c, ovh_config c ->
     usual_form OVH_EU_API_BASE 0 (2 ^ 31 - 1) (Ovh.api_base c) (Ovh.zone_override c) (Ovh.ttl c)) /\
  (forall c, cloudflare_config c ->
     well_formed (base_form CF_API_BASE) zone_form (fun t => t = 1 \/ 30 <= t <= 86400)
       (Cloudflare.api_base c) (zo_name <$> Cloudflare.zone_override c) (Cloudflare.ttl c)) /\
  (forall c, powerdns_config c ->
     well_formed powerdns_base zone_form (fun t => 0 <= t <= 2 ^ 31 - 1)
       (PowerDns.api_base c) (PowerDns.zone_override c) (PowerDns.ttl c)) /\
  (forall c, route53_config c ->
     well_formed (base_form ROUTE53_API_BASE) (fun id => valid_id id = true) (fun t => 0 <= t <= 2 ^ 31 - 1)
       (Route53.api_base c) (hosted_zone_id c) (Route53.ttl c)) /\
  (forall c, google_config c ->
     well_formed (base_form GCDNS_API_BASE) (fun z => 1 <= len z <= 63) (fun t => 0 <= t <= 2 ^ 31 - 1)
       (GoogleCloudDns.api_base c) (managed_zone c) (GoogleCloudDns.ttl c) /\ secure (token_uri c)).
Proof.
  split_and!; intros c Hc;
    eauto using gandi_formed, desec_formed, digitalocean_formed, bunny_formed, scaleway_formed, infomaniak_formed,
      hetzner_formed, porkbun_formed, ovh_formed, cloudflare_formed, powerdns_formed, route53_formed, google_formed,
      google_token_secure.
Qed.

(** A zone is taken in lower case, and a TTL below the range is refused. *)
Lemma configurations_well_formed_witness :
  Gandi.with_ttl (Gandi.config_new "t") 60 <> Ok (mkGandiConfig "t" GANDI_API_BASE None 60 HTTP_TIMEOUT) /\
  exists c, Gandi.with_zone (Gandi.config_new "t") "Example.COM." = Ok c /\
    Gandi.zone_override c = Some "example.com"%string /\ zone_form "example.com".
Proof.
  split; [discriminate|]. eexists. split; [vm_compute; reflexivity|]. split; [reflexivity|].
  eapply wf_zone; [|reflexivity].
  refine (proj1 (configurations_well_formed (X := ref_ext) (XG := ref_gc)) (mkGandiConfig "t" _ (Some "example.com"%string) _ _) _).
  eapply built_call; [apply built_start; by exists "t"%string|apply (call_zone _ _ _ _ _ "Example.COM.")|].
  vm_compute. reflexivity.
Defined.
