(* ===== verification/Renewal.v ===== *)
(** * Renewal decisions (src/renewal.rs)

    When is a certificate due for renewal: within a fixed number of days of
    its expiry, or within a third of its lifetime.  Times are Unix seconds in
    an [i64]; the subtractions of the source wrap around as they do in a
    release build.  The PEM and X.509 parsers are the library's ([X509]). *)

From S2P Require Import Prelude Rstr Errors.

(** ** Machine integers *)

Definition i64_sub (a b : Z) : Z := wrap_i 64 (a - b).
Definition i64_mul (a b : Z) : Z := wrap_i 64 (a * b).

(** ** What [x509_parser] answers *)

Inductive GeneralName : Type :=
| DNSName (name : string)
| OtherName.

(** Timestamps are [i64]; a common name is [None] when its [as_str] fails;
    the alternative names are those of [subject_alternative_name()]. *)
Record Certificate : Type := mkCertificate {
  cert_not_before : Z;
  cert_not_after : Z;
  common_names : list (option string);
  alternative_names : result (option (list GeneralName)) string
}.

Class X509 : Type := {
  Der : Type;
  pem_read : string -> result (string * Der) string;   (* label and contents *)
  from_der : Der -> result Certificate string
}.

Section renewal.
Context `{X : X509}.

(** ** The source *)

Definition DAY : Z := 86400.

(** [SystemTime::now().duration_since(UNIX_EPOCH)] in whole seconds, or the
    text of its error; [as i64] wraps. *)
Definition now_unix (clock : result Z string) : dns_result Z :=
  let! secs := map_err (fun e => CertParse ("system time before epoch: " +:+ e)) clock in
  Ok (wrap_i 64 secs).

Definition parse_leaf_der (pem : string) : dns_result Der :=
  match pem_read pem with
  | Ok (label, contents) =>
      if (label =? "CERTIFICATE")%string then Ok contents
      else Err (CertParse ("expected CERTIFICATE PEM, got " +:+ label))
  | Err e => Err (CertParse ("no PEM block found: " +:+ e))
  end.

(** [X509Certificate::from_der(&parse_leaf_der(pem)?)]. *)
Definition leaf (pem : string) : dns_result Certificate :=
  let! leaf_der := parse_leaf_der pem in
  map_err (fun e => CertParse ("parse leaf certificate: " +:+ e)) (from_der leaf_der).

Definition needs_renewal_at_checked (pem : string) (threshold_days now_unix : Z) : dns_result bool :=
  let! cert := leaf pem in
  let not_after := cert_not_after cert in
  let threshold_seconds := i64_mul threshold_days DAY in
  Ok (i64_sub not_after now_unix <=? threshold_seconds).

Definition needs_renewal_at (pem : string) (threshold_days now_unix : Z) : bool :=
  unwrap_or (needs_renewal_at_checked pem threshold_days now_unix) true.

Definition needs_renewal_checked (clock : result Z string) (pem : string) (threshold_days : Z)
  : dns_result bool :=
  let! now := now_unix clock in needs_renewal_at_checked pem threshold_days now.

Definition needs_renewal (clock : result Z string) (pem : string) (threshold_days : Z) : bool :=
  unwrap_or (needs_renewal_checked clock pem threshold_days) true.

Record CertLifetime : Type := mkLifetime {
  not_before : Z;
  not_after : Z;
  total_days : Z;
  remaining_days : Z;
  subject_cn : option string;
  sans : list string
}.

Definition dns_name (gn : GeneralName) : option string :=
  match gn with DNSName name => Some name | OtherName => None end.

(** Integer division truncates toward zero. *)
Definition cert_lifetime_at (pem : string) (now_unix : Z) : dns_result CertLifetime :=
  let! cert := leaf pem in
  let not_before := cert_not_before cert in
  let not_after := cert_not_after cert in
  let subject_cn := mjoin (head (common_names cert)) in
  let sans :=
    match alternative_names cert with
    | Ok (Some general_names) => omap dns_name general_names
    | _ => []
    end in
  Ok (mkLifetime not_before not_after
        (Z.quot (Z.max (i64_sub not_after not_before) 0) DAY)
        (Z.quot (i64_sub not_after now_unix) DAY)
        subject_cn sans).

Definition cert_lifetime (clock : result Z string) (pem : string) : dns_result CertLifetime :=
  let! now := now_unix clock in cert_lifetime_at pem now.

Definition needs_renewal_ratio_at_checked (pem : string) (floor_days now_unix : Z) : dns_result bool :=
  let! life := cert_lifetime_at pem now_unix in
  let remaining_seconds := i64_sub (not_after life) now_unix in
  if remaining_seconds <=? 0 then Ok true
  else
    let ratio_seconds := Z.quot (Z.max (i64_sub (not_after life) (not_before life)) 0) 3 in
    let floor_seconds := i64_mul floor_days DAY in
    let threshold_seconds :=
      if floor_seconds =? 0 then ratio_seconds else Z.min ratio_seconds floor_seconds in
    Ok (remaining_seconds <=? threshold_seconds).

Definition needs_renewal_ratio_checked (clock : result Z string) (pem : string) (floor_days : Z)
  : dns_result bool :=
  let! now := now_unix clock in needs_renewal_ratio_at_checked pem floor_days now.

Definition needs_renewal_ratio_at (pem : string) (floor_days now_unix : Z) : bool :=
  unwrap_or (needs_renewal_ratio_at_checked pem floor_days now_unix) true.

Definition needs_renewal_ratio (clock : result Z string) (pem : string) (floor_days : Z) : bool :=
  unwrap_or (needs_renewal_ratio_checked clock pem floor_days) true.

(** ** Times that do not overflow

    A [u32] number of days, and instants within 2^61 seconds of the epoch:
    X.509 dates reach to the year 9999. *)

Definition instant (t : Z) : Prop := - 2 ^ 61 <= t <= 2 ^ 61.
Abbreviation days := in_u32.

Lemma i64_sub_instant a b : instant a -> instant b -> i64_sub a b = a - b.
Proof. unfold instant. intros Ha Hb. apply wrap_i64_small. unfold in_i64. lia. Qed.

Lemma i64_mul_days d : days d -> i64_mul d DAY = d * DAY.
Proof. unfold in_u32, DAY. intros H. apply wrap_i64_small. unfold in_i64. lia. Qed.

Lemma quot_3 r t : 0 < r -> (r <= Z.quot (Z.max t 0) 3 <-> 3 * r <= t).
Proof.
  intros Hr. rewrite Z.quot_div_nonneg by lia. pose proof (Z.div_mod (Z.max t 0) 3 ltac:(lia)).
  pose proof (Z.mod_pos_bound (Z.max t 0) 3 ltac:(lia)). lia.
Qed.

(** Whole days toward zero. *)
Lemma quot_day t :
  (0 <= t -> Z.quot t 86400 * 86400 <= t < (Z.quot t 86400 + 1) * 86400) /\
  (t < 0 -> (Z.quot t 86400 - 1) * 86400 < t <= Z.quot t 86400 * 86400).
Proof.
  pose proof (Z.quot_rem' t 86400). split; intros Ht.
  - pose proof (Z.rem_bound_pos_pos t 86400). lia.
  - pose proof (Z.rem_bound_pos_neg t 86400). lia.
Qed.

(** A certificate whose dates are instants, at an instant. *)
Record read_at (pem : string) (cert : Certificate) (now : Z) : Prop := {
  ra_leaf : leaf pem = Ok cert;
  ra_before : instant (cert_not_before cert);
  ra_after : instant (cert_not_after cert);
  ra_now : instant now
}.

Lemma fixed_due pem cert d now :
  read_at pem cert now -> days d ->
  needs_renewal_at_checked pem d now = Ok (cert_not_after cert - now <=? d * DAY).
Proof.
  intros [Hl Hb Ha Hn] Hd. unfold needs_renewal_at_checked.
  rewrite Hl. cbn [rbind]. by rewrite i64_sub_instant, i64_mul_days.
Qed.

(** The rule of the ratio, without divisions. *)
Definition ratio_rule (cert : Certificate) (floor now : Z) : bool :=
  let remaining := cert_not_after cert - now in
  (remaining <=? 0) ||
  ((3 * remaining <=? cert_not_after cert - cert_not_before cert) &&
   ((floor =? 0) || (remaining <=? floor * DAY))).

Lemma ratio_due pem cert floor now :
  read_at pem cert now -> days floor ->
  needs_renewal_ratio_at_checked pem floor now = Ok (ratio_rule cert floor now).
Proof.
  intros [Hl Hb Ha Hn] Hd. unfold needs_renewal_ratio_at_checked, cert_lifetime_at. rewrite Hl.
  cbn [rbind not_after not_before]. rewrite !i64_sub_instant, i64_mul_days by done.
  unfold ratio_rule. set (r := cert_not_after cert - now).
  set (t := cert_not_after cert - cert_not_before cert). cbn zeta.
  destruct (Z.leb_spec r 0) as [|Hr]; [done|]. cbn [orb]. f_equal.
  pose proof (quot_3 r t Hr) as Hq. unfold in_u32, DAY in *. apply eq_iff_eq_true.
  rewrite andb_true_iff, orb_true_iff, !Z.leb_le, Z.eqb_eq.
  destruct (Z.eqb_spec (floor * 86400) 0); lia.
Qed.

(** ** Properties *)

(** C13. For dates that fit, the fixed rule renews exactly when at most the
    given number of days is left, and the ratio rule exactly when the
    certificate has expired, or at most a third of its lifetime is left and,
    unless the cap is 0, at most that number of days: no overflow, and no
    effect of the truncating divisions.  Both are monotone: once due, a
    certificate stays due. *)
Theorem renewal_rules pem cert d now :
  read_at pem cert now -> days d ->
  needs_renewal_at_checked pem d now = Ok (cert_not_after cert - now <=? d * DAY) /\
  needs_renewal_ratio_at_checked pem d now = Ok (ratio_rule cert d now) /\
  (forall later, now <= later -> instant later ->
     (needs_renewal_at_checked pem d now = Ok true -> needs_renewal_at_checked pem d later = Ok true) /\
     (needs_renewal_ratio_at_checked pem d now = Ok true ->
      needs_renewal_ratio_at_checked pem d later = Ok true)).
Proof.
  intros Hr Hd. rewrite (fixed_due _ _ _ _ Hr Hd), (ratio_due _ _ _ _ Hr Hd). split_and!; [done..|].
  intros later Hle Hi. destruct Hr as [Hl Hb Ha Hn].
  assert (read_at pem cert later) as Hr' by by constructor.
  rewrite (fixed_due _ _ _ _ Hr' Hd), (ratio_due _ _ _ _ Hr' Hd). unfold ratio_rule.
  unfold in_u32, DAY in *. split; intros [= H]; f_equal; lia.
Qed.

(** Scaling the trigger to the lifetime, as documented: a certificate is
    never due by ratio when it is issued, where the fixed rule makes one
    that lives no longer than the threshold due at once; for a lifetime of 90
    days and a cap of 30 the two rules agree at every time; a lifetime of a
    year is capped to the last 30 days; and an expired certificate is due by
    both. *)
Theorem renewal_ratio_table pem cert d now :
  read_at pem cert now -> days d ->
  let total := cert_not_after cert - cert_not_before cert in
  (now = cert_not_before cert -> 0 < total -> needs_renewal_ratio_at_checked pem d now = Ok false) /\
  (now = cert_not_before cert -> total <= d * DAY -> needs_renewal_at_checked pem d now = Ok true) /\
  (total = 90 * DAY -> needs_renewal_ratio_at_checked pem 30 now = needs_renewal_at_checked pem 30 now) /\
  (365 * DAY <= total ->
     needs_renewal_ratio_at_checked pem 30 now = Ok (cert_not_after cert - now <=? 30 * DAY)) /\
  (cert_not_after cert <= now ->
     needs_renewal_ratio_at_checked pem d now = Ok true /\ needs_renewal_at_checked pem d now = Ok true).
Proof.
  intros Hr Hd. cbn zeta. assert (days 30) as H30 by done.
  rewrite !(fixed_due _ _ _ _ Hr) by done. rewrite !(ratio_due _ _ _ _ Hr) by done.
  unfold ratio_rule. unfold in_u32, DAY in *. cbn [orb Z.eqb].
  split_and!; intros; try split; f_equal; lia.
Qed.

(** The report of a certificate: its dates and names as they are, whole
    days of its lifetime, never negative, and days left rounded toward zero,
    so that a certificate that expired less than a day ago reports 0 days
    left, not a negative number. *)
Theorem cert_lifetime_report pem cert now :
  read_at pem cert now ->
  exists life, cert_lifetime_at pem now = Ok life /\
    not_before life = cert_not_before cert /\ not_after life = cert_not_after cert /\
    (forall n, n ∈ sans life <-> exists l, alternative_names cert = Ok (Some l) /\ DNSName n ∈ l) /\
    0 <= total_days life /\
    (cert_not_before cert <= cert_not_after cert ->
       total_days life * DAY <= cert_not_after cert - cert_not_before cert < (total_days life + 1) * DAY) /\
    (now <= cert_not_after cert ->
       remaining_days life * DAY <= cert_not_after cert - now < (remaining_days life + 1) * DAY) /\
    (cert_not_after cert < now ->
       (remaining_days life - 1) * DAY < cert_not_after cert - now <= remaining_days life * DAY) /\
    (cert_not_after cert < now < cert_not_after cert + DAY -> remaining_days life = 0).
Proof.
  intros [Hl Hb Ha Hn]. unfold cert_lifetime_at. rewrite Hl. cbn [rbind]. eexists. split; [reflexivity|].
  cbn [not_before not_after sans total_days remaining_days]. rewrite !i64_sub_instant by done.
  unfold DAY. split_and!; try done.
  - intros n. destruct (alternative_names cert) as [[l|]|e].
    + rewrite list_elem_of_omap. split.
      * intros ([m|] & Hin & Hm); [|done]. injection Hm as <-. eauto.
      * intros (l' & [= <-] & Hin). eauto.
    + split; [by intros ?%elem_of_nil|naive_solver].
    + split; [by intros ?%elem_of_nil|naive_solver].
  - apply Z.quot_pos; lia.
  - intros Hle. rewrite Z.max_l by lia. apply quot_day. lia.
  - intros Hle. apply quot_day. lia.
  - intros Hlt. apply quot_day. lia.
  - intros [H1 H2]. pose proof (proj2 (quot_day (cert_not_after cert - now)) ltac:(lia)). lia.
Qed.

(** The decision fails safe: a certificate that cannot be read, and a
    clock before the epoch, make every lenient variant answer [true] and
    every checked one an error about the certificate; otherwise the lenient
    variants answer what the checked ones do. *)
Theorem renewal_fails_safe pem clock d now :
  (forall e, leaf pem = Err e ->
     (exists m, e = CertParse m) /\
     needs_renewal_at_checked pem d now = Err e /\ needs_renewal_ratio_at_checked pem d now = Err e /\
     needs_renewal_at pem d now = true /\ needs_renewal_ratio_at pem d now = true /\
     needs_renewal clock pem d = true /\ needs_renewal_ratio clock pem d = true) /\
  (forall e, clock = Err e -> needs_renewal clock pem d = true /\ needs_renewal_ratio clock pem d = true) /\
  (forall cert secs, leaf pem = Ok cert -> clock = Ok secs ->
     needs_renewal_checked clock pem d = Ok (needs_renewal clock pem d) /\
     needs_renewal_ratio_checked clock pem d = Ok (needs_renewal_ratio clock pem d)).
Proof.
  unfold needs_renewal, needs_renewal_ratio, needs_renewal_checked, needs_renewal_ratio_checked,
    needs_renewal_at, needs_renewal_ratio_at, needs_renewal_at_checked, needs_renewal_ratio_at_checked,
    cert_lifetime_at.
  split_and!.
  - intros e He. rewrite !He. cbn. split_and!; try done; [|by destruct clock..].
    revert He. unfold leaf, parse_leaf_der.
    destruct (pem_read pem) as [[label der]|m]; cbn; [|intros [= <-]; eauto].
    destruct (label =? "CERTIFICATE")%string; cbn; [|intros [= <-]; eauto].
    destruct (from_der der); cbn; intros [= <-]; eauto.
  - by intros e ->.
  - intros cert secs Hl ->. rewrite !Hl. cbn. split; [done|]. by destruct (_ <=? 0).
Qed.
End renewal.

(** ** A parser: the text of a certificate is its kind, and one certificate *)

Definition demo_cert : Certificate :=
  mkCertificate 1700000000 (1700000000 + 90 * DAY) [Some "example.com"%string]
    (Ok (Some [DNSName "example.com"; OtherName; DNSName "www.example.com"])).

Definition demo_x509 : X509 := {|
  Der := unit;
  pem_read := fun pem => if (pem =? "garbage")%string then Err "missing" else Ok (pem, tt);
  from_der := fun _ => Ok demo_cert
|}.

Lemma demo_read now : instant now -> read_at (X := demo_x509) "CERTIFICATE" demo_cert now.
Proof. by constructor. Qed.

Lemma renewal_rules_witness :
  needs_renewal_at_checked (X := demo_x509) "CERTIFICATE" 30 (1700000000 + 60 * DAY) = Ok true /\
  needs_renewal_ratio_at_checked (X := demo_x509) "CERTIFICATE" 30 (1700000000 + 60 * DAY) =
    Ok (ratio_rule demo_cert 30 (1700000000 + 60 * DAY)).
Proof.
  destruct (renewal_rules (X := demo_x509) "CERTIFICATE" demo_cert 30 (1700000000 + 60 * DAY)) as (H1 & H2 & _);
    [by apply demo_read|done|]. split; [exact H1|exact H2].
Defined.

Lemma renewal_ratio_table_witness :
  needs_renewal_ratio_at_checked (X := demo_x509) "CERTIFICATE" 30 1700000000 = Ok false /\
  needs_renewal_ratio_at_checked (X := demo_x509) "CERTIFICATE" 30 1700000000 =
    needs_renewal_at_checked (X := demo_x509) "CERTIFICATE" 30 1700000000.
Proof.
  destruct (renewal_ratio_table (X := demo_x509) "CERTIFICATE" demo_cert 30 1700000000) as (H1 & _ & H3 & _);
    [by apply demo_read|done|]. split; [by apply H1|by apply H3].
Defined.

Lemma cert_lifetime_report_witness :
  exists life, cert_lifetime_at (X := demo_x509) "CERTIFICATE" (1700000000 + 90 * DAY + 3600) = Ok life /\
    remaining_days life = 0.
Proof.
  destruct (cert_lifetime_report (X := demo_x509) "CERTIFICATE" demo_cert (1700000000 + 90 * DAY + 3600))
    as (life & H1 & _ & _ & _ & _ & _ & _ & _ & H); [by apply demo_read|].
  exists life. split; [exact H1|]. by apply H.
Defined.

Lemma renewal_fails_safe_witness :
  leaf (X := demo_x509) "PRIVATE KEY" = Err (CertParse "expected CERTIFICATE PEM, got PRIVATE KEY") /\
  needs_renewal_at (X := demo_x509) "PRIVATE KEY" 30 0 = true.
Proof.
  split; [by vm_compute|].
  destruct (renewal_fails_safe (X := demo_x509) "PRIVATE KEY" (Ok 0) 30 0) as [H _].
  by destruct (H _ eq_refl) as (_ & _ & _ & H' & _).
Defined.
