(* ===== verification/AccountStore.v ===== *)
(** * The account store (src/account_store.rs)

    ACME account credentials in a JSON file.  A save writes a temporary file
    next to it, flushes it and renames it over the old one, so that the file
    always holds complete credentials, whatever fails, wherever the process
    stops, and however many saves run at once.

    A path is the list of its components, as [Path::components] gives them;
    the handle of the temporary file is named by the path it was created at.
    [AccountCredentials] and their JSON are the library's. *)

From S2P Require Import Prelude Rstr Errors Effects.

(** ** Paths *)

Inductive Component : Type :=
| RootDir
| CurDir
| ParentDir
| Normal (name : string).

#[global] Instance component_eq_dec : EqDecision Component.
Proof. solve_decision. Defined.

Abbreviation Path := (list Component).

Definition component_text (c : Component) : string :=
  match c with RootDir => "" | CurDir => "." | ParentDir => ".." | Normal n => n end.

(** [Path::display], of a path without redundant separators. *)
Definition display_path (p : Path) : string :=
  match p with
  | [RootDir] => "/"
  | _ => join "/" (map component_text p)
  end.

(** [Path::file_name]. *)
Definition file_name (p : Path) : option string :=
  match last p with Some (Normal n) => Some n | _ => None end.

(** [Path::parent]. *)
Definition parent (p : Path) : option Path :=
  match last p with
  | None | Some RootDir => None
  | Some _ => Some (take (length p - 1) p)
  end.

(** [Path::with_file_name]. *)
Definition with_file_name (p : Path) (name : string) : Path :=
  match file_name p with
  | Some _ => take (length p - 1) p ++ [Normal name]
  | None => p ++ [Normal name]
  end.

(** ** The file system *)

(** An [io::Error]: whether its kind is [NotFound], and its text. *)
Record IoError : Type := mkIoError {
  is_not_found : bool;
  io_text : string
}.

Abbreviation io_result A := (result A IoError).

(** [FetchAdd pid] is [COUNTER.fetch_add(1)] in the process [pid]. *)
Inductive fsE : Type -> Type :=
| ReadFile (p : Path) : fsE (io_result string)
| CreateDirAll (p : Path) : fsE (io_result unit)
| FetchAdd (pid : Z) : fsE Z
| OpenNew (p : Path) (mode : Z) : fsE (io_result unit)
| WriteAll (p : Path) (bytes : string) : fsE (io_result unit)
| SyncAll (p : Path) : fsE (io_result unit)
| RemoveFile (p : Path) : fsE (io_result unit)
| Rename (from to : Path) : fsE (io_result unit).

(** [AccountCredentials], [serde_json::to_vec] and [serde_json::from_slice]. *)
Class Credentials : Type := {
  AccountCredentials : Type;
  to_vec : AccountCredentials -> result string string;
  from_slice : string -> result AccountCredentials string
}.

Class CredentialsSpec (C : Credentials) : Prop := {
  from_to_vec : forall c b, to_vec c = Ok b -> from_slice b = Ok c
}.

Section store.
Context `{C : Credentials}.

(** ** The source *)

(** The trait: a store loads and saves credentials. *)
Record AccountStore : Type := mkAccountStore {
  store_load : prog fsE (dns_result (option AccountCredentials));
  store_save : AccountCredentials -> prog fsE (dns_result unit)
}.

Record FileAccountStore : Type := mkStore { path : Path }.

(** [#[cfg(unix)] options.mode(0o600)]. *)
Definition MODE : Z := 384.

Definition unique_temp_path (pid : Z) (p : Path) : prog fsE Path :=
  let* n := call (FetchAdd pid) in
  let name := default EmptyString (file_name p) +:+ "." +:+ pretty pid +:+ "." +:+ pretty n +:+ ".tmp" in
  Ret (with_file_name p name).

Definition write_private (p : Path) (bytes : string) : prog fsE (io_result unit) :=
  await? _ := call (OpenNew p MODE) in
  await? _ := call (WriteAll p bytes) in
  call (SyncAll p).

Definition load (s : FileAccountStore) : prog fsE (dns_result (option AccountCredentials)) :=
  let* read := call (ReadFile (path s)) in
  match read with
  | Err e =>
      if is_not_found e then Ret (Ok None)
      else Ret (Err (Storage ("read account store " +:+ display_path (path s) +:+ ": " +:+ io_text e)))
  | Ok bytes =>
      try? creds := map_err (fun e =>
        Storage ("parse account store " +:+ display_path (path s) +:+ ": " +:+ e)) (from_slice bytes) in
      Ret (Ok (Some creds))
  end.

(** [create_dir_all(parent)] when there is a parent to create. *)
Definition create_parent (parent : Path) : prog fsE (dns_result unit) :=
  if decide (parent = []) then Ret (Ok tt)
  else
    let* r := call (CreateDirAll parent) in
    Ret (map_err (fun e => Storage ("create parent " +:+ display_path parent +:+ ": " +:+ io_text e)) r).

Definition save (pid : Z) (s : FileAccountStore) (credentials : AccountCredentials)
  : prog fsE (dns_result unit) :=
  try? bytes := map_err (fun e => Storage ("serialize account credentials: " +:+ e)) (to_vec credentials) in
  try? dir := ok_or (parent (path s))
    (Storage ("account store path has no parent: " +:+ display_path (path s))) in
  await? _ := create_parent dir in
  let* tmp := unique_temp_path pid (path s) in
  let* written := write_private tmp bytes in
  match written with
  | Err e =>
      let* _ := call (RemoveFile tmp) in
      Ret (Err (Storage ("write " +:+ display_path tmp +:+ ": " +:+ io_text e)))
  | Ok _ =>
      let* renamed := call (Rename tmp (path s)) in
      match renamed with
      | Err e =>
          let* _ := call (RemoveFile tmp) in
          Ret (Err (Storage ("rename " +:+ display_path tmp +:+ " -> " +:+ display_path (path s)
                             +:+ ": " +:+ io_text e)))
      | Ok _ => Ret (Ok tt)
      end
  end.

(** The implementation of the trait, in the process [pid]. *)
Definition file_account_store (pid : Z) (s : FileAccountStore) : AccountStore :=
  mkAccountStore (load s) (save pid s).

(** ** Temporary names *)

(** The name [unique_temp_path] gives for the count [n]. *)
Definition temp_name (p : Path) (pid n : Z) : string :=
  default EmptyString (file_name p) +:+ "." +:+ pretty pid +:+ "." +:+ pretty n +:+ ".tmp".

Definition temp_path (p : Path) (pid n : Z) : Path := with_file_name p (temp_name p pid n).

(** ** Laws of the file system

    [view] is what is at a path: nothing, or a file with its content, its
    permission bits, and whether the content has reached the disk. *)
Record File : Type := mkFile {
  content : string;
  mode : Z;
  durable : bool
}.

(** Not readable by the group or by others. *)
Definition private (f : File) : Prop := Z.land (mode f) 63 = 0.

Record fs_laws {W} (h : handler fsE W) (view : W -> Path -> option File) (count : W -> Z -> Z) : Prop := {
  fl_frame : forall X (e : fsE X) w q,
    match e with
    | OpenNew p _ | WriteAll p _ | SyncAll p | RemoveFile p => q <> p
    | Rename p p' => q <> p /\ q <> p'
    | _ => True
    end -> view (snd (h X e w)) q = view w q;
  fl_read : forall p w, match fst (h _ (ReadFile p) w) with
    | Ok b => exists f, view w p = Some f /\ content f = b
    | Err e => is_not_found e = true -> view w p = None
    end;
  fl_open : forall p m w, match fst (h _ (OpenNew p m) w) with
    | Ok _ => exists umask, view (snd (h _ (OpenNew p m) w)) p
                = Some (mkFile EmptyString (Z.land m (Z.lnot umask)) true)
    | Err _ => view (snd (h _ (OpenNew p m) w)) p = view w p
    end;
  fl_write : forall p b w f, view w p = Some f -> fst (h _ (WriteAll p b) w) = Ok tt ->
    view (snd (h _ (WriteAll p b) w)) p = Some (mkFile (content f +:+ b) (mode f) false);
  fl_sync : forall p w f, view w p = Some f -> fst (h _ (SyncAll p) w) = Ok tt ->
    view (snd (h _ (SyncAll p) w)) p = Some (mkFile (content f) (mode f) true);
  fl_remove : forall p w, fst (h _ (RemoveFile p) w) = Ok tt -> view (snd (h _ (RemoveFile p) w)) p = None;
  fl_rename : forall p q w, p <> q -> match fst (h _ (Rename p q) w) with
    | Ok _ => view (snd (h _ (Rename p q) w)) q = view w p /\ view (snd (h _ (Rename p q) w)) p = None
    | Err _ => view (snd (h _ (Rename p q) w)) q = view w q /\ view (snd (h _ (Rename p q) w)) p = view w p
    end;
  fl_count : forall X (e : fsE X) w pid, count (snd (h X e w)) pid =
    count w pid + match e with FetchAdd pid' => if pid' =? pid then 1 else 0 | _ => 0 end;
  fl_fetch : forall pid w, fst (h _ (FetchAdd pid) w) = count w pid
}.
(** ** Temporary paths are unique, and not the path of the store *)

Lemma temp_path_inj p pid n pid' n' : temp_path p pid n = temp_path p pid' n' -> pid = pid' /\ n = n'.
Proof.
  unfold temp_path, with_file_name. intros E.
  assert (temp_name p pid n = temp_name p pid' n') as En.
  { destruct (file_name p); apply app_inj_2 in E as [_ E]; [by injection E|done|by injection E|done]. }
  unfold temp_name in En. apply append_inj_l in En. injection En as En.
  apply sep_inj in En as [Ep En]; [|by apply pretty_no_char..].
  apply (sep_inj "." (pretty n) (pretty n')) in En as [En _]; [|by apply pretty_no_char..].
  split; by apply (inj pretty).
Qed.

Lemma temp_path_other p pid n : temp_path p pid n <> p.
Proof.
  unfold temp_path, with_file_name, temp_name, file_name. intros E.
  destruct p as [|c l _] using rev_ind; [done|]. rewrite last_snoc in E.
  assert (forall d, (l ++ [c]) ++ [d] <> l ++ [c]) as Hne.
  { intros d H. apply (f_equal length) in H. rewrite !length_app in H. cbn in H. lia. }
  destruct c; try by apply Hne in E. rewrite length_app, Nat.add_sub, take_app_length in E.
  apply app_inj_2 in E as [_ E]; [|done]. injection E as E. cbn [default] in E.
  apply (f_equal String.length) in E. rewrite !length_append in E. cbn in E. lia.
Qed.

(** ** The stages of a save *)

Inductive stage : Type :=
| Fresh
| Named (n : Z)      (* the count is drawn *)
| Opened (n : Z)     (* the temporary file is created *)
| Written (n : Z)
| Synced (n : Z)
| Renamed (n : Z)
| Spoilt (n : Z).    (* a write failed, or the file is removed again *)

Definition stage_count (st : stage) : option Z :=
  match st with
  | Fresh => None
  | Named n | Opened n | Written n | Synced n | Renamed n | Spoilt n => Some n
  end.

Definition save_update X (e : fsE X) : X -> stage -> stage :=
  match e in fsE X return X -> stage -> stage with
  | FetchAdd _ => fun n _ => Named n
  | OpenNew _ _ => fun r st => match r, st with Ok _, Named n => Opened n | _, _ => st end
  | WriteAll _ _ => fun r st => match r, st with Ok _, Opened n => Written n | _, Opened n => Spoilt n | _, _ => st end
  | SyncAll _ => fun r st => match r, st with Ok _, Written n => Synced n | _, Written n => Spoilt n | _, _ => st end
  | Rename _ _ => fun r st => match r, st with Ok _, Synced n => Renamed n | _, _ => st end
  | RemoveFile _ => fun _ st => match stage_count st with Some n => Spoilt n | None => st end
  | ReadFile _ | CreateDirAll _ => fun _ st => st
  end.

Section protocol.
Context (p : Path) (pid : Z) (bytes : string).

Abbreviation temp := (temp_path p pid).

Definition save_allowed X (e : fsE X) (st : stage) : Prop :=
  match e with
  | ReadFile _ => False
  | CreateDirAll _ => st = Fresh
  | FetchAdd pid' => pid' = pid /\ st = Fresh
  | OpenNew q m => exists n, st = Named n /\ q = temp n /\ m = MODE
  | WriteAll q b => exists n, st = Opened n /\ q = temp n /\ b = bytes
  | SyncAll q => exists n, st = Written n /\ q = temp n
  | Rename q r => exists n, st = Synced n /\ q = temp n /\ r = p
  | RemoveFile q => exists n, stage_count st = Some n /\ q = temp n /\ forall m, st <> Renamed m
  end.

Definition any_answer X (e : fsE X) (st : stage) (x : X) : Prop := True.

Abbreviation saves := (follows save_update save_allowed any_answer).
End protocol.

Lemma save_follows pid s c bytes :
  to_vec c = Ok bytes ->
  follows save_update (save_allowed (path s) pid bytes) any_answer (save pid s c)
    (fun r st => match r with
                 | Ok _ => exists n, st = Renamed n
                 | Err e => (exists m, e = Storage m) /\ forall n, st <> Renamed n
                 end) Fresh.
Proof.
  intros Hc. unfold save. rewrite Hc. cbn [map_err ptry_pure].
  destruct (parent (path s)) as [dir|]; cbn [ok_or ptry_pure]; [|cbn; eauto].
  assert (forall (Q : dns_result unit -> stage -> Prop) k,
    (forall e, (exists m, e = Storage m) -> Q (Err e) Fresh) ->
    follows save_update (save_allowed (path s) pid bytes) any_answer (k tt) Q Fresh ->
    follows save_update (save_allowed (path s) pid bytes) any_answer (ptry (create_parent dir) k) Q Fresh) as Hdir.
  { intros Q k He Hk. unfold create_parent, ptry. destruct (decide (dir = [])); [done|].
    apply follows_bind, follows_call; [done|]. intros [[]|e] _; cbn; [done|]. apply He. eauto. }
  apply Hdir; [intros e He; split; [done|discriminate]|]. clear Hdir.
  unfold unique_temp_path. cbn [pbind call follows save_allowed save_update]. split; [done|]. intros n _.
  fold (temp_name (path s) pid n). fold (temp_path (path s) pid n).
  unfold write_private, ptry. cbn. split; [eauto|].
  assert (forall st e, stage_count st = Some n -> (forall m, st <> Renamed m) ->
    follows save_update (save_allowed (path s) pid bytes) any_answer
      (let* _ := call (RemoveFile (temp_path (path s) pid n)) in Ret (Err (Storage e) : dns_result unit))
      (fun r st => match r with
                 | Ok _ => exists n, st = Renamed n
                 | Err e => (exists m, e = Storage m) /\ forall n, st <> Renamed n
                 end) st) as Hrm.
  { intros st e Hst Hne. apply follows_call; [cbn; eauto|]. intros r _. cbn. rewrite Hst. split; [eauto|discriminate]. }
  intros [[]|e] _; [|by apply Hrm]. cbn. split; [eauto|].
  intros [[]|e] _; [|by apply Hrm]. cbn. split; [eauto|].
  intros [[]|e] _; [|by apply Hrm]. cbn. split; [eauto|].
  intros [[]|e] _; [cbn; eauto|]. by apply Hrm.
Qed.

(** ** One event of a save *)

Lemma mode_private umask c d : private (mkFile c (Z.land MODE (Z.lnot umask)) d).
Proof.
  unfold private, MODE. cbn [mode]. rewrite (Z.land_comm 384), <- Z.land_assoc.
  change (Z.land 384 63) with 0. apply Z.land_0_r.
Qed.

(** The complete file of a save. *)
Definition complete (bytes : string) (o : option File) : Prop :=
  exists f, o = Some f /\ content f = bytes /\ private f /\ durable f = true.

Section events.
Context {W : Type} (h : handler fsE W) (view : W -> Path -> option File) (count : W -> Z -> Z).
Context (Hfs : fs_laws h view count).
Context (p : Path) (pid : Z) (bytes : string).

Abbreviation temp := (temp_path p pid).

(** What a stage promises about the temporary file. *)
Definition on_disk (w : W) (st : stage) : Prop :=
  match st with
  | Fresh | Named _ | Spoilt _ => True
  | Opened n => exists f, view w (temp n) = Some f /\ content f = EmptyString /\ private f
  | Written n => exists f, view w (temp n) = Some f /\ content f = bytes /\ private f
  | Synced n => complete bytes (view w (temp n))
  | Renamed n => view w (temp n) = None
  end.

Lemma on_disk_frame w w' st :
  (forall n, stage_count st = Some n -> view w' (temp n) = view w (temp n)) -> on_disk w st -> on_disk w' st.
Proof. destruct st as [|n|n|n|n|n|n]; cbn; try done; intros Hv; by rewrite Hv. Qed.

(** An event of a save keeps what its stage promises; it changes nothing but
    its temporary file and, when it renames, the file of the store. *)
Lemma event_sound X (e : fsE X) w st :
  save_allowed p pid bytes X e st -> on_disk w st ->
  let x := fst (h X e w) in
  let w' := snd (h X e w) in
  let st' := save_update X e x st in
  on_disk w' st' /\
  (forall n, stage_count st' = Some n -> stage_count st = Some n \/ (n = count w pid /\ count w pid < count w' pid)) /\
  (view w' p = view w p /\ ((exists n, st' = Renamed n) -> st' = st) \/
   complete bytes (view w' p) /\ exists n, st' = Renamed n) /\
  (forall q, q <> p -> (forall n, stage_count st = Some n -> q <> temp n) -> view w' q = view w q).
Proof.
  intros Ha Hd. cbn zeta. pose proof (fl_frame _ _ _ Hfs X e w) as Hfr.
  assert (forall n, p <> temp n) as Hp by (intros n E; by apply (temp_path_other p pid n)).
  destruct e as [q|q|pid'|q m|q b|q|q|q r]; cbn in Ha; try done; cbn [save_update].
  - split_and!; [|eauto|left; split; [by apply Hfr|done]|intros; by apply Hfr].
    eapply on_disk_frame; [|exact Hd]. intros n _. by apply Hfr.
  - destruct Ha as [-> ->]. rewrite (fl_fetch _ _ _ Hfs). split_and!; [done| | |intros; by apply Hfr].
    + intros n [= <-]. right. rewrite (fl_count _ _ _ Hfs), Z.eqb_refl. lia.
    + left. split; [by apply Hfr|]. by intros [].
  - destruct Ha as (n & -> & -> & ->). pose proof (fl_open _ _ _ Hfs (temp n) MODE w) as Ho.
    split_and!; [| |left; split; [by apply Hfr|]|intros q Hq Hn; apply Hfr; by apply Hn].
    + destruct (fst _) as [[]|err]; [|done]. destruct Ho as [um Hv]. cbn. rewrite Hv.
      eexists. split; [done|]. split; [done|apply mode_private].
    + destruct (fst _); eauto.
    + destruct (fst _); by intros [].
  - destruct Ha as (n & -> & -> & ->). destruct Hd as (f & Hv & Hc & Hm).
    pose proof (fl_write _ _ _ Hfs (temp n) bytes w f Hv) as Hw.
    split_and!; [| |left; split; [by apply Hfr|]|intros q Hq Hn; apply Hfr; by apply Hn].
    + destruct (fst _) as [[]|err]; [|done]. cbn. rewrite Hw by done. eexists. split; [done|].
      cbn. by rewrite Hc.
    + destruct (fst _); eauto.
    + destruct (fst _); by intros [].
  - destruct Ha as (n & -> & ->). destruct Hd as (f & Hv & Hc & Hm).
    pose proof (fl_sync _ _ _ Hfs (temp n) w f Hv) as Hw.
    split_and!; [| |left; split; [by apply Hfr|]|intros q Hq Hn; apply Hfr; by apply Hn].
    + destruct (fst _) as [[]|err]; [|done]. cbn. rewrite Hw by done. by eexists.
    + destruct (fst _); eauto.
    + destruct (fst _); by intros [].
  - destruct Ha as (n & Hst & -> & Hne). rewrite Hst.
    split_and!; [done|eauto|left; split; [by apply Hfr|by intros []]|intros q Hq Hn; apply Hfr; by apply Hn].
  - destruct Ha as (n & -> & -> & ->).
    pose proof (fl_rename _ _ _ Hfs (temp n) p w (temp_path_other p pid n)) as Hr.
    destruct (fst _) as [[]|err].
    + destruct Hr as [Hr1 Hr2].
      split_and!; [done|eauto|right; cbn in Hd; rewrite <- Hr1 in Hd; eauto|].
      intros q Hq Hn. apply Hfr. split; [by apply Hn|done].
    + destruct Hr as [Hr1 Hr2].
      split_and!; [|eauto|left; split; [done|by intros []]|].
      * eapply on_disk_frame; [|exact Hd]. by intros ? [= <-].
      * intros q Hq Hn. apply Hfr. split; [by apply Hn|done].
Qed.
End events.

(** ** One save *)

Section one.
Context {W : Type} (h : handler fsE W) (view : W -> Path -> option File) (count : W -> Z -> Z).
Context (Hfs : fs_laws h view count).
Context (p : Path) (pid : Z) (bytes : string).

Definition so_far (w0 : W) (w : W) (st : stage) : Prop :=
  on_disk view p pid bytes w st /\
  (view w p = view w0 p /\ (forall n, st <> Renamed n) \/ complete bytes (view w p) /\ exists n, st = Renamed n) /\
  (forall q, q <> p -> (forall n, q <> temp_path p pid n) -> view w q = view w0 q).

Lemma save_answers w0 : answers save_update (save_allowed p pid bytes) any_answer h (so_far w0).
Proof.
  intros X e w st Ha (Hd & Hp & Hq). split; [done|].
  destruct (event_sound h view count Hfs p pid bytes X e w st Ha Hd) as (H1 & _ & H3 & H4).
  split_and!; [done| |].
  - destruct H3 as [[Hv Hst]|H3]; [|by right]. rewrite Hv. set (st' := save_update _ _ _ _) in *.
    destruct Hp as [[Hp Hne]|[Hc Hr]].
    + left. split; [done|]. intros n E. rewrite <- (Hst (ex_intro _ n E)) in Hne. by apply (Hne n).
    + right. split; [done|]. destruct Hr as [n ->]. subst st'. exfalso.
      destruct e; cbn in Ha; naive_solver.
  - intros q Hqp Hqt. rewrite H4; [by apply Hq|done|]. intros n _. apply Hqt.
Qed.
End one.

(** ** Saves at once

    Any number of saves of the same store, in any number of processes, each
    making one call to the file system at a time. *)

Record task : Type := mkTask {
  t_pid : Z;
  t_bytes : string;
  t_prog : prog fsE (dns_result unit)
}.

Inductive pool_step {W} (h : handler fsE W) : W * list task -> W * list task -> Prop :=
| pool_step_at w ts i t X (e : fsE X) k :
    ts !! i = Some t -> t_prog t = Vis e k ->
    pool_step h (w, ts)
      (snd (h X e w), <[i := mkTask (t_pid t) (t_bytes t) (k (fst (h X e w)))]> ts).

(** Tasks that save to [s]. *)
Definition saving (s : FileAccountStore) (t : task) : Prop :=
  exists c, to_vec c = Ok (t_bytes t) /\ t_prog t = save (t_pid t) s c.

Section pool.
Context {W : Type} (h : handler fsE W) (view : W -> Path -> option File) (count : W -> Z -> Z).
Context (Hfs : fs_laws h view count).
Context (p : Path) (old : option File).

Record task_ok (w : W) (t : task) (st : stage) : Prop := {
  to_follows : follows save_update (save_allowed p (t_pid t) (t_bytes t)) any_answer (t_prog t)
                 (fun _ _ => True) st;
  to_disk : on_disk view p (t_pid t) (t_bytes t) w st;
  to_count : forall n, stage_count st = Some n -> n < count w (t_pid t)
}.

Record pool_ok (w : W) (ts : list task) (sts : list stage) : Prop := {
  po_task : forall i t, ts !! i = Some t -> exists st, sts !! i = Some st /\ task_ok w t st;
  po_distinct : forall i j t t' st st' n, i <> j ->
    ts !! i = Some t -> sts !! i = Some st -> ts !! j = Some t' -> sts !! j = Some st' ->
    stage_count st = Some n -> stage_count st' = Some n -> t_pid t <> t_pid t';
  po_path : view w p = old \/ exists b, b ∈ map t_bytes ts /\ complete b (view w p)
}.

Lemma count_grows X (e : fsE X) w pid : count w pid <= count (snd (h X e w)) pid.
Proof. rewrite (fl_count _ _ _ Hfs). destruct e; try lia. destruct (_ =? _); lia. Qed.

(** Another task does not touch what the stage of this one promises. *)
Lemma task_ok_frame X (e : fsE X) w t t' st st' :
  save_allowed p (t_pid t) (t_bytes t) X e st -> on_disk view p (t_pid t) (t_bytes t) w st ->
  (forall n, stage_count st = Some n -> stage_count st' = Some n -> t_pid t <> t_pid t') ->
  task_ok w t' st' -> task_ok (snd (h X e w)) t' st'.
Proof.
  intros Ha Hd Hne [Hf' Hd' Hc'].
  destruct (event_sound h view count Hfs p _ _ X e w st Ha Hd) as (_ & _ & _ & Hfr).
  constructor; [done| |].
  - eapply on_disk_frame; [|exact Hd']. intros n Hn. apply Hfr; [apply temp_path_other|].
    intros n' Hn' E. apply temp_path_inj in E as [E <-]. by eapply Hne.
  - intros n Hn. eapply Z.lt_le_trans; [by apply Hc'|apply count_grows].
Qed.

Lemma pool_step_ok w ts sts w' ts' :
  pool_ok w ts sts -> pool_step h (w, ts) (w', ts') -> exists sts', pool_ok w' ts' sts'.
Proof.
  intros [Ht Hdis Hp] Hstep. inversion Hstep as [? ? i t X e k Hi He]; subst. clear Hstep.
  destruct (Ht i t Hi) as (st & Hst & [Hf Hd Hc]). rewrite He in Hf. destruct Hf as [Ha Hk].
  destruct (event_sound h view count Hfs p _ _ X e w st Ha Hd) as (H1 & H2 & H3 & _).
  set (x := fst (h X e w)) in *. set (w1 := snd (h X e w)) in *.
  set (st1 := save_update X e x st) in *.
  assert (forall n, stage_count st1 = Some n -> n < count w1 (t_pid t)) as Hc1.
  { intros n Hn. destruct (H2 n Hn) as [Hn'|[-> ?]]; [|done].
    eapply Z.lt_le_trans; [by apply Hc|apply count_grows]. }
  assert (forall j t' st' n, i <> j -> ts !! j = Some t' -> sts !! j = Some st' ->
    stage_count st1 = Some n -> stage_count st' = Some n -> t_pid t <> t_pid t') as Hnew.
  { intros j t' st' n Hij Hj Hsj Hn Hn' Epid. destruct (H2 n Hn) as [Hn0|[-> _]].
    - by eapply (Hdis i j).
    - destruct (Ht j t' Hj) as (st2 & Hs2 & [_ _ Hc2]). rewrite Hsj in Hs2. injection Hs2 as <-.
      specialize (Hc2 _ Hn'). rewrite Epid in Hc2. lia. }
  exists (<[i := st1]> sts).
  assert (i < length ts)%nat as Hlt by by eapply lookup_lt_Some.
  assert (i < length sts)%nat as Hlts by by eapply lookup_lt_Some.
  constructor.
  - intros j t' Hj. apply list_lookup_insert_Some in Hj as [(<- & <- & _)|[Hij Hj]].
    + exists st1. rewrite list_lookup_insert_eq by done. split; [done|]. constructor; cbn; [|done|done].
      by apply Hk.
    + destruct (Ht j t' Hj) as (st' & Hs' & Hok). exists st'. rewrite list_lookup_insert_ne by done.
      split; [done|]. apply (task_ok_frame X e w t t' st st'); try done. intros n Hn Hn'. by eapply (Hdis i j).
  - intros j j' t1 t2 s1 s2 n Hjj Hj Hsj Hj' Hsj' Hn Hn'.
    apply list_lookup_insert_Some in Hj as [(<- & <- & _)|[Hij Hj]],
      Hsj as [(E & <- & _)|[Hij' Hsj]], Hj' as [(<- & <- & _)|[Hij2 Hj']],
      Hsj' as [(E' & <- & _)|[Hij2' Hsj']]; try done; cbn.
    + by eapply (Hnew j').
    + intros Epid. symmetry in Epid. revert Epid. by eapply (Hnew j).
    + by eapply (Hdis j j').
  - rewrite list_fmap_insert. cbn [t_bytes]. rewrite list_insert_id by by rewrite list_lookup_fmap, Hi.
    destruct H3 as [[-> _]|[Hcomp _]]; [done|]. right. exists (t_bytes t). split; [|done].
    apply list_elem_of_fmap. exists t. split; [done|]. by eapply list_elem_of_lookup_2.
Qed.

Lemma pool_start w ts s :
  path s = p -> view w p = old -> Forall (saving s) ts -> pool_ok w ts (replicate (length ts) Fresh).
Proof.
  intros Hp Hv Hts. constructor; [| |by left].
  - intros i t Hi. exists Fresh. assert (i < length ts)%nat by by eapply lookup_lt_Some.
    rewrite lookup_replicate_2 by done. split; [done|].
    rewrite Forall_lookup in Hts. destruct (Hts i t Hi) as (c & Hc & Hprog).
    constructor; [|done|done]. rewrite Hprog, <- Hp. eapply follows_mono; [|by apply save_follows]. done.
  - intros i j t t' st st' n _ _ Hi _ _ Hn. apply lookup_replicate in Hi as [-> _]. done.
Qed.
End pool.

(** ** Properties *)

(** C11. Whatever fails and wherever everything stops, also with any number
    of saves of the same store under way at once: the file of the store is
    the one that was there, or the complete, private and flushed file of one
    of the saves; never a partial or mixed one. *)
Theorem save_atomic {W} (h : handler fsE W) view count s w ts w' ts' :
  fs_laws h view count -> Forall (saving s) ts -> rtc (pool_step h) (w, ts) (w', ts') ->
  view w' (path s) = view w (path s) \/
  exists b, b ∈ map t_bytes ts /\ complete b (view w' (path s)).
Proof.
  intros Hfs Hts Hsteps.
  assert (exists sts, pool_ok view count (path s) (view w (path s)) w ts sts) as Hok
    by (eexists; by eapply pool_start).
  assert (map t_bytes ts' = map t_bytes ts /\
    exists sts, pool_ok view count (path s) (view w (path s)) w' ts' sts) as (Hb & sts & [_ _ Hp]).
  { revert Hok. generalize (view w (path s)) as old. intros old. clear Hts.
    remember (w, ts) as a eqn:Ea. remember (w', ts') as b eqn:Eb. revert w ts Ea.
    induction Hsteps as [|a [w1 ts1] b Hstep _ IH]; intros w ts -> [sts Hok]; [by injection Eb as <- <-; eauto|].
    destruct (IH Eb w1 ts1 eq_refl) as [IH1 IH2]; [by eapply pool_step_ok|].
    split; [|done]. rewrite IH1. inversion Hstep; subst. rewrite list_fmap_insert. cbn [t_bytes].
    apply list_insert_id. rewrite list_lookup_fmap. by erewrite H2. }
  by rewrite <- Hb.
Qed.

(** C12. A save that returns [Ok] has put complete credentials in place, and
    [load] then gives them back unless reading itself fails; one that returns
    an error, always an error of the store, has left the file of the store as
    it was; no file changes but that one and its temporary file. *)
Theorem save_then_load {W} `{!CredentialsSpec C} (h : handler fsE W) view count pid s c w r w' :
  fs_laws h view count -> run h (save pid s c) w = (r, w') ->
  match r with
  | Ok _ =>
      (exists bytes, to_vec c = Ok bytes /\ complete bytes (view w' (path s))) /\
      match fst (run h (load s) w') with
      | Ok o => o = Some c
      | Err e => exists m, e = Storage m
      end
  | Err e => (exists m, e = Storage m) /\ view w' (path s) = view w (path s)
  end /\
  forall q, q <> path s -> (forall n, q <> temp_path (path s) pid n) -> view w' q = view w q.
Proof.
  intros Hfs Hrun. destruct (to_vec c) as [bytes|e] eqn:Hc.
  2: { revert Hrun. unfold save. rewrite Hc. intros [= <- <-]. by split; [eauto|]. }
  destruct (follows_run _ _ _ h (so_far view (path s) pid bytes w) (save pid s c) _ w Fresh
    (save_answers h view count Hfs (path s) pid bytes w) (save_follows pid s c bytes Hc)) as (_ & Hq & Hs);
    [split_and!; [done|left; done|done]|].
  rewrite Hrun in Hq, Hs. cbn [fst snd] in Hq, Hs. destruct Hs as (_ & Hp & Hfr). split; [|exact Hfr].
  destruct r as [[]|e].
  - destruct Hp as [[_ Hne]|[Hcomp _]]; [by destruct Hq as [n Hn]; destruct (Hne n)|].
    split; [by exists bytes|]. destruct Hcomp as (f & Hv & Hf & _). unfold load. rewrite run_call.
    pose proof (fl_read _ _ _ Hfs (path s) w') as Hr. destruct (h _ (ReadFile (path s)) w') as [[b|e] w2]; cbn in Hr.
    + destruct Hr as (f' & Hv' & <-). rewrite Hv in Hv'. injection Hv' as <-. rewrite Hf.
      by rewrite (from_to_vec c bytes Hc).
    + destruct (is_not_found e) eqn:Ee; cbn; [|by eauto]. rewrite Hr in Hv by done. done.
  - destruct Hq as [He Hne]. split; [done|]. destruct Hp as [[Hp _]|[_ [n Hn]]]; [done|by destruct (Hne n)].
Qed.
End store.

(** ** A file system in memory *)

Record memfs : Type := mkMemfs {
  m_files : Path -> option File;
  m_count : Z -> Z;
  m_full : bool       (* no space left: writes fail half way *)
}.

Definition set_file (w : memfs) (p : Path) (f : option File) : memfs :=
  mkMemfs (fun q => if decide (q = p) then f else m_files w q) (m_count w) (m_full w).

Definition enoent : IoError := mkIoError true "No such file or directory".

Definition memfs_handler : handler fsE memfs := fun X e w =>
  match e in fsE X return X * memfs with
  | ReadFile p => (match m_files w p with Some f => Ok (content f) | None => Err enoent end, w)
  | CreateDirAll _ => (Ok tt, w)
  | FetchAdd pid =>
      (m_count w pid,
       mkMemfs (m_files w) (fun q => m_count w q + if pid =? q then 1 else 0) (m_full w))
  | OpenNew p m =>
      match m_files w p with
      | Some _ => (Err (mkIoError false "File exists"), w)
      | None => (Ok tt, set_file w p (Some (mkFile EmptyString (Z.land m (Z.lnot 18)) true)))
      end
  | WriteAll p b =>
      match m_files w p with
      | None => (Err enoent, w)
      | Some f =>
          if m_full w
          then (Err (mkIoError false "No space left on device"),
                set_file w p (Some (mkFile (content f +:+ take_bytes 2 b) (mode f) false)))
          else (Ok tt, set_file w p (Some (mkFile (content f +:+ b) (mode f) false)))
      end
  | SyncAll p => (Ok tt, set_file w p ((fun f => mkFile (content f) (mode f) true) <$> m_files w p))
  | RemoveFile p =>
      match m_files w p with
      | None => (Err enoent, w)
      | Some _ => (Ok tt, set_file w p None)
      end
  | Rename p q =>
      match m_files w p with
      | None => (Err enoent, w)
      | Some f => (Ok tt, set_file (set_file w p None) q (Some f))
      end
  end.

Lemma memfs_laws : fs_laws memfs_handler m_files m_count.
Proof.
  constructor; cbn.
  - intros X e w q Hq. destruct e; cbn in *; try done; repeat case_match; cbn; try done;
      repeat case_decide; naive_solver.
  - intros p w. destruct (m_files w p) eqn:E; eauto.
  - intros p m w. destruct (m_files w p) eqn:E; cbn; [done|]. exists 18. by rewrite decide_True.
  - intros p b w f E. rewrite E. destruct (m_full w); cbn; [done|]. by rewrite decide_True.
  - intros p w f E _. rewrite decide_True by done. by rewrite E.
  - intros p w. destruct (m_files w p); cbn; [by rewrite decide_True|done].
  - intros p q w Hne. destruct (m_files w p) as [f|] eqn:E; cbn; [|done].
    rewrite decide_True by done. split; [done|]. rewrite decide_False by done. by rewrite decide_True.
  - intros X e w pid. destruct e; cbn; try lia; repeat case_match; cbn; lia.
  - done.
Qed.

Definition text_credentials : Credentials := {|
  AccountCredentials := string; to_vec := fun c => Ok c; from_slice := fun b => Ok b
|}.

#[export] Instance text_credentials_spec : CredentialsSpec text_credentials.
Proof. constructor. by intros c b [= <-]. Qed.

Definition demo_store : FileAccountStore := mkStore [Normal "acme"; Normal "account.json"].

Definition demo_fs (full : bool) : memfs :=
  mkMemfs (fun p => if decide (p = path demo_store) then Some (mkFile "old" 384 true) else None) (fun _ => 0) full.

Lemma save_then_load_witness :
  (let '(r, w') := run memfs_handler (save (C := text_credentials) 7 demo_store "new") (demo_fs false) in
   r = Ok tt /\ complete "new" (m_files w' (path demo_store)) /\
   fst (run memfs_handler (load (C := text_credentials) demo_store) w') = Ok (Some "new"%string)) /\
  (let '(r, w') := run memfs_handler (save (C := text_credentials) 7 demo_store "new") (demo_fs true) in
   m_files w' (path demo_store) = Some (mkFile "old" 384 true)).
Proof.
  split.
  - pose proof (save_then_load (C := text_credentials) memfs_handler m_files m_count 7 demo_store "new"
      (demo_fs false) _ _ memfs_laws (surjective_pairing _)) as H.
    destruct (run memfs_handler (save 7 demo_store _) (demo_fs false)) as [r w'] eqn:E.
    assert (r = Ok tt) as -> by (apply (f_equal fst) in E; vm_compute in E; by rewrite <- E).
    cbn [fst snd] in H. destruct H as [[(b & [= <-] & Hc) Hl] _]. split_and!; [done|done|].
    destruct Hc as (f & Hf & Hb & _). cbn in Hf |- *. rewrite Hf. cbn. by rewrite Hb.
  - pose proof (save_then_load (C := text_credentials) memfs_handler m_files m_count 7 demo_store "new"
      (demo_fs true) _ _ memfs_laws (surjective_pairing _)) as H.
    destruct (run memfs_handler (save 7 demo_store _) (demo_fs true)) as [r w'] eqn:E.
    destruct r as [[]|e]; [apply (f_equal fst) in E; vm_compute in E; discriminate|].
    cbn [fst snd] in H. destruct H as [[_ ->] _]. by vm_compute.
Defined.

(** A schedule: which task makes the next call. *)
Definition turn {W} (h : handler fsE W) (v : W * list task) (i : nat) : W * list task :=
  let '(w, ts) := v in
  match ts !! i with
  | Some t =>
      match t_prog t with
      | Ret _ => v
      | Vis e k =>
          (snd (h _ e w), <[i := mkTask (t_pid t) (t_bytes t) (k (fst (h _ e w)))]> ts)
      end
  | None => v
  end.

Lemma schedule_steps {W} (h : handler fsE W) order v : rtc (pool_step h) v (fold_left (turn h) order v).
Proof.
  revert v. induction order as [|i order IH]; intros [w ts]; cbn; [done|].
  destruct (ts !! i) as [t|] eqn:Hi; [|apply IH].
  destruct (t_prog t) as [r|X e k] eqn:Ht; [apply IH|]. eapply rtc_l; [|apply IH].
  by apply pool_step_at.
Qed.

(** Two saves at once: the first has renamed its file, the second is half
    way. *)
Definition demo_pool : list task :=
  [mkTask 7 "one" (save (C := text_credentials) 7 demo_store "one");
   mkTask 7 "two" (save (C := text_credentials) 7 demo_store "two")].

Definition demo_mid : memfs * list task :=
  fold_left (turn memfs_handler) [0; 1; 0; 1; 1; 0; 0; 1; 0; 0]%nat (demo_fs false, demo_pool).

Lemma save_atomic_witness :
  content <$> m_files (fst demo_mid) (path demo_store) = Some "one"%string /\
  content <$> m_files (fst demo_mid) (temp_path (path demo_store) 7 1) = Some "two"%string /\
  (m_files (fst demo_mid) (path demo_store) = m_files (demo_fs false) (path demo_store) \/
   exists b, b ∈ map t_bytes demo_pool /\ complete b (m_files (fst demo_mid) (path demo_store))).
Proof.
  split; [by vm_compute|]. split; [by vm_compute|].
  apply (save_atomic (C := text_credentials) memfs_handler m_files m_count demo_store (demo_fs false) demo_pool
           (fst demo_mid) (snd demo_mid) memfs_laws).
  - repeat constructor; eexists; (split; [|reflexivity]); reflexivity.
  - rewrite <- surjective_pairing. apply schedule_steps.
Defined.
