(* ===== verification/TlsAlpn.v ===== *)
(** * The TLS-ALPN-01 solver (src/tls_alpn.rs)

    For every pending authorization of the order the solver builds a
    challenge certificate, has the responder serve it, and tells the server
    the challenge is ready; then it finalizes the order, and on every path
    takes the certificates down again through the guard of [Cleanup].

    It runs over the calls of the order ([Acme]), of [rcgen] (key generation
    and signing, which are random), of the [ChallengeResponder] and of the
    hook.  The loops over the authorizations are given fuel, as in [Driver]. *)

From S2P Require Import Prelude Rstr Errors Effects Provider Testing Cleanup Acme.

Definition ACME_TLS_ALPN_NAME : string := "acme-tls/1".

(** ** [rcgen] *)

Class Rcgen : Type := {
  CertificateParams : Type;
  KeyPair : Type;
  params_new : list string -> result CertificateParams string;
  (* [custom_extensions.push(CustomExtension::new_acme_identifier(digest))] *)
  push_acme_identifier : list Z -> CertificateParams -> CertificateParams;
  serialize_der : KeyPair -> list Z
}.

Section tls.
Context `{R : Rcgen}.

Inductive tlsE : Type -> Type :=
| OrderCall (X : Type) (e : acmeE X) : tlsE X
| KeyGenerate : tlsE (result KeyPair string)
| SelfSigned (params : CertificateParams) (key : KeyPair) : tlsE (result (list Z) string)
| PresentCert (domain : string) (cert_der key_der : list Z) : tlsE (dns_result unit)
| CleanupCert (domain : string) : tlsE (dns_result unit)
| TlsHook (domain : string) (e : DnsError) : tlsE unit.
Arguments OrderCall {X} e.

Definition order {X} (e : acmeE X) : prog tlsE X := call (OrderCall e).

(** ** The challenge certificate *)

Record ChallengeCertificate : Type := mkCert {
  cert_der : list Z;
  key_der : list Z
}.

Definition build_challenge_certificate (domain : string) (key_auth_digest : list Z)
  : prog tlsE (dns_result ChallengeCertificate) :=
  if negb (length key_auth_digest =? 32)%nat then
    Ret (Err (Other ("TLS-ALPN-01 key authorization digest must be 32 bytes, got "
                     +:+ pretty (length key_auth_digest))))
  else
    try? params := map_err (fun e => Other ("challenge cert params for " +:+ domain +:+ ": " +:+ e))
                     (params_new [domain]) in
    let params := push_acme_identifier key_auth_digest params in
    let* generated := call KeyGenerate in
    try? key_pair := map_err (fun e => Other ("challenge key generation: " +:+ e)) generated in
    let* signed := call (SelfSigned params key_pair) in
    try? cert := map_err (fun e => Other ("challenge cert self-sign: " +:+ e)) signed in
    Ret (Ok (mkCert cert (serialize_der key_pair))).

(** ** The solver *)

(** [hook] is whether [on_cleanup_error] was called. *)
Record TlsAlpn01Solver : Type := mkTlsSolver { tls_hook : bool }.

Definition tls_new : TlsAlpn01Solver := mkTlsSolver false.
Definition tls_on_cleanup_error (s : TlsAlpn01Solver) : TlsAlpn01Solver := mkTlsSolver true.

(** The closure given to [CleanupGuard::new]. *)
Definition cleanup_domain (s : TlsAlpn01Solver) (domain : string) : prog tlsE unit :=
  let* res := call (CleanupCert domain) in
  match res with
  | Ok _ => Ret tt
  | Err e => if tls_hook s then call (TlsHook domain e) else Ret tt
  end.

(** The body of the collection loop: [None] for an authorization that is
    valid already. *)
Definition pending_of (result : result Authorization string)
  : dns_result (option (string * list Z * string)) :=
  let! authz := acme_err result in
  match az_status authz with
  | AuthValid => Ok None
  | AuthOther other => Err (ChallengeInvalid other)
  | AuthPending =>
      match az_identifier authz with
      | IdOther other => Err (Other ("unsupported identifier type: " +:+ other))
      | IdDns domain =>
          let! challenge := ok_or (az_challenge authz TlsAlpn01)
            (Other ("no TLS-ALPN-01 challenge for " +:+ domain)) in
          Ok (Some (domain, h_digest challenge, h_url challenge))
      end
  end.

Fixpoint collect_pending (fuel : nat) (acc : list (string * list Z * string))
  : prog tlsE (option (dns_result (list (string * list Z * string)))) :=
  match fuel with
  | O => Ret None
  | S fuel' =>
      let* next := order NextAuthz in
      match next with
      | None => Ret (Some (Ok acc))
      | Some result =>
          match pending_of result with
          | Err e => Ret (Some (Err e))
          | Ok None => collect_pending fuel' acc
          | Ok (Some entry) => collect_pending fuel' (acc ++ [entry])
          end
      end
  end.

Fixpoint set_ready_loop (fuel : nat) (url : string) : prog tlsE (option (dns_result unit)) :=
  match fuel with
  | O => Ret None
  | S fuel' =>
      let* next := order NextAuthz in
      match next with
      | None => Ret (Some (Err (disappeared url)))
      | Some (Err e) => Ret (Some (Err (Acme e)))
      | Some (Ok authz) =>
          match az_challenge authz TlsAlpn01 with
          | None => set_ready_loop fuel' url
          | Some challenge =>
              if (h_url challenge =? url)%string then
                let* r := order (ChallengeReady (h_url challenge)) in
                Ret (Some (acme_err r))
              else set_ready_loop fuel' url
          end
      end
  end.

Definition set_ready_by_url (fuel : nat) (url : string) : prog tlsE (option (dns_result unit)) :=
  let* _ := order Authorizations in set_ready_loop fuel url.

Abbreviation tls A := (prog (guardE string tlsE) A).

(** [for (domain, digest, url) in pending]. *)
Fixpoint present_each (fuel : nat) (entries : list (string * list Z * string)) : tls (option (dns_result unit)) :=
  match entries with
  | [] => Ret (Some (Ok tt))
  | (domain, digest, url) :: rest =>
      let* built := lift (build_challenge_certificate domain digest) in
      match built with
      | Err e => Ret (Some (Err e))
      | Ok cert =>
          let* _ := push domain in
          let* served := env (PresentCert domain (cert_der cert) (key_der cert)) in
          match served with
          | Err e => Ret (Some (Err e))
          | Ok _ =>
              let* told := lift (set_ready_by_url fuel url) in
              match told with
              | None => Ret None
              | Some (Err e) => Ret (Some (Err e))
              | Some (Ok _) => present_each fuel rest
              end
          end
      end
  end.

Definition present_all (fuel : nat) : tls (option (dns_result unit)) :=
  let* _ := lift (order Authorizations) in
  let* collected := lift (collect_pending fuel []) in
  match collected with
  | None => Ret None
  | Some (Err e) => Ret (Some (Err e))
  | Some (Ok entries) => present_each fuel entries
  end.

Definition finalize_order : prog tlsE (dns_result (string * string)) :=
  let* polled := order PollReady in
  try? status := acme_err polled in
  match status with
  | OrderOther other => Ret (Err (UnexpectedOrderStatus other))
  | OrderReady =>
      let* key := order OrderFinalize in
      try? private_key_pem := acme_err key in
      let* cert := order PollCertificate in
      try? cert_chain_pem := acme_err cert in
      Ret (Ok (cert_chain_pem, private_key_pem))
  end.

Definition solve_and_finalize (s : TlsAlpn01Solver) (fuel : nat) : tls (option (dns_result (string * string))) :=
  let* presented := present_all fuel in
  match presented with
  | None => Ret None
  | Some r =>
      let* outcome := match r with
                      | Ok _ => lift finalize_order
                      | Err e => Ret (Err e)
                      end in
      let* _ := guard_run (cleanup_domain s) in
      Ret (Some outcome)
  end.

(** ** The protocol of the solver *)

Record tghost : Type := mkT {
  collecting : bool;              (* the first pass is not over *)
  wanted : list (string * string);(* domains and URLs of the pending challenges *)
  served : list string;           (* [present] called *)
  current : option string;        (* served, and its challenge not told ready *)
  told : list string;             (* URLs told ready with success *)
  order_ready : bool;
  final_key : option string;
  final_chain : option string;
  t_guard : list string;          (* pending in the guard *)
  t_cleaned : list string         (* [cleanup] answered *)
}.

Definition tghost0 : tghost := mkT true [] [] None [] false None None [] [].

Definition want (r : result Authorization string) (l : list (string * string)) : list (string * string) :=
  match pending_of r with Ok (Some (domain, _, url)) => l ++ [(domain, url)] | _ => l end.

Definition order_update X (e : acmeE X) : X -> tghost -> tghost :=
  match e in acmeE X return X -> tghost -> tghost with
  | NextAuthz => fun x g =>
      if collecting g then
        match x with
        | None => mkT false (wanted g) (served g) (current g) (told g) (order_ready g) (final_key g) (final_chain g) (t_guard g) (t_cleaned g)
        | Some r => mkT true (want r (wanted g)) (served g) (current g) (told g) (order_ready g) (final_key g) (final_chain g) (t_guard g) (t_cleaned g)
        end
      else g
  | ChallengeReady u => fun x g =>
      match x with
      | Ok _ => mkT (collecting g) (wanted g) (served g) None (told g ++ [u]) (order_ready g) (final_key g) (final_chain g) (t_guard g) (t_cleaned g)
      | Err _ => g
      end
  | PollReady => fun x g =>
      mkT (collecting g) (wanted g) (served g) (current g) (told g)
        (match x with Ok OrderReady => true | _ => false end) (final_key g) (final_chain g) (t_guard g) (t_cleaned g)
  | OrderFinalize => fun x g =>
      mkT (collecting g) (wanted g) (served g) (current g) (told g) (order_ready g)
        (match x with Ok k => Some k | Err _ => None end) (final_chain g) (t_guard g) (t_cleaned g)
  | PollCertificate => fun x g =>
      mkT (collecting g) (wanted g) (served g) (current g) (told g) (order_ready g) (final_key g)
        (match x with Ok c => Some c | Err _ => None end) (t_guard g) (t_cleaned g)
  | Authorizations => fun _ g => g
  end.

Definition tls_env_update X (e : tlsE X) : X -> tghost -> tghost :=
  match e in tlsE X return X -> tghost -> tghost with
  | OrderCall e => order_update _ e
  | PresentCert d _ _ => fun x g =>
      mkT (collecting g) (wanted g) (served g ++ [d]) (if is_ok x then Some d else None) (told g)
        (order_ready g) (final_key g) (final_chain g) (t_guard g) (t_cleaned g)
  | CleanupCert d => fun _ g =>
      mkT (collecting g) (wanted g) (served g) (current g) (told g) (order_ready g) (final_key g) (final_chain g)
        (t_guard g) (t_cleaned g ++ [d])
  | KeyGenerate | SelfSigned _ _ | TlsHook _ _ => fun _ g => g
  end.

Definition with_guard (l : list string) (g : tghost) : tghost :=
  mkT (collecting g) (wanted g) (served g) (current g) (told g) (order_ready g) (final_key g) (final_chain g)
    l (t_cleaned g).

Definition tls_update X (e : guardE string tlsE X) : X -> tghost -> tghost :=
  match e in guardE _ _ X return X -> tghost -> tghost with
  | Env e => tls_env_update _ e
  | Push d => fun _ g => with_guard (t_guard g ++ [d]) g
  | Pending => fun _ g => g
  | RemoveFirst => fun _ g => with_guard (tl (t_guard g)) g
  end.

Definition order_allowed X (e : acmeE X) (g : tghost) : Prop :=
  match e with
  (* a challenge is told ready when its certificate, the last one, is served *)
  | ChallengeReady u => exists d, current g = Some d /\ wanted g !! length (told g) = Some (d, u)
  (* the order is polled when every pending challenge was served and told ready *)
  | PollReady => collecting g = false /\ served g = map fst (wanted g) /\ told g = map snd (wanted g)
  | OrderFinalize => order_ready g = true
  | PollCertificate => is_Some (final_key g)
  | Authorizations | NextAuthz => True
  end.

Definition tls_env_allowed X (e : tlsE X) (g : tghost) : Prop :=
  match e with
  | OrderCall e => order_allowed _ e g
  (* a certificate is served for the next pending challenge, and is in the
     guard before *)
  | PresentCert d _ _ =>
      d ∈ t_guard g /\ collecting g = false /\ current g = None /\
      exists u, wanted g !! length (told g) = Some (d, u)
  | _ => True
  end.

Definition tls_allowed X (e : guardE string tlsE X) (g : tghost) : Prop :=
  match e with
  | Env e => tls_env_allowed _ e g
  (* a domain leaves the guard only when its cleanup has been answered *)
  | RemoveFirst => exists d rest, t_guard g = d :: rest /\ d ∈ t_cleaned g
  | _ => True
  end.

Definition tls_ans X (e : guardE string tlsE X) (g : tghost) : X -> Prop :=
  match e in guardE _ _ X return X -> Prop with
  | Pending => fun x => x = t_guard g
  | _ => fun _ => True
  end.

Abbreviation obeys := (follows tls_update tls_allowed tls_ans).

(** The first [n] pending challenges were served and told ready. *)
Record reached (n : nat) (g : tghost) : Prop := {
  re_collected : collecting g = false;
  re_served : served g = map fst (take n (wanted g));
  re_told : told g = map snd (take n (wanted g));
  re_length : (n <= length (wanted g))%nat;
  re_current : current g = None;
  re_guard : t_guard g = served g;
  re_cleaned : t_cleaned g = [];
  re_final : final_key g = None /\ final_chain g = None
}.

(** The solver has stopped: what was served is in the guard. *)
Definition halted (g : tghost) : Prop :=
  t_guard g = served g /\ t_cleaned g = [] /\ final_chain g = None.

Definition progress (r : option (dns_result unit)) (g : tghost) : Prop :=
  match r with
  | None => True
  | Some (Ok _) => reached (length (wanted g)) g
  | Some (Err _) => halted g
  end.

Lemma reached_told_length n g : reached n g -> length (told g) = n.
Proof. intros []. rewrite re_told0, length_map, length_take. lia. Qed.

Lemma build_obeys domain digest g (Q : dns_result ChallengeCertificate -> tghost -> Prop) :
  (forall r, Q r g) -> obeys (lift (build_challenge_certificate domain digest)) Q g.
Proof.
  intros HQ. unfold build_challenge_certificate. destruct (negb _); [apply HQ|].
  destruct (params_new [domain]) as [params|e]; [|apply HQ]. cbn. split; [done|].
  intros [k|e] _; cbn; [|apply HQ]. split; [done|]. intros [c|e] _; cbn; apply HQ.
Qed.

(** Between the presentation of a certificate and its challenge. *)
Record serving (n : nat) (d u : string) (g : tghost) : Prop := {
  se_collected : collecting g = false;
  se_next : wanted g !! n = Some (d, u);
  se_served : served g = map fst (take n (wanted g)) ++ [d];
  se_told : told g = map snd (take n (wanted g));
  se_current : current g = Some d;
  se_guard : t_guard g = served g;
  se_cleaned : t_cleaned g = [];
  se_final : final_key g = None /\ final_chain g = None
}.

Lemma serving_next n d u g : serving n d u g -> wanted g !! length (told g) = Some (d, u).
Proof.
  intros []. rewrite se_told0, length_map, length_take, Nat.min_l; [done|].
  apply lookup_lt_Some in se_next0. lia.
Qed.

Lemma serving_halted n d u g : serving n d u g -> halted g.
Proof. by intros [? ? ? ? ? ? ? [? ?]]. Qed.

Lemma set_ready_obeys fuel n d u g :
  serving n d u g ->
  obeys (lift (set_ready_loop fuel u)) (fun r g' =>
    match r with
    | None => True
    | Some (Ok _) => reached (S n) g' /\ wanted g' = wanted g
    | Some (Err _) => halted g'
    end) g.
Proof.
  intros Hs. induction fuel as [|fuel IH]; [done|]. cbn. split; [done|].
  intros next _. rewrite (se_collected n d u g Hs).
  destruct next as [[az|e]|]; [|by eapply serving_halted..].
  destruct (az_challenge az TlsAlpn01) as [ch|]; [|exact IH].
  destruct (String.eqb_spec (h_url ch) u) as [->|]; [|exact IH]. cbn.
  split; [exists d; split; [apply Hs|by eapply serving_next]|].
  intros [[]|e] _; cbn; [|by eapply serving_halted]. split; [|done]. destruct Hs.
  constructor; cbn; try done.
  - by rewrite (take_S_r _ _ _ se_next0), map_app.
  - by rewrite (take_S_r _ _ _ se_next0), map_app, se_told0.
  - apply lookup_lt_Some in se_next0. lia.
Qed.

Definition entry_of (x : string * list Z * string) : string * string := (fst (fst x), snd x).

Lemma present_each_obeys fuel entries n g :
  reached n g -> map entry_of entries = drop n (wanted g) -> obeys (present_each fuel entries) progress g.
Proof.
  revert n g. induction entries as [|[[d digest] u] rest IH]; intros n g Hr Hw.
  { apply (f_equal length) in Hw. rewrite length_drop in Hw. cbn in Hw.
    destruct Hr. assert (n = length (wanted g)) as -> by lia. by constructor. }
  cbn [present_each]. apply follows_bind, build_obeys. intros [cert|e]; [|by destruct Hr as [? ? ? ? ? ? ? [? ?]]].
  assert (wanted g !! n = Some (d, u)) as Hn.
  { rewrite <- (Nat.add_0_r n), <- lookup_drop, <- Hw. done. }
  apply follows_call; [done|]. intros [] _. unfold env. apply follows_call.
  { pose proof (reached_told_length n g Hr) as Hl. destruct Hr. cbn.
    split_and!; [set_solver|done|done|]. rewrite Hl. eauto. }
  intros [[]|e] _; cbn.
  2: { destruct Hr as [? ? ? ? ? Hgu ? [? ?]]. unfold halted; cbn. by rewrite Hgu. }
  split; [done|]. intros [] _. apply follows_bind. eapply follows_mono; [|apply (set_ready_obeys fuel n d u)].
  - intros [[[]|e]|] g'; [|done..]. intros [Hr' Hw']. apply (IH (S n)); [done|].
    rewrite Hw'. cbn [wanted with_guard tls_env_update tls_update].
    rewrite (drop_S _ _ _ Hn) in Hw. by injection Hw.
  - destruct Hr. constructor; cbn; try done. { by rewrite re_served0. } by rewrite re_guard0.
Qed.

(** Before the first pass is over. *)
Record starting (g : tghost) : Prop := {
  sg_collecting : collecting g = true;
  sg_none : served g = [] /\ current g = None /\ told g = [] /\ t_guard g = [] /\ t_cleaned g = [];
  sg_final : final_key g = None /\ final_chain g = None
}.

Lemma collect_obeys fuel acc g :
  starting g -> wanted g = map entry_of acc ->
  obeys (lift (collect_pending fuel acc)) (fun r g' =>
    match r with
    | None => True
    | Some (Ok entries) => reached 0 g' /\ wanted g' = map entry_of entries
    | Some (Err _) => halted g'
    end) g.
Proof.
  revert acc g. induction fuel as [|fuel IH]; intros acc g Hs Hw; [done|]. cbn. split; [done|].
  intros next _. pose proof Hs as [-> (H1 & H2 & H3 & H4 & H5) [H6 H7]].
  destruct next as [r|]; cbn.
  - unfold want. destruct (pending_of r) as [[[[d digest] u]|]|e]; cbn.
    + apply IH; [by constructor|]. cbn. by rewrite Hw, map_app.
    + apply IH; [by constructor|done].
    + unfold halted; cbn. by rewrite H1, H4.
  - split; [|done]. constructor; cbn; try done; [lia|by rewrite H1, H4].
Qed.

Lemma present_all_obeys fuel : obeys (present_all fuel) progress tghost0.
Proof.
  unfold present_all. cbn. split; [done|]. intros [] _. apply follows_bind.
  eapply follows_mono; [|by apply (collect_obeys fuel [])].
  intros [[entries|e]|] g; [|done..]. intros [Hr Hw]. apply (present_each_obeys fuel entries 0); [done|].
  by rewrite Hw.
Qed.

Lemma finalize_obeys g :
  reached (length (wanted g)) g ->
  obeys (lift finalize_order) (fun o g' =>
    t_guard g' = served g' /\ t_cleaned g' = [] /\
    forall c k, o = Ok (c, k) <-> final_chain g' = Some c /\ final_key g' = Some k) g.
Proof.
  intros Hr. destruct Hr as [H1 H2 H3 _ H5 H6 H7 [H8 H9]]. rewrite firstn_all in H2, H3.
  cbn. split; [done|]. intros [[|st]|e] _; cbn; [|rewrite H9; naive_solver..].
  split; [done|]. intros [k|e] _; cbn; [|rewrite H9; naive_solver].
  split; [eauto|]. intros [c|e] _; cbn; naive_solver.
Qed.

Lemma cleanup_domain_obeys s d g (Q : unit -> tghost -> Prop) :
  Q tt (tls_env_update _ (CleanupCert d) (Ok tt) g) -> obeys (lift (cleanup_domain s d)) Q g.
Proof.
  intros HQ. unfold cleanup_domain. cbn. split; [done|]. intros [[]|e] _; cbn; [done|].
  destruct (tls_hook s); cbn; [split; [done|]; intros [] _|]; exact HQ.
Qed.

(** The teardown empties the guard into the cleanups. *)
Definition torn_down (g g' : tghost) : Prop :=
  t_guard g' = [] /\ t_cleaned g' = t_cleaned g ++ t_guard g /\ served g' = served g /\
  final_chain g' = final_chain g /\ final_key g' = final_key g.

Lemma tls_guard_loop_obeys s l g :
  t_guard g = l -> obeys (guard_run_loop (cleanup_domain s) (length l)) (fun _ => torn_down g) g.
Proof.
  revert g. induction l as [|d l IH]; intros g Hl.
  { unfold torn_down. cbn. by rewrite Hl, app_nil_r. }
  cbn [length guard_run_loop]. apply follows_call; [done|]. intros x ->. cbn [tls_update]. rewrite Hl.
  apply follows_bind, cleanup_domain_obeys, follows_call.
  { cbn. exists d, l. split; [done|]. set_solver. }
  intros [] _. eapply follows_mono; [|apply IH; cbn; by rewrite Hl].
  intros _ g' (E1 & E2 & E3 & E4 & E5). unfold torn_down. cbn in *. rewrite E2, Hl. cbn.
  rewrite <- app_assoc. done.
Qed.

(** When the solver returns. *)
Definition tls_solved (r : option (dns_result (string * string))) (g : tghost) : Prop :=
  match r with
  | None => True
  | Some o =>
      t_guard g = [] /\ t_cleaned g = served g /\
      forall c k, o = Ok (c, k) <-> final_chain g = Some c /\ final_key g = Some k
  end.

Lemma tls_obeys s fuel : obeys (solve_and_finalize s fuel) tls_solved tghost0.
Proof.
  assert (forall o g, t_guard g = served g -> t_cleaned g = [] ->
    (forall c k, o = Ok (c, k) <-> final_chain g = Some c /\ final_key g = Some k) ->
    obeys (let* _ := guard_run (cleanup_domain s) in Ret (Some o)) tls_solved g) as Hdown.
  { intros o g Hg Hc Ho. apply follows_bind. unfold guard_run. apply follows_call; [done|]. intros x ->. cbn [tls_update].
    eapply follows_mono; [|by apply tls_guard_loop_obeys]. intros _ g' (E1 & E2 & E3 & E4 & E5). cbn.
    rewrite E2, E3, E4, E5, Hc, Hg. done. }
  unfold solve_and_finalize. apply follows_bind. eapply follows_mono; [|apply present_all_obeys].
  intros [[[]|e]|] g Hp; [| |done]; apply follows_bind.
  - eapply follows_mono; [|by apply finalize_obeys]. intros o g' (H1 & H2 & H3). by apply Hdown.
  - destruct Hp as (H1 & H2 & H3). apply Hdown; [done|done|]. rewrite H3. naive_solver.
Qed.

(** ** Runs of the solver *)

Definition cert_presents (ev : event tlsE) : option string :=
  match ev with @Ev _ Y e x => match e with PresentCert d _ _ => Some d | _ => None end end.
Definition cert_cleanups (ev : event tlsE) : option string :=
  match ev with @Ev _ Y e x => match e with CleanupCert d => Some d | _ => None end end.

(** The domains given to [present] and to [cleanup] of the responder. *)
Definition presented_in (t : list (event (guardE string tlsE))) : list string :=
  omap cert_presents (omap env_event t).
Definition cleaned_in (t : list (event (guardE string tlsE))) : list string :=
  omap cert_cleanups (omap env_event t).

Lemma served_cleaned_step X (e : guardE string tlsE X) x g :
  served (tls_update X e x g) = served g ++ presented_in [Ev e x] /\
  t_cleaned (tls_update X e x g) = t_cleaned g ++ cleaned_in [Ev e x].
Proof.
  destruct e as [Y e| | |]; cbn; rewrite ?app_nil_r; try done.
  destruct e as [Z e| | | | |]; cbn; rewrite ?app_nil_r; try done.
  destruct e; cbn; rewrite ?app_nil_r; try done.
  - by destruct (collecting g), x.
  - by destruct x.
Qed.

Lemma ghost_served t g :
  served (ghost_of tls_update t g) = served g ++ presented_in t /\
  t_cleaned (ghost_of tls_update t g) = t_cleaned g ++ cleaned_in t.
Proof.
  revert g. induction t as [|[X e x] t IH]; intros g; [cbn; by rewrite !app_nil_r|].
  change (Ev e x :: t) with ([Ev e x] ++ t). unfold presented_in, cleaned_in. rewrite ghost_of_app, !omap_app.
  destruct (IH (ghost_of tls_update [Ev e x] g)) as [-> ->].
  cbn [ghost_of fold_left]. destruct (served_cleaned_step X e x g) as [-> ->].
  by rewrite <- !app_assoc.
Qed.

Section runs.
Context {W : Type} (h : handler tlsE W).

Definition tguard_is (w : W * list string) (g : tghost) : Prop := t_guard g = snd w.

Lemma tls_answers : answers tls_update tls_allowed tls_ans (guard_handler h) tguard_is.
Proof.
  intros X e [w l] g _ Hg. unfold tguard_is in *. cbn in Hg. subst l. destruct e as [Y e|r| |]; cbn; [|done..].
  destruct (h Y e w) as [x w']. cbn. split; [done|]. destruct e as [Z e| | | | |]; try done.
  destruct e; try done; cbn; [by destruct (collecting g), x|by destruct x].
Qed.

(** What was served is in the guard or was cleaned up. *)
Definition tls_accounted (g : tghost) : Prop :=
  forall d, d ∈ served g -> d ∈ t_guard g \/ d ∈ t_cleaned g.

Lemma tls_accounted_step X (e : guardE string tlsE X) x g :
  tls_accounted g -> tls_allowed X e g -> tls_accounted (tls_update X e x g).
Proof.
  intros Ha He d. specialize (Ha d). destruct e as [Y e|item| |]; cbn in *; [|set_solver..|].
  - destruct e as [Z e| | | | |]; cbn in *; [|done|done|set_solver|set_solver|done].
    destruct e; cbn; try done; [by destruct (collecting g), x|by destruct x].
  - destruct He as (d' & rest & Hg & Hd'). rewrite Hg in *. cbn. set_solver.
Qed.

(** The domains the task spawned on drop takes down. *)
Definition drop_cleaned (s : TlsAlpn01Solver) (kept : list string) (w : W) : list string :=
  match guard_drop (cleanup_domain s) true kept with
  | Some task => omap cert_cleanups (trace h task w)
  | None => []
  end.

Lemma drop_cleaned_all s kept w : drop_cleaned s kept w = kept.
Proof.
  assert (forall w, omap cert_cleanups (trace h (cleanup_all (cleanup_domain s) kept) w) = kept) as H.
  { clear w. induction kept as [|d kept IH]; intros w; [done|]. cbn [cleanup_all]. rewrite trace_bind, omap_app.
    assert (omap cert_cleanups (trace h (cleanup_domain s d) w) = [d]) as ->.
    { unfold cleanup_domain. rewrite trace_call. destruct (h _ _ w) as [[[]|e] w']; cbn; [done|].
      destruct (tls_hook s); cbn; [|done]. by destruct (h _ (TlsHook d e) w'). }
    destruct (run h (cleanup_domain s d) w) as [[] w']. cbn. f_equal. apply IH. }
  unfold drop_cleaned. destruct kept; [done|]. apply H.
Qed.
End runs.

(** ** Termination *)

Section termination.
Context {W : Type} (h : handler tlsE W) (left : W -> nat) (most : nat).

(** The calls of the order. *)
Definition order_of : handler acmeE W := fun X e w => h X (OrderCall e) w.

Context (Hpe : passes_end order_of left most).

Lemma collect_pending_ends fuel acc w :
  (left w < fuel)%nat -> exists r, fst (run h (collect_pending fuel acc) w) = Some r.
Proof.
  revert acc w. induction fuel as [|fuel IH]; intros acc w Hf; [lia|]. cbn [collect_pending]. unfold order.
  rewrite run_call. pose proof (pe_next _ _ _ Hpe w) as Hp. unfold order_of in Hp.
  destruct (h _ (OrderCall NextAuthz) w) as [[r|] w1]; cbn in Hp; [|by eauto].
  specialize (Hp ltac:(eauto)). destruct (pending_of r) as [[]|e]; [apply IH; lia|apply IH; lia|by eauto].
Qed.

Lemma set_ready_by_url_ends fuel url w :
  (most < fuel)%nat -> exists r, fst (run h (set_ready_by_url fuel url) w) = Some r.
Proof.
  intros Hf. unfold set_ready_by_url, order. rewrite run_call.
  pose proof (pe_start _ _ _ Hpe w) as Hs. unfold order_of in Hs.
  destruct (h _ (OrderCall Authorizations) w) as [u w1]. cbn in Hs.
  assert (left w1 < fuel)%nat as Hl by lia. clear Hs Hf. revert w1 Hl.
  induction fuel as [|fuel IH]; intros w1 Hl; [lia|]. cbn [set_ready_loop]. unfold order. rewrite run_call.
  pose proof (pe_next _ _ _ Hpe w1) as Hp. unfold order_of in Hp.
  destruct (h _ (OrderCall NextAuthz) w1) as [[[az|e]|] w2]; cbn in Hp; [|by eauto..].
  specialize (Hp ltac:(eauto)). destruct (az_challenge az TlsAlpn01) as [ch|]; [|apply IH; lia].
  destruct (h_url ch =? url)%string; [|apply IH; lia]. rewrite run_call.
  destruct (h _ (OrderCall (ChallengeReady _)) w2). by eauto.
Qed.

Lemma present_each_ends fuel entries v :
  (most < fuel)%nat -> exists r, fst (run (guard_handler h) (present_each fuel entries) v) = Some r.
Proof.
  intros Hf. revert v. induction entries as [|[[d digest] u] rest IH]; intros [w l]; cbn [present_each]; [by eauto|].
  rewrite run_bind, run_lift. destruct (fst (run h (build_challenge_certificate d digest) w)) as [cert|e]; [|by eauto].
  unfold push, env. rewrite !run_call. cbn [guard_handler]. rewrite run_call. cbn [guard_handler].
  destruct (h _ (PresentCert _ _ _) _) as [[[]|e] w2]; [|by eauto].
  rewrite run_bind, run_lift. destruct (set_ready_by_url_ends fuel u w2 Hf) as [r ->].
  destruct r as [[]|e]; [apply IH|by eauto].
Qed.

Lemma present_all_ends fuel v :
  (most < fuel)%nat -> exists r, fst (run (guard_handler h) (present_all fuel) v) = Some r.
Proof.
  intros Hf. destruct v as [w l]. unfold present_all. rewrite run_bind, run_lift. unfold order.
  cbn [run call]. pose proof (pe_start _ _ _ Hpe w) as Hs. unfold order_of in Hs.
  destruct (h _ (OrderCall Authorizations) w) as [u w1]. cbn in Hs. cbn [fst snd].
  rewrite run_bind, run_lift. destruct (collect_pending_ends fuel [] w1) as [r ->]; [lia|].
  destruct r as [entries|e]; [by apply present_each_ends|by eauto].
Qed.
End termination.

(** ** Properties *)

(** C9. Whatever the order, [rcgen] and the responder answer, and however far
    the solver has run: a certificate is served only for the next pending
    challenge of the order and only when its domain is in the cleanup guard;
    the server is told that a challenge is ready only while its certificate
    is the last one served; the order is polled only when every pending
    challenge was served and told ready, in order, finalized only when it was
    polled ready, and the chain fetched only when it was finalized; and a
    domain leaves the guard only when its cleanup has been answered. *)
Theorem tls_protocol {W} (h : handler tlsE W) s fuel n w :
  respects tls_update tls_allowed
    (snd (run_for n (guard_handler h) (solve_and_finalize s fuel) (w, []))) tghost0.
Proof.
  by apply (follows_run_for _ _ _ _ tguard_is _ _ _ _ _ (tls_answers h) (tls_obeys s fuel)).
Qed.

(** C10. A solve that returns has called [cleanup] for every domain it called
    [present] for, in the same order, and left nothing in the guard, and it
    returns [Ok] exactly with the chain and the key the order gave; a solve
    dropped after any number of steps leaves every presented domain cleaned
    up, by the solver or by the task the guard spawns. *)
Theorem tls_teardown {W} (h : handler tlsE W) s fuel w :
  let p := solve_and_finalize s fuel in
  (forall o w' l, run (guard_handler h) p (w, []) = (Some o, (w', l)) ->
     let t := trace (guard_handler h) p (w, []) in
     let g := ghost_of tls_update t tghost0 in
     l = [] /\ cleaned_in t = presented_in t /\
     forall c k, o = Ok (c, k) <-> final_chain g = Some c /\ final_key g = Some k) /\
  (forall n, let '((w', kept), t) := run_for n (guard_handler h) p (w, []) in
     forall d, d ∈ presented_in t -> d ∈ cleaned_in t \/ d ∈ drop_cleaned h s kept w').
Proof.
  cbn zeta. split.
  - intros o w' l Hrun.
    destruct (follows_run _ _ _ _ tguard_is _ _ (w, []) tghost0 (tls_answers h) (tls_obeys s fuel) eq_refl)
      as (_ & Hs & Hg). rewrite Hrun in Hs, Hg. destruct Hs as (H1 & H2 & H3).
    unfold tguard_is in Hg. cbn [snd] in Hg. rewrite H1 in Hg.
    match type of H2 with t_cleaned (ghost_of _ ?t _) = _ => destruct (ghost_served t tghost0) as [E1 E2] end.
    rewrite E1, E2 in H2. done.
  - intros n. destruct (follows_run_for _ _ _ _ tguard_is n _ _ (w, []) tghost0 (tls_answers h)
      (tls_obeys s fuel) eq_refl) as [Hr Hg].
    destruct (run_for n _ _ _) as [[w' kept] t]. cbn [fst snd] in *. intros d Hin.
    pose proof (respects_invariant _ _ tls_accounted t tghost0 tls_accounted_step Hr) as Ha.
    rewrite drop_cleaned_all. unfold tguard_is in Hg. cbn [snd] in Hg. rewrite <- Hg.
    destruct (ghost_served t tghost0) as [E1 E2]. specialize (Ha ltac:(intros ? ?%elem_of_nil; done) d).
    rewrite E1, E2 in Ha. destruct (Ha Hin); [by right|by left].
Qed.

(** For an order with at most [most] authorizations, whatever is
    answered, the solver returns. *)
Theorem tls_terminates {W} (h : handler tlsE W) left most s fuel v :
  passes_end (order_of h) left most -> (most < fuel)%nat ->
  exists o, fst (run (guard_handler h) (solve_and_finalize s fuel) v) = Some o.
Proof.
  intros Hpe Hf. unfold solve_and_finalize. rewrite run_bind.
  pose proof (present_all_ends h left most Hpe fuel v Hf) as [r Hr].
  destruct (run (guard_handler h) (present_all fuel) v) as [o v1]. cbn [fst] in Hr. subst o.
  rewrite run_bind. destruct (run _ _ v1) as [outcome v2]. rewrite run_bind. destruct (run _ _ v2) as [u v3].
  cbn. eauto.
Qed.
End tls.
Arguments OrderCall {R X} e.

(** ** An order, a key generator and the mock responder *)

Definition demo_rcgen : Rcgen := {|
  CertificateParams := list string * list Z;
  KeyPair := list Z;
  params_new := fun names => Ok (names, []);
  push_acme_identifier := fun digest p => (fst p, digest);
  serialize_der := fun k => k
|}.

Definition demo_tls (azs : list (result Authorization string))
  : handler (tlsE (R := demo_rcgen)) (paper * MockChallengeResponder) := fun X e '(a, m) =>
  match e in tlsE X return X * (paper * MockChallengeResponder) with
  | OrderCall e => let '(x, a') := paper_order azs _ e a in (x, (a', m))
  | KeyGenerate => (Ok [7], (a, m))
  | SelfSigned p _ => (Ok (snd p), (a, m))
  | PresentCert d c k => let '(x, m') := responder_present d c k m in (x, (a, m'))
  | CleanupCert d => let '(x, m') := responder_cleanup d m in (x, (a, m'))
  | TlsHook _ _ => (tt, (a, m))
  end.

Definition tls_offers (domain url : string) : result Authorization string :=
  Ok (mkAuthorization AuthPending (IdDns domain)
        (fun t => match t with TlsAlpn01 => Some (mkHandle url "" (repeat 1 32)) | Dns01 => None end)).

Definition tls_azs : list (result Authorization string) :=
  [tls_offers "a.example" "https://acme/1"; tls_offers "b.example" "https://acme/2"].

Lemma demo_tls_ends : passes_end (order_of (demo_tls tls_azs)) (fun w => length (p_left (fst w))) 2.
Proof.
  constructor; [by intros [a m]| |by intros u [a m]]. intros [[l r] m]. cbn.
  destruct l; cbn; [by intros []|lia].
Qed.

Lemma tls_teardown_witness :
  exists w' l, run (guard_handler (demo_tls tls_azs)) (solve_and_finalize tls_new 3) ((mkPaper [] [], responder_new), [])
    = (Some (Ok ("chain", "key")%string), (w', l)) /\
  l = [] /\ p_ready (fst w') = ["https://acme/1"; "https://acme/2"]%string /\
  cleaned_in (trace (guard_handler (demo_tls tls_azs)) (solve_and_finalize tls_new 3) ((mkPaper [] [], responder_new), []))
    = ["a.example"; "b.example"]%string.
Proof.
  eexists _, _. split; [vm_compute; reflexivity|]. split; [|split; [reflexivity|]].
  - reflexivity.
  - destruct (tls_teardown (demo_tls tls_azs) tls_new 3 (mkPaper [] [], responder_new)) as [H _].
    edestruct H as (_ & Hc & _); [vm_compute; reflexivity|]. cbn zeta in Hc. rewrite Hc. vm_compute. reflexivity.
Defined.

Lemma tls_terminates_witness :
  exists o, fst (run (guard_handler (demo_tls tls_azs)) (solve_and_finalize tls_new 3)
                   ((mkPaper [] [], responder_new), [])) = Some o.
Proof. apply (tls_terminates (demo_tls tls_azs) _ 2 tls_new 3 _ demo_tls_ends). lia. Defined.
